(** * Metagrain: granular synthesis operators, embedded and verified

    A shallow embedding of the three Metasound operators of the plugin

      - [FGranularSynthOperator]            (GranularSynthNode.cpp, "GS")
      - [FGranularSynthOperator_Step8]      (GranularSynthNode.cpp, second unit)
      - [FGranularWavePlayerSmoothOperator] (GranularWavePlayerSmoothNode.cpp, "GWP")

    Conventions of the embedding.

    - A C++ [float] is an exact rational ([Q]); rounding, infinities and NaN
      are outside the model, with one exception: the scheduler loops of
      Step8 and of the wave player are also given with their grain counter
      in binary32 ([Binary32], [SchedulerLoop32]), because whether they end
      depends on the rounding of the counter.  Comparisons of the code are
      the boolean tests [Qleb] / [Qltb].
    - An [int32] is a [Z]; float-to-int conversions ([CeilToInt], [FloorToInt],
      [static_cast<int32>]) are the exact mathematical roundings.
    - A [TUniquePtr] / [TSharedPtr] is an [option]; [IsValid()] is [isSome].
    - A member that the constructor leaves uninitialised holds a value given
      to the constructor of the model as an argument.
    - The engine classes the operators call into (wave reader, resampler,
      deinterleaver, random numbers, transcendental functions) are not part of
      the plugin: they are the fields of a [Host] record and every theorem
      holds for every host.
    - The panning law is also stated over the real numbers, where the
      trigonometric functions have their true values. *)

From Stdlib Require Import ZArith QArith Qround Qabs Qpower List Bool Lia Lqa.
From Stdlib Require Import Reals Lra.
Import ListNotations.

Open Scope Q_scope.

(** Linear arithmetic over [Q] and over [R] under separate names. *)
Ltac qlra := Lqa.lra.
Ltac rlra := Lra.lra.

(** ** Rational helpers *)

Definition Qleb (x y : Q) : bool := Qle_bool x y.
Definition Qltb (x y : Q) : bool := negb (Qle_bool y x).

(** Rounding toward zero, the value of [static_cast<int32>(float)] and of the
    quotient that C's [fmodf] subtracts. *)
Definition Qtrunc (x : Q) : Z := Z.quot (Qnum x) (Zpos (Qden x)).

Definition isSome {A : Type} (o : option A) : bool :=
  match o with Some _ => true | None => false end.

(** ** FMath: the engine's math helpers (Math/UnrealMathUtility.h) *)

Module FMath.

(** [Max(A,B) = (B < A) ? A : B] and [Min(A,B) = (A < B) ? A : B]. *)
Definition Max (a b : Q) : Q := if Qltb b a then a else b.
Definition Min (a b : Q) : Q := if Qltb a b then a else b.

(** [Clamp(X, Min, Max) = Max(Min(X, MaxValue), MinValue)]. *)
Definition Clamp (x lo hi : Q) : Q := Max (Min x hi) lo.

Definition MaxZ (a b : Z) : Z := if (b <? a)%Z then a else b.
Definition MinZ (a b : Z) : Z := if (a <? b)%Z then a else b.
Definition ClampZ (x lo hi : Z) : Z := MaxZ (MinZ x hi) lo.

Definition CeilToInt (x : Q) : Z := Qceiling x.
Definition FloorToInt (x : Q) : Z := Qfloor x.

Definition UE_SMALL_NUMBER : Q := 1 # 100000000.

(** [Fmod]: zero when the divisor is within [UE_SMALL_NUMBER] of zero,
    otherwise C's [fmodf], the remainder of the truncated quotient. *)
Definition Fmod (x y : Q) : Q :=
  if Qleb (Qabs y) UE_SMALL_NUMBER then 0
  else x - inject_Z (Qtrunc (x / y)) * y.

(** [FRandRange(Min, Max) = Min + (Max - Min) * FRand()], with the draw [u]
    of [FRand] made explicit. *)
Definition FRandRange (lo hi u : Q) : Q := lo + (hi - lo) * u.

(** [TNumericLimits<float>::Max()]: (2^24 - 1) * 2^104. *)
Definition FloatMax : Q := inject_Z ((2 ^ 24 - 1) * 2 ^ 104).

End FMath.

(** ** Binary32

    The value a [float] holds after an operation is the one nearest to the
    exact result among the numbers with 24 significant bits and an exponent
    of the last place of -149 or more, ties going to the even significand
    (IEEE 754 single precision, round to nearest).  The scheduler loops of
    FGranularSynthOperator_Step8 and of the wave player depend on it: a
    counter absorbs an interval that is small against it.  Results beyond
    [FMath.FloatMax] stand for the infinities; they compare above every
    float. *)

Module Binary32.

(** [floor (log2 x)] for a positive [x]. *)
Definition Ilog2 (x : Q) : Z :=
  if Qleb 1 x then Z.log2 (Qfloor x)
  else (- Z.log2_up (Qceiling (/ x)))%Z.

(** The exponent of the last place of the floats around [x]. *)
Definition Exponent (x : Q) : Z := Z.max (Ilog2 (Qabs x) - 23) (-149).

(** The nearest integer, the even one of the two when [x] is half way. *)
Definition NearestEven (x : Q) : Z :=
  let f := Qfloor x in
  let r := x - inject_Z f in
  if Qltb r (1 # 2) then f
  else if Qltb (1 # 2) r then (f + 1)%Z
  else if Z.even f then f else (f + 1)%Z.

Definition Round (x : Q) : Q :=
  if Qeq_bool x 0 then 0
  else
    let e := Exponent x in
    inject_Z (NearestEven (x / 2 ^ e)) * 2 ^ e.

(** [a + b], [a - b] and [a * b] on floats. *)
Definition Add (a b : Q) : Q := Round (a + b).
Definition Sub (a b : Q) : Q := Round (a - b).
Definition Mul (a b : Q) : Q := Round (a * b).

(** [FMath::FRandRange(Min, Max) = Min + (Max - Min) * FRand()] on floats,
    with the draw [u] of [FRand] made explicit. *)
Definition FRandRange (lo hi u : Q) : Q := Add lo (Mul (Sub hi lo) u).

End Binary32.

(** The largest [int32]. *)
Definition Int32Max : Z := 2 ^ 31 - 1.


(** ** The host engine: what the operators consume (spec section 6) *)

(** Identity of a [FSoundWaveProxy] object; two shared pointers compare equal
    when they hold the same identity. *)
Definition Proxy := nat.

Definition ProxyEq (a b : option Proxy) : bool :=
  match a, b with
  | Some x, Some y => Nat.eqb x y
  | None, None => true
  | _, _ => false
  end.

(** [FSoundWaveProxyReader::FSettings], the fields the operators set. *)
Record FSettings : Type := mkSettings {
  StartTimeInSeconds : Q;
  bIsLooping : bool;
  MaxDecodeSizeInFrames : Z
}.

(** What a freshly created reader reports about its wave. *)
Record FReaderInfo : Type := mkReaderInfo {
  NumFramesInWave : Z;
  ReaderSampleRate : Q;
  ReaderNumChannels : Z
}.

(** One block of the streaming pipeline of one voice: the number of frames
    the resampler produced and the samples of its first two channels; whether
    the reader failed while nothing was buffered (read by Step8); whether an
    exception escaped the pipeline (read by the wave player). *)
Record FResampled : Type := mkResampled {
  FramesResampled : nat;
  Channel0 : nat -> Q;
  Channel1 : nat -> Q;
  bReadFailedEmpty : bool;
  bThrew : bool
}.

Record Host : Type := mkHost {
  (* FMath transcendental functions and the constant UE_PI, as floats *)
  Pow : Q -> Q -> Q;
  Exp : Q -> Q;
  Cos : Q -> Q;
  Sin : Q -> Q;
  UE_PI : Q;
  (* the n-th value returned by FMath::FRand since the operator was built *)
  FRand : nat -> Q;
  (* FSoundWaveProxyReader *)
  DefaultSettings : FSettings;
  DecodeSizeQuantizationInFrames : Z;
  DefaultMinDecodeSizeInFrames : Z;
  Reader_Create : Proxy -> FSettings -> option FReaderInfo;
  (* samples delivered by the first PopAudio into a buffer of the given size *)
  Reader_PopAudio : Proxy -> FSettings -> Z -> Z;
  (* Audio::IConvertDeinterleave::Create yields a valid object *)
  Deinterleave_Create : Z -> bool;
  (* the decode / refill / resample pipeline of the voice in the given slot,
     after the given number of samples played, asked for the given number of
     output frames *)
  Resample : nat -> Z -> Z -> FResampled
}.

(** [uint32] arithmetic wraps modulo 2^32. *)
Definition u32 (x : Z) : Z := (x mod 2 ^ 32)%Z.

(** [((Size + Quantization - 1) / Quantization) * Quantization] in [uint32]. *)
Definition QuantizeDecodeSize (size quant : Z) : Z :=
  u32 (u32 (u32 (u32 (size + quant) - 1) / quant) * quant).

(** ** Scalars

    The mixing code is the same over the floats of the model and over the
    reals; it is written once over a record of scalar operations. *)

Record Scalar (A : Type) : Type := mkScalar {
  sadd : A -> A -> A;
  smul : A -> A -> A;
  szero : A;
  sone : A;
  shalf : A;
  spi : A;
  scos : A -> A;
  ssin : A -> A
}.

Arguments sadd {A}.
Arguments smul {A}.
Arguments szero {A}.
Arguments sone {A}.
Arguments shalf {A}.
Arguments spi {A}.
Arguments scos {A}.
Arguments ssin {A}.

Definition ScalarQ (h : Host) : Scalar Q :=
  mkScalar Q Qplus Qmult 0 1 (1 # 2) (UE_PI h) (Cos h) (Sin h).

Definition ScalarR : Scalar R :=
  mkScalar R Rplus Rmult 0%R 1%R (1 / 2)%R PI cos sin.

(** [Audio::ArrayMixIn(In, Out, Gain)]: [Out[i] += In[i] * Gain] over the
    frames of the input view; frames of the output beyond it are untouched. *)
Fixpoint ArrayMixIn {A : Type} (K : Scalar A) (src dst : list A) (gain : A)
  : list A :=
  match src, dst with
  | x :: src', y :: dst' =>
      sadd K y (smul K x gain) :: ArrayMixIn K src' dst' gain
  | _, _ => dst
  end.

(** [PanAngle = (PanPosition + 1.0f) * 0.5f * UE_PI * 0.5f]. *)
Definition PanAngle {A : Type} (K : Scalar A) (pan : A) : A :=
  smul K (smul K (smul K (sadd K pan (sone K)) (shalf K)) (spi K)) (shalf K).

(** Output triggers: the frames triggered in the current block. *)
Definition AdvanceBlock (t : list Z) : list Z := [].
Definition TriggerFrame (f : Z) (t : list Z) : list Z := t ++ [f].
Definition IsTriggeredInBlock (t : list Z) : bool :=
  match t with [] => false | _ => true end.

(** [FAudioBuffer::Zero]. *)
Definition ZeroBuffer (b : list Q) : list Q := map (fun _ => 0) b.

(** [FMemory::Memset(Ptr, 0, Count * sizeof(float))] on a buffer. *)
Fixpoint MemsetZero (count : nat) (b : list Q) : list Q :=
  match count, b with
  | S count', _ :: b' => 0 :: MemsetZero count' b'
  | _, _ => b
  end.

(** ** The voice pool scan

    Each operator finds a slot with the same loop,
    [for (i = 0; i < GrainVoices.Num(); ++i) if (!GrainVoices[i].bIsActive)
    { VoiceIndex = i; break; }]: the index of the first inactive slot, counted
    from [i]; [None] stands for [VoiceIndex == -1]. *)
Fixpoint FindFreeVoice {V : Type} (active : V -> bool) (vs : list V) (i : nat)
  : option nat :=
  match vs with
  | [] => None
  | v :: rest => if active v then FindFreeVoice active rest (S i) else Some i
  end.

(** Writing through the reference [GrainVoices[VoiceIndex]]. *)
Fixpoint SetVoice {V : Type} (vs : list V) (i : nat) (v : V) : list V :=
  match vs, i with
  | [], _ => []
  | _ :: rest, O => v :: rest
  | w :: rest, S j => w :: SetVoice rest j v
  end.

(** * FGranularSynthOperator (GranularSynthNode.cpp, first unit) *)

Module FGranularSynthOperator.

Definition MaxGrainVoices : Z := 32.
Definition MinGrainDurationSeconds : Q := 5 # 1000.
Definition MaxAbsPitchShiftSemitones : Q := 60.
Definition DeinterleaveBlockSizeFrames : Z := 256.
Definition MinActiveVoicesParam : Q := 1 # 100.
Definition MinSamplesPerGrainInterval : Q := 1.
Definition Epsilon : Q := 1 # 1000000.

(** ** FGrainVoice

    [Reader] holds the settings the live reader was created with,
    [Resampler] its frame ratio, [FullGrainSegmentBuffer] the number of frames
    of the pre-read reversed segment.  The read cursor into that segment, the
    circular buffer and the scratch buffers are state of the streaming
    pipeline, whose product per block is the host's [Resample]. *)

Record FGrainVoice : Type := mkVoice {
  Reader : option FSettings;
  Resampler : option Q;
  bIsActive : bool;
  NumChannels : Z;
  SamplesRemaining : Z;
  SamplesPlayed : Z;
  TotalGrainSamples : Z;
  PanPosition : Q;
  VolumeScale : Q;
  bIsReversed : bool;
  FullGrainSegmentBuffer : Z
}.

Definition set_Reader (x : option FSettings) (r : FGrainVoice) : FGrainVoice :=
  mkVoice x (Resampler r) (bIsActive r) (NumChannels r) (SamplesRemaining r) (SamplesPlayed r) (TotalGrainSamples r) (PanPosition r) (VolumeScale r) (bIsReversed r) (FullGrainSegmentBuffer r).

Definition set_Resampler (x : option Q) (r : FGrainVoice) : FGrainVoice :=
  mkVoice (Reader r) x (bIsActive r) (NumChannels r) (SamplesRemaining r) (SamplesPlayed r) (TotalGrainSamples r) (PanPosition r) (VolumeScale r) (bIsReversed r) (FullGrainSegmentBuffer r).

Definition set_bIsActive (x : bool) (r : FGrainVoice) : FGrainVoice :=
  mkVoice (Reader r) (Resampler r) x (NumChannels r) (SamplesRemaining r) (SamplesPlayed r) (TotalGrainSamples r) (PanPosition r) (VolumeScale r) (bIsReversed r) (FullGrainSegmentBuffer r).

Definition set_NumChannels (x : Z) (r : FGrainVoice) : FGrainVoice :=
  mkVoice (Reader r) (Resampler r) (bIsActive r) x (SamplesRemaining r) (SamplesPlayed r) (TotalGrainSamples r) (PanPosition r) (VolumeScale r) (bIsReversed r) (FullGrainSegmentBuffer r).

Definition set_SamplesRemaining (x : Z) (r : FGrainVoice) : FGrainVoice :=
  mkVoice (Reader r) (Resampler r) (bIsActive r) (NumChannels r) x (SamplesPlayed r) (TotalGrainSamples r) (PanPosition r) (VolumeScale r) (bIsReversed r) (FullGrainSegmentBuffer r).

Definition set_SamplesPlayed (x : Z) (r : FGrainVoice) : FGrainVoice :=
  mkVoice (Reader r) (Resampler r) (bIsActive r) (NumChannels r) (SamplesRemaining r) x (TotalGrainSamples r) (PanPosition r) (VolumeScale r) (bIsReversed r) (FullGrainSegmentBuffer r).

Definition set_TotalGrainSamples (x : Z) (r : FGrainVoice) : FGrainVoice :=
  mkVoice (Reader r) (Resampler r) (bIsActive r) (NumChannels r) (SamplesRemaining r) (SamplesPlayed r) x (PanPosition r) (VolumeScale r) (bIsReversed r) (FullGrainSegmentBuffer r).

Definition set_PanPosition (x : Q) (r : FGrainVoice) : FGrainVoice :=
  mkVoice (Reader r) (Resampler r) (bIsActive r) (NumChannels r) (SamplesRemaining r) (SamplesPlayed r) (TotalGrainSamples r) x (VolumeScale r) (bIsReversed r) (FullGrainSegmentBuffer r).

Definition set_VolumeScale (x : Q) (r : FGrainVoice) : FGrainVoice :=
  mkVoice (Reader r) (Resampler r) (bIsActive r) (NumChannels r) (SamplesRemaining r) (SamplesPlayed r) (TotalGrainSamples r) (PanPosition r) x (bIsReversed r) (FullGrainSegmentBuffer r).

Definition set_bIsReversed (x : bool) (r : FGrainVoice) : FGrainVoice :=
  mkVoice (Reader r) (Resampler r) (bIsActive r) (NumChannels r) (SamplesRemaining r) (SamplesPlayed r) (TotalGrainSamples r) (PanPosition r) (VolumeScale r) x (FullGrainSegmentBuffer r).

Definition set_FullGrainSegmentBuffer (x : Z) (r : FGrainVoice) : FGrainVoice :=
  mkVoice (Reader r) (Resampler r) (bIsActive r) (NumChannels r) (SamplesRemaining r) (SamplesPlayed r) (TotalGrainSamples r) (PanPosition r) (VolumeScale r) (bIsReversed r) x.

Definition DefaultVoice : FGrainVoice :=
  mkVoice None None false 0 0 0 0 0 1 false 0.

(** ** Operator state

    [FRandCalls] counts the calls made to [FMath::FRand] so far. *)

Record Operator : Type := mkOperator {
  SampleRate : Q;
  BlockSize : Z;
  bIsPlaying : bool;
  SamplesUntilNextGrain : Q;
  GrainVoices : list FGrainVoice;
  CurrentWaveProxy : option Proxy;
  CachedSoundWaveDuration : Q;
  CurrentNumChannels : Z;
  ConvertDeinterleave : bool;
  OnPlayTrigger : list Z;
  OnFinishedTrigger : list Z;
  OnGrainTriggered : list Z;
  AudioOutputLeft : list Q;
  AudioOutputRight : list Q;
  OutputGrainStartTimeRef : Q;
  OutputGrainDurationSecRef : Q;
  OutputGrainIsReversedRef : bool;
  OutputGrainVolumeRef : Q;
  OutputGrainPitchRef : Q;
  OutputGrainPanRef : Q;
  FRandCalls : nat
}.

Definition set_bIsPlaying (x : bool) (r : Operator) : Operator :=
  mkOperator (SampleRate r) (BlockSize r) x (SamplesUntilNextGrain r) (GrainVoices r) (CurrentWaveProxy r) (CachedSoundWaveDuration r) (CurrentNumChannels r) (ConvertDeinterleave r) (OnPlayTrigger r) (OnFinishedTrigger r) (OnGrainTriggered r) (AudioOutputLeft r) (AudioOutputRight r) (OutputGrainStartTimeRef r) (OutputGrainDurationSecRef r) (OutputGrainIsReversedRef r) (OutputGrainVolumeRef r) (OutputGrainPitchRef r) (OutputGrainPanRef r) (FRandCalls r).

Definition set_SamplesUntilNextGrain (x : Q) (r : Operator) : Operator :=
  mkOperator (SampleRate r) (BlockSize r) (bIsPlaying r) x (GrainVoices r) (CurrentWaveProxy r) (CachedSoundWaveDuration r) (CurrentNumChannels r) (ConvertDeinterleave r) (OnPlayTrigger r) (OnFinishedTrigger r) (OnGrainTriggered r) (AudioOutputLeft r) (AudioOutputRight r) (OutputGrainStartTimeRef r) (OutputGrainDurationSecRef r) (OutputGrainIsReversedRef r) (OutputGrainVolumeRef r) (OutputGrainPitchRef r) (OutputGrainPanRef r) (FRandCalls r).

Definition set_GrainVoices (x : list FGrainVoice) (r : Operator) : Operator :=
  mkOperator (SampleRate r) (BlockSize r) (bIsPlaying r) (SamplesUntilNextGrain r) x (CurrentWaveProxy r) (CachedSoundWaveDuration r) (CurrentNumChannels r) (ConvertDeinterleave r) (OnPlayTrigger r) (OnFinishedTrigger r) (OnGrainTriggered r) (AudioOutputLeft r) (AudioOutputRight r) (OutputGrainStartTimeRef r) (OutputGrainDurationSecRef r) (OutputGrainIsReversedRef r) (OutputGrainVolumeRef r) (OutputGrainPitchRef r) (OutputGrainPanRef r) (FRandCalls r).

Definition set_CurrentWaveProxy (x : option Proxy) (r : Operator) : Operator :=
  mkOperator (SampleRate r) (BlockSize r) (bIsPlaying r) (SamplesUntilNextGrain r) (GrainVoices r) x (CachedSoundWaveDuration r) (CurrentNumChannels r) (ConvertDeinterleave r) (OnPlayTrigger r) (OnFinishedTrigger r) (OnGrainTriggered r) (AudioOutputLeft r) (AudioOutputRight r) (OutputGrainStartTimeRef r) (OutputGrainDurationSecRef r) (OutputGrainIsReversedRef r) (OutputGrainVolumeRef r) (OutputGrainPitchRef r) (OutputGrainPanRef r) (FRandCalls r).

Definition set_CachedSoundWaveDuration (x : Q) (r : Operator) : Operator :=
  mkOperator (SampleRate r) (BlockSize r) (bIsPlaying r) (SamplesUntilNextGrain r) (GrainVoices r) (CurrentWaveProxy r) x (CurrentNumChannels r) (ConvertDeinterleave r) (OnPlayTrigger r) (OnFinishedTrigger r) (OnGrainTriggered r) (AudioOutputLeft r) (AudioOutputRight r) (OutputGrainStartTimeRef r) (OutputGrainDurationSecRef r) (OutputGrainIsReversedRef r) (OutputGrainVolumeRef r) (OutputGrainPitchRef r) (OutputGrainPanRef r) (FRandCalls r).

Definition set_CurrentNumChannels (x : Z) (r : Operator) : Operator :=
  mkOperator (SampleRate r) (BlockSize r) (bIsPlaying r) (SamplesUntilNextGrain r) (GrainVoices r) (CurrentWaveProxy r) (CachedSoundWaveDuration r) x (ConvertDeinterleave r) (OnPlayTrigger r) (OnFinishedTrigger r) (OnGrainTriggered r) (AudioOutputLeft r) (AudioOutputRight r) (OutputGrainStartTimeRef r) (OutputGrainDurationSecRef r) (OutputGrainIsReversedRef r) (OutputGrainVolumeRef r) (OutputGrainPitchRef r) (OutputGrainPanRef r) (FRandCalls r).

Definition set_ConvertDeinterleave (x : bool) (r : Operator) : Operator :=
  mkOperator (SampleRate r) (BlockSize r) (bIsPlaying r) (SamplesUntilNextGrain r) (GrainVoices r) (CurrentWaveProxy r) (CachedSoundWaveDuration r) (CurrentNumChannels r) x (OnPlayTrigger r) (OnFinishedTrigger r) (OnGrainTriggered r) (AudioOutputLeft r) (AudioOutputRight r) (OutputGrainStartTimeRef r) (OutputGrainDurationSecRef r) (OutputGrainIsReversedRef r) (OutputGrainVolumeRef r) (OutputGrainPitchRef r) (OutputGrainPanRef r) (FRandCalls r).

Definition set_OnPlayTrigger (x : list Z) (r : Operator) : Operator :=
  mkOperator (SampleRate r) (BlockSize r) (bIsPlaying r) (SamplesUntilNextGrain r) (GrainVoices r) (CurrentWaveProxy r) (CachedSoundWaveDuration r) (CurrentNumChannels r) (ConvertDeinterleave r) x (OnFinishedTrigger r) (OnGrainTriggered r) (AudioOutputLeft r) (AudioOutputRight r) (OutputGrainStartTimeRef r) (OutputGrainDurationSecRef r) (OutputGrainIsReversedRef r) (OutputGrainVolumeRef r) (OutputGrainPitchRef r) (OutputGrainPanRef r) (FRandCalls r).

Definition set_OnFinishedTrigger (x : list Z) (r : Operator) : Operator :=
  mkOperator (SampleRate r) (BlockSize r) (bIsPlaying r) (SamplesUntilNextGrain r) (GrainVoices r) (CurrentWaveProxy r) (CachedSoundWaveDuration r) (CurrentNumChannels r) (ConvertDeinterleave r) (OnPlayTrigger r) x (OnGrainTriggered r) (AudioOutputLeft r) (AudioOutputRight r) (OutputGrainStartTimeRef r) (OutputGrainDurationSecRef r) (OutputGrainIsReversedRef r) (OutputGrainVolumeRef r) (OutputGrainPitchRef r) (OutputGrainPanRef r) (FRandCalls r).

Definition set_OnGrainTriggered (x : list Z) (r : Operator) : Operator :=
  mkOperator (SampleRate r) (BlockSize r) (bIsPlaying r) (SamplesUntilNextGrain r) (GrainVoices r) (CurrentWaveProxy r) (CachedSoundWaveDuration r) (CurrentNumChannels r) (ConvertDeinterleave r) (OnPlayTrigger r) (OnFinishedTrigger r) x (AudioOutputLeft r) (AudioOutputRight r) (OutputGrainStartTimeRef r) (OutputGrainDurationSecRef r) (OutputGrainIsReversedRef r) (OutputGrainVolumeRef r) (OutputGrainPitchRef r) (OutputGrainPanRef r) (FRandCalls r).

Definition set_AudioOutputLeft (x : list Q) (r : Operator) : Operator :=
  mkOperator (SampleRate r) (BlockSize r) (bIsPlaying r) (SamplesUntilNextGrain r) (GrainVoices r) (CurrentWaveProxy r) (CachedSoundWaveDuration r) (CurrentNumChannels r) (ConvertDeinterleave r) (OnPlayTrigger r) (OnFinishedTrigger r) (OnGrainTriggered r) x (AudioOutputRight r) (OutputGrainStartTimeRef r) (OutputGrainDurationSecRef r) (OutputGrainIsReversedRef r) (OutputGrainVolumeRef r) (OutputGrainPitchRef r) (OutputGrainPanRef r) (FRandCalls r).

Definition set_AudioOutputRight (x : list Q) (r : Operator) : Operator :=
  mkOperator (SampleRate r) (BlockSize r) (bIsPlaying r) (SamplesUntilNextGrain r) (GrainVoices r) (CurrentWaveProxy r) (CachedSoundWaveDuration r) (CurrentNumChannels r) (ConvertDeinterleave r) (OnPlayTrigger r) (OnFinishedTrigger r) (OnGrainTriggered r) (AudioOutputLeft r) x (OutputGrainStartTimeRef r) (OutputGrainDurationSecRef r) (OutputGrainIsReversedRef r) (OutputGrainVolumeRef r) (OutputGrainPitchRef r) (OutputGrainPanRef r) (FRandCalls r).

Definition set_OutputGrainStartTimeRef (x : Q) (r : Operator) : Operator :=
  mkOperator (SampleRate r) (BlockSize r) (bIsPlaying r) (SamplesUntilNextGrain r) (GrainVoices r) (CurrentWaveProxy r) (CachedSoundWaveDuration r) (CurrentNumChannels r) (ConvertDeinterleave r) (OnPlayTrigger r) (OnFinishedTrigger r) (OnGrainTriggered r) (AudioOutputLeft r) (AudioOutputRight r) x (OutputGrainDurationSecRef r) (OutputGrainIsReversedRef r) (OutputGrainVolumeRef r) (OutputGrainPitchRef r) (OutputGrainPanRef r) (FRandCalls r).

Definition set_OutputGrainDurationSecRef (x : Q) (r : Operator) : Operator :=
  mkOperator (SampleRate r) (BlockSize r) (bIsPlaying r) (SamplesUntilNextGrain r) (GrainVoices r) (CurrentWaveProxy r) (CachedSoundWaveDuration r) (CurrentNumChannels r) (ConvertDeinterleave r) (OnPlayTrigger r) (OnFinishedTrigger r) (OnGrainTriggered r) (AudioOutputLeft r) (AudioOutputRight r) (OutputGrainStartTimeRef r) x (OutputGrainIsReversedRef r) (OutputGrainVolumeRef r) (OutputGrainPitchRef r) (OutputGrainPanRef r) (FRandCalls r).

Definition set_OutputGrainIsReversedRef (x : bool) (r : Operator) : Operator :=
  mkOperator (SampleRate r) (BlockSize r) (bIsPlaying r) (SamplesUntilNextGrain r) (GrainVoices r) (CurrentWaveProxy r) (CachedSoundWaveDuration r) (CurrentNumChannels r) (ConvertDeinterleave r) (OnPlayTrigger r) (OnFinishedTrigger r) (OnGrainTriggered r) (AudioOutputLeft r) (AudioOutputRight r) (OutputGrainStartTimeRef r) (OutputGrainDurationSecRef r) x (OutputGrainVolumeRef r) (OutputGrainPitchRef r) (OutputGrainPanRef r) (FRandCalls r).

Definition set_OutputGrainVolumeRef (x : Q) (r : Operator) : Operator :=
  mkOperator (SampleRate r) (BlockSize r) (bIsPlaying r) (SamplesUntilNextGrain r) (GrainVoices r) (CurrentWaveProxy r) (CachedSoundWaveDuration r) (CurrentNumChannels r) (ConvertDeinterleave r) (OnPlayTrigger r) (OnFinishedTrigger r) (OnGrainTriggered r) (AudioOutputLeft r) (AudioOutputRight r) (OutputGrainStartTimeRef r) (OutputGrainDurationSecRef r) (OutputGrainIsReversedRef r) x (OutputGrainPitchRef r) (OutputGrainPanRef r) (FRandCalls r).

Definition set_OutputGrainPitchRef (x : Q) (r : Operator) : Operator :=
  mkOperator (SampleRate r) (BlockSize r) (bIsPlaying r) (SamplesUntilNextGrain r) (GrainVoices r) (CurrentWaveProxy r) (CachedSoundWaveDuration r) (CurrentNumChannels r) (ConvertDeinterleave r) (OnPlayTrigger r) (OnFinishedTrigger r) (OnGrainTriggered r) (AudioOutputLeft r) (AudioOutputRight r) (OutputGrainStartTimeRef r) (OutputGrainDurationSecRef r) (OutputGrainIsReversedRef r) (OutputGrainVolumeRef r) x (OutputGrainPanRef r) (FRandCalls r).

Definition set_OutputGrainPanRef (x : Q) (r : Operator) : Operator :=
  mkOperator (SampleRate r) (BlockSize r) (bIsPlaying r) (SamplesUntilNextGrain r) (GrainVoices r) (CurrentWaveProxy r) (CachedSoundWaveDuration r) (CurrentNumChannels r) (ConvertDeinterleave r) (OnPlayTrigger r) (OnFinishedTrigger r) (OnGrainTriggered r) (AudioOutputLeft r) (AudioOutputRight r) (OutputGrainStartTimeRef r) (OutputGrainDurationSecRef r) (OutputGrainIsReversedRef r) (OutputGrainVolumeRef r) (OutputGrainPitchRef r) x (FRandCalls r).

Definition set_FRandCalls (x : nat) (r : Operator) : Operator :=
  mkOperator (SampleRate r) (BlockSize r) (bIsPlaying r) (SamplesUntilNextGrain r) (GrainVoices r) (CurrentWaveProxy r) (CachedSoundWaveDuration r) (CurrentNumChannels r) (ConvertDeinterleave r) (OnPlayTrigger r) (OnFinishedTrigger r) (OnGrainTriggered r) (AudioOutputLeft r) (AudioOutputRight r) (OutputGrainStartTimeRef r) (OutputGrainDurationSecRef r) (OutputGrainIsReversedRef r) (OutputGrainVolumeRef r) (OutputGrainPitchRef r) (OutputGrainPanRef r) x.

(** The values bound to the input pins during one block. *)
Record Inputs : Type := mkInputs {
  PlayTrigger : list Z;
  StopTrigger : list Z;
  IsSoundWaveValid : bool;
  SoundWaveProxy : option Proxy;
  GrainDurationMsInput : Q;
  DurationRandMsInput : Q;
  ActiveVoicesInput : Q;
  TimeJitterInput : Q;
  StartPointTimeInput : Q;
  StartPointRandMsInput : Q;
  ReverseChanceInput : Q;
  AttackTimePercentInput : Q;
  DecayTimePercentInput : Q;
  AttackCurveInput : Q;
  DecayCurveInput : Q;
  PitchShiftInput : Q;
  PitchRandInput : Q;
  PanInput : Q;
  PanRandInput : Q;
  VolumeRandInput : Q;
  WarmStartInput : bool
}.

(** The constructor: [BlockSize] falls back to 256, the pool gets its
    [MaxGrainVoices] slots, the audio buffers have the frames of the settings.
    [int32 CurrentNumChannels;] has no initializer and the constructor does
    not assign it: the member holds whatever its memory held, the argument
    [Indeterminate]. *)
Definition Construct (InSampleRate : Q) (NumFramesPerBlock : Z)
  (Indeterminate : Z) : Operator :=
  mkOperator InSampleRate
    (if (0 <? NumFramesPerBlock)%Z then NumFramesPerBlock else 256%Z)
    false 0
    (repeat DefaultVoice (Z.to_nat MaxGrainVoices))
    None 0 Indeterminate false
    [] [] []
    (repeat 0 (Z.to_nat NumFramesPerBlock))
    (repeat 0 (Z.to_nat NumFramesPerBlock))
    0 0 false 0 0 0 0%nat.

Definition ResetVoice (v : FGrainVoice) : FGrainVoice :=
  mkVoice None None false 0 0 0 0 0 1 false 0.

Definition ResetVoices (s : Operator) : Operator :=
  set_GrainVoices (map ResetVoice (GrainVoices s)) s.

(** The four assignments that follow [ResetVoices()] on every failure path. *)
Definition ClearWaveData (s : Operator) : Operator :=
  set_ConvertDeinterleave false
    (set_CurrentNumChannels 0%Z
      (set_CachedSoundWaveDuration 0
        (set_CurrentWaveProxy None s))).

Definition ZeroOutputs (s : Operator) : Operator :=
  set_AudioOutputRight (ZeroBuffer (AudioOutputRight s))
    (set_AudioOutputLeft (ZeroBuffer (AudioOutputLeft s)) s).

Definition Finish (frame : Z) (s : Operator) : Operator :=
  set_OnFinishedTrigger (TriggerFrame frame (OnFinishedTrigger s)) s.

(** ** InitializeWaveData *)

Definition InitializeWaveData (h : Host) (InSoundWaveProxy : Proxy)
  (s : Operator) : bool * Operator :=
  let s := set_CurrentWaveProxy (Some InSoundWaveProxy) s in
  match Reader_Create h InSoundWaveProxy (DefaultSettings h) with
  | Some TempReader =>
      let duration :=
        inject_Z (NumFramesInWave TempReader)
        / FMath.Max 1 (ReaderSampleRate TempReader) in
      let channels := ReaderNumChannels TempReader in
      let s := set_CurrentNumChannels channels
                 (set_CachedSoundWaveDuration duration s) in
      if (channels <=? 0)%Z || Qleb duration 0 then
        (false, ClearWaveData s)
      else if negb (Deinterleave_Create h channels) then
        (false, ClearWaveData s)
      else
        (true, set_ConvertDeinterleave true s)
  | None => (false, ClearWaveData s)
  end.

(** ** TriggerGrain *)

Definition ReaderSettingsFor (h : Host) (InReaderStartTimeForSegment : Q)
  (bInIsReversed : bool) : FSettings :=
  mkSettings
    (FMath.Max 0 InReaderStartTimeForSegment)
    (negb bInIsReversed)
    (QuantizeDecodeSize
       (FMath.MaxZ (u32 DeinterleaveBlockSizeFrames)
                   (DefaultMinDecodeSizeInFrames h))
       (DecodeSizeQuantizationInFrames h)).

(** Output samples the pre-read segment of a reversed grain can produce. *)
Definition ReversedOutputSamples (InOutputGrainDurationSamples
  FramesActuallyRead : Z) (InFrameRatio : Q) : Z :=
  let MaxPossibleOutputSamplesFromReadSegment :=
    FMath.MaxZ 1 (FMath.CeilToInt (inject_Z FramesActuallyRead / InFrameRatio)) in
  FMath.MaxZ 1
    (FMath.MinZ InOutputGrainDurationSamples
                MaxPossibleOutputSamplesFromReadSegment).

Definition ActivateVoice (ActualOutputGrainSamplesForVoice : Z)
  (InPanPosition InVolumeScale : Q) (v : FGrainVoice) : FGrainVoice :=
  set_VolumeScale InVolumeScale
    (set_PanPosition InPanPosition
      (set_TotalGrainSamples ActualOutputGrainSamplesForVoice
        (set_SamplesPlayed 0%Z
          (set_SamplesRemaining ActualOutputGrainSamplesForVoice
            (set_bIsActive true v))))).

Definition TriggerGrain (h : Host) (InSoundWaveProxy : option Proxy)
  (InOutputGrainDurationSamples : Z)
  (InReaderStartTimeForSegment InFrameRatio InPanPosition InVolumeScale : Q)
  (bInIsReversed : bool) (InNumSourceFramesToReadForReverseSegment : Z)
  (s : Operator) : bool * Operator :=
  match InSoundWaveProxy with
  | None => (false, s)
  | Some proxy =>
  if (CurrentNumChannels s <=? 0)%Z
     || Qltb (CachedSoundWaveDuration s) MinGrainDurationSeconds
  then (false, s)
  else if (InOutputGrainDurationSamples <=? 0)%Z then (false, s)
  else if bInIsReversed && (InNumSourceFramesToReadForReverseSegment <=? 0)%Z
  then (false, s)
  else
  match FindFreeVoice bIsActive (GrainVoices s) 0 with
  | None => (false, s)
  | Some VoiceIndex =>
    let store v := set_GrainVoices (SetVoice (GrainVoices s) VoiceIndex v) s in
    let NewVoice := nth VoiceIndex (GrainVoices s) DefaultVoice in
    let NewVoice :=
      set_FullGrainSegmentBuffer 0%Z
        (set_bIsReversed bInIsReversed
          (set_NumChannels (CurrentNumChannels s) NewVoice)) in
    let ReaderSettings :=
      ReaderSettingsFor h InReaderStartTimeForSegment bInIsReversed in
    match Reader_Create h proxy ReaderSettings with
    | None => (false, store (set_Reader None NewVoice))
    | Some _ =>
      let NewVoice :=
        set_Resampler (Some InFrameRatio)
          (set_Reader (Some ReaderSettings) NewVoice) in
      if bInIsReversed then
        let SamplesActuallyRead :=
          Reader_PopAudio h proxy ReaderSettings
            (InNumSourceFramesToReadForReverseSegment * NumChannels NewVoice)%Z in
        let FramesActuallyRead :=
          Z.quot SamplesActuallyRead (NumChannels NewVoice) in
        if (0 <? FramesActuallyRead)%Z then
          let NewVoice :=
            set_Reader None
              (set_FullGrainSegmentBuffer FramesActuallyRead NewVoice) in
          (true,
           store (ActivateVoice
                    (ReversedOutputSamples InOutputGrainDurationSamples
                       FramesActuallyRead InFrameRatio)
                    InPanPosition InVolumeScale NewVoice))
        else (false, store (set_Reader None NewVoice))
      else
        (true,
         store (ActivateVoice InOutputGrainDurationSamples
                  InPanPosition InVolumeScale NewVoice))
    end
  end
  end.

(** ** Parameters read from the input pins (Execute and the warm start) *)

Definition BaseGrainDurationSeconds (inp : Inputs) : Q :=
  FMath.Max MinGrainDurationSeconds (GrainDurationMsInput inp / 1000).
Definition MaxDurationRandSeconds (inp : Inputs) : Q :=
  FMath.Max 0 (DurationRandMsInput inp / 1000).
Definition EffectiveActiveVoices (inp : Inputs) : Q :=
  FMath.Max MinActiveVoicesParam (ActiveVoicesInput inp).
Definition TimeJitterPercent (inp : Inputs) : Q :=
  FMath.Clamp (TimeJitterInput inp) 0 100.
Definition BaseSamplesPerGrainInterval (InSampleRate : Q) (inp : Inputs) : Q :=
  if Qltb 0 (EffectiveActiveVoices inp)
     && Qltb 0 (BaseGrainDurationSeconds inp)
     && Qltb 0 InSampleRate
  then (BaseGrainDurationSeconds inp / EffectiveActiveVoices inp) * InSampleRate
  else FMath.FloatMax.
Definition UserBaseStartPointSeconds (inp : Inputs) : Q :=
  StartPointTimeInput inp.
Definition MaxStartPointRandMsValue (inp : Inputs) : Q :=
  FMath.Max 0 (StartPointRandMsInput inp).
Definition ReverseChanceVal (inp : Inputs) : Q :=
  FMath.Clamp (ReverseChanceInput inp) 0 100.
Definition AttackPercent (inp : Inputs) : Q :=
  FMath.Clamp (AttackTimePercentInput inp) 0 1.
Definition DecayPercent (inp : Inputs) : Q :=
  FMath.Clamp (DecayTimePercentInput inp) 0 1.
Definition ClampedDecayPercent (inp : Inputs) : Q :=
  FMath.Min (DecayPercent inp) (1 - AttackPercent inp).
Definition AttackCurveFactor (inp : Inputs) : Q :=
  FMath.Max FMath.UE_SMALL_NUMBER (AttackCurveInput inp).
Definition DecayCurveFactor (inp : Inputs) : Q :=
  FMath.Max FMath.UE_SMALL_NUMBER (DecayCurveInput inp).
Definition BasePitchShiftSemitones (inp : Inputs) : Q :=
  FMath.Clamp (PitchShiftInput inp)
    (- MaxAbsPitchShiftSemitones) MaxAbsPitchShiftSemitones.
Definition PitchRandSemitones (inp : Inputs) : Q :=
  FMath.Max 0 (PitchRandInput inp).
Definition BasePan (inp : Inputs) : Q := FMath.Clamp (PanInput inp) (-1) 1.
Definition PanRandAmount (inp : Inputs) : Q :=
  FMath.Clamp (PanRandInput inp) 0 1.
Definition VolumeRandPercent (inp : Inputs) : Q :=
  FMath.Clamp (VolumeRandInput inp) 0 100.

(** ** Resolution of one grain (the body shared by both spawn loops) *)

(** The source segment of a grain: validity, reader start time and, for a
    reversed grain, the number of source frames to read up front. *)
Record FSegment : Type := mkSegment {
  bIsValidSegment : bool;
  FinalReaderStartTimeForSegment : Q;
  NumSourceFramesToReadForSegment : Z
}.

(** [Fmod] into the wave followed by the fix-up of a negative remainder. *)
Definition WrapIntoWave (t duration : Q) : Q :=
  let r := FMath.Fmod t duration in
  if Qltb r 0 then r + duration else r.

(** End of the segment a reversed grain reads, after both clamps. *)
Definition ReversedSegmentEnd (CachedDuration ConceptualStartPointSecs
  SourceMaterialNeededSeconds : Q) : Q :=
  let ConceptualSegmentEndInSource :=
    WrapIntoWave ConceptualStartPointSecs CachedDuration in
  let ConceptualSegmentStartInSource :=
    ConceptualSegmentEndInSource - SourceMaterialNeededSeconds in
  let ActualSegmentStart := FMath.Max 0 ConceptualSegmentStartInSource in
  let ActualSegmentEnd := FMath.Min CachedDuration ConceptualSegmentEndInSource in
  if Qeq_bool ActualSegmentStart 0 && Qltb 0 SourceMaterialNeededSeconds
  then FMath.Min CachedDuration SourceMaterialNeededSeconds
  else ActualSegmentEnd.

Definition ResolveSegment (InSampleRate CachedDuration : Q)
  (bFinalPlayThisGrainReverse : bool)
  (ConceptualStartPointSecs FinalOutputGrainDurationSeconds FrameRatio : Q)
  : FSegment :=
  if bFinalPlayThisGrainReverse then
    let SourceMaterialNeededSeconds :=
      FinalOutputGrainDurationSeconds * FrameRatio in
    if Qltb SourceMaterialNeededSeconds Epsilon then mkSegment false 0 0
    else
      let ConceptualSegmentEndInSource :=
        WrapIntoWave ConceptualStartPointSecs CachedDuration in
      let ActualSegmentStart :=
        FMath.Max 0 (ConceptualSegmentEndInSource - SourceMaterialNeededSeconds) in
      let ActualSegmentEnd :=
        ReversedSegmentEnd CachedDuration ConceptualStartPointSecs
          SourceMaterialNeededSeconds in
      if Qleb (ActualSegmentEnd - Epsilon) ActualSegmentStart then
        mkSegment false ActualSegmentStart 0
      else
        let n :=
          FMath.CeilToInt ((ActualSegmentEnd - ActualSegmentStart) * InSampleRate) in
        mkSegment (negb (n <=? 0)%Z) ActualSegmentStart n
  else
    mkSegment true
      (FMath.Max 0
         (FMath.Min (WrapIntoWave ConceptualStartPointSecs CachedDuration)
                    (CachedDuration - MinGrainDurationSeconds)))
      0.

(** The spec's GrainParameters: everything resolved for one grain before the
    voice is requested. *)
Record FGrainParameters : Type := mkGrainParameters {
  ConceptualStartPointSecs : Q;
  FinalOutputGrainDurationSeconds : Q;
  OutputGrainDurationSamples : Z;
  FinalTargetPitchShift : Q;
  FrameRatio : Q;
  bFinalPlayThisGrainReverse : bool;
  Segment : FSegment;
  FinalGrainPanPosition : Q;
  FinalGrainVolumeScale : Q
}.

(** Draws [d] .. [d+3] resolve start, duration, pitch and direction; draws
    [d+4] and [d+5], made only for a valid segment, resolve pan and volume. *)
Definition ResolveGrain (h : Host) (inp : Inputs)
  (InSampleRate CachedDuration : Q) (d : nat) : FGrainParameters :=
  let RandomStartOffsetSeconds :=
    FMath.FRandRange 0 (MaxStartPointRandMsValue inp / 1000) (FRand h d) in
  let Conceptual := UserBaseStartPointSeconds inp + RandomStartOffsetSeconds in
  let DurationOffset :=
    FMath.FRandRange 0 (MaxDurationRandSeconds inp) (FRand h (d + 1)%nat) in
  let Duration :=
    FMath.Max MinGrainDurationSeconds
      (BaseGrainDurationSeconds inp + DurationOffset) in
  let Samples := FMath.MaxZ 1 (FMath.CeilToInt (Duration * InSampleRate)) in
  let PitchOffset :=
    FMath.FRandRange (- PitchRandSemitones inp) (PitchRandSemitones inp)
      (FRand h (d + 2)%nat) in
  let Pitch :=
    FMath.Clamp (BasePitchShiftSemitones inp + PitchOffset)
      (- MaxAbsPitchShiftSemitones) MaxAbsPitchShiftSemitones in
  let Ratio := FMath.Max FMath.UE_SMALL_NUMBER (Pow h 2 (Pitch / 12)) in
  let Reverse :=
    Qltb (FMath.FRandRange 0 100 (FRand h (d + 3)%nat)) (ReverseChanceVal inp) in
  let PanOffset :=
    FMath.FRandRange (- PanRandAmount inp) (PanRandAmount inp)
      (FRand h (d + 4)%nat) in
  let MinVolumeScale := 1 - VolumeRandPercent inp / 100 in
  mkGrainParameters Conceptual Duration Samples Pitch Ratio Reverse
    (ResolveSegment InSampleRate CachedDuration Reverse Conceptual Duration Ratio)
    (FMath.Clamp (BasePan inp + PanOffset) (-1) 1)
    (FMath.FRandRange MinVolumeScale 1 (FRand h (d + 5)%nat)).

(** The grain outputs written when a grain is committed. *)
Definition ReportGrain (g : FGrainParameters) (frame : Z) (s : Operator)
  : Operator :=
  set_OnGrainTriggered (TriggerFrame frame (OnGrainTriggered s))
    (set_OutputGrainPanRef (FinalGrainPanPosition g)
      (set_OutputGrainPitchRef (FinalTargetPitchShift g)
        (set_OutputGrainVolumeRef (FinalGrainVolumeScale g)
          (set_OutputGrainIsReversedRef (bFinalPlayThisGrainReverse g)
            (set_OutputGrainDurationSecRef (FinalOutputGrainDurationSeconds g)
              (set_OutputGrainStartTimeRef
                 (FinalReaderStartTimeForSegment (Segment g)) s)))))).

(** One iteration of a spawn loop.  [frameOf] gives the frame of the
    [OnGrain] trigger from the grain's duration in samples. *)
Definition SpawnGrain (h : Host) (inp : Inputs) (frameOf : Z -> Z)
  (s : Operator) : Operator :=
  let d := FRandCalls s in
  let g := ResolveGrain h inp (SampleRate s) (CachedSoundWaveDuration s) d in
  if negb (bIsValidSegment (Segment g)) then set_FRandCalls (d + 4)%nat s
  else
    let s := set_FRandCalls (d + 6)%nat s in
    let '(ok, s) :=
      TriggerGrain h (CurrentWaveProxy s) (OutputGrainDurationSamples g)
        (FinalReaderStartTimeForSegment (Segment g)) (FrameRatio g)
        (FinalGrainPanPosition g) (FinalGrainVolumeScale g)
        (bFinalPlayThisGrainReverse g)
        (NumSourceFramesToReadForSegment (Segment g)) s in
    if ok then ReportGrain g (frameOf (OutputGrainDurationSamples g)) s else s.

(** [for (i = first; i < first + count; ++i) SpawnGrain]. *)
Fixpoint SpawnLoop (h : Host) (inp : Inputs) (frameOf : Z -> Z -> Z)
  (count : nat) (i : Z) (s : Operator) : Operator :=
  match count with
  | O => s
  | S count' =>
      SpawnLoop h inp frameOf count' (i + 1)%Z (SpawnGrain h inp (frameOf i) s)
  end.

(** ** TryStartPlayback *)

Definition NumVoicesToWarmStart (inp : Inputs) : Z :=
  let n := FMath.FloorToInt (ActiveVoicesInput inp) in
  let n :=
    if Qltb (ActiveVoicesInput inp) 1 && Qltb 0 (ActiveVoicesInput inp)
    then 1%Z else n in
  FMath.ClampZ n 0 MaxGrainVoices.

Definition TryStartPlayback (h : Host) (inp : Inputs) (InFrame : Z)
  (s : Operator) : bool * Operator :=
  let s := set_bIsPlaying false s in
  if negb (IsSoundWaveValid inp) then (false, ClearWaveData (ResetVoices s))
  else
  match SoundWaveProxy inp with
  | None => (false, ClearWaveData (ResetVoices s))
  | Some proxy =>
    let '(ok, s) := InitializeWaveData h proxy s in
    if negb ok then (false, ClearWaveData (ResetVoices s))
    else
      let s := ResetVoices (set_bIsPlaying true s) in
      let s := set_OnPlayTrigger (TriggerFrame InFrame (OnPlayTrigger s)) s in
      if WarmStartInput inp
         && isSome (CurrentWaveProxy s)
         && negb (Qltb (CachedSoundWaveDuration s) MinGrainDurationSeconds)
         && Qltb 0 (SampleRate s)
      then
        let s :=
          SpawnLoop h inp (fun _ _ => InFrame)
            (Z.to_nat (NumVoicesToWarmStart inp)) 0 s in
        let interval := BaseSamplesPerGrainInterval (SampleRate s) inp in
        (true,
         set_SamplesUntilNextGrain
           (if Qltb interval FMath.FloatMax then interval else FMath.FloatMax) s)
      else (true, set_SamplesUntilNextGrain 0 s)
  end.

(** ** The grain trigger scheduler (Execute, the while loop) *)

Definition JitteredInterval (BaseInterval JitterPercent u : Q) : Q :=
  FMath.Max MinSamplesPerGrainInterval
    (BaseInterval
     + FMath.FRandRange (-1) 1 u * BaseInterval * (JitterPercent / 100)).

(** [while (SamplesUntilNextGrain <= ElapsedSamples)] with an iteration
    budget; the result is the counter, the grains counted and the draws made. *)
Fixpoint SchedulerLoop (h : Host) (BaseInterval JitterPercent ElapsedSamples : Q)
  (fuel : nat) (Samples : Q) (Grains : Z) (d : nat) : Q * Z * nat :=
  match fuel with
  | O => (Samples, Grains, d)
  | S fuel' =>
      if Qleb Samples ElapsedSamples then
        SchedulerLoop h BaseInterval JitterPercent ElapsedSamples fuel'
          (Samples + JitteredInterval BaseInterval JitterPercent (FRand h d))
          (Grains + 1)%Z (S d)
      else (Samples, Grains, d)
  end.

(** Every iteration adds at least [MinSamplesPerGrainInterval] = 1 sample, so
    the loop body runs at most [floor (Elapsed - Samples) + 1] times. *)
Definition SchedulerFuel (ElapsedSamples Samples : Q) : nat :=
  Z.to_nat (Qfloor (ElapsedSamples - Samples) + 1).

(** The scheduler of one block: the loop, then the subtraction of the
    elapsed samples. *)
Definition Scheduler (h : Host) (BaseInterval JitterPercent ElapsedSamples : Q)
  (Samples : Q) (d : nat) : Q * Z * nat :=
  if Qltb 0 BaseInterval && Qltb BaseInterval FMath.FloatMax then
    let '(Samples', Grains, d') :=
      SchedulerLoop h BaseInterval JitterPercent ElapsedSamples
        (SchedulerFuel ElapsedSamples Samples) Samples 0 d in
    (Samples' - ElapsedSamples, Grains, d')
  else (Samples, 0%Z, d).

(** Frame of the [OnGrain] trigger of the [i]-th grain of the block. *)
Definition TriggerFrameInBlock (InBlockSize : Z)
  (ElapsedSamples Samples BaseInterval : Q) (Grains i : Z)
  (InOutputGrainDurationSamples : Z) : Z :=
  let ApproxTimeOfThisGrainSpawn :=
    ElapsedSamples
    - (Samples
       + inject_Z (Grains - 1 - i)
         * (if Qltb Epsilon BaseInterval then BaseInterval
            else inject_Z InOutputGrainDurationSamples)) in
  FMath.ClampZ (Qtrunc ApproxTimeOfThisGrainSpawn) 0 (InBlockSize - 1).

(** ** Rendering of the active voices *)

Definition EnvelopeScale (h : Host) (inp : Inputs)
  (InTotalGrainSamples CurrentFrameInGrain : Z) : Q :=
  let AttackSamples :=
    FMath.CeilToInt (inject_Z InTotalGrainSamples * AttackPercent inp) in
  let DecaySamples :=
    FMath.CeilToInt (inject_Z InTotalGrainSamples * ClampedDecayPercent inp) in
  if (CurrentFrameInGrain <? AttackSamples)%Z then
    Pow h (if (0 <? AttackSamples)%Z
           then inject_Z CurrentFrameInGrain / inject_Z AttackSamples
           else 1)
          (AttackCurveFactor inp)
  else if (InTotalGrainSamples - DecaySamples <=? CurrentFrameInGrain)%Z then
    Pow h (if (0 <? DecaySamples)%Z
           then inject_Z (InTotalGrainSamples - CurrentFrameInGrain)
                / inject_Z DecaySamples
           else 0)
          (DecayCurveFactor inp)
  else 1.

(** The factor the mono sample is multiplied by. *)
Definition EnvelopeGain (h : Host) (inp : Inputs)
  (InTotalGrainSamples CurrentFrameInGrain : Z) : Q :=
  FMath.Clamp (EnvelopeScale h inp InTotalGrainSamples CurrentFrameInGrain) 0 1.

Definition MonoSample (InNumChannels : Z) (r : FResampled) (i : nat) : Q :=
  if (InNumChannels =? 1)%Z then Channel0 r i
  else if (2 <=? InNumChannels)%Z then (Channel0 r i + Channel1 r i) * (1 # 2)
  else 0.

(** [EnvelopedMonoBuffer] after the envelope loop and the zero fill. *)
Definition EnvelopedMono (h : Host) (inp : Inputs) (v : FGrainVoice)
  (r : FResampled) (OutputFrames : nat) : list Q :=
  map (fun FrameIndex =>
         if (FrameIndex <? FramesResampled r)%nat then
           (MonoSample (NumChannels v) r FrameIndex * VolumeScale v)
           * EnvelopeGain h inp (TotalGrainSamples v)
               (SamplesPlayed v + Z.of_nat FrameIndex)
         else 0)
      (seq 0 OutputFrames).

(** The voice's mono buffer for a block of [OutputFrames] frames: resampled
    and enveloped while the pipeline is alive, silence otherwise. *)
Definition MonoBuffer (h : Host) (inp : Inputs) (slot : nat) (v : FGrainVoice)
  (OutputFrames : Z) : list Q :=
  if (bIsReversed v || isSome (Reader v))
     && isSome (Resampler v)
     && (0 <? TotalGrainSamples v)%Z
  then
    EnvelopedMono h inp v (Resample h slot (SamplesPlayed v) OutputFrames)
      (Z.to_nat OutputFrames)
  else repeat 0 (Z.to_nat OutputFrames).

Definition ReleaseVoice (v : FGrainVoice) : FGrainVoice :=
  set_Resampler None (set_Reader None (set_bIsActive false v)).

(** The body of [for (FGrainVoice& Voice : GrainVoices)] for the voice in
    slot [slot]; the resampler delivers at most the frames asked for. *)
Definition RenderVoice (h : Host) (inp : Inputs) (InBlockSize : Z)
  (slot : nat) (v : FGrainVoice) (out : list Q * list Q)
  : FGrainVoice * (list Q * list Q) :=
  if bIsActive v then
    let OutputFramesToProcessThisBlock :=
      FMath.MaxZ 0 (FMath.MinZ InBlockSize (SamplesRemaining v)) in
    if (OutputFramesToProcessThisBlock <=? 0)%Z then (ReleaseVoice v, out)
    else
      let mono := MonoBuffer h inp slot v OutputFramesToProcessThisBlock in
      let K := ScalarQ h in
      let angle := PanAngle K (PanPosition v) in
      let out :=
        (ArrayMixIn K mono (fst out) (scos K angle),
         ArrayMixIn K mono (snd out) (ssin K angle)) in
      let v :=
        set_SamplesRemaining
          (SamplesRemaining v - OutputFramesToProcessThisBlock)%Z
          (set_SamplesPlayed
             (SamplesPlayed v + OutputFramesToProcessThisBlock)%Z v) in
      ((if (SamplesRemaining v <=? 0)%Z then ReleaseVoice v else v), out)
  else (v, out).

Fixpoint RenderVoices (h : Host) (inp : Inputs) (InBlockSize : Z)
  (slot : nat) (vs : list FGrainVoice) (out : list Q * list Q)
  : list FGrainVoice * (list Q * list Q) :=
  match vs with
  | [] => ([], out)
  | v :: rest =>
      let '(v', out') := RenderVoice h inp InBlockSize slot v out in
      let '(rest', out'') := RenderVoices h inp InBlockSize (S slot) rest out' in
      (v' :: rest', out'')
  end.

(** ** Execute *)

(** The scan of the Stop trigger: the first frame counts, if playing. *)
Definition StopScan (frames : list Z) (playing : bool) : bool * Z :=
  match frames with
  | Frame :: _ => if playing then (true, Frame) else (false, (-1)%Z)
  | [] => (false, (-1)%Z)
  end.

(** The loop over the frames of the Play trigger; the boolean is
    [bTriggeredStopThisBlock]. *)
Fixpoint PlayLoop (h : Host) (inp : Inputs) (frames : list Z)
  (bTriggeredStopThisBlock : bool) (s : Operator) : bool * Operator :=
  match frames with
  | [] => (bTriggeredStopThisBlock, s)
  | Frame :: rest =>
      let '(ok, s) := TryStartPlayback h inp Frame s in
      if negb ok then
        PlayLoop h inp rest false (set_bIsPlaying false (Finish Frame s))
      else PlayLoop h inp rest false s
  end.

(** [ResetVoices(); bIsPlaying = false; OnFinished(0); Zero(); return]. *)
Definition StopNow (s : Operator) : Operator :=
  ZeroOutputs (Finish 0 (set_bIsPlaying false (ResetVoices s))).

(** The stereo buffers when mixing starts: cleared, unless the wave asset
    has just changed. *)
Definition ClearForMixing (bWaveJustChanged : bool) (s : Operator) : Operator :=
  if negb bWaveJustChanged then
    let n := Z.to_nat (BlockSize s) in
    set_AudioOutputRight (MemsetZero n (AudioOutputRight s))
      (set_AudioOutputLeft (MemsetZero n (AudioOutputLeft s)) s)
  else s.

(** Execute from the scheduler on: count the grains due, spawn them, render
    and mix the active voices. *)
Definition ScheduleSpawnRender (h : Host) (inp : Inputs) (s : Operator)
  : Operator :=
  let BaseInterval := BaseSamplesPerGrainInterval (SampleRate s) inp in
  let ElapsedSamples := inject_Z (BlockSize s) in
  let '(Samples, GrainsToTriggerThisBlock, d) :=
    Scheduler h BaseInterval (TimeJitterPercent inp) ElapsedSamples
      (SamplesUntilNextGrain s) (FRandCalls s) in
  let s := set_FRandCalls d (set_SamplesUntilNextGrain Samples s) in
  let s :=
    SpawnLoop h inp
      (TriggerFrameInBlock (BlockSize s) ElapsedSamples Samples BaseInterval
         GrainsToTriggerThisBlock)
      (Z.to_nat GrainsToTriggerThisBlock) 0 s in
  let '(voices, (outL, outR)) :=
    RenderVoices h inp (BlockSize s) 0 (GrainVoices s)
      (AudioOutputLeft s, AudioOutputRight s) in
  set_AudioOutputRight outR
    (set_AudioOutputLeft outL (set_GrainVoices voices s)).

(** Whether the bound wave asset differs from the one being played. *)
Definition WaveChanged (inp : Inputs) (s : Operator) : bool :=
  isSome (SoundWaveProxy inp)
  && negb (ProxyEq (CurrentWaveProxy s) (SoundWaveProxy inp)).

(** The checks made on a playing block once the wave asset is settled. *)
Definition SanityAndMix (h : Host) (inp : Inputs) (bWaveJustChanged : bool)
  (s : Operator) : Operator :=
  if (CurrentNumChannels s <=? 0)%Z
     || negb (ConvertDeinterleave s)
     || Qltb (CachedSoundWaveDuration s) MinGrainDurationSeconds
  then StopNow s
  else ScheduleSpawnRender h inp (ClearForMixing bWaveJustChanged s).

(** Execute once [bIsPlaying] holds after the triggers. *)
Definition ExecutePlaying (h : Host) (inp : Inputs) (s : Operator) : Operator :=
  match SoundWaveProxy inp with
  | Some InputProxy =>
      if WaveChanged inp s then
        let '(ok, s) := InitializeWaveData h InputProxy s in
        if negb ok then StopNow s else SanityAndMix h inp true s
      else SanityAndMix h inp false s
  | None =>
      if isSome (CurrentWaveProxy s) then StopNow s
      else SanityAndMix h inp false s
  end.

(** The Stop and Play triggers of the block (Execute up to the test of
    [bIsPlaying]). *)
Definition ProcessTriggers (h : Host) (inp : Inputs) (s : Operator) : Operator :=
  let s :=
    set_OnGrainTriggered (AdvanceBlock (OnGrainTriggered s))
      (set_OnFinishedTrigger (AdvanceBlock (OnFinishedTrigger s))
        (set_OnPlayTrigger (AdvanceBlock (OnPlayTrigger s)) s)) in
  let '(bTriggeredStopThisBlock, StopFrame) :=
    StopScan (StopTrigger inp) (bIsPlaying s) in
  let '(bTriggeredStopThisBlock, s) :=
    PlayLoop h inp (PlayTrigger inp) bTriggeredStopThisBlock s in
  if bTriggeredStopThisBlock && bIsPlaying s then
    Finish StopFrame (ResetVoices (set_bIsPlaying false s))
  else s.

Definition Execute (h : Host) (inp : Inputs) (s : Operator) : Operator :=
  if (BlockSize s <=? 0)%Z then
    let s := ZeroOutputs s in
    if bIsPlaying s then set_bIsPlaying false (Finish 0 s) else s
  else
    let s := ProcessTriggers h inp s in
    if negb (bIsPlaying s) then
      let s := ZeroOutputs s in
      if isSome (CurrentWaveProxy s)
         || (0 <? CurrentNumChannels s)%Z
         || ConvertDeinterleave s
      then ClearWaveData (ResetVoices s)
      else s
    else ExecutePlaying h inp s.

(** ** Reset *)

Definition Reset (s : Operator) : Operator :=
  mkOperator (SampleRate s) (BlockSize s) false 0
    (map ResetVoice (GrainVoices s)) None 0 0%Z false
    [] [] []
    (ZeroBuffer (AudioOutputLeft s)) (ZeroBuffer (AudioOutputRight s))
    0 0 false 0 0 0 (FRandCalls s).

End FGranularSynthOperator.

(** * FGranularSynthOperator_Step8 (GranularSynthNode.cpp, second unit) *)

Module FGranularSynthOperator_Step8.

Definition MaxGrainVoices : Z := 32.
Definition MinGrainDurationSeconds : Q := 5 # 1000.
Definition MaxAbsPitchShiftSemitones : Q := 60.
Definition DeinterleaveBlockSizeFrames : Z := 256.

Record FGrainVoice : Type := mkVoice {
  Reader : option FSettings;
  Resampler : option Q;
  bIsActive : bool;
  NumChannels : Z;
  SamplesRemaining : Z;
  SamplesPlayed : Z;
  TotalGrainSamples : Z;
  PanPosition : Q
}.

Definition set_Reader (x : option FSettings) (r : FGrainVoice) : FGrainVoice :=
  mkVoice x (Resampler r) (bIsActive r) (NumChannels r) (SamplesRemaining r) (SamplesPlayed r) (TotalGrainSamples r) (PanPosition r).

Definition set_Resampler (x : option Q) (r : FGrainVoice) : FGrainVoice :=
  mkVoice (Reader r) x (bIsActive r) (NumChannels r) (SamplesRemaining r) (SamplesPlayed r) (TotalGrainSamples r) (PanPosition r).

Definition set_bIsActive (x : bool) (r : FGrainVoice) : FGrainVoice :=
  mkVoice (Reader r) (Resampler r) x (NumChannels r) (SamplesRemaining r) (SamplesPlayed r) (TotalGrainSamples r) (PanPosition r).

Definition set_NumChannels (x : Z) (r : FGrainVoice) : FGrainVoice :=
  mkVoice (Reader r) (Resampler r) (bIsActive r) x (SamplesRemaining r) (SamplesPlayed r) (TotalGrainSamples r) (PanPosition r).

Definition set_SamplesRemaining (x : Z) (r : FGrainVoice) : FGrainVoice :=
  mkVoice (Reader r) (Resampler r) (bIsActive r) (NumChannels r) x (SamplesPlayed r) (TotalGrainSamples r) (PanPosition r).

Definition set_SamplesPlayed (x : Z) (r : FGrainVoice) : FGrainVoice :=
  mkVoice (Reader r) (Resampler r) (bIsActive r) (NumChannels r) (SamplesRemaining r) x (TotalGrainSamples r) (PanPosition r).

Definition set_TotalGrainSamples (x : Z) (r : FGrainVoice) : FGrainVoice :=
  mkVoice (Reader r) (Resampler r) (bIsActive r) (NumChannels r) (SamplesRemaining r) (SamplesPlayed r) x (PanPosition r).

Definition set_PanPosition (x : Q) (r : FGrainVoice) : FGrainVoice :=
  mkVoice (Reader r) (Resampler r) (bIsActive r) (NumChannels r) (SamplesRemaining r) (SamplesPlayed r) (TotalGrainSamples r) x.

Definition DefaultVoice : FGrainVoice := mkVoice None None false 0 0 0 0 0.

Record Operator : Type := mkOperator {
  SampleRate : Q;
  BlockSize : Z;
  bIsPlaying : bool;
  SamplesUntilNextGrain : Q;
  GrainVoices : list FGrainVoice;
  CurrentWaveProxy : option Proxy;
  CachedSoundWaveDuration : Q;
  CurrentNumChannels : Z;
  ConvertDeinterleave : bool;
  OnPlayTrigger : list Z;
  OnFinishedTrigger : list Z;
  OnGrainTriggered : list Z;
  AudioOutputLeft : list Q;
  AudioOutputRight : list Q;
  FRandCalls : nat
}.

Definition set_bIsPlaying (x : bool) (r : Operator) : Operator :=
  mkOperator (SampleRate r) (BlockSize r) x (SamplesUntilNextGrain r) (GrainVoices r) (CurrentWaveProxy r) (CachedSoundWaveDuration r) (CurrentNumChannels r) (ConvertDeinterleave r) (OnPlayTrigger r) (OnFinishedTrigger r) (OnGrainTriggered r) (AudioOutputLeft r) (AudioOutputRight r) (FRandCalls r).

Definition set_SamplesUntilNextGrain (x : Q) (r : Operator) : Operator :=
  mkOperator (SampleRate r) (BlockSize r) (bIsPlaying r) x (GrainVoices r) (CurrentWaveProxy r) (CachedSoundWaveDuration r) (CurrentNumChannels r) (ConvertDeinterleave r) (OnPlayTrigger r) (OnFinishedTrigger r) (OnGrainTriggered r) (AudioOutputLeft r) (AudioOutputRight r) (FRandCalls r).

Definition set_GrainVoices (x : list FGrainVoice) (r : Operator) : Operator :=
  mkOperator (SampleRate r) (BlockSize r) (bIsPlaying r) (SamplesUntilNextGrain r) x (CurrentWaveProxy r) (CachedSoundWaveDuration r) (CurrentNumChannels r) (ConvertDeinterleave r) (OnPlayTrigger r) (OnFinishedTrigger r) (OnGrainTriggered r) (AudioOutputLeft r) (AudioOutputRight r) (FRandCalls r).

Definition set_CurrentWaveProxy (x : option Proxy) (r : Operator) : Operator :=
  mkOperator (SampleRate r) (BlockSize r) (bIsPlaying r) (SamplesUntilNextGrain r) (GrainVoices r) x (CachedSoundWaveDuration r) (CurrentNumChannels r) (ConvertDeinterleave r) (OnPlayTrigger r) (OnFinishedTrigger r) (OnGrainTriggered r) (AudioOutputLeft r) (AudioOutputRight r) (FRandCalls r).

Definition set_CachedSoundWaveDuration (x : Q) (r : Operator) : Operator :=
  mkOperator (SampleRate r) (BlockSize r) (bIsPlaying r) (SamplesUntilNextGrain r) (GrainVoices r) (CurrentWaveProxy r) x (CurrentNumChannels r) (ConvertDeinterleave r) (OnPlayTrigger r) (OnFinishedTrigger r) (OnGrainTriggered r) (AudioOutputLeft r) (AudioOutputRight r) (FRandCalls r).

Definition set_CurrentNumChannels (x : Z) (r : Operator) : Operator :=
  mkOperator (SampleRate r) (BlockSize r) (bIsPlaying r) (SamplesUntilNextGrain r) (GrainVoices r) (CurrentWaveProxy r) (CachedSoundWaveDuration r) x (ConvertDeinterleave r) (OnPlayTrigger r) (OnFinishedTrigger r) (OnGrainTriggered r) (AudioOutputLeft r) (AudioOutputRight r) (FRandCalls r).

Definition set_ConvertDeinterleave (x : bool) (r : Operator) : Operator :=
  mkOperator (SampleRate r) (BlockSize r) (bIsPlaying r) (SamplesUntilNextGrain r) (GrainVoices r) (CurrentWaveProxy r) (CachedSoundWaveDuration r) (CurrentNumChannels r) x (OnPlayTrigger r) (OnFinishedTrigger r) (OnGrainTriggered r) (AudioOutputLeft r) (AudioOutputRight r) (FRandCalls r).

Definition set_OnPlayTrigger (x : list Z) (r : Operator) : Operator :=
  mkOperator (SampleRate r) (BlockSize r) (bIsPlaying r) (SamplesUntilNextGrain r) (GrainVoices r) (CurrentWaveProxy r) (CachedSoundWaveDuration r) (CurrentNumChannels r) (ConvertDeinterleave r) x (OnFinishedTrigger r) (OnGrainTriggered r) (AudioOutputLeft r) (AudioOutputRight r) (FRandCalls r).

Definition set_OnFinishedTrigger (x : list Z) (r : Operator) : Operator :=
  mkOperator (SampleRate r) (BlockSize r) (bIsPlaying r) (SamplesUntilNextGrain r) (GrainVoices r) (CurrentWaveProxy r) (CachedSoundWaveDuration r) (CurrentNumChannels r) (ConvertDeinterleave r) (OnPlayTrigger r) x (OnGrainTriggered r) (AudioOutputLeft r) (AudioOutputRight r) (FRandCalls r).

Definition set_OnGrainTriggered (x : list Z) (r : Operator) : Operator :=
  mkOperator (SampleRate r) (BlockSize r) (bIsPlaying r) (SamplesUntilNextGrain r) (GrainVoices r) (CurrentWaveProxy r) (CachedSoundWaveDuration r) (CurrentNumChannels r) (ConvertDeinterleave r) (OnPlayTrigger r) (OnFinishedTrigger r) x (AudioOutputLeft r) (AudioOutputRight r) (FRandCalls r).

Definition set_AudioOutputLeft (x : list Q) (r : Operator) : Operator :=
  mkOperator (SampleRate r) (BlockSize r) (bIsPlaying r) (SamplesUntilNextGrain r) (GrainVoices r) (CurrentWaveProxy r) (CachedSoundWaveDuration r) (CurrentNumChannels r) (ConvertDeinterleave r) (OnPlayTrigger r) (OnFinishedTrigger r) (OnGrainTriggered r) x (AudioOutputRight r) (FRandCalls r).

Definition set_AudioOutputRight (x : list Q) (r : Operator) : Operator :=
  mkOperator (SampleRate r) (BlockSize r) (bIsPlaying r) (SamplesUntilNextGrain r) (GrainVoices r) (CurrentWaveProxy r) (CachedSoundWaveDuration r) (CurrentNumChannels r) (ConvertDeinterleave r) (OnPlayTrigger r) (OnFinishedTrigger r) (OnGrainTriggered r) (AudioOutputLeft r) x (FRandCalls r).

Definition set_FRandCalls (x : nat) (r : Operator) : Operator :=
  mkOperator (SampleRate r) (BlockSize r) (bIsPlaying r) (SamplesUntilNextGrain r) (GrainVoices r) (CurrentWaveProxy r) (CachedSoundWaveDuration r) (CurrentNumChannels r) (ConvertDeinterleave r) (OnPlayTrigger r) (OnFinishedTrigger r) (OnGrainTriggered r) (AudioOutputLeft r) (AudioOutputRight r) x.

Record Inputs : Type := mkInputs {
  PlayTrigger : list Z;
  StopTrigger : list Z;
  IsSoundWaveValid : bool;
  SoundWaveProxy : option Proxy;
  GrainDurationMsInput : Q;
  GrainsPerSecondInput : Q;
  StartPointTimeInput : Q;
  EndPointTimeInput : Q;
  StartPointRandMsInput : Q;
  DurationRandMsInput : Q;
  AttackTimePercentInput : Q;
  DecayTimePercentInput : Q;
  AttackCurveInput : Q;
  DecayCurveInput : Q;
  PitchShiftInput : Q;
  PitchRandInput : Q;
  PanInput : Q;
  PanRandInput : Q
}.

Definition Construct (InSampleRate : Q) (NumFramesPerBlock : Z) : Operator :=
  mkOperator InSampleRate NumFramesPerBlock false 0
    (repeat DefaultVoice (Z.to_nat MaxGrainVoices))
    None 0 0%Z false
    [] [] []
    (repeat 0 (Z.to_nat NumFramesPerBlock))
    (repeat 0 (Z.to_nat NumFramesPerBlock))
    0%nat.

Definition ResetVoice (v : FGrainVoice) : FGrainVoice :=
  mkVoice None None false 0 0 0 0 0.

Definition ResetVoices (s : Operator) : Operator :=
  set_GrainVoices (map ResetVoice (GrainVoices s)) s.

Definition ClearWaveData (s : Operator) : Operator :=
  set_ConvertDeinterleave false
    (set_CurrentNumChannels 0%Z
      (set_CachedSoundWaveDuration 0
        (set_CurrentWaveProxy None s))).

Definition ZeroOutputs (s : Operator) : Operator :=
  set_AudioOutputRight (ZeroBuffer (AudioOutputRight s))
    (set_AudioOutputLeft (ZeroBuffer (AudioOutputLeft s)) s).

Definition Finish (frame : Z) (s : Operator) : Operator :=
  set_OnFinishedTrigger (TriggerFrame frame (OnFinishedTrigger s)) s.

(** ** InitializeWaveData: the failure paths differ in what they clear. *)

Definition InitializeWaveData (h : Host) (InSoundWaveProxy : Proxy)
  (s : Operator) : bool * Operator :=
  let s := set_CurrentWaveProxy (Some InSoundWaveProxy) s in
  match Reader_Create h InSoundWaveProxy (DefaultSettings h) with
  | Some TempReader =>
      let duration :=
        inject_Z (NumFramesInWave TempReader)
        / FMath.Max 1 (ReaderSampleRate TempReader) in
      let channels := ReaderNumChannels TempReader in
      let s := set_CurrentNumChannels channels
                 (set_CachedSoundWaveDuration duration s) in
      if (channels <=? 0)%Z || Qleb duration 0 then
        (false,
         set_ConvertDeinterleave false
           (set_CachedSoundWaveDuration 0 (set_CurrentNumChannels 0%Z s)))
      else if negb (Deinterleave_Create h channels) then
        (false,
         set_CachedSoundWaveDuration 0
           (set_CurrentNumChannels 0%Z (set_ConvertDeinterleave false s)))
      else
        (true, set_ConvertDeinterleave true s)
  | None => (false, s)
  end.

(** ** TriggerGrain *)

(** [DesiredDecodeSize = BlockSize * 2], conformed to at least 128 frames and
    rounded up to a multiple of 128, all in [uint32]. *)
Definition ReaderSettingsFor (InBlockSize : Z) (InStartTimeSeconds : Q)
  : FSettings :=
  mkSettings InStartTimeSeconds false
    (QuantizeDecodeSize (FMath.MaxZ (u32 (InBlockSize * 2)) 128) 128).

Definition TriggerGrain (h : Host) (InSoundWaveProxy : option Proxy)
  (InGrainDurationSamples : Z)
  (InStartTimeSeconds InFrameRatio InPanPosition : Q)
  (s : Operator) : bool * Operator :=
  let InStartTimeSeconds := FMath.Max 0 InStartTimeSeconds in
  match InSoundWaveProxy with
  | None => (false, s)
  | Some proxy =>
  if (InGrainDurationSamples <=? 0)%Z || (CurrentNumChannels s <=? 0)%Z
  then (false, s)
  else
  match FindFreeVoice bIsActive (GrainVoices s) 0 with
  | None => (false, s)
  | Some VoiceIndex =>
    let store v := set_GrainVoices (SetVoice (GrainVoices s) VoiceIndex v) s in
    let NewVoice := nth VoiceIndex (GrainVoices s) DefaultVoice in
    let ReaderSettings := ReaderSettingsFor (BlockSize s) InStartTimeSeconds in
    match Reader_Create h proxy ReaderSettings with
    | None => (false, store (set_Reader None NewVoice))
    | Some _ =>
      (true,
       store
         (set_PanPosition InPanPosition
           (set_TotalGrainSamples InGrainDurationSamples
             (set_SamplesPlayed 0%Z
               (set_SamplesRemaining InGrainDurationSamples
                 (set_bIsActive true
                   (set_Resampler (Some InFrameRatio)
                     (set_NumChannels (CurrentNumChannels s)
                       (set_Reader (Some ReaderSettings) NewVoice)))))))))
    end
  end
  end.

(** ** TryStartPlayback *)

Definition TryStartPlayback (h : Host) (inp : Inputs) (InFrame : Z)
  (s : Operator) : bool * Operator :=
  let bWasPlayingBeforeAttempt := bIsPlaying s in
  let s := set_bIsPlaying false s in
  let finishIfWasPlaying s :=
    if bWasPlayingBeforeAttempt then Finish InFrame s else s in
  if negb (IsSoundWaveValid inp) then
    (false, ClearWaveData (ResetVoices (finishIfWasPlaying s)))
  else
  match SoundWaveProxy inp with
  | None => (false, ClearWaveData (ResetVoices (finishIfWasPlaying s)))
  | Some proxy =>
    let '(ok, s) := InitializeWaveData h proxy s in
    if negb ok then (false, ResetVoices (finishIfWasPlaying s))
    else
      let s := ResetVoices (set_bIsPlaying true s) in
      let s := set_SamplesUntilNextGrain 0 s in
      (true, set_OnPlayTrigger (TriggerFrame InFrame (OnPlayTrigger s)) s)
  end.

(** ** Parameters read from the input pins *)

Definition BaseGrainDurationSeconds (inp : Inputs) : Q :=
  FMath.Max MinGrainDurationSeconds (GrainDurationMsInput inp / 1000).
Definition MaxDurationRandSeconds (inp : Inputs) : Q :=
  FMath.Max 0 (DurationRandMsInput inp / 1000).
Definition GrainsPerSec (inp : Inputs) : Q :=
  FMath.Max (1 # 10) (GrainsPerSecondInput inp).
Definition SamplesPerGrainInterval (InSampleRate : Q) (inp : Inputs) : Q :=
  if Qltb 0 (GrainsPerSec inp) then InSampleRate / GrainsPerSec inp
  else FMath.FloatMax.
Definition BaseStartPointSeconds (inp : Inputs) : Q :=
  FMath.Max 0 (StartPointTimeInput inp).
Definition BaseEndPointSeconds (inp : Inputs) : Q := EndPointTimeInput inp.
Definition MaxStartPointRandSeconds (inp : Inputs) : Q :=
  FMath.Max 0 (StartPointRandMsInput inp / 1000).
Definition AttackPercent (inp : Inputs) : Q :=
  FMath.Clamp (AttackTimePercentInput inp) 0 1.
Definition DecayPercent (inp : Inputs) : Q :=
  FMath.Clamp (DecayTimePercentInput inp) 0 1.
Definition ClampedDecayPercent (inp : Inputs) : Q :=
  FMath.Min (DecayPercent inp) (1 - AttackPercent inp).
Definition AttackCurveFactor (inp : Inputs) : Q :=
  FMath.Max FMath.UE_SMALL_NUMBER (AttackCurveInput inp).
Definition DecayCurveFactor (inp : Inputs) : Q :=
  FMath.Max FMath.UE_SMALL_NUMBER (DecayCurveInput inp).
Definition BasePitchShiftSemitones (inp : Inputs) : Q :=
  FMath.Clamp (PitchShiftInput inp)
    (- MaxAbsPitchShiftSemitones) MaxAbsPitchShiftSemitones.
Definition PitchRandSemitones (inp : Inputs) : Q :=
  FMath.Max 0 (PitchRandInput inp).
Definition BasePan (inp : Inputs) : Q := FMath.Clamp (PanInput inp) (-1) 1.
Definition PanRandAmount (inp : Inputs) : Q :=
  FMath.Clamp (PanRandInput inp) 0 1.

Definition EffectiveEndPointSeconds (inp : Inputs) (CachedDuration : Q) : Q :=
  if Qleb (BaseEndPointSeconds inp) 0
     || Qltb CachedDuration (BaseEndPointSeconds inp)
  then CachedDuration else BaseEndPointSeconds inp.
Definition ClampedBaseStartPointSeconds (inp : Inputs) (CachedDuration : Q) : Q :=
  FMath.Min (BaseStartPointSeconds inp)
    (EffectiveEndPointSeconds inp CachedDuration - MinGrainDurationSeconds).
Definition ClampedMaxStartTime (inp : Inputs) (CachedDuration : Q) : Q :=
  let base := ClampedBaseStartPointSeconds inp CachedDuration in
  let PotentialMaxStartTime := base + MaxStartPointRandSeconds inp in
  let ValidRegionEndTime :=
    FMath.Max 0
      (EffectiveEndPointSeconds inp CachedDuration - MinGrainDurationSeconds) in
  let clamped := FMath.Clamp PotentialMaxStartTime base ValidRegionEndTime in
  if Qltb clamped base then base else clamped.

(** ** Scheduler and spawn loop *)

Fixpoint SchedulerLoop (Interval ElapsedSamples : Q) (fuel : nat)
  (Samples : Q) (Grains : Z) : Q * Z :=
  match fuel with
  | O => (Samples, Grains)
  | S fuel' =>
      if Qleb Samples ElapsedSamples then
        SchedulerLoop Interval ElapsedSamples fuel'
          (Samples + Interval) (Grains + 1)%Z
      else (Samples, Grains)
  end.

(** The loop body runs at most [floor ((Elapsed - Samples) / Interval) + 1]
    times. *)
Definition SchedulerFuel (Interval ElapsedSamples Samples : Q) : nat :=
  Z.to_nat (Qfloor ((ElapsedSamples - Samples) / Interval) + 1).

Definition Scheduler (Interval ElapsedSamples Samples : Q) : Q * Z :=
  if Qltb 0 Interval && Qltb Interval FMath.FloatMax then
    let '(Samples', Grains) :=
      SchedulerLoop Interval ElapsedSamples
        (SchedulerFuel Interval ElapsedSamples Samples) Samples 0 in
    (Samples' - ElapsedSamples, Grains)
  else (Samples, 0%Z).

(** *** The scheduler in binary32

    [Scheduler] keeps the grain counter in exact arithmetic.  The code keeps
    it in a [float]: [SamplesUntilNextGrain += SamplesPerGrainInterval]
    stores the float nearest to the sum, which is the counter itself when the
    interval is small against it, and the number of grains is an [int32].
    The loop then need not end; here it runs on a budget of iterations and
    yields [None] when the budget is spent with a grain still due, or when
    the number of grains would pass the largest [int32]. *)

Fixpoint SchedulerLoop32 (Interval ElapsedSamples : Q) (fuel : nat)
  (Samples : Q) (Grains : Z) : option (Q * Z) :=
  if Qleb Samples ElapsedSamples then
    match fuel with
    | O => None
    | S fuel' =>
        if (Grains =? Int32Max)%Z then None
        else
          SchedulerLoop32 Interval ElapsedSamples fuel'
            (Binary32.Add Samples Interval) (Grains + 1)%Z
    end
  else Some (Samples, Grains).

(** [float ElapsedSamples = BlockSize;], the loop under its guard, then
    [SamplesUntilNextGrain -= ElapsedSamples]. *)
Definition Scheduler32 (Interval : Q) (InBlockSize : Z) (Samples : Q)
  (fuel : nat) : option (Q * Z) :=
  let ElapsedSamples := Binary32.Round (inject_Z InBlockSize) in
  if Qltb 0 Interval && Qltb Interval FMath.FloatMax then
    match SchedulerLoop32 Interval ElapsedSamples fuel Samples 0 with
    | None => None
    | Some (Samples', Grains) =>
        Some (Binary32.Sub Samples' ElapsedSamples, Grains)
    end
  else Some (Samples, 0%Z).

(** One iteration of the spawn loop: four draws, then TriggerGrain. *)
Definition SpawnGrain (h : Host) (inp : Inputs) (s : Operator) : Operator :=
  let d := FRandCalls s in
  let cached := CachedSoundWaveDuration s in
  let GrainStartTimeSeconds :=
    FMath.FRandRange (ClampedBaseStartPointSeconds inp cached)
      (ClampedMaxStartTime inp cached) (FRand h d) in
  let DurationOffset :=
    FMath.FRandRange 0 (MaxDurationRandSeconds inp) (FRand h (d + 1)%nat) in
  let GrainDurationSeconds :=
    FMath.Max MinGrainDurationSeconds
      (BaseGrainDurationSeconds inp + DurationOffset) in
  let GrainDurationSamples :=
    FMath.CeilToInt (GrainDurationSeconds * SampleRate s) in
  let PitchOffset :=
    FMath.FRandRange (- PitchRandSemitones inp) (PitchRandSemitones inp)
      (FRand h (d + 2)%nat) in
  let TargetPitchShift :=
    FMath.Clamp (BasePitchShiftSemitones inp + PitchOffset)
      (- MaxAbsPitchShiftSemitones) MaxAbsPitchShiftSemitones in
  let FrameRatio := Pow h 2 (TargetPitchShift / 12) in
  let PanOffset :=
    FMath.FRandRange (- PanRandAmount inp) (PanRandAmount inp)
      (FRand h (d + 3)%nat) in
  let GrainPanPosition := FMath.Clamp (BasePan inp + PanOffset) (-1) 1 in
  let s := set_FRandCalls (d + 4)%nat s in
  let '(ok, s) :=
    TriggerGrain h (CurrentWaveProxy s) GrainDurationSamples
      GrainStartTimeSeconds FrameRatio GrainPanPosition s in
  if ok then
    set_OnGrainTriggered
      (TriggerFrame
         (FMath.ClampZ (BlockSize s - Qtrunc (SamplesUntilNextGrain s))
            0 (BlockSize s - 1))
         (OnGrainTriggered s)) s
  else s.

Fixpoint SpawnLoop (h : Host) (inp : Inputs) (count : nat) (s : Operator)
  : Operator :=
  match count with
  | O => s
  | S count' => SpawnLoop h inp count' (SpawnGrain h inp s)
  end.

(** ** Rendering *)

Definition EnvelopeScale (h : Host) (inp : Inputs)
  (InTotalGrainSamples CurrentFrameInGrain : Z) : Q :=
  let AttackSamples :=
    FMath.CeilToInt (inject_Z InTotalGrainSamples * AttackPercent inp) in
  let DecaySamples :=
    FMath.CeilToInt (inject_Z InTotalGrainSamples * ClampedDecayPercent inp) in
  if (CurrentFrameInGrain <? AttackSamples)%Z then
    Pow h (if (0 <? AttackSamples)%Z
           then inject_Z CurrentFrameInGrain / inject_Z AttackSamples
           else 1)
          (AttackCurveFactor inp)
  else if (InTotalGrainSamples - DecaySamples <=? CurrentFrameInGrain)%Z then
    Pow h (if (0 <? DecaySamples)%Z
           then inject_Z (InTotalGrainSamples - CurrentFrameInGrain)
                / inject_Z DecaySamples
           else 0)
          (DecayCurveFactor inp)
  else 1.

Definition EnvelopeGain (h : Host) (inp : Inputs)
  (InTotalGrainSamples CurrentFrameInGrain : Z) : Q :=
  FMath.Clamp (EnvelopeScale h inp InTotalGrainSamples CurrentFrameInGrain) 0 1.

Definition MonoSample (InNumChannels : Z) (r : FResampled) (i : nat) : Q :=
  if (InNumChannels =? 1)%Z then Channel0 r i
  else if (2 <=? InNumChannels)%Z then (Channel0 r i + Channel1 r i) * (1 # 2)
  else 0.

Definition EnvelopedMono (h : Host) (inp : Inputs) (v : FGrainVoice)
  (r : FResampled) : list Q :=
  map (fun i =>
         MonoSample (NumChannels v) r i
         * EnvelopeGain h inp (TotalGrainSamples v) (SamplesPlayed v + Z.of_nat i))
      (seq 0 (FramesResampled r)).

Definition ReleaseVoice (v : FGrainVoice) : FGrainVoice :=
  set_Resampler None (set_Reader None (set_bIsActive false v)).

Definition RenderVoice (h : Host) (inp : Inputs) (InBlockSize : Z)
  (slot : nat) (v : FGrainVoice) (out : list Q * list Q)
  : FGrainVoice * (list Q * list Q) :=
  if bIsActive v then
    if negb (isSome (Reader v)) || negb (isSome (Resampler v)) then
      (set_bIsActive false v, out)
    else
      let OutputFramesToProcess := FMath.MinZ InBlockSize (SamplesRemaining v) in
      if (OutputFramesToProcess <=? 0)%Z then (ReleaseVoice v, out)
      else
        let r := Resample h slot (SamplesPlayed v) OutputFramesToProcess in
        if bReadFailedEmpty r then (ReleaseVoice v, out)
        else
          let ActualFramesResampled := Z.of_nat (FramesResampled r) in
          let '(v, out) :=
            if (0 <? ActualFramesResampled)%Z then
              let K := ScalarQ h in
              let angle := PanAngle K (PanPosition v) in
              let mono := EnvelopedMono h inp v r in
              (set_SamplesRemaining
                 (SamplesRemaining v - ActualFramesResampled)%Z
                 (set_SamplesPlayed
                    (SamplesPlayed v + ActualFramesResampled)%Z v),
               (ArrayMixIn K mono (fst out) (scos K angle),
                ArrayMixIn K mono (snd out) (ssin K angle)))
            else (v, out) in
          ((if (SamplesRemaining v <=? 0)%Z then ReleaseVoice v else v), out)
  else (v, out).

Fixpoint RenderVoices (h : Host) (inp : Inputs) (InBlockSize : Z)
  (slot : nat) (vs : list FGrainVoice) (out : list Q * list Q)
  : list FGrainVoice * (list Q * list Q) :=
  match vs with
  | [] => ([], out)
  | v :: rest =>
      let '(v', out') := RenderVoice h inp InBlockSize slot v out in
      let '(rest', out'') := RenderVoices h inp InBlockSize (S slot) rest out' in
      (v' :: rest', out'')
  end.

(** ** Execute *)

Definition StopScan (frames : list Z) (playing : bool) : bool * Z :=
  match frames with
  | Frame :: _ => if playing then (true, Frame) else (false, (-1)%Z)
  | [] => (false, (-1)%Z)
  end.

(** A failed Play leaves [bTriggeredStopThisBlock] as it is and triggers
    OnFinished unless the trigger already fired in this block. *)
Fixpoint PlayLoop (h : Host) (inp : Inputs) (frames : list Z)
  (bTriggeredStopThisBlock : bool) (s : Operator) : bool * Operator :=
  match frames with
  | [] => (bTriggeredStopThisBlock, s)
  | Frame :: rest =>
      let '(bStartSuccess, s) := TryStartPlayback h inp Frame s in
      if bStartSuccess then PlayLoop h inp rest false s
      else
        let s := set_bIsPlaying false s in
        PlayLoop h inp rest bTriggeredStopThisBlock
          (if negb (IsTriggeredInBlock (OnFinishedTrigger s))
           then Finish Frame s else s)
  end.

Definition StopNow (s : Operator) : Operator :=
  ZeroOutputs (Finish 0 (set_bIsPlaying false (ResetVoices s))).

Definition ClearForMixing (bWaveJustChanged : bool) (s : Operator) : Operator :=
  if negb bWaveJustChanged then
    let n := Z.to_nat (BlockSize s) in
    set_AudioOutputRight (MemsetZero n (AudioOutputRight s))
      (set_AudioOutputLeft (MemsetZero n (AudioOutputLeft s)) s)
  else s.

Definition ScheduleSpawnRender (h : Host) (inp : Inputs) (s : Operator)
  : Operator :=
  let '(Samples, GrainsToTriggerThisBlock) :=
    Scheduler (SamplesPerGrainInterval (SampleRate s) inp)
      (inject_Z (BlockSize s)) (SamplesUntilNextGrain s) in
  let s := set_SamplesUntilNextGrain Samples s in
  let s := SpawnLoop h inp (Z.to_nat GrainsToTriggerThisBlock) s in
  let '(voices, (outL, outR)) :=
    RenderVoices h inp (BlockSize s) 0 (GrainVoices s)
      (AudioOutputLeft s, AudioOutputRight s) in
  set_AudioOutputRight outR
    (set_AudioOutputLeft outL (set_GrainVoices voices s)).

Definition WaveChanged (inp : Inputs) (s : Operator) : bool :=
  isSome (SoundWaveProxy inp)
  && negb (ProxyEq (CurrentWaveProxy s) (SoundWaveProxy inp)).

Definition SanityAndMix (h : Host) (inp : Inputs) (bWaveJustChanged : bool)
  (s : Operator) : Operator :=
  if (CurrentNumChannels s <=? 0)%Z
     || negb (ConvertDeinterleave s)
     || Qleb (CachedSoundWaveDuration s) 0
  then StopNow s
  else ScheduleSpawnRender h inp (ClearForMixing bWaveJustChanged s).

Definition ExecutePlaying (h : Host) (inp : Inputs) (s : Operator) : Operator :=
  if negb (isSome (CurrentWaveProxy s)) then StopNow s
  else
  match SoundWaveProxy inp with
  | Some InputProxy =>
      if WaveChanged inp s then
        let '(ok, s) := InitializeWaveData h InputProxy s in
        if negb ok then StopNow s else SanityAndMix h inp true s
      else SanityAndMix h inp false s
  | None => StopNow s
  end.

Definition ProcessTriggers (h : Host) (inp : Inputs) (s : Operator) : Operator :=
  let s :=
    set_OnGrainTriggered (AdvanceBlock (OnGrainTriggered s))
      (set_OnFinishedTrigger (AdvanceBlock (OnFinishedTrigger s))
        (set_OnPlayTrigger (AdvanceBlock (OnPlayTrigger s)) s)) in
  let '(bTriggeredStopThisBlock, StopFrame) :=
    StopScan (StopTrigger inp) (bIsPlaying s) in
  let '(bTriggeredStopThisBlock, s) :=
    PlayLoop h inp (PlayTrigger inp) bTriggeredStopThisBlock s in
  if bTriggeredStopThisBlock && bIsPlaying s then
    Finish StopFrame (ResetVoices (set_bIsPlaying false s))
  else s.

Definition Execute (h : Host) (inp : Inputs) (s : Operator) : Operator :=
  let s := ProcessTriggers h inp s in
  if negb (bIsPlaying s) then
    let s := ZeroOutputs s in
    if isSome (CurrentWaveProxy s)
       || (0 <? CurrentNumChannels s)%Z
       || ConvertDeinterleave s
    then ClearWaveData (ResetVoices s)
    else s
  else ExecutePlaying h inp s.

(** ** Reset *)

Definition Reset (s : Operator) : Operator :=
  mkOperator (SampleRate s) (BlockSize s) false 0
    (map ResetVoice (GrainVoices s)) None 0 0%Z false
    [] [] []
    (ZeroBuffer (AudioOutputLeft s)) (ZeroBuffer (AudioOutputRight s))
    (FRandCalls s).

End FGranularSynthOperator_Step8.

(** * FGranularWavePlayerSmoothOperator (GranularWavePlayerSmoothNode.cpp) *)

Module FGranularWavePlayerSmoothOperator.

Definition MaxGrainVoices : Z := 32.
Definition MinGrainDurationSeconds : Q := 5 # 1000.
Definition MaxAbsPitchShiftSemitones : Q := 60.
Definition DeinterleaveBlockSizeFrames : Z := 256.

Inductive EGrainWindowShape : Type :=
| Linear | Parabolic | Gaussian | Cosine | Hann | Blackman | Triangular
| Rectangular.

(** [static_cast<EGrainWindowShape>] of an index already clamped to 0..7. *)
Definition WindowShapeOfIndex (i : Z) : EGrainWindowShape :=
  if (i =? 0)%Z then Linear
  else if (i =? 1)%Z then Parabolic
  else if (i =? 2)%Z then Gaussian
  else if (i =? 3)%Z then Cosine
  else if (i =? 4)%Z then Hann
  else if (i =? 5)%Z then Blackman
  else if (i =? 6)%Z then Triangular
  else Rectangular.

Record FWavePlayerSmoothGrainVoice : Type := mkVoice {
  Reader : option FSettings;
  Resampler : option Q;
  bIsActive : bool;
  NumChannels : Z;
  SamplesRemaining : Z;
  SamplesPlayed : Z;
  TotalGrainSamples : Z;
  PanPosition : Q;
  VolumeScale : Q;
  PhaseOffset : Q;
  EnvelopeCurve : Q;
  SmoothingAmount : Q
}.

Definition set_Reader (x : option FSettings) (r : FWavePlayerSmoothGrainVoice) : FWavePlayerSmoothGrainVoice :=
  mkVoice x (Resampler r) (bIsActive r) (NumChannels r) (SamplesRemaining r) (SamplesPlayed r) (TotalGrainSamples r) (PanPosition r) (VolumeScale r) (PhaseOffset r) (EnvelopeCurve r) (SmoothingAmount r).

Definition set_Resampler (x : option Q) (r : FWavePlayerSmoothGrainVoice) : FWavePlayerSmoothGrainVoice :=
  mkVoice (Reader r) x (bIsActive r) (NumChannels r) (SamplesRemaining r) (SamplesPlayed r) (TotalGrainSamples r) (PanPosition r) (VolumeScale r) (PhaseOffset r) (EnvelopeCurve r) (SmoothingAmount r).

Definition set_bIsActive (x : bool) (r : FWavePlayerSmoothGrainVoice) : FWavePlayerSmoothGrainVoice :=
  mkVoice (Reader r) (Resampler r) x (NumChannels r) (SamplesRemaining r) (SamplesPlayed r) (TotalGrainSamples r) (PanPosition r) (VolumeScale r) (PhaseOffset r) (EnvelopeCurve r) (SmoothingAmount r).

Definition set_NumChannels (x : Z) (r : FWavePlayerSmoothGrainVoice) : FWavePlayerSmoothGrainVoice :=
  mkVoice (Reader r) (Resampler r) (bIsActive r) x (SamplesRemaining r) (SamplesPlayed r) (TotalGrainSamples r) (PanPosition r) (VolumeScale r) (PhaseOffset r) (EnvelopeCurve r) (SmoothingAmount r).

Definition set_SamplesRemaining (x : Z) (r : FWavePlayerSmoothGrainVoice) : FWavePlayerSmoothGrainVoice :=
  mkVoice (Reader r) (Resampler r) (bIsActive r) (NumChannels r) x (SamplesPlayed r) (TotalGrainSamples r) (PanPosition r) (VolumeScale r) (PhaseOffset r) (EnvelopeCurve r) (SmoothingAmount r).

Definition set_SamplesPlayed (x : Z) (r : FWavePlayerSmoothGrainVoice) : FWavePlayerSmoothGrainVoice :=
  mkVoice (Reader r) (Resampler r) (bIsActive r) (NumChannels r) (SamplesRemaining r) x (TotalGrainSamples r) (PanPosition r) (VolumeScale r) (PhaseOffset r) (EnvelopeCurve r) (SmoothingAmount r).

Definition set_TotalGrainSamples (x : Z) (r : FWavePlayerSmoothGrainVoice) : FWavePlayerSmoothGrainVoice :=
  mkVoice (Reader r) (Resampler r) (bIsActive r) (NumChannels r) (SamplesRemaining r) (SamplesPlayed r) x (PanPosition r) (VolumeScale r) (PhaseOffset r) (EnvelopeCurve r) (SmoothingAmount r).

Definition set_PanPosition (x : Q) (r : FWavePlayerSmoothGrainVoice) : FWavePlayerSmoothGrainVoice :=
  mkVoice (Reader r) (Resampler r) (bIsActive r) (NumChannels r) (SamplesRemaining r) (SamplesPlayed r) (TotalGrainSamples r) x (VolumeScale r) (PhaseOffset r) (EnvelopeCurve r) (SmoothingAmount r).

Definition set_VolumeScale (x : Q) (r : FWavePlayerSmoothGrainVoice) : FWavePlayerSmoothGrainVoice :=
  mkVoice (Reader r) (Resampler r) (bIsActive r) (NumChannels r) (SamplesRemaining r) (SamplesPlayed r) (TotalGrainSamples r) (PanPosition r) x (PhaseOffset r) (EnvelopeCurve r) (SmoothingAmount r).

Definition set_PhaseOffset (x : Q) (r : FWavePlayerSmoothGrainVoice) : FWavePlayerSmoothGrainVoice :=
  mkVoice (Reader r) (Resampler r) (bIsActive r) (NumChannels r) (SamplesRemaining r) (SamplesPlayed r) (TotalGrainSamples r) (PanPosition r) (VolumeScale r) x (EnvelopeCurve r) (SmoothingAmount r).

Definition set_EnvelopeCurve (x : Q) (r : FWavePlayerSmoothGrainVoice) : FWavePlayerSmoothGrainVoice :=
  mkVoice (Reader r) (Resampler r) (bIsActive r) (NumChannels r) (SamplesRemaining r) (SamplesPlayed r) (TotalGrainSamples r) (PanPosition r) (VolumeScale r) (PhaseOffset r) x (SmoothingAmount r).

Definition set_SmoothingAmount (x : Q) (r : FWavePlayerSmoothGrainVoice) : FWavePlayerSmoothGrainVoice :=
  mkVoice (Reader r) (Resampler r) (bIsActive r) (NumChannels r) (SamplesRemaining r) (SamplesPlayed r) (TotalGrainSamples r) (PanPosition r) (VolumeScale r) (PhaseOffset r) (EnvelopeCurve r) x.

Definition DefaultVoice : FWavePlayerSmoothGrainVoice :=
  mkVoice None None false 0 0 0 0 0 1 0 1 0.

(** The scratch copy [EnvelopeBuffer] of the filtered output is not kept. *)
Record Operator : Type := mkOperator {
  SampleRate : Q;
  BlockSize : Z;
  bIsPlaying : bool;
  bPreviousFreezeState : bool;
  SamplesUntilNextGrain : Q;
  GrainVoices : list FWavePlayerSmoothGrainVoice;
  CurrentWaveProxy : option Proxy;
  CachedSoundWaveDuration : Q;
  CurrentNumChannels : Z;
  ConvertDeinterleave : bool;
  CurrentPlaybackPositionSeconds : Q;
  PrevGrainValue0 : Q;
  PrevGrainValue1 : Q;
  OnPlayTrigger : list Z;
  OnFinishedTrigger : list Z;
  OnGrainTriggered : list Z;
  AudioOutputLeft : list Q;
  AudioOutputRight : list Q;
  TimeOutput : Q;
  FRandCalls : nat
}.

Definition set_bIsPlaying (x : bool) (r : Operator) : Operator :=
  mkOperator (SampleRate r) (BlockSize r) x (bPreviousFreezeState r) (SamplesUntilNextGrain r) (GrainVoices r) (CurrentWaveProxy r) (CachedSoundWaveDuration r) (CurrentNumChannels r) (ConvertDeinterleave r) (CurrentPlaybackPositionSeconds r) (PrevGrainValue0 r) (PrevGrainValue1 r) (OnPlayTrigger r) (OnFinishedTrigger r) (OnGrainTriggered r) (AudioOutputLeft r) (AudioOutputRight r) (TimeOutput r) (FRandCalls r).

Definition set_bPreviousFreezeState (x : bool) (r : Operator) : Operator :=
  mkOperator (SampleRate r) (BlockSize r) (bIsPlaying r) x (SamplesUntilNextGrain r) (GrainVoices r) (CurrentWaveProxy r) (CachedSoundWaveDuration r) (CurrentNumChannels r) (ConvertDeinterleave r) (CurrentPlaybackPositionSeconds r) (PrevGrainValue0 r) (PrevGrainValue1 r) (OnPlayTrigger r) (OnFinishedTrigger r) (OnGrainTriggered r) (AudioOutputLeft r) (AudioOutputRight r) (TimeOutput r) (FRandCalls r).

Definition set_SamplesUntilNextGrain (x : Q) (r : Operator) : Operator :=
  mkOperator (SampleRate r) (BlockSize r) (bIsPlaying r) (bPreviousFreezeState r) x (GrainVoices r) (CurrentWaveProxy r) (CachedSoundWaveDuration r) (CurrentNumChannels r) (ConvertDeinterleave r) (CurrentPlaybackPositionSeconds r) (PrevGrainValue0 r) (PrevGrainValue1 r) (OnPlayTrigger r) (OnFinishedTrigger r) (OnGrainTriggered r) (AudioOutputLeft r) (AudioOutputRight r) (TimeOutput r) (FRandCalls r).

Definition set_GrainVoices (x : list FWavePlayerSmoothGrainVoice) (r : Operator) : Operator :=
  mkOperator (SampleRate r) (BlockSize r) (bIsPlaying r) (bPreviousFreezeState r) (SamplesUntilNextGrain r) x (CurrentWaveProxy r) (CachedSoundWaveDuration r) (CurrentNumChannels r) (ConvertDeinterleave r) (CurrentPlaybackPositionSeconds r) (PrevGrainValue0 r) (PrevGrainValue1 r) (OnPlayTrigger r) (OnFinishedTrigger r) (OnGrainTriggered r) (AudioOutputLeft r) (AudioOutputRight r) (TimeOutput r) (FRandCalls r).

Definition set_CurrentWaveProxy (x : option Proxy) (r : Operator) : Operator :=
  mkOperator (SampleRate r) (BlockSize r) (bIsPlaying r) (bPreviousFreezeState r) (SamplesUntilNextGrain r) (GrainVoices r) x (CachedSoundWaveDuration r) (CurrentNumChannels r) (ConvertDeinterleave r) (CurrentPlaybackPositionSeconds r) (PrevGrainValue0 r) (PrevGrainValue1 r) (OnPlayTrigger r) (OnFinishedTrigger r) (OnGrainTriggered r) (AudioOutputLeft r) (AudioOutputRight r) (TimeOutput r) (FRandCalls r).

Definition set_CachedSoundWaveDuration (x : Q) (r : Operator) : Operator :=
  mkOperator (SampleRate r) (BlockSize r) (bIsPlaying r) (bPreviousFreezeState r) (SamplesUntilNextGrain r) (GrainVoices r) (CurrentWaveProxy r) x (CurrentNumChannels r) (ConvertDeinterleave r) (CurrentPlaybackPositionSeconds r) (PrevGrainValue0 r) (PrevGrainValue1 r) (OnPlayTrigger r) (OnFinishedTrigger r) (OnGrainTriggered r) (AudioOutputLeft r) (AudioOutputRight r) (TimeOutput r) (FRandCalls r).

Definition set_CurrentNumChannels (x : Z) (r : Operator) : Operator :=
  mkOperator (SampleRate r) (BlockSize r) (bIsPlaying r) (bPreviousFreezeState r) (SamplesUntilNextGrain r) (GrainVoices r) (CurrentWaveProxy r) (CachedSoundWaveDuration r) x (ConvertDeinterleave r) (CurrentPlaybackPositionSeconds r) (PrevGrainValue0 r) (PrevGrainValue1 r) (OnPlayTrigger r) (OnFinishedTrigger r) (OnGrainTriggered r) (AudioOutputLeft r) (AudioOutputRight r) (TimeOutput r) (FRandCalls r).

Definition set_ConvertDeinterleave (x : bool) (r : Operator) : Operator :=
  mkOperator (SampleRate r) (BlockSize r) (bIsPlaying r) (bPreviousFreezeState r) (SamplesUntilNextGrain r) (GrainVoices r) (CurrentWaveProxy r) (CachedSoundWaveDuration r) (CurrentNumChannels r) x (CurrentPlaybackPositionSeconds r) (PrevGrainValue0 r) (PrevGrainValue1 r) (OnPlayTrigger r) (OnFinishedTrigger r) (OnGrainTriggered r) (AudioOutputLeft r) (AudioOutputRight r) (TimeOutput r) (FRandCalls r).

Definition set_CurrentPlaybackPositionSeconds (x : Q) (r : Operator) : Operator :=
  mkOperator (SampleRate r) (BlockSize r) (bIsPlaying r) (bPreviousFreezeState r) (SamplesUntilNextGrain r) (GrainVoices r) (CurrentWaveProxy r) (CachedSoundWaveDuration r) (CurrentNumChannels r) (ConvertDeinterleave r) x (PrevGrainValue0 r) (PrevGrainValue1 r) (OnPlayTrigger r) (OnFinishedTrigger r) (OnGrainTriggered r) (AudioOutputLeft r) (AudioOutputRight r) (TimeOutput r) (FRandCalls r).

Definition set_PrevGrainValue0 (x : Q) (r : Operator) : Operator :=
  mkOperator (SampleRate r) (BlockSize r) (bIsPlaying r) (bPreviousFreezeState r) (SamplesUntilNextGrain r) (GrainVoices r) (CurrentWaveProxy r) (CachedSoundWaveDuration r) (CurrentNumChannels r) (ConvertDeinterleave r) (CurrentPlaybackPositionSeconds r) x (PrevGrainValue1 r) (OnPlayTrigger r) (OnFinishedTrigger r) (OnGrainTriggered r) (AudioOutputLeft r) (AudioOutputRight r) (TimeOutput r) (FRandCalls r).

Definition set_PrevGrainValue1 (x : Q) (r : Operator) : Operator :=
  mkOperator (SampleRate r) (BlockSize r) (bIsPlaying r) (bPreviousFreezeState r) (SamplesUntilNextGrain r) (GrainVoices r) (CurrentWaveProxy r) (CachedSoundWaveDuration r) (CurrentNumChannels r) (ConvertDeinterleave r) (CurrentPlaybackPositionSeconds r) (PrevGrainValue0 r) x (OnPlayTrigger r) (OnFinishedTrigger r) (OnGrainTriggered r) (AudioOutputLeft r) (AudioOutputRight r) (TimeOutput r) (FRandCalls r).

Definition set_OnPlayTrigger (x : list Z) (r : Operator) : Operator :=
  mkOperator (SampleRate r) (BlockSize r) (bIsPlaying r) (bPreviousFreezeState r) (SamplesUntilNextGrain r) (GrainVoices r) (CurrentWaveProxy r) (CachedSoundWaveDuration r) (CurrentNumChannels r) (ConvertDeinterleave r) (CurrentPlaybackPositionSeconds r) (PrevGrainValue0 r) (PrevGrainValue1 r) x (OnFinishedTrigger r) (OnGrainTriggered r) (AudioOutputLeft r) (AudioOutputRight r) (TimeOutput r) (FRandCalls r).

Definition set_OnFinishedTrigger (x : list Z) (r : Operator) : Operator :=
  mkOperator (SampleRate r) (BlockSize r) (bIsPlaying r) (bPreviousFreezeState r) (SamplesUntilNextGrain r) (GrainVoices r) (CurrentWaveProxy r) (CachedSoundWaveDuration r) (CurrentNumChannels r) (ConvertDeinterleave r) (CurrentPlaybackPositionSeconds r) (PrevGrainValue0 r) (PrevGrainValue1 r) (OnPlayTrigger r) x (OnGrainTriggered r) (AudioOutputLeft r) (AudioOutputRight r) (TimeOutput r) (FRandCalls r).

Definition set_OnGrainTriggered (x : list Z) (r : Operator) : Operator :=
  mkOperator (SampleRate r) (BlockSize r) (bIsPlaying r) (bPreviousFreezeState r) (SamplesUntilNextGrain r) (GrainVoices r) (CurrentWaveProxy r) (CachedSoundWaveDuration r) (CurrentNumChannels r) (ConvertDeinterleave r) (CurrentPlaybackPositionSeconds r) (PrevGrainValue0 r) (PrevGrainValue1 r) (OnPlayTrigger r) (OnFinishedTrigger r) x (AudioOutputLeft r) (AudioOutputRight r) (TimeOutput r) (FRandCalls r).

Definition set_AudioOutputLeft (x : list Q) (r : Operator) : Operator :=
  mkOperator (SampleRate r) (BlockSize r) (bIsPlaying r) (bPreviousFreezeState r) (SamplesUntilNextGrain r) (GrainVoices r) (CurrentWaveProxy r) (CachedSoundWaveDuration r) (CurrentNumChannels r) (ConvertDeinterleave r) (CurrentPlaybackPositionSeconds r) (PrevGrainValue0 r) (PrevGrainValue1 r) (OnPlayTrigger r) (OnFinishedTrigger r) (OnGrainTriggered r) x (AudioOutputRight r) (TimeOutput r) (FRandCalls r).

Definition set_AudioOutputRight (x : list Q) (r : Operator) : Operator :=
  mkOperator (SampleRate r) (BlockSize r) (bIsPlaying r) (bPreviousFreezeState r) (SamplesUntilNextGrain r) (GrainVoices r) (CurrentWaveProxy r) (CachedSoundWaveDuration r) (CurrentNumChannels r) (ConvertDeinterleave r) (CurrentPlaybackPositionSeconds r) (PrevGrainValue0 r) (PrevGrainValue1 r) (OnPlayTrigger r) (OnFinishedTrigger r) (OnGrainTriggered r) (AudioOutputLeft r) x (TimeOutput r) (FRandCalls r).

Definition set_TimeOutput (x : Q) (r : Operator) : Operator :=
  mkOperator (SampleRate r) (BlockSize r) (bIsPlaying r) (bPreviousFreezeState r) (SamplesUntilNextGrain r) (GrainVoices r) (CurrentWaveProxy r) (CachedSoundWaveDuration r) (CurrentNumChannels r) (ConvertDeinterleave r) (CurrentPlaybackPositionSeconds r) (PrevGrainValue0 r) (PrevGrainValue1 r) (OnPlayTrigger r) (OnFinishedTrigger r) (OnGrainTriggered r) (AudioOutputLeft r) (AudioOutputRight r) x (FRandCalls r).

Definition set_FRandCalls (x : nat) (r : Operator) : Operator :=
  mkOperator (SampleRate r) (BlockSize r) (bIsPlaying r) (bPreviousFreezeState r) (SamplesUntilNextGrain r) (GrainVoices r) (CurrentWaveProxy r) (CachedSoundWaveDuration r) (CurrentNumChannels r) (ConvertDeinterleave r) (CurrentPlaybackPositionSeconds r) (PrevGrainValue0 r) (PrevGrainValue1 r) (OnPlayTrigger r) (OnFinishedTrigger r) (OnGrainTriggered r) (AudioOutputLeft r) (AudioOutputRight r) (TimeOutput r) x.

Record Inputs : Type := mkInputs {
  PlayTrigger : list Z;
  StopTrigger : list Z;
  IsSoundWaveValid : bool;
  SoundWaveProxy : option Proxy;
  GrainDurationMsInput : Q;
  GrainsPerSecondInput : Q;
  PlaybackSpeedInput : Q;
  PlayPositionInput : Q;
  StartPointRandMsInput : Q;
  DurationRandMsInput : Q;
  AttackTimePercentInput : Q;
  DecayTimePercentInput : Q;
  AttackCurveInput : Q;
  DecayCurveInput : Q;
  PitchShiftInput : Q;
  PitchRandInput : Q;
  PanInput : Q;
  PanRandInput : Q;
  TimeJitterInput : Q;
  VolumeRandInput : Q;
  SmoothingInput : Q;
  GrainOverlapInput : Q;
  GrainDensityInput : Z;
  WindowShapeInput : Z;
  XfadeCurveInput : Z
}.

(** The constructor.  [int32 CurrentNumChannels;] has no initializer and
    the constructor does not assign it: the member holds whatever its memory
    held, the argument [Indeterminate]. *)
Definition Construct (InSampleRate : Q) (NumFramesPerBlock : Z)
  (Indeterminate : Z) : Operator :=
  mkOperator InSampleRate NumFramesPerBlock false false 0
    (repeat DefaultVoice (Z.to_nat MaxGrainVoices))
    None 0 Indeterminate false 0 0 0
    [] [] []
    (repeat 0 (Z.to_nat NumFramesPerBlock))
    (repeat 0 (Z.to_nat NumFramesPerBlock))
    0 0%nat.

Definition ResetVoice (v : FWavePlayerSmoothGrainVoice)
  : FWavePlayerSmoothGrainVoice :=
  mkVoice None None false 0 0 0 0 0 1 0 1 0.

Definition ResetVoices (s : Operator) : Operator :=
  set_GrainVoices (map ResetVoice (GrainVoices s)) s.

Definition ClearWaveData (s : Operator) : Operator :=
  set_ConvertDeinterleave false
    (set_CurrentNumChannels 0%Z
      (set_CachedSoundWaveDuration 0
        (set_CurrentWaveProxy None s))).

Definition ZeroOutputs (s : Operator) : Operator :=
  set_AudioOutputRight (ZeroBuffer (AudioOutputRight s))
    (set_AudioOutputLeft (ZeroBuffer (AudioOutputLeft s)) s).

Definition Finish (frame : Z) (s : Operator) : Operator :=
  set_OnFinishedTrigger (TriggerFrame frame (OnFinishedTrigger s)) s.

(** ** InitializeWaveData *)

Definition InitializeWaveData (h : Host) (InSoundWaveProxy : Proxy)
  (s : Operator) : bool * Operator :=
  let s := set_CurrentWaveProxy (Some InSoundWaveProxy) s in
  match Reader_Create h InSoundWaveProxy (DefaultSettings h) with
  | Some TempReader =>
      let duration :=
        inject_Z (NumFramesInWave TempReader)
        / FMath.Max 1 (ReaderSampleRate TempReader) in
      let channels := ReaderNumChannels TempReader in
      let s := set_CurrentNumChannels channels
                 (set_CachedSoundWaveDuration duration s) in
      if (channels <=? 0)%Z || Qleb duration 0 then
        (false,
         set_ConvertDeinterleave false
           (set_CachedSoundWaveDuration 0 (set_CurrentNumChannels 0%Z s)))
      else if negb (Deinterleave_Create h channels) then
        (false,
         set_CachedSoundWaveDuration 0
           (set_CurrentNumChannels 0%Z (set_ConvertDeinterleave false s)))
      else
        (true, set_ConvertDeinterleave true s)
  | None => (false, s)
  end.

(** ** TriggerGrain *)

(** The start time after the two range checks of TriggerGrain, or [None]
    when the grain is refused. *)
Definition ClampStartTime (InSampleRate CachedDuration : Q)
  (InGrainDurationSamples : Z) (InStartTimeSeconds : Q) : option Q :=
  let InStartTimeSeconds := FMath.Max 0 InStartTimeSeconds in
  let DurationInSeconds := inject_Z InGrainDurationSamples / InSampleRate in
  if Qltb CachedDuration (InStartTimeSeconds + DurationInSeconds) then
    let InStartTimeSeconds := FMath.Max 0 (CachedDuration - DurationInSeconds) in
    if Qleb InStartTimeSeconds 0 || Qltb DurationInSeconds MinGrainDurationSeconds
    then None
    else Some InStartTimeSeconds
  else Some InStartTimeSeconds.

(** [DesiredDecodeSize = Max(InGrainDurationSamples, BlockSize * 2)], rounded
    up to a multiple of 128 in [uint32]. *)
Definition ReaderSettingsFor (InBlockSize InGrainDurationSamples : Z)
  (InStartTimeSeconds : Q) : FSettings :=
  mkSettings InStartTimeSeconds false
    (QuantizeDecodeSize
       (u32 (FMath.MaxZ InGrainDurationSamples (InBlockSize * 2))) 128).

Definition TriggerGrain (h : Host) (InSoundWaveProxy : option Proxy)
  (InGrainDurationSamples : Z)
  (InStartTimeSeconds InFrameRatio InPanPosition InVolumeScale
   InSmoothingAmount : Q) (InXfadeCurveType : Z)
  (s : Operator) : bool * Operator :=
  match InSoundWaveProxy with
  | None => (false, s)
  | Some proxy =>
  if (InGrainDurationSamples <=? 0)%Z || (CurrentNumChannels s <=? 0)%Z
  then (false, s)
  else
  match FindFreeVoice bIsActive (GrainVoices s) 0 with
  | None => (false, s)
  | Some VoiceIndex =>
    match ClampStartTime (SampleRate s) (CachedSoundWaveDuration s)
            InGrainDurationSamples InStartTimeSeconds with
    | None => (false, s)
    | Some InStartTimeSeconds =>
      let store v s :=
        set_GrainVoices (SetVoice (GrainVoices s) VoiceIndex v) s in
      let NewVoice := nth VoiceIndex (GrainVoices s) DefaultVoice in
      let ReaderSettings :=
        ReaderSettingsFor (BlockSize s) InGrainDurationSamples
          InStartTimeSeconds in
      match Reader_Create h proxy ReaderSettings with
      | None => (false, store (set_Reader None NewVoice) s)
      | Some _ =>
        let NewVoice :=
          set_Resampler (Some (Qabs InFrameRatio))
            (set_NumChannels (CurrentNumChannels s)
              (set_Reader (Some ReaderSettings) NewVoice)) in
        let d := FRandCalls s in
        let '(NewVoice, s) :=
          if Qltb 0 InSmoothingAmount then
            let PhaseRand := FRand h d * (5 # 100) * InSmoothingAmount in
            (set_PhaseOffset PhaseRand NewVoice, set_FRandCalls (d + 2)%nat s)
          else (NewVoice, s) in
        (true,
         store
           (set_EnvelopeCurve (1 - InSmoothingAmount * (3 # 10))
             (set_SmoothingAmount InSmoothingAmount
               (set_VolumeScale InVolumeScale
                 (set_PanPosition InPanPosition
                   (set_TotalGrainSamples InGrainDurationSamples
                     (set_SamplesPlayed 0%Z
                       (set_SamplesRemaining InGrainDurationSamples
                         (set_bIsActive true NewVoice))))))))
           s)
      end
    end
  end
  end.

(** ** TryStartPlayback *)

Definition TryStartPlayback (h : Host) (inp : Inputs) (InFrame : Z)
  (s : Operator) : bool * Operator :=
  let bWasPlayingBeforeAttempt := bIsPlaying s in
  let s := set_bIsPlaying false s in
  let finishIfWasPlaying s :=
    if bWasPlayingBeforeAttempt then Finish InFrame s else s in
  if negb (IsSoundWaveValid inp) then
    (false, ClearWaveData (ResetVoices (finishIfWasPlaying s)))
  else
  match SoundWaveProxy inp with
  | None => (false, ClearWaveData (ResetVoices (finishIfWasPlaying s)))
  | Some proxy =>
    let '(ok, s) := InitializeWaveData h proxy s in
    if negb ok then (false, ResetVoices (finishIfWasPlaying s))
    else
      let s := ResetVoices (set_bIsPlaying true s) in
      let s := set_SamplesUntilNextGrain 0 s in
      (true, set_OnPlayTrigger (TriggerFrame InFrame (OnPlayTrigger s)) s)
  end.

(** ** Parameters read from the input pins *)

Definition BaseGrainDurationSeconds (inp : Inputs) : Q :=
  FMath.Max MinGrainDurationSeconds (GrainDurationMsInput inp / 1000).
Definition MaxDurationRandSeconds (inp : Inputs) : Q :=
  FMath.Max 0 (DurationRandMsInput inp / 1000).
Definition GrainsPerSec (inp : Inputs) : Q :=
  FMath.Max (1 # 10) (GrainsPerSecondInput inp).
Definition SamplesPerGrainInterval (InSampleRate : Q) (inp : Inputs) : Q :=
  if Qltb 0 (GrainsPerSec inp) then InSampleRate / GrainsPerSec inp
  else FMath.FloatMax.
Definition PlaybackSpeed (inp : Inputs) : Q :=
  FMath.Clamp (PlaybackSpeedInput inp) 0 800 / 100.
(** [FMath::IsNearlyZero(PlaybackSpeed, 0.001f)]. *)
Definition bFreezed (inp : Inputs) : bool :=
  Qleb (Qabs (PlaybackSpeed inp)) (1 # 1000).
Definition DesiredGrainDensity (inp : Inputs) : Z :=
  FMath.ClampZ (GrainDensityInput inp) 1 MaxGrainVoices.
Definition TimeJitterMs (inp : Inputs) : Q := FMath.Max 0 (TimeJitterInput inp).
Definition GrainWindowShape (inp : Inputs) : EGrainWindowShape :=
  WindowShapeOfIndex (FMath.ClampZ (WindowShapeInput inp) 0 7).
Definition VolumeRandPercent (inp : Inputs) : Q :=
  FMath.Clamp (VolumeRandInput inp) 0 100.
Definition Smoothing (inp : Inputs) : Q :=
  FMath.Clamp (SmoothingInput inp) 0 100 / 100.
Definition GrainOverlap (inp : Inputs) : Q :=
  FMath.Clamp (GrainOverlapInput inp) 1 5.
Definition XfadeCurveIndex (inp : Inputs) : Z :=
  FMath.ClampZ (XfadeCurveInput inp) 0 2.
Definition MaxStartPointRandSeconds (inp : Inputs) : Q :=
  FMath.Max 0 (StartPointRandMsInput inp / 1000).
Definition AttackPercent (inp : Inputs) : Q :=
  FMath.Clamp (AttackTimePercentInput inp) 0 1.
Definition DecayPercent (inp : Inputs) : Q :=
  FMath.Clamp (DecayTimePercentInput inp) 0 1.
Definition ClampedDecayPercent (inp : Inputs) : Q :=
  FMath.Min (DecayPercent inp) (1 - AttackPercent inp).
Definition BasePitchShiftSemitones (inp : Inputs) : Q :=
  FMath.Clamp (PitchShiftInput inp)
    (- MaxAbsPitchShiftSemitones) MaxAbsPitchShiftSemitones.
Definition PitchRandSemitones (inp : Inputs) : Q :=
  FMath.Max 0 (PitchRandInput inp).
Definition BasePan (inp : Inputs) : Q := FMath.Clamp (PanInput inp) (-1) 1.
Definition PanRandAmount (inp : Inputs) : Q :=
  FMath.Clamp (PanRandInput inp) 0 1.
Definition TimeJitterSamples (InSampleRate : Q) (inp : Inputs) : Q :=
  (TimeJitterMs inp / 1000) * InSampleRate.

(** ** Playback position *)

(** The freeze test, the reset of the grain timer on a change of mode, and
    the position of the block; returns the position grains start from. *)
Definition UpdatePosition (inp : Inputs) (s : Operator) : bool * Q * Operator :=
  let bFreezeStateChanged := negb (Bool.eqb (bFreezed inp) (bPreviousFreezeState s)) in
  let s := set_bPreviousFreezeState (bFreezed inp) s in
  let s :=
    if bFreezeStateChanged && bIsPlaying s
    then set_SamplesUntilNextGrain 0 s else s in
  let cached := CachedSoundWaveDuration s in
  if bFreezed inp then
    let PlayPosition := FMath.Clamp (PlayPositionInput inp) 0 100 / 100 in
    let MaxValidPosition :=
      FMath.Max 0
        (cached - (BaseGrainDurationSeconds inp + MaxDurationRandSeconds inp)) in
    let SafePlayPosition := FMath.Min PlayPosition (MaxValidPosition / cached) in
    let NewPositionInSeconds := SafePlayPosition * cached in
    let s :=
      if Qltb (1 # 100)
           (Qabs (NewPositionInSeconds - CurrentPlaybackPositionSeconds s))
      then set_SamplesUntilNextGrain 0 s else s in
    let s := set_CurrentPlaybackPositionSeconds NewPositionInSeconds s in
    (bFreezeStateChanged, NewPositionInSeconds,
     set_TimeOutput NewPositionInSeconds s)
  else
    let BlockDurationSeconds := inject_Z (BlockSize s) / SampleRate s in
    let pos := CurrentPlaybackPositionSeconds s in
    let pos :=
      if negb bFreezeStateChanged
      then pos + BlockDurationSeconds * PlaybackSpeed inp else pos in
    let pos :=
      if Qleb cached pos && Qltb 0 cached then FMath.Fmod pos cached else pos in
    (bFreezeStateChanged, pos,
     set_TimeOutput pos (set_CurrentPlaybackPositionSeconds pos s)).

Definition ClampedBaseStartPointSeconds (CachedDuration PositionInSeconds : Q)
  : Q :=
  let BaseStartPointSeconds := FMath.Max 0 PositionInSeconds in
  let BaseEndPointSeconds := CachedDuration in
  let EffectiveEndPointSeconds :=
    if Qleb BaseEndPointSeconds 0 || Qltb CachedDuration BaseEndPointSeconds
    then CachedDuration else BaseEndPointSeconds in
  FMath.Min BaseStartPointSeconds
    (EffectiveEndPointSeconds - MinGrainDurationSeconds).

Definition ClampedMaxStartTime (inp : Inputs)
  (CachedDuration PositionInSeconds : Q) : Q :=
  let base := ClampedBaseStartPointSeconds CachedDuration PositionInSeconds in
  let BaseEndPointSeconds := CachedDuration in
  let EffectiveEndPointSeconds :=
    if Qleb BaseEndPointSeconds 0 || Qltb CachedDuration BaseEndPointSeconds
    then CachedDuration else BaseEndPointSeconds in
  let PotentialMaxStartTime := base + MaxStartPointRandSeconds inp in
  let ValidRegionEndTime :=
    FMath.Max 0 (EffectiveEndPointSeconds - MinGrainDurationSeconds) in
  let clamped := FMath.Clamp PotentialMaxStartTime base ValidRegionEndTime in
  if Qltb clamped base then base else clamped.

(** ** Scheduler

    The jitter added to the counter may be negative and larger than the
    interval, so the loop need not end; it is run on a budget of iterations
    and yields [None] when the budget is spent with a grain still due. *)

Definition CountActive (vs : list FWavePlayerSmoothGrainVoice) : Z :=
  Z.of_nat (length (filter bIsActive vs)).

Fixpoint SchedulerLoop (h : Host) (Interval Jitter ElapsedSamples : Q)
  (Desired : Z) (TriggerProbability : Q) (fuel : nat)
  (Samples : Q) (Grains ActiveVoiceCount : Z) (d : nat)
  : option (Q * Z * nat) :=
  if Qleb Samples ElapsedSamples then
    match fuel with
    | O => None
    | S fuel' =>
        let '(Samples, d) :=
          if Qltb 0 Jitter
          then (Samples + FMath.FRandRange (- Jitter) Jitter (FRand h d), S d)
          else (Samples, d) in
        let '(trigger, d) :=
          if (ActiveVoiceCount <? Desired)%Z
          then (Qleb (FRand h d) TriggerProbability, S d)
          else (false, d) in
        SchedulerLoop h Interval Jitter ElapsedSamples Desired
          TriggerProbability fuel' (Samples + Interval)
          (if trigger then Grains + 1 else Grains)%Z
          (if trigger then ActiveVoiceCount + 1 else ActiveVoiceCount)%Z d
    end
  else Some (Samples, Grains, d).

Definition Scheduler (h : Host) (inp : Inputs) (fuel : nat)
  (bFreezeStateChanged : bool) (s : Operator) : option (Z * Operator) :=
  let Interval := SamplesPerGrainInterval (SampleRate s) inp in
  let ElapsedSamples := inject_Z (BlockSize s) in
  if bFreezeStateChanged then Some (FMath.MaxZ 2 0, s)
  else if Qltb 0 Interval && Qltb Interval FMath.FloatMax then
    let TriggerProbability :=
      FMath.Min 1
        (inject_Z (DesiredGrainDensity inp) / inject_Z MaxGrainVoices) in
    match
      SchedulerLoop h Interval (TimeJitterSamples (SampleRate s) inp)
        ElapsedSamples (DesiredGrainDensity inp) TriggerProbability fuel
        (SamplesUntilNextGrain s) 0 (CountActive (GrainVoices s))
        (FRandCalls s)
    with
    | None => None
    | Some (Samples, Grains, d) =>
        Some (Grains,
              set_FRandCalls d
                (set_SamplesUntilNextGrain (Samples - ElapsedSamples) s))
    end
  else Some (0%Z, s).

(** *** The scheduler in binary32

    [SchedulerLoop] keeps the grain counter in exact arithmetic.  The code
    keeps it in a [float]: each [SamplesUntilNextGrain += ...] stores the
    float nearest to the sum, which is the counter itself when the addend is
    small against it.  The jitter added is the float [FMath::RandRange]
    returns. *)

Fixpoint SchedulerLoop32 (h : Host) (Interval Jitter ElapsedSamples : Q)
  (Desired : Z) (TriggerProbability : Q) (fuel : nat)
  (Samples : Q) (Grains ActiveVoiceCount : Z) (d : nat)
  : option (Q * Z * nat) :=
  if Qleb Samples ElapsedSamples then
    match fuel with
    | O => None
    | S fuel' =>
        let '(Samples, d) :=
          if Qltb 0 Jitter
          then (Binary32.Add Samples
                  (Binary32.FRandRange (- Jitter) Jitter (FRand h d)), S d)
          else (Samples, d) in
        let '(trigger, d) :=
          if (ActiveVoiceCount <? Desired)%Z
          then (Qleb (FRand h d) TriggerProbability, S d)
          else (false, d) in
        SchedulerLoop32 h Interval Jitter ElapsedSamples Desired
          TriggerProbability fuel' (Binary32.Add Samples Interval)
          (if trigger then Grains + 1 else Grains)%Z
          (if trigger then ActiveVoiceCount + 1 else ActiveVoiceCount)%Z d
    end
  else Some (Samples, Grains, d).

Definition Scheduler32 (h : Host) (inp : Inputs) (fuel : nat)
  (bFreezeStateChanged : bool) (s : Operator) : option (Z * Operator) :=
  let Interval := SamplesPerGrainInterval (SampleRate s) inp in
  let ElapsedSamples := Binary32.Round (inject_Z (BlockSize s)) in
  if bFreezeStateChanged then Some (FMath.MaxZ 2 0, s)
  else if Qltb 0 Interval && Qltb Interval FMath.FloatMax then
    let TriggerProbability :=
      FMath.Min 1
        (inject_Z (DesiredGrainDensity inp) / inject_Z MaxGrainVoices) in
    match
      SchedulerLoop32 h Interval (TimeJitterSamples (SampleRate s) inp)
        ElapsedSamples (DesiredGrainDensity inp) TriggerProbability fuel
        (SamplesUntilNextGrain s) 0 (CountActive (GrainVoices s))
        (FRandCalls s)
    with
    | None => None
    | Some (Samples, Grains, d) =>
        Some (Grains,
              set_FRandCalls d
                (set_SamplesUntilNextGrain
                   (Binary32.Sub Samples ElapsedSamples) s))
    end
  else Some (0%Z, s).

(** ** Spawn loop *)

Definition SpawnGrain (h : Host) (inp : Inputs) (PositionInSeconds : Q)
  (s : Operator) : Operator :=
  let d := FRandCalls s in
  let cached := CachedSoundWaveDuration s in
  let GrainStartTimeSeconds :=
    if bFreezed inp then
      let UserJitter := MaxStartPointRandSeconds inp * (1 # 2) in
      let AppliedJitter := FMath.Max (5 # 10000) UserJitter in
      FMath.Clamp
        (FMath.FRandRange (PositionInSeconds - AppliedJitter)
           (PositionInSeconds + AppliedJitter) (FRand h d))
        0 (cached - MinGrainDurationSeconds)
    else
      FMath.FRandRange (ClampedBaseStartPointSeconds cached PositionInSeconds)
        (ClampedMaxStartTime inp cached PositionInSeconds) (FRand h d) in
  let DurationOffset :=
    FMath.FRandRange 0 (MaxDurationRandSeconds inp) (FRand h (d + 1)%nat) in
  let GrainDurationSeconds :=
    FMath.Max MinGrainDurationSeconds
      (BaseGrainDurationSeconds inp + DurationOffset) in
  let GrainDurationSamples :=
    FMath.CeilToInt (GrainDurationSeconds * SampleRate s) in
  let PitchOffset :=
    FMath.FRandRange (- PitchRandSemitones inp) (PitchRandSemitones inp)
      (FRand h (d + 2)%nat) in
  let TargetPitchShift :=
    FMath.Clamp (BasePitchShiftSemitones inp + PitchOffset)
      (- MaxAbsPitchShiftSemitones) MaxAbsPitchShiftSemitones in
  let '(GrainVolumeScale, d) :=
    if Qltb 0 (VolumeRandPercent inp)
    then (1 - FRand h (d + 3)%nat * (VolumeRandPercent inp / 100), (d + 4)%nat)
    else (1, (d + 3)%nat) in
  let FrameRatio := Qabs (Pow h 2 (TargetPitchShift / 12)) in
  let PanOffset :=
    FMath.FRandRange (- PanRandAmount inp) (PanRandAmount inp) (FRand h d) in
  let GrainPanPosition := FMath.Clamp (BasePan inp + PanOffset) (-1) 1 in
  let s := set_FRandCalls (S d) s in
  let '(ok, s) :=
    TriggerGrain h (CurrentWaveProxy s) GrainDurationSamples
      GrainStartTimeSeconds FrameRatio GrainPanPosition GrainVolumeScale
      (Smoothing inp) (XfadeCurveIndex inp) s in
  if ok then
    set_OnGrainTriggered
      (TriggerFrame
         (FMath.ClampZ (BlockSize s - Qtrunc (SamplesUntilNextGrain s))
            0 (BlockSize s - 1))
         (OnGrainTriggered s)) s
  else s.

Fixpoint SpawnLoop (h : Host) (inp : Inputs) (PositionInSeconds : Q)
  (count : nat) (s : Operator) : Operator :=
  match count with
  | O => s
  | S count' =>
      SpawnLoop h inp PositionInSeconds count'
        (SpawnGrain h inp PositionInSeconds s)
  end.

(** ** Envelope *)

Definition Square (x : Q) : Q := x * x.

Definition EnvelopeScale (h : Host) (inp : Inputs)
  (v : FWavePlayerSmoothGrainVoice) (CurrentFrameInGrain : Z) : Q :=
  let total := TotalGrainSamples v in
  let PI := UE_PI h in
  let OverlapCompensation := FMath.Min 1 (1 / GrainOverlap inp) in
  let AdaptiveAttackPercent :=
    FMath.Clamp (AttackPercent inp * OverlapCompensation) (5 # 100) (95 # 100) in
  let AdaptiveDecayPercent :=
    FMath.Clamp (ClampedDecayPercent inp * OverlapCompensation)
      (5 # 100) (95 # 100) in
  let AttackSamples := FMath.CeilToInt (inject_Z total * AdaptiveAttackPercent) in
  let DecaySamples := FMath.CeilToInt (inject_Z total * AdaptiveDecayPercent) in
  let attackRamp :=
    if (0 <? AttackSamples)%Z
    then inject_Z CurrentFrameInGrain / inject_Z AttackSamples else 1 in
  let decayRamp :=
    if (0 <? DecaySamples)%Z
    then inject_Z (total - CurrentFrameInGrain) / inject_Z DecaySamples else 0 in
  let x := inject_Z CurrentFrameInGrain / inject_Z total in
  match GrainWindowShape inp with
  | Linear =>
      if (CurrentFrameInGrain <? AttackSamples)%Z then attackRamp
      else if (total - DecaySamples <=? CurrentFrameInGrain)%Z then decayRamp
      else 1
  | Parabolic =>
      if (CurrentFrameInGrain <? AttackSamples)%Z then attackRamp * attackRamp
      else if (total - DecaySamples <=? CurrentFrameInGrain)%Z
      then decayRamp * decayRamp
      else 1
  | Gaussian =>
      let center :=
        inject_Z total * ((1 # 2) + SmoothingAmount v * (1 # 10)) in
      let position := inject_Z CurrentFrameInGrain in
      let width :=
        inject_Z total * ((1 # 4) + SmoothingAmount v * (1 # 10)) in
      Exp h (- (1 # 2) * Square ((position - center) / width))
  | Cosine =>
      let phase := PI * inject_Z CurrentFrameInGrain / inject_Z total in
      (1 # 2) * (1 - Cos h (2 * phase))
  | Hann =>
      let phaseOffset := PhaseOffset v * PI * (1 # 4) in
      let phase := PI * x + phaseOffset in
      if (XfadeCurveIndex inp =? 0)%Z then (1 # 2) * (1 - Cos h (2 * phase))
      else if (XfadeCurveIndex inp =? 1)%Z then Sin h phase * Sin h phase
      else if (XfadeCurveIndex inp =? 2)%Z then
        Pow h ((1 # 2) * (1 - Cos h (2 * phase)))
              ((7 # 10) + (6 # 10) * SmoothingAmount v)
      else 1
  | Blackman =>
      (42 # 100) - (1 # 2) * Cos h (2 * PI * x) + (8 # 100) * Cos h (4 * PI * x)
  | Triangular => 1 - Qabs (2 * x - 1)
  | Rectangular => 1
  end.

(** The softening pass applied to an envelope strictly between 0 and 1. *)
Definition Soften (h : Host) (v : FWavePlayerSmoothGrainVoice) (e : Q) : Q :=
  if Qltb 0 (SmoothingAmount v) && Qltb 0 e && Qltb e 1
  then Pow h e (1 - SmoothingAmount v * (3 # 10)) else e.

(** The factor the mono sample is multiplied by. *)
Definition EnvelopeGain (h : Host) (inp : Inputs)
  (v : FWavePlayerSmoothGrainVoice) (CurrentFrameInGrain : Z) : Q :=
  FMath.Clamp (Soften h v (EnvelopeScale h inp v CurrentFrameInGrain)) 0 1.

(** ** Rendering *)

Definition MonoSample (InNumChannels : Z) (r : FResampled) (i : nat) : Q :=
  if (InNumChannels =? 1)%Z then Channel0 r i
  else if (2 <=? InNumChannels)%Z then (Channel0 r i + Channel1 r i) * (1 # 2)
  else 0.

Definition EnvelopedMono (h : Host) (inp : Inputs)
  (v : FWavePlayerSmoothGrainVoice) (r : FResampled) : list Q :=
  map (fun i =>
         MonoSample (NumChannels v) r i
         * EnvelopeGain h inp v (SamplesPlayed v + Z.of_nat i))
      (seq 0 (FramesResampled r)).

Definition ReleaseVoice (v : FWavePlayerSmoothGrainVoice)
  : FWavePlayerSmoothGrainVoice :=
  set_Resampler None (set_Reader None (set_bIsActive false v)).

(** Pan and mix one voice's enveloped buffer, over any scalars. *)
Definition MixVoice {A : Type} (K : Scalar A) (mono : list A)
  (pan volume : A) (out : list A * list A) : list A * list A :=
  let angle := PanAngle K pan in
  let LeftGain := smul K (scos K angle) volume in
  let RightGain := smul K (ssin K angle) volume in
  (ArrayMixIn K mono (fst out) LeftGain, ArrayMixIn K mono (snd out) RightGain).

Definition RenderVoice (h : Host) (inp : Inputs) (InBlockSize : Z)
  (slot : nat) (v : FWavePlayerSmoothGrainVoice) (out : list Q * list Q)
  : FWavePlayerSmoothGrainVoice * (list Q * list Q) :=
  if bIsActive v then
    if negb (isSome (Reader v)) || negb (isSome (Resampler v)) then
      (set_bIsActive false v, out)
    else
      let OutputFramesToProcess := FMath.MinZ InBlockSize (SamplesRemaining v) in
      if (OutputFramesToProcess <=? 0)%Z then (ReleaseVoice v, out)
      else
        let r := Resample h slot (SamplesPlayed v) OutputFramesToProcess in
        let '(v, out) :=
          if bThrew r then (set_bIsActive false v, out)
          else
            let ActualFramesResampled := Z.of_nat (FramesResampled r) in
            if (0 <? ActualFramesResampled)%Z then
              (set_SamplesRemaining
                 (SamplesRemaining v - ActualFramesResampled)%Z
                 (set_SamplesPlayed
                    (SamplesPlayed v + ActualFramesResampled)%Z v),
               MixVoice (ScalarQ h) (EnvelopedMono h inp v r)
                 (PanPosition v) (VolumeScale v) out)
            else (v, out) in
        ((if (SamplesRemaining v <=? 0)%Z then ReleaseVoice v else v), out)
  else (v, out).

Fixpoint RenderVoices (h : Host) (inp : Inputs) (InBlockSize : Z)
  (slot : nat) (vs : list FWavePlayerSmoothGrainVoice) (out : list Q * list Q)
  : list FWavePlayerSmoothGrainVoice * (list Q * list Q) :=
  match vs with
  | [] => ([], out)
  | v :: rest =>
      let '(v', out') := RenderVoice h inp InBlockSize slot v out in
      let '(rest', out'') := RenderVoices h inp InBlockSize (S slot) rest out' in
      (v' :: rest', out'')
  end.

(** The one-pole low pass over the first [count] frames of one channel:
    [y = x * FilterCoeff + Prev * (1 - FilterCoeff)]. *)
Fixpoint OnePole (FilterCoeff : Q) (count : nat) (prev : Q) (b : list Q)
  : list Q * Q :=
  match count, b with
  | S count', x :: b' =>
      let y := x * FilterCoeff + prev * (1 - FilterCoeff) in
      let '(rest, last) := OnePole FilterCoeff count' y b' in
      (y :: rest, last)
  | _, _ => (b, prev)
  end.

Definition FinalSmoothingPass (inp : Inputs) (s : Operator) : Operator :=
  if Qltb (1 # 2) (Smoothing inp) then
    let FilterCoeff := FMath.Max (1 # 10) (1 - Smoothing inp * (1 # 2)) in
    let n := Z.to_nat (BlockSize s) in
    let '(outL, prev0) :=
      OnePole FilterCoeff n (PrevGrainValue0 s) (AudioOutputLeft s) in
    let '(outR, prev1) :=
      OnePole FilterCoeff n (PrevGrainValue1 s) (AudioOutputRight s) in
    set_PrevGrainValue1 prev1
      (set_PrevGrainValue0 prev0
        (set_AudioOutputRight outR (set_AudioOutputLeft outL s)))
  else s.

(** ** Execute *)

Definition StopScan (frames : list Z) (playing : bool) : bool * Z :=
  match frames with
  | Frame :: _ => if playing then (true, Frame) else (false, (-1)%Z)
  | [] => (false, (-1)%Z)
  end.

Fixpoint PlayLoop (h : Host) (inp : Inputs) (frames : list Z)
  (bTriggeredStopThisBlock : bool) (s : Operator) : bool * Operator :=
  match frames with
  | [] => (bTriggeredStopThisBlock, s)
  | Frame :: rest =>
      let '(bStartSuccess, s) := TryStartPlayback h inp Frame s in
      if bStartSuccess then PlayLoop h inp rest false s
      else
        let s := set_bIsPlaying false s in
        PlayLoop h inp rest bTriggeredStopThisBlock
          (if negb (IsTriggeredInBlock (OnFinishedTrigger s))
           then Finish Frame s else s)
  end.

Definition StopNow (s : Operator) : Operator :=
  ZeroOutputs (Finish 0 (set_bIsPlaying false (ResetVoices s))).

Definition ClearForMixing (bWaveJustChanged : bool) (s : Operator) : Operator :=
  if negb bWaveJustChanged then
    let n := Z.to_nat (BlockSize s) in
    set_AudioOutputRight (MemsetZero n (AudioOutputRight s))
      (set_AudioOutputLeft (MemsetZero n (AudioOutputLeft s)) s)
  else s.

(** Render and mix the active voices into the stereo buffers. *)
Definition RenderAndMix (h : Host) (inp : Inputs) (s : Operator) : Operator :=
  let '(voices, (outL, outR)) :=
    RenderVoices h inp (BlockSize s) 0 (GrainVoices s)
      (AudioOutputLeft s, AudioOutputRight s) in
  set_AudioOutputRight outR
    (set_AudioOutputLeft outL (set_GrainVoices voices s)).

(** Execute from the reading of the pins on. *)
Definition PositionSpawnRender (h : Host) (inp : Inputs) (fuel : nat)
  (bWaveJustChanged : bool) (s : Operator) : option Operator :=
  let '(bFreezeStateChanged, PositionInSeconds, s) := UpdatePosition inp s in
  let s := ClearForMixing bWaveJustChanged s in
  match Scheduler h inp fuel bFreezeStateChanged s with
  | None => None
  | Some (GrainsToTriggerThisBlock, s) =>
      let s :=
        SpawnLoop h inp PositionInSeconds
          (Z.to_nat GrainsToTriggerThisBlock) s in
      let s := RenderAndMix h inp s in
      let s := FinalSmoothingPass inp s in
      Some (set_TimeOutput (CurrentPlaybackPositionSeconds s) s)
  end.

Definition WaveChanged (inp : Inputs) (s : Operator) : bool :=
  isSome (SoundWaveProxy inp)
  && negb (ProxyEq (CurrentWaveProxy s) (SoundWaveProxy inp)).

Definition SanityAndMix (h : Host) (inp : Inputs) (fuel : nat)
  (bWaveJustChanged : bool) (s : Operator) : option Operator :=
  if (CurrentNumChannels s <=? 0)%Z
     || negb (ConvertDeinterleave s)
     || Qleb (CachedSoundWaveDuration s) 0
  then Some (StopNow s)
  else PositionSpawnRender h inp fuel bWaveJustChanged s.

Definition ExecutePlaying (h : Host) (inp : Inputs) (fuel : nat) (s : Operator)
  : option Operator :=
  if negb (isSome (CurrentWaveProxy s)) then Some (StopNow s)
  else
  match SoundWaveProxy inp with
  | Some InputProxy =>
      if WaveChanged inp s then
        let '(ok, s) := InitializeWaveData h InputProxy s in
        if negb ok then Some (StopNow s) else SanityAndMix h inp fuel true s
      else SanityAndMix h inp fuel false s
  | None => Some (StopNow s)
  end.

Definition ProcessTriggers (h : Host) (inp : Inputs) (s : Operator) : Operator :=
  let s :=
    set_OnGrainTriggered (AdvanceBlock (OnGrainTriggered s))
      (set_OnFinishedTrigger (AdvanceBlock (OnFinishedTrigger s))
        (set_OnPlayTrigger (AdvanceBlock (OnPlayTrigger s)) s)) in
  let '(bTriggeredStopThisBlock, StopFrame) :=
    StopScan (StopTrigger inp) (bIsPlaying s) in
  let '(bTriggeredStopThisBlock, s) :=
    PlayLoop h inp (PlayTrigger inp) bTriggeredStopThisBlock s in
  if bTriggeredStopThisBlock && bIsPlaying s then
    Finish StopFrame (ResetVoices (set_bIsPlaying false s))
  else s.

(** [None]: the scheduler loop did not end within [fuel] iterations. *)
Definition Execute (h : Host) (inp : Inputs) (fuel : nat) (s : Operator)
  : option Operator :=
  let s := ProcessTriggers h inp s in
  if negb (bIsPlaying s) then
    let s := set_TimeOutput 0 (ZeroOutputs s) in
    Some (if isSome (CurrentWaveProxy s)
             || (0 <? CurrentNumChannels s)%Z
             || ConvertDeinterleave s
          then ClearWaveData (ResetVoices s)
          else s)
  else ExecutePlaying h inp fuel s.

(** ** Reset *)

Definition Reset (s : Operator) : Operator :=
  mkOperator (SampleRate s) (BlockSize s) false (bPreviousFreezeState s) 0
    (map ResetVoice (GrainVoices s)) None 0 0%Z false 0 0 0
    [] [] []
    (ZeroBuffer (AudioOutputLeft s)) (ZeroBuffer (AudioOutputRight s))
    (TimeOutput s) (FRandCalls s).

End FGranularWavePlayerSmoothOperator.

(** * A concrete host and concrete blocks, for evaluation

    [DemoHost] plays a stereo wave of 48000 frames at 48 kHz (one second).
    Its [Pow] is exact at integer exponents, [FRand] always returns 0, every
    reader can be created, delivers what it is asked for, and the resampler
    produces the frames requested, all samples equal to 1. *)

Definition PowAtIntegers (x y : Q) : Q := Qpower x (Qfloor y).

Definition DemoHost : Host :=
  mkHost PowAtIntegers
    (fun _ => 1) (fun _ => 7071 # 10000) (fun _ => 7071 # 10000) (355 # 113)
    (fun _ => 0)
    (mkSettings 0 false 1024) 128 128
    (fun _ _ => Some (mkReaderInfo 48000 48000 2))
    (fun _ _ requested => requested)
    (fun _ => true)
    (fun _ _ frames =>
       mkResampled (Z.to_nat frames) (fun _ => 1) (fun _ => 1) false false).

(** The same host with a broken wave: no reader can be created. *)
Definition BrokenWaveHost : Host :=
  mkHost PowAtIntegers
    (fun _ => 1) (fun _ => 7071 # 10000) (fun _ => 7071 # 10000) (355 # 113)
    (fun _ => 0)
    (mkSettings 0 false 1024) 128 128
    (fun _ _ => None)
    (fun _ _ requested => requested)
    (fun _ => true)
    (fun _ _ frames =>
       mkResampled (Z.to_nat frames) (fun _ => 1) (fun _ => 1) false false).

(** A stereo wave of 2400 frames at 48 kHz: 50 ms, shorter than a grain. *)
Definition ShortWaveHost : Host :=
  mkHost PowAtIntegers
    (fun _ => 1) (fun _ => 7071 # 10000) (fun _ => 7071 # 10000) (355 # 113)
    (fun _ => 0)
    (mkSettings 0 false 1024) 128 128
    (fun _ _ => Some (mkReaderInfo 2400 48000 2))
    (fun _ _ requested => requested)
    (fun _ => true)
    (fun _ _ frames =>
       mkResampled (Z.to_nat frames) (fun _ => 1) (fun _ => 1) false false).

Module Demo.
Import FGranularSynthOperator.

(** The default pin values of the node, wave asset 7 bound, no trigger. *)
Definition Idle : Inputs :=
  mkInputs [] [] true (Some 7%nat)
    100 0 1 0 0 0 0 (1 # 10) (1 # 10) 1 1 0 0 0 0 0 false.

Definition WithTriggers (play stop : list Z) (inp : Inputs) : Inputs :=
  mkInputs play stop (IsSoundWaveValid inp) (SoundWaveProxy inp)
    (GrainDurationMsInput inp) (DurationRandMsInput inp)
    (ActiveVoicesInput inp) (TimeJitterInput inp) (StartPointTimeInput inp)
    (StartPointRandMsInput inp) (ReverseChanceInput inp)
    (AttackTimePercentInput inp) (DecayTimePercentInput inp)
    (AttackCurveInput inp) (DecayCurveInput inp) (PitchShiftInput inp)
    (PitchRandInput inp) (PanInput inp) (PanRandInput inp)
    (VolumeRandInput inp) (WarmStartInput inp).

Definition WithWave (valid : bool) (proxy : option Proxy) (inp : Inputs)
  : Inputs :=
  mkInputs (PlayTrigger inp) (StopTrigger inp) valid proxy
    (GrainDurationMsInput inp) (DurationRandMsInput inp)
    (ActiveVoicesInput inp) (TimeJitterInput inp) (StartPointTimeInput inp)
    (StartPointRandMsInput inp) (ReverseChanceInput inp)
    (AttackTimePercentInput inp) (DecayTimePercentInput inp)
    (AttackCurveInput inp) (DecayCurveInput inp) (PitchShiftInput inp)
    (PitchRandInput inp) (PanInput inp) (PanRandInput inp)
    (VolumeRandInput inp) (WarmStartInput inp).

Definition WithStartPoint (seconds : Q) (inp : Inputs) : Inputs :=
  mkInputs (PlayTrigger inp) (StopTrigger inp) (IsSoundWaveValid inp)
    (SoundWaveProxy inp)
    (GrainDurationMsInput inp) (DurationRandMsInput inp)
    (ActiveVoicesInput inp) (TimeJitterInput inp) seconds
    (StartPointRandMsInput inp) (ReverseChanceInput inp)
    (AttackTimePercentInput inp) (DecayTimePercentInput inp)
    (AttackCurveInput inp) (DecayCurveInput inp) (PitchShiftInput inp)
    (PitchRandInput inp) (PanInput inp) (PanRandInput inp)
    (VolumeRandInput inp) (WarmStartInput inp).

(** Every grain reversed: Reverse Chance at 100 %. *)
Definition AllReversed : Inputs :=
  mkInputs [] [] true (Some 7%nat)
    100 0 1 0 0 0 100 (1 # 10) (1 # 10) 1 1 0 0 0 0 0 false.

(** A value for the uninitialised member: the fill pattern 0x5A5A5A5A. *)
Definition Garbage : Z := 1515870810.

(** A fresh operator at 48 kHz with blocks of 8 frames. *)
Definition Fresh : Operator := Construct 48000 8 Garbage.

(** The operator after one block in which Play fired at frame 0: playing,
    one grain of 4800 samples in slot 0. *)
Definition Playing : Operator :=
  Execute DemoHost (WithTriggers [0%Z] [] Idle) Fresh.

End Demo.

Module Step8Demo.
Import FGranularSynthOperator_Step8.

(** The default pin values of the Step8 node, with the given triggers and
    wave asset. *)
Definition Pins (play stop : list Z) (valid : bool) (proxy : option Proxy)
  : Inputs :=
  mkInputs play stop valid proxy
    100 10 0 0 0 0 (1 # 10) (1 # 10) 1 1 0 0 0 0.

Definition Fresh : Operator := Construct 48000 8.

Definition Playing : Operator :=
  Execute DemoHost (Pins [0%Z] [] true (Some 7%nat)) Fresh.

End Step8Demo.

Module SmoothDemo.
Import FGranularWavePlayerSmoothOperator.

(** The default pin values of the wave player node, with the given
    triggers, wave asset, speed (in percent) and time jitter (in ms). *)
Definition Pins (play stop : list Z) (valid : bool) (proxy : option Proxy)
  (speed jitter : Q) : Inputs :=
  mkInputs play stop valid proxy
    100 10 speed 0 0 0 (1 # 10) (1 # 10) 1 1 0 0 0 0 jitter 0 30 3 8 0 1.

(** The same pins with no trigger, at the given grains per second and time
    jitter (in ms). *)
Definition Scheduling (gps jitter : Q) : Inputs :=
  mkInputs [] [] true (Some 7%nat)
    100 gps 100 0 0 0 (1 # 10) (1 # 10) 1 1 0 0 0 0 jitter 0 30 3 8 0 1.

(** The same pins with no trigger, at the given smoothing (in percent). *)
Definition Smoothed (smoothing : Q) : Inputs :=
  mkInputs [] [] true (Some 7%nat)
    100 10 100 0 0 0 (1 # 10) (1 # 10) 1 1 0 0 0 0 0 0 smoothing 3 8 0 1.

Definition Fresh : Operator := Construct 48000 8 1515870810.

(** A fresh operator bound to a wave of one second. *)
Definition Bound : Operator :=
  set_ConvertDeinterleave true
    (set_CurrentNumChannels 2
      (set_CachedSoundWaveDuration 1
        (set_CurrentWaveProxy (Some 7%nat) Fresh))).

End SmoothDemo.

(** * Asset validation, as the three InitializeWaveData functions decide it

    A wave initializes when a reader can be created for it, the reader
    reports at least one channel and a positive duration, and a deinterleaver
    can be created for that channel count.  A Play trigger can start playback
    when the wave asset is valid, yields a proxy, and the wave initializes. *)

Definition WaveInitializes (h : Host) (proxy : Proxy) : bool :=
  match Reader_Create h proxy (DefaultSettings h) with
  | Some TempReader =>
      negb ((ReaderNumChannels TempReader <=? 0)%Z
            || Qleb (inject_Z (NumFramesInWave TempReader)
                     / FMath.Max 1 (ReaderSampleRate TempReader)) 0)
      && Deinterleave_Create h (ReaderNumChannels TempReader)
  | None => false
  end.

Definition PlayCanStart (h : Host) (valid : bool) (proxy : option Proxy) : bool :=
  valid && match proxy with
           | Some p => WaveInitializes h p
           | None => false
           end.

(** A buffer holding only zeros. *)
Definition Silent (b : list Q) : Prop := b = repeat 0 (length b).

(** The duration [InitializeWaveData] caches for a wave:
    [NumFramesInWave / Max(1, SampleRate)]. *)
Definition WaveDuration (h : Host) (proxy : Proxy) : Q :=
  match Reader_Create h proxy (DefaultSettings h) with
  | Some TempReader =>
      inject_Z (NumFramesInWave TempReader)
      / FMath.Max 1 (ReaderSampleRate TempReader)
  | None => 0
  end.

Definition WaveChannels (h : Host) (proxy : Proxy) : Z :=
  match Reader_Create h proxy (DefaultSettings h) with
  | Some TempReader => ReaderNumChannels TempReader
  | None => 0%Z
  end.

(** * Consecutive blocks of the FGranularSynthOperator scheduler

    The scheduler run over [blocks] consecutive blocks with constant pins:
    the grains counted in each block, and the counter and draw count after
    the last. *)

Fixpoint RunScheduler (h : Host) (BaseInterval JitterPercent ElapsedSamples : Q)
  (blocks : nat) (Samples : Q) (d : nat) : list Z * Q * nat :=
  match blocks with
  | O => ([], Samples, d)
  | S blocks' =>
      let '(Samples1, Grains, d1) :=
        FGranularSynthOperator.Scheduler h BaseInterval JitterPercent
          ElapsedSamples Samples d in
      let '(counts, Samples2, d2) :=
        RunScheduler h BaseInterval JitterPercent ElapsedSamples blocks'
          Samples1 d1 in
      (Grains :: counts, Samples2, d2)
  end.

(** The pins of the scheduling scenario: grain duration 100 ms, one active
    voice, no jitter. *)
Definition ScenarioPins : FGranularSynthOperator.Inputs :=
  FGranularSynthOperator.mkInputs [] [] true (Some 7%nat)
    100 0 1 0 0 0 0 (1 # 10) (1 # 10) 1 1 0 0 0 0 0 false.

Module GS := FGranularSynthOperator.
Module Step8 := FGranularSynthOperator_Step8.
Module GWP := FGranularWavePlayerSmoothOperator.

(** * Notions used by the theorems *)

(** [out] is [base] with [mix] added frame by frame. *)
Definition MixedOnto (base mix out : list Q) : Prop :=
  length out = length mix
  /\ forall i, nth i out 0 == nth i base 0 + nth i mix 0.

(** [out] is [b] with its first [count] frames, as far as it has them, run
    through the one-pole low pass of coefficient [c] started from the carried
    value [prev]: frame [i] is [x_i * c + y_(i-1) * (1 - c)], where [y_(-1)]
    is [prev]; the frames beyond [count] are those of [b], and [last], the
    value carried on, is the last frame written. *)
Definition LowPassed (c : Q) (count : nat) (prev : Q) (b out : list Q)
  (last : Q) : Prop :=
  length out = length b
  /\ (forall i, (i < count)%nat -> (i < length b)%nat ->
        nth i out 0
        = nth i b 0 * c
          + match i with O => prev | S j => nth j out 0 end * (1 - c))
  /\ (forall i, (count <= i)%nat -> nth i out 0 = nth i b 0)
  /\ last = match Nat.min count (length b) with
            | O => prev
            | S j => nth j out 0
            end.

Section GS_notions.
Import FGranularSynthOperator.

Definition ActiveVoiceCount (s : Operator) : nat :=
  length (filter bIsActive (GrainVoices s)).

Definition VoiceAt (s : Operator) (i : nat) : FGrainVoice :=
  nth i (GrainVoices s) DefaultVoice.

(** The states an operator goes through: construction, whole blocks, resets,
    and the calls made inside a block. *)
Inductive Reachable (h : Host) : Operator -> Prop :=
| Reach_Construct : forall rate frames indeterminate,
    Reachable h (Construct rate frames indeterminate)
| Reach_Execute : forall inp s, Reachable h s -> Reachable h (Execute h inp s)
| Reach_Reset : forall s, Reachable h s -> Reachable h (Reset s)
| Reach_TryStartPlayback : forall inp frame s,
    Reachable h s -> Reachable h (snd (TryStartPlayback h inp frame s))
| Reach_SpawnGrain : forall inp frameOf s,
    Reachable h s -> Reachable h (SpawnGrain h inp frameOf s)
| Reach_TriggerGrain : forall proxy samples start ratio pan vol rev frames s,
    Reachable h s ->
    Reachable h (snd (TriggerGrain h proxy samples start ratio pan vol rev frames s)).

(** The state a failed TryStartPlayback leaves behind. *)
Definition Stopped (s : Operator) : Operator :=
  ClearWaveData (ResetVoices (set_bIsPlaying false s)).

(** Play triggers that cannot start playback: each one stops the operator
    and triggers OnFinished at its own frame. *)
Fixpoint FailedPlays (frames : list Z) (s : Operator) : Operator :=
  match frames with
  | [] => s
  | Frame :: rest =>
      FailedPlays rest (set_bIsPlaying false (Finish Frame (Stopped s)))
  end.

(** Spawning changes the voices, the grain outputs and the draw count only. *)
Definition SpawnFrame (s s' : Operator) : Prop :=
  SampleRate s' = SampleRate s
  /\ BlockSize s' = BlockSize s
  /\ bIsPlaying s' = bIsPlaying s
  /\ SamplesUntilNextGrain s' = SamplesUntilNextGrain s
  /\ CurrentWaveProxy s' = CurrentWaveProxy s
  /\ CachedSoundWaveDuration s' = CachedSoundWaveDuration s
  /\ CurrentNumChannels s' = CurrentNumChannels s
  /\ ConvertDeinterleave s' = ConvertDeinterleave s
  /\ OnPlayTrigger s' = OnPlayTrigger s
  /\ OnFinishedTrigger s' = OnFinishedTrigger s
  /\ AudioOutputLeft s' = AudioOutputLeft s
  /\ AudioOutputRight s' = AudioOutputRight s.

(** What every stopped block has in common. *)
Definition StoppedBlock (s s' : Operator) : Prop :=
  bIsPlaying s' = false
  /\ GrainVoices s' = map ResetVoice (GrainVoices s)
  /\ ActiveVoiceCount s' = 0%nat
  /\ Silent (AudioOutputLeft s') /\ Silent (AudioOutputRight s')
  /\ length (AudioOutputLeft s') = length (AudioOutputLeft s)
  /\ length (AudioOutputRight s') = length (AudioOutputRight s)
  /\ OnPlayTrigger s' = []
  /\ CurrentWaveProxy s' = None.

(** The operators of a session at its block boundaries: built with the
    given settings, then any sequence of Execute and Reset calls. *)
Inductive Session (h : Host) (rate : Q) (frames : Z) : Operator -> Prop :=
| Session_Construct : forall indeterminate,
    Session h rate frames (Construct rate frames indeterminate)
| Session_Execute : forall inp s,
    Session h rate frames s -> Session h rate frames (Execute h inp s)
| Session_Reset : forall s,
    Session h rate frames s -> Session h rate frames (Reset s).

(** An active voice, after [blocks] or more blocks of rendering: it has
    samples left, what it played and what is left add up to its total, it
    played a whole number of blocks, and its pipeline is alive. *)
Definition VoiceAfter (blocks InBlockSize : Z) (v : FGrainVoice) : Prop :=
  bIsActive v = true ->
  (0 < SamplesRemaining v)%Z
  /\ (SamplesPlayed v + SamplesRemaining v = TotalGrainSamples v)%Z
  /\ (exists k, (blocks <= k)%Z /\ SamplesPlayed v = (k * InBlockSize)%Z)
  /\ (bIsReversed v || isSome (Reader v)) && isSome (Resampler v) = true.

(** What holds of the voices between the triggers and the rendering of a
    block, and at block boundaries. *)
Definition VoicesSound (blocks : Z) (s : Operator) : Prop :=
  Forall (VoiceAfter blocks (BlockSize s)) (GrainVoices s)
  /\ (bIsPlaying s = false -> filter bIsActive (GrainVoices s) = []).

(** What a block keeps: the audio settings and the sizes of the buffers. *)
Definition KeepsSettings (s s' : Operator) : Prop :=
  BlockSize s' = BlockSize s
  /\ SampleRate s' = SampleRate s
  /\ length (AudioOutputLeft s') = length (AudioOutputLeft s)
  /\ length (AudioOutputRight s') = length (AudioOutputRight s)
  /\ length (GrainVoices s') = length (GrainVoices s).

(** The voice of one slot after [blocks] consecutive blocks of rendering;
    [outs n] are the stereo buffers the [n]-th block is mixed into. *)
Fixpoint RenderBlocks (h : Host) (inp : Inputs) (InBlockSize : Z) (slot : nat)
  (outs : nat -> list Q * list Q) (blocks : nat) (v : FGrainVoice)
  : FGrainVoice :=
  match blocks with
  | O => v
  | S n =>
      fst (RenderVoice h inp InBlockSize slot
             (RenderBlocks h inp InBlockSize slot outs n v) (outs n))
  end.

(** What the triggers of a block leave untouched: the stereo buffers and
    the audio settings. *)
Definition KeepsBuffers (s s' : Operator) : Prop :=
  AudioOutputLeft s' = AudioOutputLeft s
  /\ AudioOutputRight s' = AudioOutputRight s
  /\ BlockSize s' = BlockSize s
  /\ SampleRate s' = SampleRate s.

(** The operator with other stereo buffers. *)
Definition WithOutputs (L R : list Q) (s : Operator) : Operator :=
  set_AudioOutputRight R (set_AudioOutputLeft L s).

End GS_notions.

(** * The same notions for FGranularSynthOperator_Step8 *)

Section Step8_notions.
Import FGranularSynthOperator_Step8.

Definition Step8_KeepsBuffers (s s' : Operator) : Prop :=
  AudioOutputLeft s' = AudioOutputLeft s
  /\ AudioOutputRight s' = AudioOutputRight s
  /\ BlockSize s' = BlockSize s
  /\ SampleRate s' = SampleRate s.

Definition Step8_WithOutputs (L R : list Q) (s : Operator) : Operator :=
  set_AudioOutputRight R (set_AudioOutputLeft L s).

(** The operators of a session at its block boundaries. *)
Inductive Step8_Session (h : Host) (rate : Q) (frames : Z)
  : Operator -> Prop :=
| Step8_Session_Construct : Step8_Session h rate frames (Construct rate frames)
| Step8_Session_Execute : forall inp s,
    Step8_Session h rate frames s ->
    Step8_Session h rate frames (Execute h inp s)
| Step8_Session_Reset : forall s,
    Step8_Session h rate frames s -> Step8_Session h rate frames (Reset s).

(** An active voice holds its reader and its resampler, has samples left,
    and what it played and what is left add up to its total. *)
Definition Step8_VoiceInFlight (v : FGrainVoice) : Prop :=
  bIsActive v = true ->
  isSome (Reader v) = true /\ isSome (Resampler v) = true
  /\ (0 < SamplesRemaining v)%Z /\ (0 <= SamplesPlayed v)%Z
  /\ (SamplesPlayed v + SamplesRemaining v = TotalGrainSamples v)%Z.

(** The wave data a playing block needs. *)
Definition Step8_WaveReady (s : Operator) : Prop :=
  isSome (CurrentWaveProxy s) = true /\ (0 < CurrentNumChannels s)%Z
  /\ ConvertDeinterleave s = true /\ 0 < CachedSoundWaveDuration s.

(** The voice of one slot after [blocks] consecutive blocks of rendering;
    [outs n] are the stereo buffers the [n]-th block is mixed into. *)
Fixpoint Step8_RenderBlocks (h : Host) (inp : Inputs) (InBlockSize : Z)
  (slot : nat) (outs : nat -> list Q * list Q) (blocks : nat)
  (v : FGrainVoice) : FGrainVoice :=
  match blocks with
  | O => v
  | S n =>
      fst (RenderVoice h inp InBlockSize slot
             (Step8_RenderBlocks h inp InBlockSize slot outs n v) (outs n))
  end.

Definition Step8_Sound (s : Operator) : Prop :=
  Forall Step8_VoiceInFlight (GrainVoices s)
  /\ (bIsPlaying s = false -> filter bIsActive (GrainVoices s) = [])
  /\ (bIsPlaying s = true -> Step8_WaveReady s).

End Step8_notions.

(** * The same notions for FGranularWavePlayerSmoothOperator *)

Section GWP_notions.
Import FGranularWavePlayerSmoothOperator.

Definition GWP_KeepsBuffers (s s' : Operator) : Prop :=
  AudioOutputLeft s' = AudioOutputLeft s
  /\ AudioOutputRight s' = AudioOutputRight s
  /\ BlockSize s' = BlockSize s
  /\ SampleRate s' = SampleRate s.

Definition GWP_WithOutputs (L R : list Q) (s : Operator) : Operator :=
  set_AudioOutputRight R (set_AudioOutputLeft L s).

(** The operators of a session at its block boundaries: built with the
    given settings, then any sequence of Reset calls and of Execute calls
    that return. *)
Inductive GWP_Session (h : Host) (rate : Q) (frames : Z)
  : Operator -> Prop :=
| GWP_Session_Construct : forall indeterminate,
    GWP_Session h rate frames (Construct rate frames indeterminate)
| GWP_Session_Execute : forall inp fuel s s',
    GWP_Session h rate frames s -> Execute h inp fuel s = Some s' ->
    GWP_Session h rate frames s'
| GWP_Session_Reset : forall s,
    GWP_Session h rate frames s -> GWP_Session h rate frames (Reset s).

(** An active voice holds its reader and its resampler, has samples left,
    and what it played and what is left add up to its total. *)
Definition GWP_VoiceInFlight (v : FWavePlayerSmoothGrainVoice) : Prop :=
  bIsActive v = true ->
  isSome (Reader v) = true /\ isSome (Resampler v) = true
  /\ (0 < SamplesRemaining v)%Z /\ (0 <= SamplesPlayed v)%Z
  /\ (SamplesPlayed v + SamplesRemaining v = TotalGrainSamples v)%Z.

(** The wave data a playing block needs. *)
Definition GWP_WaveReady (s : Operator) : Prop :=
  isSome (CurrentWaveProxy s) = true /\ (0 < CurrentNumChannels s)%Z
  /\ ConvertDeinterleave s = true /\ 0 < CachedSoundWaveDuration s.

(** What a step of a block leaves alone when it only spawns or renders. *)
Definition GWP_KeepsWave (s s' : Operator) : Prop :=
  bIsPlaying s' = bIsPlaying s
  /\ CurrentWaveProxy s' = CurrentWaveProxy s
  /\ CurrentNumChannels s' = CurrentNumChannels s
  /\ ConvertDeinterleave s' = ConvertDeinterleave s
  /\ CachedSoundWaveDuration s' = CachedSoundWaveDuration s
  /\ CurrentPlaybackPositionSeconds s' = CurrentPlaybackPositionSeconds s
  /\ TimeOutput s' = TimeOutput s.

(** What holds between the triggers and the mixing of a block. *)
Definition GWP_Ready (s : Operator) : Prop :=
  Forall GWP_VoiceInFlight (GrainVoices s)
  /\ (bIsPlaying s = false -> filter bIsActive (GrainVoices s) = [])
  /\ (bIsPlaying s = true -> GWP_WaveReady s)
  /\ 0 <= CurrentPlaybackPositionSeconds s
  /\ 0 <= TimeOutput s.

(** What holds at block boundaries. *)
Definition GWP_Sound (s : Operator) : Prop :=
  GWP_Ready s
  /\ (bIsPlaying s = true ->
      TimeOutput s = CurrentPlaybackPositionSeconds s
      /\ CurrentPlaybackPositionSeconds s < CachedSoundWaveDuration s).

End GWP_notions.

(** ** The voice pool scan *)

Lemma filter_length_le {A} (f : A -> bool) (l : list A) :
  (length (filter f l) <= length l)%nat.
Proof.
  induction l as [|a l IH]; simpl; [lia|].
  destruct (f a); simpl; lia.
Qed.

Lemma SetVoice_length {V} (vs : list V) i v :
  length (SetVoice vs i v) = length vs.
Proof.
  revert i. induction vs as [|w vs IH]; intros [|i]; simpl; auto.
Qed.

Lemma SetVoice_nth_same {V} (vs : list V) i v d :
  (i < length vs)%nat -> nth i (SetVoice vs i v) d = v.
Proof.
  revert i. induction vs as [|w vs IH]; intros [|i] H; simpl in *; try lia; auto.
  apply IH. lia.
Qed.

Lemma SetVoice_nth_other {V} (vs : list V) i j v d :
  i <> j -> nth j (SetVoice vs i v) d = nth j vs d.
Proof.
  revert i j.
  induction vs as [|w vs IH]; intros [|i] [|j] H; simpl; auto; try congruence.
Qed.

(** What the linear scan returns. *)
Lemma FindFreeVoice_Some {V} (active : V -> bool) (vs : list V) k i d :
  FindFreeVoice active vs k = Some i ->
  (k <= i)%nat /\ (i - k < length vs)%nat
  /\ active (nth (i - k) vs d) = false
  /\ forall j, (j < i - k)%nat -> active (nth j vs d) = true.
Proof.
  revert k. induction vs as [|v vs IH]; intros k H; simpl in H; [discriminate|].
  destruct (active v) eqn:Ev.
  - apply IH in H. destruct H as (H1 & H2 & H3 & H4).
    replace (i - k)%nat with (S (i - S k)) by lia. simpl.
    repeat split; try lia; auto.
    intros [|j] Hj; simpl; auto. apply H4. lia.
  - inversion H; subst. replace (i - i)%nat with 0%nat by lia. simpl.
    repeat split; try lia; auto.
Qed.

Lemma FindFreeVoice_None {V} (active : V -> bool) (vs : list V) k :
  FindFreeVoice active vs k = None <-> forallb active vs = true.
Proof.
  revert k. induction vs as [|v vs IH]; intros k; simpl; [tauto|].
  destruct (active v); simpl; [apply IH|].
  split; discriminate.
Qed.

(** * Lemmas *)

(** ** Comparisons and FMath *)

Lemma Qleb_spec (x y : Q) : Qleb x y = true <-> x <= y.
Proof. unfold Qleb. apply Qle_bool_iff. Qed.

Lemma Qleb_false (x y : Q) : Qleb x y = false <-> y < x.
Proof.
  unfold Qleb. split; intro H.
  - apply Qnot_le_lt. intro L. apply Qle_bool_iff in L. congruence.
  - destruct (Qle_bool x y) eqn:E; [|reflexivity].
    apply Qle_bool_iff in E. exfalso. apply (Qlt_not_le _ _ H E).
Qed.

Lemma Qltb_spec (x y : Q) : Qltb x y = true <-> x < y.
Proof.
  unfold Qltb. rewrite negb_true_iff. apply (Qleb_false y x).
Qed.

Lemma Qltb_false (x y : Q) : Qltb x y = false <-> y <= x.
Proof.
  unfold Qltb. rewrite negb_false_iff. apply (Qleb_spec y x).
Qed.

Lemma Max_ge_l a b : a <= FMath.Max a b.
Proof.
  unfold FMath.Max. destruct (Qltb b a) eqn:E.
  - apply Qle_refl.
  - apply Qltb_false in E. exact E.
Qed.

Lemma Max_ge_r a b : b <= FMath.Max a b.
Proof.
  unfold FMath.Max. destruct (Qltb b a) eqn:E.
  - apply Qltb_spec in E. apply Qlt_le_weak. exact E.
  - apply Qle_refl.
Qed.

Lemma Max_cases a b :
  (b < a /\ FMath.Max a b = a) \/ (a <= b /\ FMath.Max a b = b).
Proof.
  unfold FMath.Max. destruct (Qltb b a) eqn:E.
  - left. apply Qltb_spec in E. auto.
  - right. apply Qltb_false in E. auto.
Qed.

Lemma Min_cases a b :
  (a < b /\ FMath.Min a b = a) \/ (b <= a /\ FMath.Min a b = b).
Proof.
  unfold FMath.Min. destruct (Qltb a b) eqn:E.
  - left. apply Qltb_spec in E. auto.
  - right. apply Qltb_false in E. auto.
Qed.

Lemma Min_le_l a b : FMath.Min a b <= a.
Proof. destruct (Min_cases a b) as [[H ->]|[H ->]]; qlra. Qed.

Lemma Min_le_r a b : FMath.Min a b <= b.
Proof. destruct (Min_cases a b) as [[H ->]|[H ->]]; qlra. Qed.

Lemma Clamp_range x lo hi : lo <= hi -> lo <= FMath.Clamp x lo hi <= hi.
Proof.
  intro H. unfold FMath.Clamp.
  destruct (Max_cases (FMath.Min x hi) lo) as [[H1 ->]|[H1 ->]];
  destruct (Min_cases x hi) as [[H2 E]|[H2 E]]; rewrite ?E in *; qlra.
Qed.

(** ** Floors *)

Lemma Qfloor_unique x n :
  inject_Z n <= x -> x < inject_Z (n + 1) -> Qfloor x = n.
Proof.
  intros A B.
  pose proof (Qfloor_le x) as C. pose proof (Qlt_floor x) as D.
  assert (E1 : inject_Z n < inject_Z (Qfloor x + 1)) by qlra.
  assert (E2 : inject_Z (Qfloor x) < inject_Z (n + 1)) by qlra.
  rewrite <- Zlt_Qlt in E1, E2. lia.
Qed.

Lemma Qfloor_minus_1 x : Qfloor (x - 1) = (Qfloor x - 1)%Z.
Proof.
  apply Qfloor_unique.
  - pose proof (Qfloor_le x) as C.
    replace (Qfloor x - 1)%Z with (Qfloor x + (-1))%Z by lia.
    rewrite inject_Z_plus. change (inject_Z (-1)) with (- (1)). qlra.
  - pose proof (Qlt_floor x) as D. rewrite inject_Z_plus in D.
    replace (Qfloor x - 1 + 1)%Z with (Qfloor x) by lia.
    change (inject_Z 1) with 1 in D. qlra.
Qed.


(** ** The voice pool of FGranularSynthOperator *)

Section GS_pool.
Import FGranularSynthOperator.

(** TriggerGrain either leaves the state alone or rewrites exactly the slot
    found by the scan. *)
Lemma TriggerGrain_shape h proxy samples start ratio pan vol rev frames s :
  let r := TriggerGrain h proxy samples start ratio pan vol rev frames s in
  r = (false, s)
  \/ exists i v,
       FindFreeVoice bIsActive (GrainVoices s) 0 = Some i
       /\ snd r = set_GrainVoices (SetVoice (GrainVoices s) i v) s
       /\ bIsActive v = fst r.
Proof.
  unfold TriggerGrain.
  destruct proxy as [px|]; [|left; reflexivity].
  destruct ((CurrentNumChannels s <=? 0)%Z
            || Qltb (CachedSoundWaveDuration s) MinGrainDurationSeconds);
    [left; reflexivity|].
  destruct (samples <=? 0)%Z; [left; reflexivity|].
  destruct (rev && (frames <=? 0)%Z); [left; reflexivity|].
  destruct (FindFreeVoice bIsActive (GrainVoices s) 0) as [i|] eqn:Ef; [|left; reflexivity].
  right. exists i.
  apply (FindFreeVoice_Some _ _ _ _ DefaultVoice) in Ef.
  destruct Ef as (_ & _ & Hin & _).
  rewrite Nat.sub_0_r in Hin.
  destruct (Reader_Create h px _) as [info|].
  - destruct rev.
    + destruct (0 <? _)%Z; eexists; simpl; repeat split; simpl; auto.
    + eexists; simpl; repeat split; simpl; auto.
  - eexists; simpl; repeat split; simpl; auto.
Qed.

Lemma TriggerGrain_length h proxy samples start ratio pan vol rev frames s :
  length (GrainVoices (snd (TriggerGrain h proxy samples start ratio pan vol rev frames s)))
  = length (GrainVoices s).
Proof.
  destruct (TriggerGrain_shape h proxy samples start ratio pan vol rev frames s)
    as [E|(i & v & _ & E & _)]; simpl in *.
  - rewrite E. reflexivity.
  - rewrite E. simpl. apply SetVoice_length.
Qed.

Lemma ResetVoices_length s :
  length (GrainVoices (ResetVoices s)) = length (GrainVoices s).
Proof. unfold ResetVoices. simpl. apply length_map. Qed.

Lemma InitializeWaveData_voices h px s :
  GrainVoices (snd (InitializeWaveData h px s)) = GrainVoices s.
Proof.
  unfold InitializeWaveData.
  destruct (Reader_Create h px (DefaultSettings h)) as [r|]; simpl; auto.
  destruct ((ReaderNumChannels r <=? 0)%Z || _); simpl; auto.
  destruct (negb (Deinterleave_Create h (ReaderNumChannels r))); simpl; auto.
Qed.

Lemma SpawnGrain_length h inp frameOf s :
  length (GrainVoices (SpawnGrain h inp frameOf s)) = length (GrainVoices s).
Proof.
  unfold SpawnGrain.
  destruct (negb _); simpl; auto.
  match goal with |- context [TriggerGrain ?h ?p ?n ?t ?r ?a ?v ?b ?k ?s0] =>
    pose proof (TriggerGrain_length h p n t r a v b k s0) as L;
    destruct (TriggerGrain h p n t r a v b k s0) as [ok s1] end.
  simpl in L. destruct ok; simpl; auto.
Qed.

Lemma SpawnLoop_length h inp frameOf count i s :
  length (GrainVoices (SpawnLoop h inp frameOf count i s)) = length (GrainVoices s).
Proof.
  revert i s. induction count as [|n IH]; intros i s; simpl; auto.
  rewrite IH. apply SpawnGrain_length.
Qed.

Lemma TryStartPlayback_length h inp frame s :
  length (GrainVoices (snd (TryStartPlayback h inp frame s))) = length (GrainVoices s).
Proof.
  unfold TryStartPlayback.
  destruct (negb (IsSoundWaveValid inp)); simpl; [apply length_map|].
  destruct (SoundWaveProxy inp) as [px|]; simpl; [|apply length_map].
  pose proof (InitializeWaveData_voices h px (set_bIsPlaying false s)) as V.
  destruct (InitializeWaveData h px (set_bIsPlaying false s)) as [ok s1].
  simpl in V.
  destruct ok; simpl.
  - match goal with |- context [if ?c then _ else _] => destruct c end; simpl.
    + rewrite SpawnLoop_length. simpl. rewrite length_map, V. reflexivity.
    + rewrite length_map, V. reflexivity.
  - rewrite length_map, V. reflexivity.
Qed.

Lemma RenderVoices_length h inp bs slot vs out :
  length (fst (RenderVoices h inp bs slot vs out)) = length vs.
Proof.
  revert slot out. induction vs as [|v vs IH]; intros slot out; simpl; auto.
  destruct (RenderVoice h inp bs slot v out) as [v' out'].
  specialize (IH (S slot) out').
  destruct (RenderVoices h inp bs (S slot) vs out') as [rest' out'']. simpl in *.
  congruence.
Qed.

End GS_pool.

Section GS_pool_blocks.
Import FGranularSynthOperator.

Lemma PlayLoop_length h inp frames b s :
  length (GrainVoices (snd (PlayLoop h inp frames b s))) = length (GrainVoices s).
Proof.
  revert b s. induction frames as [|f frames IH]; intros b s; simpl; auto.
  pose proof (TryStartPlayback_length h inp f s) as L.
  destruct (TryStartPlayback h inp f s) as [ok s1]. simpl in L.
  destruct ok; simpl; rewrite IH; simpl; auto.
Qed.

Lemma ProcessTriggers_length h inp s :
  length (GrainVoices (ProcessTriggers h inp s)) = length (GrainVoices s).
Proof.
  unfold ProcessTriggers.
  destruct (StopScan (StopTrigger inp) _) as [b0 StopFrame].
  match goal with |- context [PlayLoop ?h ?i ?f ?b ?s0] =>
    pose proof (PlayLoop_length h i f b s0) as L;
    destruct (PlayLoop h i f b s0) as [b1 s1] end.
  simpl in L.
  destruct (b1 && bIsPlaying s1); simpl; rewrite ?length_map; auto.
Qed.

Lemma ScheduleSpawnRender_length h inp s :
  length (GrainVoices (ScheduleSpawnRender h inp s)) = length (GrainVoices s).
Proof.
  unfold ScheduleSpawnRender.
  destruct (Scheduler h _ _ _ _ _) as [[Samples Grains] d].
  match goal with |- context [RenderVoices ?h ?i ?b ?k ?vs ?o] =>
    pose proof (RenderVoices_length h i b k vs o) as L;
    destruct (RenderVoices h i b k vs o) as [voices [outL outR]] end.
  simpl in *. rewrite L, SpawnLoop_length. reflexivity.
Qed.

Lemma StopNow_length s :
  length (GrainVoices (StopNow s)) = length (GrainVoices s).
Proof. unfold StopNow. simpl. apply length_map. Qed.

Lemma SanityAndMix_length h inp b s :
  length (GrainVoices (SanityAndMix h inp b s)) = length (GrainVoices s).
Proof.
  unfold SanityAndMix.
  destruct (_ || _ || _); [apply StopNow_length|].
  rewrite ScheduleSpawnRender_length. unfold ClearForMixing.
  destruct (negb b); reflexivity.
Qed.

Lemma ExecutePlaying_length h inp s :
  length (GrainVoices (ExecutePlaying h inp s)) = length (GrainVoices s).
Proof.
  unfold ExecutePlaying.
  destruct (SoundWaveProxy inp) as [px|].
  - destruct (WaveChanged inp s); [|apply SanityAndMix_length].
    pose proof (InitializeWaveData_voices h px s) as V.
    destruct (InitializeWaveData h px s) as [ok s1]. simpl in V.
    destruct ok; cbn [negb].
    + rewrite SanityAndMix_length. congruence.
    + rewrite StopNow_length. congruence.
  - destruct (isSome (CurrentWaveProxy s));
      [apply StopNow_length | apply SanityAndMix_length].
Qed.

Lemma Execute_length h inp s :
  length (GrainVoices (Execute h inp s)) = length (GrainVoices s).
Proof.
  unfold Execute.
  destruct (BlockSize s <=? 0)%Z.
  - destruct (bIsPlaying (ZeroOutputs s)); reflexivity.
  - destruct (negb (bIsPlaying (ProcessTriggers h inp s))).
    + destruct (_ || _ || _); simpl; rewrite ?length_map;
        apply ProcessTriggers_length.
    + rewrite ExecutePlaying_length. apply ProcessTriggers_length.
Qed.

Lemma Reachable_pool_size h s :
  Reachable h s -> length (GrainVoices s) = Z.to_nat MaxGrainVoices.
Proof.
  induction 1.
  - reflexivity.
  - rewrite Execute_length. assumption.
  - simpl. rewrite length_map. assumption.
  - rewrite TryStartPlayback_length. assumption.
  - rewrite SpawnGrain_length. assumption.
  - rewrite TriggerGrain_length. assumption.
Qed.

End GS_pool_blocks.

(** ** Stop and Play triggers of FGranularSynthOperator *)

Lemma ZeroBuffer_Silent b : Silent (ZeroBuffer b).
Proof.
  unfold Silent, ZeroBuffer. rewrite length_map.
  induction b as [|x b IH]; simpl; congruence.
Qed.

Section GS_triggers.
Import FGranularSynthOperator.

Lemma InitializeWaveData_ok h px s :
  fst (InitializeWaveData h px s) = WaveInitializes h px.
Proof.
  unfold InitializeWaveData, WaveInitializes.
  destruct (Reader_Create h px (DefaultSettings h)) as [r|]; [|reflexivity].
  destruct (_ || _); [reflexivity|].
  destruct (Deinterleave_Create h (ReaderNumChannels r)); reflexivity.
Qed.

Lemma TryStartPlayback_ok h inp f s :
  fst (TryStartPlayback h inp f s)
  = PlayCanStart h (IsSoundWaveValid inp) (SoundWaveProxy inp).
Proof.
  unfold TryStartPlayback, PlayCanStart.
  destruct (IsSoundWaveValid inp); [|reflexivity].
  destruct (SoundWaveProxy inp) as [px|]; [|reflexivity]. cbn [negb andb].
  rewrite <- (InitializeWaveData_ok h px (set_bIsPlaying false s)).
  destruct (InitializeWaveData h px (set_bIsPlaying false s)) as [ok s1].
  destruct ok; cbn [negb fst]; [|reflexivity].
  destruct (_ && _ && _ && _); reflexivity.
Qed.

Lemma TryStartPlayback_failed h inp f s :
  PlayCanStart h (IsSoundWaveValid inp) (SoundWaveProxy inp) = false ->
  TryStartPlayback h inp f s = (false, Stopped s).
Proof.
  unfold PlayCanStart, TryStartPlayback, Stopped.
  destruct (IsSoundWaveValid inp); [|reflexivity].
  destruct (SoundWaveProxy inp) as [px|]; [|reflexivity]. cbn [negb andb].
  unfold WaveInitializes, InitializeWaveData.
  destruct (Reader_Create h px (DefaultSettings h)) as [r|]; [|reflexivity].
  destruct (_ || _); [reflexivity|]. cbn [negb andb].
  intros ->. reflexivity.
Qed.

Lemma PlayLoop_failed h inp frames b s :
  PlayCanStart h (IsSoundWaveValid inp) (SoundWaveProxy inp) = false ->
  PlayLoop h inp frames b s
  = (match frames with [] => b | _ => false end, FailedPlays frames s).
Proof.
  intro H. revert b s. induction frames as [|f frames IH]; intros b s.
  - reflexivity.
  - cbn [PlayLoop FailedPlays]. rewrite (TryStartPlayback_failed h inp f s H).
    cbn [negb]. rewrite IH. destruct frames; reflexivity.
Qed.

Lemma map_ResetVoice_idem vs :
  map ResetVoice (map ResetVoice vs) = map ResetVoice vs.
Proof. rewrite map_map. reflexivity. Qed.

Lemma FailedPlay_step f s :
  let s' := set_bIsPlaying false (Finish f (Stopped s)) in
  bIsPlaying s' = false
  /\ GrainVoices s' = map ResetVoice (GrainVoices s)
  /\ OnFinishedTrigger s' = OnFinishedTrigger s ++ [f]
  /\ OnPlayTrigger s' = OnPlayTrigger s
  /\ CurrentWaveProxy s' = None
  /\ CurrentNumChannels s' = 0%Z
  /\ ConvertDeinterleave s' = false
  /\ AudioOutputLeft s' = AudioOutputLeft s
  /\ AudioOutputRight s' = AudioOutputRight s
  /\ BlockSize s' = BlockSize s.
Proof. destruct s. cbn. repeat split; reflexivity. Qed.

Lemma FailedPlays_spec frames s :
  frames <> [] ->
  let s' := FailedPlays frames s in
  bIsPlaying s' = false
  /\ GrainVoices s' = map ResetVoice (GrainVoices s)
  /\ OnFinishedTrigger s' = OnFinishedTrigger s ++ frames
  /\ OnPlayTrigger s' = OnPlayTrigger s
  /\ CurrentWaveProxy s' = None
  /\ CurrentNumChannels s' = 0%Z
  /\ ConvertDeinterleave s' = false
  /\ AudioOutputLeft s' = AudioOutputLeft s
  /\ AudioOutputRight s' = AudioOutputRight s
  /\ BlockSize s' = BlockSize s.
Proof.
  revert s. induction frames as [|f frames IH]; intros s Hne; [congruence|].
  pose proof (FailedPlay_step f s) as St. cbv zeta in St.
  cbv zeta.
  change (FailedPlays (f :: frames) s)
    with (FailedPlays frames (set_bIsPlaying false (Finish f (Stopped s)))).
  remember (set_bIsPlaying false (Finish f (Stopped s))) as s1 eqn:E1.
  clear E1.
  destruct frames as [|g frames].
  - exact St.
  - specialize (IH s1 ltac:(discriminate)). cbv zeta in IH.
    remember (FailedPlays (g :: frames) s1) as s2 eqn:E2. clear E2.
    destruct IH as (H1 & H2 & H3 & H4 & H5 & H6 & H7 & H8 & H9 & H10).
    destruct St as (G1 & G2 & G3 & G4 & G5 & G6 & G7 & G8 & G9 & G10).
    rewrite H1, H2, H3, H4, H5, H6, H7, H8, H9, H10.
    rewrite G2, G3, G4, G8, G9, G10.
    rewrite map_ResetVoice_idem, <- app_assoc.
    repeat split; reflexivity.
Qed.

Lemma filter_active_reset vs :
  filter bIsActive (map ResetVoice vs) = [].
Proof. induction vs as [|v vs IH]; simpl; auto. Qed.

End GS_triggers.

(** ** Play triggers of FGranularSynthOperator_Step8 *)

Section Step8_triggers.
Import FGranularSynthOperator_Step8.

Lemma Step8_InitializeWaveData_ok h px s :
  fst (InitializeWaveData h px s) = WaveInitializes h px.
Proof.
  unfold InitializeWaveData, WaveInitializes.
  destruct (Reader_Create h px (DefaultSettings h)) as [r|]; [|reflexivity].
  destruct (_ || _); [reflexivity|].
  destruct (Deinterleave_Create h (ReaderNumChannels r)); reflexivity.
Qed.

Lemma Step8_InitializeWaveData_frame h px s :
  let s' := snd (InitializeWaveData h px s) in
  GrainVoices s' = GrainVoices s
  /\ bIsPlaying s' = bIsPlaying s
  /\ OnFinishedTrigger s' = OnFinishedTrigger s
  /\ OnPlayTrigger s' = OnPlayTrigger s
  /\ AudioOutputLeft s' = AudioOutputLeft s
  /\ AudioOutputRight s' = AudioOutputRight s.
Proof.
  unfold InitializeWaveData.
  destruct (Reader_Create h px (DefaultSettings h)) as [r|]; [|cbn; tauto].
  destruct (_ || _); [cbn; tauto|].
  destruct (negb _); cbn; tauto.
Qed.

Lemma Step8_map_ResetVoice_idem vs :
  map ResetVoice (map ResetVoice vs) = map ResetVoice vs.
Proof. rewrite map_map. reflexivity. Qed.

Lemma Step8_filter_active_reset vs :
  filter bIsActive (map ResetVoice vs) = [].
Proof. induction vs as [|v vs IH]; simpl; auto. Qed.

(** A Play trigger that cannot start playback. *)
Lemma Step8_TryStartPlayback_failed h inp f s :
  PlayCanStart h (IsSoundWaveValid inp) (SoundWaveProxy inp) = false ->
  let r := TryStartPlayback h inp f s in
  fst r = false
  /\ bIsPlaying (snd r) = false
  /\ GrainVoices (snd r) = map ResetVoice (GrainVoices s)
  /\ OnFinishedTrigger (snd r)
     = (if bIsPlaying s then OnFinishedTrigger s ++ [f] else OnFinishedTrigger s)
  /\ OnPlayTrigger (snd r) = OnPlayTrigger s
  /\ AudioOutputLeft (snd r) = AudioOutputLeft s
  /\ AudioOutputRight (snd r) = AudioOutputRight s.
Proof.
  unfold PlayCanStart, TryStartPlayback.
  destruct (IsSoundWaveValid inp);
    [|intros _; cbn; destruct (bIsPlaying s); cbn; tauto].
  destruct (SoundWaveProxy inp) as [px|];
    [|intros _; cbn; destruct (bIsPlaying s); cbn; tauto].
  cbn [negb andb]. intro H.
  rewrite <- (Step8_InitializeWaveData_ok h px (set_bIsPlaying false s)) in H.
  pose proof (Step8_InitializeWaveData_frame h px (set_bIsPlaying false s)) as Fr.
  destruct (InitializeWaveData h px (set_bIsPlaying false s)) as [ok s1].
  cbn [fst snd] in *. subst ok. cbn [negb].
  destruct Fr as (F1 & F2 & F3 & F4 & F5 & F6). cbn in F1, F2, F3, F4, F5, F6.
  destruct (bIsPlaying s); cbn; rewrite ?F1, ?F3, ?F4, ?F5, ?F6; tauto.
Qed.

(** A run of Play triggers that cannot start playback, after the first has
    stopped the operator and fired OnFinished. *)
Lemma Step8_PlayLoop_failed_rest h inp frames b s vs0 :
  PlayCanStart h (IsSoundWaveValid inp) (SoundWaveProxy inp) = false ->
  bIsPlaying s = false ->
  OnFinishedTrigger s <> [] ->
  GrainVoices s = map ResetVoice vs0 ->
  let r := PlayLoop h inp frames b s in
  fst r = b
  /\ bIsPlaying (snd r) = false
  /\ GrainVoices (snd r) = map ResetVoice vs0
  /\ OnFinishedTrigger (snd r) = OnFinishedTrigger s
  /\ OnPlayTrigger (snd r) = OnPlayTrigger s
  /\ AudioOutputLeft (snd r) = AudioOutputLeft s
  /\ AudioOutputRight (snd r) = AudioOutputRight s.
Proof.
  intro H. revert b s. induction frames as [|f frames IH]; intros b s Hp Hf Hv.
  - cbn. tauto.
  - cbn [PlayLoop].
    pose proof (Step8_TryStartPlayback_failed h inp f s H) as T. cbn zeta in T.
    destruct (TryStartPlayback h inp f s) as [ok s1]. cbn [fst snd] in T.
    destruct T as (T1 & T2 & T3 & T4 & T5 & T6 & T7). subst ok.
    rewrite Hp in T4.
    assert (Tr : IsTriggeredInBlock (OnFinishedTrigger (set_bIsPlaying false s1)) = true).
    { cbn. rewrite T4. destruct (OnFinishedTrigger s); [congruence|reflexivity]. }
    rewrite Tr. cbn [negb].
    specialize (IH b (set_bIsPlaying false s1)). cbn zeta in IH.
    destruct IH as (I1 & I2 & I3 & I4 & I5 & I6 & I7).
    + reflexivity.
    + cbn. rewrite T4. exact Hf.
    + cbn. rewrite T3, Hv. apply Step8_map_ResetVoice_idem.
    + rewrite I1, I2, I3, I4, I5, I6, I7. cbn.
      rewrite T4, T5, T6, T7. tauto.
Qed.

Lemma Step8_PlayLoop_failed h inp f frames b s :
  PlayCanStart h (IsSoundWaveValid inp) (SoundWaveProxy inp) = false ->
  OnFinishedTrigger s = [] ->
  let r := PlayLoop h inp (f :: frames) b s in
  fst r = b
  /\ bIsPlaying (snd r) = false
  /\ GrainVoices (snd r) = map ResetVoice (GrainVoices s)
  /\ OnFinishedTrigger (snd r) = [f]
  /\ OnPlayTrigger (snd r) = OnPlayTrigger s
  /\ AudioOutputLeft (snd r) = AudioOutputLeft s
  /\ AudioOutputRight (snd r) = AudioOutputRight s.
Proof.
  intros H Hf. cbn [PlayLoop].
  pose proof (Step8_TryStartPlayback_failed h inp f s H) as T. cbn zeta in T.
  destruct (TryStartPlayback h inp f s) as [ok s1]. cbn [fst snd] in T.
  destruct T as (T1 & T2 & T3 & T4 & T5 & T6 & T7). subst ok.
  rewrite Hf in T4.
  set (s2 := if negb (IsTriggeredInBlock (OnFinishedTrigger (set_bIsPlaying false s1)))
             then Finish f (set_bIsPlaying false s1)
             else set_bIsPlaying false s1).
  assert (S2 : bIsPlaying s2 = false
               /\ GrainVoices s2 = map ResetVoice (GrainVoices s)
               /\ OnFinishedTrigger s2 = [f]
               /\ OnPlayTrigger s2 = OnPlayTrigger s
               /\ AudioOutputLeft s2 = AudioOutputLeft s
               /\ AudioOutputRight s2 = AudioOutputRight s).
  { unfold s2. cbn. rewrite T4.
    destruct (bIsPlaying s); cbn; rewrite ?T3, ?T4, ?T5, ?T6, ?T7; tauto. }
  destruct S2 as (A1 & A2 & A3 & A4 & A5 & A6).
  pose proof (Step8_PlayLoop_failed_rest h inp frames b s2 (GrainVoices s) H A1) as R.
  cbn zeta in R. rewrite A3 in R.
  destruct (R ltac:(discriminate) A2) as (R1 & R2 & R3 & R4 & R5 & R6 & R7).
  rewrite R1, R2, R3, R4, R5, R6, R7, A4, A5, A6. tauto.
Qed.

End Step8_triggers.

(** ** The scheduler loop of FGranularSynthOperator *)

Section GS_scheduler.
Import FGranularSynthOperator.

Variable h : Host.
Variables BaseInterval JitterPercent ElapsedSamples : Q.

Let Loop := SchedulerLoop h BaseInterval JitterPercent ElapsedSamples.
Let Jitter (d : nat) := JitteredInterval BaseInterval JitterPercent (FRand h d).

Lemma JitteredInterval_ge_1 b j u : 1 <= JitteredInterval b j u.
Proof. unfold JitteredInterval. apply Max_ge_l. Qed.

Lemma SchedulerFuel_step Samples J :
  Samples <= ElapsedSamples -> 1 <= J ->
  (S (SchedulerFuel ElapsedSamples (Samples + J))
   <= SchedulerFuel ElapsedSamples Samples)%nat.
Proof.
  intros H HJ. unfold SchedulerFuel.
  assert (F0 : (0 <= Qfloor (ElapsedSamples - Samples))%Z).
  { rewrite <- (Qfloor_Z 0). apply Qfloor_resp_le.
    change (inject_Z 0) with 0. qlra. }
  assert (F1 : (Qfloor (ElapsedSamples - (Samples + J))
                < Qfloor (ElapsedSamples - Samples))%Z).
  { pose proof (Qfloor_le (ElapsedSamples - (Samples + J))) as A.
    pose proof (Qlt_floor (ElapsedSamples - Samples)) as B.
    rewrite inject_Z_plus in B.
    assert (C : inject_Z (Qfloor (ElapsedSamples - (Samples + J)))
                < inject_Z (Qfloor (ElapsedSamples - Samples))).
    { change (inject_Z 1) with 1 in B. qlra. }
    rewrite <- Zlt_Qlt in C. exact C. }
  lia.
Qed.

(** With enough fuel the result does not depend on the fuel. *)
Lemma SchedulerLoop_fuel f1 : forall f2 Samples n d,
  (SchedulerFuel ElapsedSamples Samples <= f1)%nat ->
  (SchedulerFuel ElapsedSamples Samples <= f2)%nat ->
  Loop f1 Samples n d = Loop f2 Samples n d.
Proof.
  unfold Loop.
  induction f1 as [|f1 IH]; intros f2 Samples n d H1 H2.
  - destruct f2 as [|f2]; [reflexivity|]. cbn [SchedulerLoop].
    destruct (Qleb Samples ElapsedSamples) eqn:E; [|reflexivity].
    apply Qleb_spec in E.
    pose proof (SchedulerFuel_step Samples (Jitter d) E
                  (JitteredInterval_ge_1 _ _ _)). lia.
  - cbn [SchedulerLoop].
    destruct (Qleb Samples ElapsedSamples) eqn:E.
    + apply Qleb_spec in E.
      pose proof (SchedulerFuel_step Samples (Jitter d) E
                    (JitteredInterval_ge_1 _ _ _)) as St.
      destruct f2 as [|f2]; [lia|]. cbn [SchedulerLoop].
      apply Qleb_spec in E. rewrite E.
      apply IH; unfold Jitter in St; lia.
    + destruct f2 as [|f2]; cbn [SchedulerLoop]; rewrite ?E; reflexivity.
Qed.

(** The grain count is an accumulator. *)
Lemma SchedulerLoop_count f : forall Samples n d,
  Loop f Samples (n + 1) d
  = let '(Samples', m, d') := Loop f Samples n d in (Samples', (m + 1)%Z, d').
Proof.
  unfold Loop.
  induction f as [|f IH]; intros Samples n d; cbn [SchedulerLoop]; [reflexivity|].
  destruct (Qleb Samples ElapsedSamples); [|reflexivity].
  apply IH.
Qed.

(** The loop leaves with the counter above the elapsed samples: the fuel
    never runs out. *)
Lemma SchedulerLoop_exit f : forall Samples n d,
  (SchedulerFuel ElapsedSamples Samples <= f)%nat ->
  ElapsedSamples < fst (fst (Loop f Samples n d)).
Proof.
  unfold Loop.
  induction f as [|f IH]; intros Samples n d Hf; cbn [SchedulerLoop].
  - cbn. apply Qnot_le_lt. intro E.
    pose proof (SchedulerFuel_step Samples 1 E ltac:(qlra)). lia.
  - destruct (Qleb Samples ElapsedSamples) eqn:E.
    + apply Qleb_spec in E. apply IH.
      pose proof (SchedulerFuel_step Samples (Jitter d) E
                    (JitteredInterval_ge_1 _ _ _)) as St.
      unfold Jitter in St. lia.
    + apply Qleb_false in E. exact E.
Qed.

Hypothesis Guard :
  Qltb 0 BaseInterval && Qltb BaseInterval FMath.FloatMax = true.

(** The scheduler is the while loop of the source followed by the
    subtraction: no grain when the counter is above the elapsed samples... *)
Lemma Scheduler_not_due Samples d :
  ElapsedSamples < Samples ->
  Scheduler h BaseInterval JitterPercent ElapsedSamples Samples d
  = (Samples - ElapsedSamples, 0%Z, d).
Proof.
  intro H. unfold Scheduler. rewrite Guard.
  destruct (SchedulerFuel ElapsedSamples Samples) as [|f]; cbn [SchedulerLoop].
  - reflexivity.
  - apply Qleb_false in H. rewrite H. reflexivity.
Qed.

(** ... and otherwise one grain, the interval added, and the test again. *)
Lemma Scheduler_due Samples d :
  Samples <= ElapsedSamples ->
  Scheduler h BaseInterval JitterPercent ElapsedSamples Samples d
  = let '(Samples', n, d') :=
      Scheduler h BaseInterval JitterPercent ElapsedSamples
        (Samples + Jitter d) (S d) in
    (Samples', (n + 1)%Z, d').
Proof.
  intro H. unfold Scheduler. rewrite Guard.
  pose proof (SchedulerFuel_step Samples (Jitter d) H
                (JitteredInterval_ge_1 _ _ _)) as St.
  destruct (SchedulerFuel ElapsedSamples Samples) as [|f] eqn:Ef; [lia|].
  cbn [SchedulerLoop]. apply Qleb_spec in H. rewrite H.
  fold (Jitter d). fold Loop.
  rewrite (SchedulerLoop_fuel f (SchedulerFuel ElapsedSamples (Samples + Jitter d)))
    by lia.
  change (0 + 1)%Z with (0 + 1)%Z.
  rewrite (SchedulerLoop_count _ (Samples + Jitter d) 0 (S d)).
  destruct (Loop _ (Samples + Jitter d) 0%Z (S d)) as [[S' m] d'].
  reflexivity.
Qed.

(** After the block the counter is positive: the loop ran until the counter
    exceeded the elapsed samples. *)
Lemma Scheduler_counter_positive Samples d :
  0 < fst (fst (Scheduler h BaseInterval JitterPercent ElapsedSamples Samples d)).
Proof.
  unfold Scheduler. rewrite Guard.
  pose proof (SchedulerLoop_exit (SchedulerFuel ElapsedSamples Samples)
                Samples 0%Z d (Nat.le_refl _)) as E.
  unfold Loop in E.
  destruct (SchedulerLoop h BaseInterval JitterPercent ElapsedSamples _ Samples 0 d)
    as [[S' m] d'].
  cbn in *. qlra.
Qed.

End GS_scheduler.

(** ** The 100 ms / one voice / 48 kHz / 512 frames scenario *)

Section GS_scenario.
Import FGranularSynthOperator.

Variable h : Host.

Let B := BaseSamplesPerGrainInterval 48000 ScenarioPins.
Let Jt := TimeJitterPercent ScenarioPins.
Let E := inject_Z 512.

Lemma scenario_interval : B == 4800.
Proof. reflexivity. Qed.

Lemma scenario_guard : Qltb 0 B && Qltb B FMath.FloatMax = true.
Proof. reflexivity. Qed.

Lemma scenario_jittered u : JitteredInterval B Jt u == 4800.
Proof.
  unfold JitteredInterval.
  assert (X : B + FMath.FRandRange (-1) 1 u * B * (Jt / 100) == 4800).
  { change Jt with 0. change B with (4800000 # 1000).
    unfold FMath.FRandRange. field. }
  destruct (Max_cases MinSamplesPerGrainInterval
              (B + FMath.FRandRange (-1) 1 u * B * (Jt / 100)))
    as [[H1 H2]|[H1 H2]]; rewrite H2.
  - unfold MinSamplesPerGrainInterval in H1. rewrite X in H1.
    exfalso. revert H1. unfold Qlt. simpl. lia.
  - exact X.
Qed.

Lemma scenario_due Samples d :
  0 <= Samples -> Samples <= 512 ->
  exists Samples',
    Scheduler h B Jt E Samples d = (Samples', 1%Z, S d)
    /\ Samples' == Samples + 4800 - 512.
Proof.
  intros H0 H1.
  pose proof (scenario_jittered (FRand h d)) as J.
  rewrite (Scheduler_due h B Jt E scenario_guard Samples d) by exact H1.
  rewrite (Scheduler_not_due h B Jt E scenario_guard).
  - eexists. split; [reflexivity|]. rewrite J. unfold E. ring.
  - rewrite J. unfold E. change (inject_Z 512) with 512. qlra.
Qed.

Lemma scenario_wait k : forall Samples d,
  inject_Z (512 * Z.of_nat k) < Samples ->
  exists Samples',
    RunScheduler h B Jt E k Samples d = (repeat 0%Z k, Samples', d)
    /\ Samples' == Samples - inject_Z (512 * Z.of_nat k).
Proof.
  induction k as [|k IH]; intros Samples d H.
  - exists Samples. split; [reflexivity|]. cbn. ring.
  - assert (Hk : inject_Z (512 * Z.of_nat (S k))
                 == 512 + inject_Z (512 * Z.of_nat k)).
    { rewrite Nat2Z.inj_succ. rewrite <- (inject_Z_plus 512).
      apply inject_Z_injective. lia. }
    assert (K0 : 0 <= inject_Z (512 * Z.of_nat k)).
    { change 0 with (inject_Z 0). rewrite <- Zle_Qle. lia. }
    cbn [RunScheduler].
    rewrite (Scheduler_not_due h B Jt E scenario_guard)
      by (unfold E; change (inject_Z 512) with 512; qlra).
    destruct (IH (Samples - E) d) as (S' & R & Q).
    { unfold E. change (inject_Z 512) with 512. qlra. }
    rewrite R. exists S'. split; [reflexivity|].
    rewrite Q, Hk. unfold E. change (inject_Z 512) with 512. ring.
Qed.

(** From a block in which a grain is due, the next block in which a grain
    is due comes 9 or 10 blocks later, exactly one grain is triggered in the
    first and none in between. *)
Lemma scenario_gap Samples d :
  0 <= Samples -> Samples <= 512 ->
  exists gap Samples' d',
    (gap = 9 \/ gap = 10)%nat
    /\ RunScheduler h B Jt E gap Samples d
       = (1%Z :: repeat 0%Z (gap - 1), Samples', d')
    /\ 0 <= Samples' /\ Samples' <= 512.
Proof.
  intros H0 H1.
  destruct (scenario_due Samples d H0 H1) as (S1 & R1 & Q1).
  destruct (Qlt_le_dec 320 Samples) as [Hi|Lo].
  - exists 10%nat.
    destruct (scenario_wait 9 S1 (S d)) as (S' & R & Q).
    { rewrite Q1. change (inject_Z (512 * Z.of_nat 9)) with 4608. qlra. }
    exists S', (S d). split; [right; reflexivity|].
    change (RunScheduler h B Jt E 10 Samples d)
      with (let '(Sa, Gr, d1) := Scheduler h B Jt E Samples d in
            let '(counts, Sb, d2) := RunScheduler h B Jt E 9 Sa d1 in
            (Gr :: counts, Sb, d2)).
    rewrite R1, R. split; [reflexivity|].
    rewrite Q, Q1. change (inject_Z (512 * Z.of_nat 9)) with 4608.
    split; qlra.
  - exists 9%nat.
    destruct (scenario_wait 8 S1 (S d)) as (S' & R & Q).
    { rewrite Q1. change (inject_Z (512 * Z.of_nat 8)) with 4096. qlra. }
    exists S', (S d). split; [left; reflexivity|].
    change (RunScheduler h B Jt E 9 Samples d)
      with (let '(Sa, Gr, d1) := Scheduler h B Jt E Samples d in
            let '(counts, Sb, d2) := RunScheduler h B Jt E 8 Sa d1 in
            (Gr :: counts, Sb, d2)).
    rewrite R1, R. split; [reflexivity|].
    rewrite Q, Q1. change (inject_Z (512 * Z.of_nat 8)) with 4096.
    split; qlra.
Qed.

End GS_scenario.

(** ** What spawning grains leaves untouched *)

Section GS_frame.
Import FGranularSynthOperator.

Lemma SpawnFrame_refl s : SpawnFrame s s.
Proof. unfold SpawnFrame. tauto. Qed.

Lemma SpawnFrame_trans s1 s2 s3 :
  SpawnFrame s1 s2 -> SpawnFrame s2 s3 -> SpawnFrame s1 s3.
Proof.
  unfold SpawnFrame. intros H1 H2.
  destruct H1 as (A1 & A2 & A3 & A4 & A5 & A6 & A7 & A8 & A9 & A10 & A11 & A12).
  destruct H2 as (B1 & B2 & B3 & B4 & B5 & B6 & B7 & B8 & B9 & B10 & B11 & B12).
  repeat split; congruence.
Qed.

Lemma TriggerGrain_SpawnFrame h proxy samples start ratio pan vol rev frames s :
  SpawnFrame s (snd (TriggerGrain h proxy samples start ratio pan vol rev frames s)).
Proof.
  destruct (TriggerGrain_shape h proxy samples start ratio pan vol rev frames s)
    as [E|(i & v & _ & E & _)]; cbn zeta in *; rewrite E;
    unfold SpawnFrame; simpl; tauto.
Qed.

Lemma SpawnGrain_SpawnFrame h inp frameOf s :
  SpawnFrame s (SpawnGrain h inp frameOf s).
Proof.
  unfold SpawnGrain.
  destruct (negb _); [unfold SpawnFrame; simpl; tauto|].
  match goal with |- context [TriggerGrain ?h ?p ?n ?t ?r ?a ?v ?b ?k ?s0] =>
    pose proof (TriggerGrain_SpawnFrame h p n t r a v b k s0) as F;
    destruct (TriggerGrain h p n t r a v b k s0) as [ok s1] end.
  cbn [snd] in F.
  apply (SpawnFrame_trans _ s1).
  - unfold SpawnFrame in *. simpl in F. exact F.
  - destruct ok; [unfold SpawnFrame; simpl; tauto|apply SpawnFrame_refl].
Qed.

Lemma SpawnLoop_SpawnFrame h inp frameOf count : forall i s,
  SpawnFrame s (SpawnLoop h inp frameOf count i s).
Proof.
  induction count as [|count IH]; intros i s; cbn [SpawnLoop].
  - apply SpawnFrame_refl.
  - eapply SpawnFrame_trans; [apply SpawnGrain_SpawnFrame|apply IH].
Qed.

Lemma ScheduleSpawnRender_counter h inp s :
  SamplesUntilNextGrain (ScheduleSpawnRender h inp s)
  = fst (fst (Scheduler h (BaseSamplesPerGrainInterval (SampleRate s) inp)
                (TimeJitterPercent inp) (inject_Z (BlockSize s))
                (SamplesUntilNextGrain s) (FRandCalls s))).
Proof.
  unfold ScheduleSpawnRender.
  destruct (Scheduler h _ _ _ _ _) as [[Samples Grains] d]. cbn [fst].
  match goal with |- context [SpawnLoop ?h ?i ?f ?c ?k ?s0] =>
    pose proof (SpawnLoop_SpawnFrame h i f c k s0) as F;
    set (s1 := SpawnLoop h i f c k s0) in * end.
  destruct (RenderVoices h inp (BlockSize s1) 0 (GrainVoices s1) _)
    as [voices [outL outR]].
  destruct F as (_ & _ & _ & F & _). simpl. rewrite F. reflexivity.
Qed.

End GS_frame.

(** ** Mixing *)

Lemma ArrayMixIn_length {A} (K : Scalar A) (src dst : list A) g :
  length (ArrayMixIn K src dst g) = length dst.
Proof.
  revert dst. induction src as [|x src IH]; intros [|y dst]; simpl; auto.
Qed.

(** Inside the input view a frame receives the scaled input on top of what
    it held... *)
Lemma ArrayMixIn_nth {A} (K : Scalar A) (src dst : list A) g i d :
  (i < length src)%nat -> (i < length dst)%nat ->
  nth i (ArrayMixIn K src dst g) d
  = sadd K (nth i dst d) (smul K (nth i src d) g).
Proof.
  revert dst i. induction src as [|x src IH]; intros [|y dst] [|i] Hs Hd;
    simpl in *; try lia; auto.
  apply IH; lia.
Qed.

(** ... and beyond the input view it is left as it was. *)
Lemma ArrayMixIn_nth_beyond {A} (K : Scalar A) (src dst : list A) g i d :
  (length src <= i)%nat ->
  nth i (ArrayMixIn K src dst g) d = nth i dst d.
Proof.
  revert dst i. induction src as [|x src IH]; intros [|y dst] [|i] Hs;
    simpl in *; try lia; auto.
  apply IH; lia.
Qed.

Lemma PanAngle_R (pan : R) :
  PanAngle ScalarR pan = ((pan + 1) / 2 * (PI / 2))%R.
Proof. unfold PanAngle. simpl. field. Qed.

Lemma cos_PI4_bounds :
  (7071 / 10000 < cos (PI / 4) < 7072 / 10000)%R.
Proof.
  assert (P : (0 < PI)%R) by apply PI_RGT_0.
  assert (C : (0 < cos (PI / 4))%R) by (apply cos_gt_0; rlra).
  pose proof (sin2_cos2 (PI / 4)) as S. rewrite sin_cos_PI4 in S.
  unfold Rsqr in S.
  split; nra.
Qed.

(** ** Mixing on top of what the buffers hold *)

Lemma MemsetZero_length n : forall b, length (MemsetZero n b) = length b.
Proof.
  induction n as [|n IH]; intros [|x b]; simpl; auto.
Qed.

Lemma MemsetZero_nth n : forall b i,
  (i < n)%nat -> nth i (MemsetZero n b) 0 = 0.
Proof.
  induction n as [|n IH]; intros b i Hi; [lia|].
  destruct b as [|x b]; destruct i as [|i]; simpl; auto.
  apply IH. lia.
Qed.

Lemma MemsetZero_nth_beyond n : forall b i,
  (n <= i)%nat -> nth i (MemsetZero n b) 0 = nth i b 0.
Proof.
  induction n as [|n IH]; intros b i Hi.
  - destruct b; reflexivity.
  - destruct b as [|x b]; destruct i as [|i]; simpl; auto; try lia.
    apply IH. lia.
Qed.

Lemma ZeroBuffer_nth b i : nth i (ZeroBuffer b) 0 = 0.
Proof.
  unfold ZeroBuffer. revert i.
  induction b as [|x b IH]; intros [|i]; simpl; auto.
Qed.

Lemma ZeroBuffer_length b : length (ZeroBuffer b) = length b.
Proof. apply length_map. Qed.

(** Mixing the same voice into [L] and into [L0] keeps their difference. *)
Lemma MixedOnto_start B : MixedOnto B (ZeroBuffer B) B.
Proof.
  split; [symmetry; apply ZeroBuffer_length|].
  intro i. rewrite ZeroBuffer_nth. ring.
Qed.

Lemma ArrayMixIn_MixedOnto h B mono g L L0 :
  MixedOnto B L0 L ->
  MixedOnto B (ArrayMixIn (ScalarQ h) mono L0 g) (ArrayMixIn (ScalarQ h) mono L g).
Proof.
  intros [Hl H]. split.
  - rewrite !ArrayMixIn_length. exact Hl.
  - intro i.
    destruct (Nat.lt_ge_cases i (length mono)) as [Hm|Hm].
    + destruct (Nat.lt_ge_cases i (length L)) as [HL|HL].
      * rewrite !ArrayMixIn_nth by (try assumption; lia).
        cbn [sadd smul ScalarQ]. rewrite (H i). ring.
      * rewrite !(nth_overflow (ArrayMixIn _ _ _ _))
          by (rewrite ArrayMixIn_length; lia).
        rewrite <- (nth_overflow L 0 HL) at 1.
        rewrite (H i), (nth_overflow L0) by lia. reflexivity.
    + rewrite !ArrayMixIn_nth_beyond by assumption. apply H.
Qed.

Section GS_onto.
Import FGranularSynthOperator.

Lemma RenderVoice_MixedOnto h inp bs slot v BL BR L R L0 R0 :
  MixedOnto BL L0 L -> MixedOnto BR R0 R ->
  let r := RenderVoice h inp bs slot v (L, R) in
  let r0 := RenderVoice h inp bs slot v (L0, R0) in
  fst r = fst r0
  /\ MixedOnto BL (fst (snd r0)) (fst (snd r))
  /\ MixedOnto BR (snd (snd r0)) (snd (snd r)).
Proof.
  intros HL HR. unfold RenderVoice.
  destruct (bIsActive v); [|cbn; auto].
  destruct (_ <=? 0)%Z; [cbn; auto|].
  cbn [fst snd].
  split; [reflexivity|].
  split; apply ArrayMixIn_MixedOnto; assumption.
Qed.

Lemma RenderVoices_MixedOnto h inp bs BL BR vs : forall slot L R L0 R0,
  MixedOnto BL L0 L -> MixedOnto BR R0 R ->
  let r := RenderVoices h inp bs slot vs (L, R) in
  let r0 := RenderVoices h inp bs slot vs (L0, R0) in
  fst r = fst r0
  /\ MixedOnto BL (fst (snd r0)) (fst (snd r))
  /\ MixedOnto BR (snd (snd r0)) (snd (snd r)).
Proof.
  induction vs as [|v vs IH]; intros slot L R L0 R0 HL HR; cbn [RenderVoices].
  - cbn. auto.
  - pose proof (RenderVoice_MixedOnto h inp bs slot v BL BR L R L0 R0 HL HR) as P.
    cbv zeta in P.
    destruct (RenderVoice h inp bs slot v (L, R)) as [v1 [L1 R1]].
    destruct (RenderVoice h inp bs slot v (L0, R0)) as [v2 [L2 R2]].
    cbn [fst snd] in P. destruct P as (Ev & PL & PR). subst v2.
    specialize (IH (S slot) L1 R1 L2 R2 PL PR). cbv zeta in IH.
    destruct (RenderVoices h inp bs (S slot) vs (L1, R1)) as [vs1 [L3 R3]].
    destruct (RenderVoices h inp bs (S slot) vs (L2, R2)) as [vs2 [L4 R4]].
    cbn [fst snd] in *. destruct IH as (E & QL & QR). subst vs2. auto.
Qed.

Lemma RenderVoices_buffer_length h inp bs vs : forall slot L R,
  let r := RenderVoices h inp bs slot vs (L, R) in
  length (fst (snd r)) = length L /\ length (snd (snd r)) = length R.
Proof.
  induction vs as [|v vs IH]; intros slot L R; cbn [RenderVoices].
  - cbn. auto.
  - assert (P : length (fst (snd (RenderVoice h inp bs slot v (L, R)))) = length L
                /\ length (snd (snd (RenderVoice h inp bs slot v (L, R)))) = length R).
    { unfold RenderVoice. destruct (bIsActive v); [|cbn; auto].
      destruct (_ <=? 0)%Z; [cbn; auto|]. cbn [fst snd].
      rewrite !ArrayMixIn_length. auto. }
    destruct (RenderVoice h inp bs slot v (L, R)) as [v1 [L1 R1]].
    specialize (IH (S slot) L1 R1). cbv zeta in IH.
    destruct (RenderVoices h inp bs (S slot) vs (L1, R1)) as [vs1 [L3 R3]].
    cbn [fst snd] in *. destruct P, IH. split; congruence.
Qed.

Lemma TriggerGrain_WithOutputs h p n t r a v b k L R s :
  TriggerGrain h p n t r a v b k (WithOutputs L R s)
  = (fst (TriggerGrain h p n t r a v b k s),
     WithOutputs L R (snd (TriggerGrain h p n t r a v b k s))).
Proof.
  destruct s. unfold TriggerGrain, WithOutputs. cbn.
  repeat match goal with
  | |- context [if ?c then _ else _] => destruct c
  | |- context [match ?c with _ => _ end] => destruct c
  end; reflexivity.
Qed.

Lemma SpawnGrain_WithOutputs h inp frameOf L R s :
  SpawnGrain h inp frameOf (WithOutputs L R s)
  = WithOutputs L R (SpawnGrain h inp frameOf s).
Proof.
  unfold SpawnGrain.
  change (FRandCalls (WithOutputs L R s)) with (FRandCalls s).
  change (SampleRate (WithOutputs L R s)) with (SampleRate s).
  change (CachedSoundWaveDuration (WithOutputs L R s))
    with (CachedSoundWaveDuration s).
  destruct (negb _); [destruct s; reflexivity|].
  change (set_FRandCalls (FRandCalls s + 6) (WithOutputs L R s))
    with (WithOutputs L R (set_FRandCalls (FRandCalls s + 6) s)).
  change (CurrentWaveProxy (WithOutputs L R (set_FRandCalls (FRandCalls s + 6) s)))
    with (CurrentWaveProxy (set_FRandCalls (FRandCalls s + 6) s)).
  rewrite TriggerGrain_WithOutputs.
  destruct (TriggerGrain h _ _ _ _ _ _ _ _ _) as [ok s1]. cbn [fst snd].
  destruct ok; [destruct s1; reflexivity|reflexivity].
Qed.

Lemma SpawnLoop_WithOutputs h inp frameOf L R count : forall i s,
  SpawnLoop h inp frameOf count i (WithOutputs L R s)
  = WithOutputs L R (SpawnLoop h inp frameOf count i s).
Proof.
  induction count as [|count IH]; intros i s; cbn [SpawnLoop]; [reflexivity|].
  rewrite SpawnGrain_WithOutputs. apply IH.
Qed.

(** The block from the scheduler on, run over buffers holding [base] and run
    over silent buffers: the same state, and the outputs differ by [base]. *)
Lemma ScheduleSpawnRender_MixedOnto h inp s :
  let out := ScheduleSpawnRender h inp s in
  let mix := ScheduleSpawnRender h inp (ZeroOutputs s) in
  MixedOnto (AudioOutputLeft s) (AudioOutputLeft mix) (AudioOutputLeft out)
  /\ MixedOnto (AudioOutputRight s) (AudioOutputRight mix) (AudioOutputRight out)
  /\ length (AudioOutputLeft out) = length (AudioOutputLeft s)
  /\ length (AudioOutputRight out) = length (AudioOutputRight s)
  /\ GrainVoices mix = GrainVoices out.
Proof.
  cbv zeta. unfold ScheduleSpawnRender.
  change (SampleRate (ZeroOutputs s)) with (SampleRate s).
  change (BlockSize (ZeroOutputs s)) with (BlockSize s).
  change (SamplesUntilNextGrain (ZeroOutputs s)) with (SamplesUntilNextGrain s).
  change (FRandCalls (ZeroOutputs s)) with (FRandCalls s).
  destruct (Scheduler h _ _ _ _ _) as [[Samples Grains] d].
  change (set_FRandCalls d (set_SamplesUntilNextGrain Samples (ZeroOutputs s)))
    with (WithOutputs (ZeroBuffer (AudioOutputLeft s))
            (ZeroBuffer (AudioOutputRight s))
            (set_FRandCalls d (set_SamplesUntilNextGrain Samples s))).
  set (s0 := set_FRandCalls d (set_SamplesUntilNextGrain Samples s)).
  change (BlockSize (WithOutputs (ZeroBuffer (AudioOutputLeft s))
            (ZeroBuffer (AudioOutputRight s)) s0)) with (BlockSize s0).
  rewrite SpawnLoop_WithOutputs.
  set (s1 := SpawnLoop h inp _ _ 0%Z s0).
  assert (F : SpawnFrame s0 s1) by apply SpawnLoop_SpawnFrame.
  destruct F as (_ & _ & _ & _ & _ & _ & _ & _ & _ & _ & FL & FR).
  change (AudioOutputLeft s0) with (AudioOutputLeft s) in FL.
  change (AudioOutputRight s0) with (AudioOutputRight s) in FR.
  change (BlockSize (WithOutputs (ZeroBuffer (AudioOutputLeft s))
            (ZeroBuffer (AudioOutputRight s)) s1)) with (BlockSize s1).
  change (GrainVoices (WithOutputs (ZeroBuffer (AudioOutputLeft s))
            (ZeroBuffer (AudioOutputRight s)) s1)) with (GrainVoices s1).
  change (AudioOutputLeft (WithOutputs (ZeroBuffer (AudioOutputLeft s))
            (ZeroBuffer (AudioOutputRight s)) s1))
    with (ZeroBuffer (AudioOutputLeft s)).
  change (AudioOutputRight (WithOutputs (ZeroBuffer (AudioOutputLeft s))
            (ZeroBuffer (AudioOutputRight s)) s1))
    with (ZeroBuffer (AudioOutputRight s)).
  rewrite FL, FR.
  pose proof (RenderVoices_MixedOnto h inp (BlockSize s1)
                (AudioOutputLeft s) (AudioOutputRight s) (GrainVoices s1) 0%nat
                (AudioOutputLeft s) (AudioOutputRight s)
                (ZeroBuffer (AudioOutputLeft s)) (ZeroBuffer (AudioOutputRight s))
                (MixedOnto_start _) (MixedOnto_start _)) as P.
  pose proof (RenderVoices_buffer_length h inp (BlockSize s1) (GrainVoices s1)
                0%nat (AudioOutputLeft s) (AudioOutputRight s)) as Len.
  cbv zeta in P, Len.
  destruct (RenderVoices h inp (BlockSize s1) 0 (GrainVoices s1)
              (AudioOutputLeft s, AudioOutputRight s)) as [vs1 [L1 R1]].
  destruct (RenderVoices h inp (BlockSize s1) 0 (GrainVoices s1)
              (ZeroBuffer (AudioOutputLeft s), ZeroBuffer (AudioOutputRight s)))
    as [vs2 [L2 R2]].
  cbn [fst snd] in P, Len. destruct P as (E & PL & PR). destruct Len as [LL LR].
  subst vs2. cbn. auto.
Qed.

End GS_onto.

Section GS_outputs.
Import FGranularSynthOperator.

Lemma KeepsBuffers_trans s1 s2 s3 :
  KeepsBuffers s1 s2 -> KeepsBuffers s2 s3 -> KeepsBuffers s1 s3.
Proof.
  unfold KeepsBuffers. intros (A1 & A2 & A3 & A4) (B1 & B2 & B3 & B4).
  repeat split; congruence.
Qed.

Lemma InitializeWaveData_KeepsBuffers h px s :
  KeepsBuffers s (snd (InitializeWaveData h px s)).
Proof.
  unfold InitializeWaveData, KeepsBuffers.
  destruct (Reader_Create h px (DefaultSettings h)) as [r|]; [|cbn; auto].
  destruct (_ || _); [cbn; auto|].
  destruct (negb _); cbn; auto.
Qed.

Lemma TryStartPlayback_KeepsBuffers h inp f s :
  KeepsBuffers s (snd (TryStartPlayback h inp f s)).
Proof.
  unfold TryStartPlayback.
  destruct (negb (IsSoundWaveValid inp)); [cbn; unfold KeepsBuffers; auto|].
  destruct (SoundWaveProxy inp) as [px|]; [|cbn; unfold KeepsBuffers; auto].
  pose proof (InitializeWaveData_KeepsBuffers h px (set_bIsPlaying false s)) as P.
  destruct (InitializeWaveData h px (set_bIsPlaying false s)) as [ok s1].
  cbn [snd] in P. unfold KeepsBuffers in P |- *. cbn in P.
  destruct ok; cbn [negb]; [|cbn; exact P].
  match goal with |- context [if ?c then _ else _] => destruct c end;
    [|cbn; exact P].
  match goal with |- context [SpawnLoop ?h ?i ?f ?c ?k ?s0] =>
    pose proof (SpawnLoop_SpawnFrame h i f c k s0) as F;
    set (s2 := SpawnLoop h i f c k s0) in * end.
  destruct F as (F1 & F2 & _ & _ & _ & _ & _ & _ & _ & _ & FL & FR).
  cbn in F1, F2, FL, FR. cbn. rewrite F1, F2, FL, FR. exact P.
Qed.

Lemma PlayLoop_KeepsBuffers h inp frames : forall b s,
  KeepsBuffers s (snd (PlayLoop h inp frames b s)).
Proof.
  induction frames as [|f frames IH]; intros b s; cbn [PlayLoop].
  - cbn. unfold KeepsBuffers. auto.
  - pose proof (TryStartPlayback_KeepsBuffers h inp f s) as P.
    destruct (TryStartPlayback h inp f s) as [ok s1]. cbn [snd] in P.
    destruct ok; cbn [negb].
    + apply (KeepsBuffers_trans _ s1); [exact P|apply IH].
    + apply (KeepsBuffers_trans _ (set_bIsPlaying false (Finish f s1)));
        [exact P|apply IH].
Qed.

(** The Stop and Play triggers of a block do not touch the stereo buffers. *)
Lemma ProcessTriggers_KeepsBuffers h inp s :
  KeepsBuffers s (ProcessTriggers h inp s).
Proof.
  unfold ProcessTriggers.
  destruct (StopScan _ _) as [b0 f0].
  match goal with |- context [PlayLoop ?h ?i ?f ?b ?s0] =>
    pose proof (PlayLoop_KeepsBuffers h i f b s0) as P;
    destruct (PlayLoop h i f b s0) as [b1 s1] end.
  cbn [snd] in P. unfold KeepsBuffers in *. cbn in P.
  destruct (b1 && bIsPlaying s1); [cbn|]; exact P.
Qed.

End GS_outputs.

Section Step8_onto.
Import FGranularSynthOperator_Step8.

Lemma Step8_RenderVoice_MixedOnto h inp bs slot v BL BR L R L0 R0 :
  MixedOnto BL L0 L -> MixedOnto BR R0 R ->
  let r := RenderVoice h inp bs slot v (L, R) in
  let r0 := RenderVoice h inp bs slot v (L0, R0) in
  fst r = fst r0
  /\ MixedOnto BL (fst (snd r0)) (fst (snd r))
  /\ MixedOnto BR (snd (snd r0)) (snd (snd r)).
Proof.
  intros HL HR. unfold RenderVoice.
  destruct (bIsActive v); [|cbn; auto].
  destruct (_ || _); [cbn; auto|].
  destruct (_ <=? 0)%Z; [cbn; auto|].
  destruct (bReadFailedEmpty _); [cbn; auto|].
  destruct (0 <? _)%Z; cbn [fst snd]; [|auto].
  split; [reflexivity|].
  split; apply ArrayMixIn_MixedOnto; assumption.
Qed.

Lemma Step8_RenderVoices_MixedOnto h inp bs BL BR vs : forall slot L R L0 R0,
  MixedOnto BL L0 L -> MixedOnto BR R0 R ->
  let r := RenderVoices h inp bs slot vs (L, R) in
  let r0 := RenderVoices h inp bs slot vs (L0, R0) in
  fst r = fst r0
  /\ MixedOnto BL (fst (snd r0)) (fst (snd r))
  /\ MixedOnto BR (snd (snd r0)) (snd (snd r)).
Proof.
  induction vs as [|v vs IH]; intros slot L R L0 R0 HL HR; cbn [RenderVoices].
  - cbn. auto.
  - pose proof (Step8_RenderVoice_MixedOnto h inp bs slot v BL BR L R L0 R0 HL HR)
      as P.
    cbv zeta in P.
    destruct (RenderVoice h inp bs slot v (L, R)) as [v1 [L1 R1]].
    destruct (RenderVoice h inp bs slot v (L0, R0)) as [v2 [L2 R2]].
    cbn [fst snd] in P. destruct P as (Ev & PL & PR). subst v2.
    specialize (IH (S slot) L1 R1 L2 R2 PL PR). cbv zeta in IH.
    destruct (RenderVoices h inp bs (S slot) vs (L1, R1)) as [vs1 [L3 R3]].
    destruct (RenderVoices h inp bs (S slot) vs (L2, R2)) as [vs2 [L4 R4]].
    cbn [fst snd] in *. destruct IH as (E & QL & QR). subst vs2. auto.
Qed.

Lemma Step8_RenderVoices_buffer_length h inp bs vs : forall slot L R,
  let r := RenderVoices h inp bs slot vs (L, R) in
  length (fst (snd r)) = length L /\ length (snd (snd r)) = length R.
Proof.
  induction vs as [|v vs IH]; intros slot L R; cbn [RenderVoices].
  - cbn. auto.
  - assert (P : length (fst (snd (RenderVoice h inp bs slot v (L, R)))) = length L
                /\ length (snd (snd (RenderVoice h inp bs slot v (L, R)))) = length R).
    { unfold RenderVoice. destruct (bIsActive v); [|cbn; auto].
      destruct (_ || _); [cbn; auto|].
      destruct (_ <=? 0)%Z; [cbn; auto|].
      destruct (bReadFailedEmpty _); [cbn; auto|].
      destruct (0 <? _)%Z; cbn [fst snd]; [|auto].
      rewrite !ArrayMixIn_length. auto. }
    destruct (RenderVoice h inp bs slot v (L, R)) as [v1 [L1 R1]].
    specialize (IH (S slot) L1 R1). cbv zeta in IH.
    destruct (RenderVoices h inp bs (S slot) vs (L1, R1)) as [vs1 [L3 R3]].
    cbn [fst snd] in *. destruct P, IH. split; congruence.
Qed.

Lemma Step8_TriggerGrain_WithOutputs h p n t r a L R s :
  TriggerGrain h p n t r a (Step8_WithOutputs L R s)
  = (fst (TriggerGrain h p n t r a s),
     Step8_WithOutputs L R (snd (TriggerGrain h p n t r a s))).
Proof.
  destruct s. unfold TriggerGrain, Step8_WithOutputs. cbn.
  repeat match goal with
  | |- context [if ?c then _ else _] => destruct c
  | |- context [match ?c with _ => _ end] => destruct c
  end; reflexivity.
Qed.

Lemma Step8_SpawnGrain_WithOutputs h inp L R s :
  SpawnGrain h inp (Step8_WithOutputs L R s)
  = Step8_WithOutputs L R (SpawnGrain h inp s).
Proof.
  unfold SpawnGrain.
  change (FRandCalls (Step8_WithOutputs L R s)) with (FRandCalls s).
  change (SampleRate (Step8_WithOutputs L R s)) with (SampleRate s).
  change (CachedSoundWaveDuration (Step8_WithOutputs L R s))
    with (CachedSoundWaveDuration s).
  change (set_FRandCalls (FRandCalls s + 4) (Step8_WithOutputs L R s))
    with (Step8_WithOutputs L R (set_FRandCalls (FRandCalls s + 4) s)).
  change (CurrentWaveProxy
            (Step8_WithOutputs L R (set_FRandCalls (FRandCalls s + 4) s)))
    with (CurrentWaveProxy (set_FRandCalls (FRandCalls s + 4) s)).
  rewrite Step8_TriggerGrain_WithOutputs.
  destruct (TriggerGrain h _ _ _ _ _ _) as [ok s1]. cbn [fst snd].
  destruct ok; [destruct s1; reflexivity|reflexivity].
Qed.

Lemma Step8_SpawnLoop_WithOutputs h inp L R count : forall s,
  SpawnLoop h inp count (Step8_WithOutputs L R s)
  = Step8_WithOutputs L R (SpawnLoop h inp count s).
Proof.
  induction count as [|count IH]; intros s; cbn [SpawnLoop]; [reflexivity|].
  rewrite Step8_SpawnGrain_WithOutputs. apply IH.
Qed.

Lemma Step8_WithOutputs_same s :
  Step8_WithOutputs (AudioOutputLeft s) (AudioOutputRight s) s = s.
Proof. destruct s. reflexivity. Qed.

Lemma Step8_SpawnLoop_KeepsBuffers h inp count s :
  Step8_KeepsBuffers s (SpawnLoop h inp count s).
Proof.
  assert (A : forall count s, BlockSize (SpawnLoop h inp count s) = BlockSize s
                              /\ SampleRate (SpawnLoop h inp count s) = SampleRate s).
  { clear. induction count as [|count IH]; intro s; cbn [SpawnLoop]; [auto|].
    destruct (IH (SpawnGrain h inp s)) as [B1 B2]. rewrite B1, B2.
    unfold SpawnGrain.
    match goal with |- context [TriggerGrain ?h ?p ?n ?t ?r ?a ?s0] =>
      assert (T : BlockSize (snd (TriggerGrain h p n t r a s0)) = BlockSize s
                  /\ SampleRate (snd (TriggerGrain h p n t r a s0)) = SampleRate s);
      [|destruct (TriggerGrain h p n t r a s0) as [ok s1]] end.
    { unfold TriggerGrain.
      repeat match goal with
      | |- context [if ?c then _ else _] => destruct c
      | |- context [match ?c with _ => _ end] => destruct c
      end; cbn; auto. }
    cbn [snd] in T. destruct ok; cbn; exact T. }
  pose proof (Step8_SpawnLoop_WithOutputs h inp (AudioOutputLeft s)
                (AudioOutputRight s) count s) as E.
  rewrite Step8_WithOutputs_same in E.
  destruct (A count s) as [A1 A2].
  unfold Step8_KeepsBuffers. rewrite E at 1 2. cbn. auto.
Qed.

Lemma Step8_ScheduleSpawnRender_MixedOnto h inp s :
  let out := ScheduleSpawnRender h inp s in
  let mix := ScheduleSpawnRender h inp (ZeroOutputs s) in
  MixedOnto (AudioOutputLeft s) (AudioOutputLeft mix) (AudioOutputLeft out)
  /\ MixedOnto (AudioOutputRight s) (AudioOutputRight mix) (AudioOutputRight out)
  /\ length (AudioOutputLeft out) = length (AudioOutputLeft s)
  /\ length (AudioOutputRight out) = length (AudioOutputRight s)
  /\ GrainVoices mix = GrainVoices out.
Proof.
  cbv zeta. unfold ScheduleSpawnRender.
  change (SampleRate (ZeroOutputs s)) with (SampleRate s).
  change (BlockSize (ZeroOutputs s)) with (BlockSize s).
  change (SamplesUntilNextGrain (ZeroOutputs s)) with (SamplesUntilNextGrain s).
  destruct (Scheduler _ _ _) as [Samples Grains].
  change (set_SamplesUntilNextGrain Samples (ZeroOutputs s))
    with (Step8_WithOutputs (ZeroBuffer (AudioOutputLeft s))
            (ZeroBuffer (AudioOutputRight s))
            (set_SamplesUntilNextGrain Samples s)).
  set (s0 := set_SamplesUntilNextGrain Samples s).
  rewrite Step8_SpawnLoop_WithOutputs.
  set (s1 := SpawnLoop h inp _ s0).
  assert (F : Step8_KeepsBuffers s0 s1) by apply Step8_SpawnLoop_KeepsBuffers.
  destruct F as (FL & FR & _ & _).
  change (AudioOutputLeft s0) with (AudioOutputLeft s) in FL.
  change (AudioOutputRight s0) with (AudioOutputRight s) in FR.
  change (BlockSize (Step8_WithOutputs (ZeroBuffer (AudioOutputLeft s))
            (ZeroBuffer (AudioOutputRight s)) s1)) with (BlockSize s1).
  change (GrainVoices (Step8_WithOutputs (ZeroBuffer (AudioOutputLeft s))
            (ZeroBuffer (AudioOutputRight s)) s1)) with (GrainVoices s1).
  change (AudioOutputLeft (Step8_WithOutputs (ZeroBuffer (AudioOutputLeft s))
            (ZeroBuffer (AudioOutputRight s)) s1))
    with (ZeroBuffer (AudioOutputLeft s)).
  change (AudioOutputRight (Step8_WithOutputs (ZeroBuffer (AudioOutputLeft s))
            (ZeroBuffer (AudioOutputRight s)) s1))
    with (ZeroBuffer (AudioOutputRight s)).
  rewrite FL, FR.
  pose proof (Step8_RenderVoices_MixedOnto h inp (BlockSize s1)
                (AudioOutputLeft s) (AudioOutputRight s) (GrainVoices s1) 0%nat
                (AudioOutputLeft s) (AudioOutputRight s)
                (ZeroBuffer (AudioOutputLeft s)) (ZeroBuffer (AudioOutputRight s))
                (MixedOnto_start _) (MixedOnto_start _)) as P.
  pose proof (Step8_RenderVoices_buffer_length h inp (BlockSize s1) (GrainVoices s1)
                0%nat (AudioOutputLeft s) (AudioOutputRight s)) as Len.
  cbv zeta in P, Len.
  destruct (RenderVoices h inp (BlockSize s1) 0 (GrainVoices s1)
              (AudioOutputLeft s, AudioOutputRight s)) as [vs1 [L1 R1]].
  destruct (RenderVoices h inp (BlockSize s1) 0 (GrainVoices s1)
              (ZeroBuffer (AudioOutputLeft s), ZeroBuffer (AudioOutputRight s)))
    as [vs2 [L2 R2]].
  cbn [fst snd] in P, Len. destruct P as (E & PL & PR). destruct Len as [LL LR].
  subst vs2. cbn. auto.
Qed.

Lemma Step8_KeepsBuffers_trans s1 s2 s3 :
  Step8_KeepsBuffers s1 s2 -> Step8_KeepsBuffers s2 s3 ->
  Step8_KeepsBuffers s1 s3.
Proof.
  unfold Step8_KeepsBuffers. intros (A1 & A2 & A3 & A4) (B1 & B2 & B3 & B4).
  repeat split; congruence.
Qed.

Lemma Step8_InitializeWaveData_KeepsBuffers h px s :
  Step8_KeepsBuffers s (snd (InitializeWaveData h px s)).
Proof.
  unfold InitializeWaveData, Step8_KeepsBuffers.
  destruct (Reader_Create h px (DefaultSettings h)) as [r|]; [|cbn; auto].
  destruct (_ || _); [cbn; auto|].
  destruct (negb _); cbn; auto.
Qed.

Lemma Step8_TryStartPlayback_KeepsBuffers h inp f s :
  Step8_KeepsBuffers s (snd (TryStartPlayback h inp f s)).
Proof.
  unfold TryStartPlayback.
  destruct (negb (IsSoundWaveValid inp));
    [destruct (bIsPlaying s); cbn; unfold Step8_KeepsBuffers; auto|].
  destruct (SoundWaveProxy inp) as [px|];
    [|destruct (bIsPlaying s); cbn; unfold Step8_KeepsBuffers; auto].
  pose proof (Step8_InitializeWaveData_KeepsBuffers h px (set_bIsPlaying false s))
    as P.
  destruct (InitializeWaveData h px (set_bIsPlaying false s)) as [ok s1].
  cbn [snd] in P. unfold Step8_KeepsBuffers in P |- *. cbn in P.
  destruct ok; cbn [negb]; [cbn; exact P|].
  destruct (bIsPlaying s); cbn; exact P.
Qed.

Lemma Step8_PlayLoop_KeepsBuffers h inp frames : forall b s,
  Step8_KeepsBuffers s (snd (PlayLoop h inp frames b s)).
Proof.
  induction frames as [|f frames IH]; intros b s; cbn [PlayLoop].
  - cbn. unfold Step8_KeepsBuffers. auto.
  - pose proof (Step8_TryStartPlayback_KeepsBuffers h inp f s) as P.
    destruct (TryStartPlayback h inp f s) as [ok s1]. cbn [snd] in P.
    destruct ok.
    + apply (Step8_KeepsBuffers_trans _ s1); [exact P|apply IH].
    + eapply Step8_KeepsBuffers_trans; [|apply IH].
      destruct (negb _); cbn; exact P.
Qed.

Lemma Step8_ProcessTriggers_KeepsBuffers h inp s :
  Step8_KeepsBuffers s (ProcessTriggers h inp s).
Proof.
  unfold ProcessTriggers.
  destruct (StopScan _ _) as [b0 f0].
  match goal with |- context [PlayLoop ?h ?i ?f ?b ?s0] =>
    pose proof (Step8_PlayLoop_KeepsBuffers h i f b s0) as P;
    destruct (PlayLoop h i f b s0) as [b1 s1] end.
  cbn [snd] in P. unfold Step8_KeepsBuffers in *. cbn in P.
  destruct (b1 && bIsPlaying s1); [cbn|]; exact P.
Qed.

End Step8_onto.

Section GWP_onto.
Import FGranularWavePlayerSmoothOperator.

Lemma GWP_RenderVoice_MixedOnto h inp bs slot v BL BR L R L0 R0 :
  MixedOnto BL L0 L -> MixedOnto BR R0 R ->
  let r := RenderVoice h inp bs slot v (L, R) in
  let r0 := RenderVoice h inp bs slot v (L0, R0) in
  fst r = fst r0
  /\ MixedOnto BL (fst (snd r0)) (fst (snd r))
  /\ MixedOnto BR (snd (snd r0)) (snd (snd r)).
Proof.
  intros HL HR. unfold RenderVoice.
  destruct (bIsActive v); [|cbn; auto].
  destruct (_ || _); [cbn; auto|].
  destruct (_ <=? 0)%Z; [cbn; auto|].
  destruct (bThrew _); [cbn; auto|].
  destruct (0 <? _)%Z; cbn [fst snd]; [|auto].
  split; [reflexivity|].
  unfold MixVoice. cbn [fst snd].
  split; apply ArrayMixIn_MixedOnto; assumption.
Qed.

Lemma GWP_RenderVoices_MixedOnto h inp bs BL BR vs : forall slot L R L0 R0,
  MixedOnto BL L0 L -> MixedOnto BR R0 R ->
  let r := RenderVoices h inp bs slot vs (L, R) in
  let r0 := RenderVoices h inp bs slot vs (L0, R0) in
  fst r = fst r0
  /\ MixedOnto BL (fst (snd r0)) (fst (snd r))
  /\ MixedOnto BR (snd (snd r0)) (snd (snd r)).
Proof.
  induction vs as [|v vs IH]; intros slot L R L0 R0 HL HR; cbn [RenderVoices].
  - cbn. auto.
  - pose proof (GWP_RenderVoice_MixedOnto h inp bs slot v BL BR L R L0 R0 HL HR)
      as P.
    cbv zeta in P.
    destruct (RenderVoice h inp bs slot v (L, R)) as [v1 [L1 R1]].
    destruct (RenderVoice h inp bs slot v (L0, R0)) as [v2 [L2 R2]].
    cbn [fst snd] in P. destruct P as (Ev & PL & PR). subst v2.
    specialize (IH (S slot) L1 R1 L2 R2 PL PR). cbv zeta in IH.
    destruct (RenderVoices h inp bs (S slot) vs (L1, R1)) as [vs1 [L3 R3]].
    destruct (RenderVoices h inp bs (S slot) vs (L2, R2)) as [vs2 [L4 R4]].
    cbn [fst snd] in *. destruct IH as (E & QL & QR). subst vs2. auto.
Qed.

Lemma GWP_RenderVoices_buffer_length h inp bs vs : forall slot L R,
  let r := RenderVoices h inp bs slot vs (L, R) in
  length (fst (snd r)) = length L /\ length (snd (snd r)) = length R.
Proof.
  induction vs as [|v vs IH]; intros slot L R; cbn [RenderVoices].
  - cbn. auto.
  - assert (P : length (fst (snd (RenderVoice h inp bs slot v (L, R)))) = length L
                /\ length (snd (snd (RenderVoice h inp bs slot v (L, R)))) = length R).
    { unfold RenderVoice. destruct (bIsActive v); [|cbn; auto].
      destruct (_ || _); [cbn; auto|].
      destruct (_ <=? 0)%Z; [cbn; auto|].
      destruct (bThrew _); [cbn; auto|].
      destruct (0 <? _)%Z; cbn [fst snd]; [|auto].
      unfold MixVoice. cbn [fst snd].
      rewrite !ArrayMixIn_length. auto. }
    destruct (RenderVoice h inp bs slot v (L, R)) as [v1 [L1 R1]].
    specialize (IH (S slot) L1 R1). cbv zeta in IH.
    destruct (RenderVoices h inp bs (S slot) vs (L1, R1)) as [vs1 [L3 R3]].
    cbn [fst snd] in *. destruct P, IH. split; congruence.
Qed.

Lemma GWP_TriggerGrain_WithOutputs h p n t r a v m x L R s :
  TriggerGrain h p n t r a v m x (GWP_WithOutputs L R s)
  = (fst (TriggerGrain h p n t r a v m x s),
     GWP_WithOutputs L R (snd (TriggerGrain h p n t r a v m x s))).
Proof.
  destruct s. unfold TriggerGrain, GWP_WithOutputs. cbn.
  repeat match goal with
  | |- context [if ?c then _ else _] => destruct c
  | |- context [match ?c with _ => _ end] => destruct c
  end; reflexivity.
Qed.

Lemma GWP_SpawnGrain_WithOutputs h inp pos L R s :
  SpawnGrain h inp pos (GWP_WithOutputs L R s)
  = GWP_WithOutputs L R (SpawnGrain h inp pos s).
Proof.
  unfold SpawnGrain.
  change (FRandCalls (GWP_WithOutputs L R s)) with (FRandCalls s).
  change (SampleRate (GWP_WithOutputs L R s)) with (SampleRate s).
  change (CachedSoundWaveDuration (GWP_WithOutputs L R s))
    with (CachedSoundWaveDuration s).
  destruct (if Qltb 0 (VolumeRandPercent inp) then _ else _) as [vol d].
  change (set_FRandCalls (S d) (GWP_WithOutputs L R s))
    with (GWP_WithOutputs L R (set_FRandCalls (S d) s)).
  change (CurrentWaveProxy (GWP_WithOutputs L R (set_FRandCalls (S d) s)))
    with (CurrentWaveProxy (set_FRandCalls (S d) s)).
  rewrite GWP_TriggerGrain_WithOutputs.
  destruct (TriggerGrain h _ _ _ _ _ _ _ _ _) as [ok s1]. cbn [fst snd].
  destruct ok; [destruct s1; reflexivity|reflexivity].
Qed.

Lemma GWP_SpawnLoop_WithOutputs h inp pos L R count : forall s,
  SpawnLoop h inp pos count (GWP_WithOutputs L R s)
  = GWP_WithOutputs L R (SpawnLoop h inp pos count s).
Proof.
  induction count as [|count IH]; intros s; cbn [SpawnLoop]; [reflexivity|].
  rewrite GWP_SpawnGrain_WithOutputs. apply IH.
Qed.

Lemma GWP_WithOutputs_same s :
  GWP_WithOutputs (AudioOutputLeft s) (AudioOutputRight s) s = s.
Proof. destruct s. reflexivity. Qed.

Lemma GWP_SpawnLoop_KeepsBuffers h inp pos count s :
  GWP_KeepsBuffers s (SpawnLoop h inp pos count s).
Proof.
  assert (A : forall count s,
            BlockSize (SpawnLoop h inp pos count s) = BlockSize s
            /\ SampleRate (SpawnLoop h inp pos count s) = SampleRate s).
  { clear. induction count as [|count IH]; intro s; cbn [SpawnLoop]; [auto|].
    destruct (IH (SpawnGrain h inp pos s)) as [B1 B2]. rewrite B1, B2.
    unfold SpawnGrain.
    destruct (if Qltb 0 (VolumeRandPercent inp) then _ else _) as [vol d].
    match goal with |- context [TriggerGrain ?h ?p ?n ?t ?r ?a ?v ?m ?x ?s0] =>
      assert (T : BlockSize (snd (TriggerGrain h p n t r a v m x s0)) = BlockSize s
                  /\ SampleRate (snd (TriggerGrain h p n t r a v m x s0))
                     = SampleRate s);
      [|destruct (TriggerGrain h p n t r a v m x s0) as [ok s1]] end.
    { unfold TriggerGrain.
      repeat match goal with
      | |- context [if ?c then _ else _] => destruct c
      | |- context [match ?c with _ => _ end] => destruct c
      end; cbn; auto. }
    cbn [snd] in T. destruct ok; cbn; exact T. }
  pose proof (GWP_SpawnLoop_WithOutputs h inp pos (AudioOutputLeft s)
                (AudioOutputRight s) count s) as E.
  rewrite GWP_WithOutputs_same in E.
  destruct (A count s) as [A1 A2].
  unfold GWP_KeepsBuffers. rewrite E at 1 2. cbn. auto.
Qed.

Lemma GWP_RenderAndMix_MixedOnto h inp s :
  let out := RenderAndMix h inp s in
  let mix := RenderAndMix h inp (ZeroOutputs s) in
  MixedOnto (AudioOutputLeft s) (AudioOutputLeft mix) (AudioOutputLeft out)
  /\ MixedOnto (AudioOutputRight s) (AudioOutputRight mix) (AudioOutputRight out)
  /\ length (AudioOutputLeft out) = length (AudioOutputLeft s)
  /\ length (AudioOutputRight out) = length (AudioOutputRight s)
  /\ GrainVoices mix = GrainVoices out.
Proof.
  cbv zeta. unfold RenderAndMix.
  change (BlockSize (ZeroOutputs s)) with (BlockSize s).
  change (GrainVoices (ZeroOutputs s)) with (GrainVoices s).
  change (AudioOutputLeft (ZeroOutputs s)) with (ZeroBuffer (AudioOutputLeft s)).
  change (AudioOutputRight (ZeroOutputs s)) with (ZeroBuffer (AudioOutputRight s)).
  pose proof (GWP_RenderVoices_MixedOnto h inp (BlockSize s)
                (AudioOutputLeft s) (AudioOutputRight s) (GrainVoices s) 0%nat
                (AudioOutputLeft s) (AudioOutputRight s)
                (ZeroBuffer (AudioOutputLeft s)) (ZeroBuffer (AudioOutputRight s))
                (MixedOnto_start _) (MixedOnto_start _)) as P.
  pose proof (GWP_RenderVoices_buffer_length h inp (BlockSize s) (GrainVoices s)
                0%nat (AudioOutputLeft s) (AudioOutputRight s)) as Len.
  cbv zeta in P, Len.
  destruct (RenderVoices h inp (BlockSize s) 0 (GrainVoices s)
              (AudioOutputLeft s, AudioOutputRight s)) as [vs1 [L1 R1]].
  destruct (RenderVoices h inp (BlockSize s) 0 (GrainVoices s)
              (ZeroBuffer (AudioOutputLeft s), ZeroBuffer (AudioOutputRight s)))
    as [vs2 [L2 R2]].
  cbn [fst snd] in P, Len. destruct P as (E & PL & PR). destruct Len as [LL LR].
  subst vs2. cbn. auto.
Qed.

Lemma GWP_UpdatePosition_KeepsBuffers inp s :
  GWP_KeepsBuffers s (snd (UpdatePosition inp s)).
Proof.
  unfold UpdatePosition, GWP_KeepsBuffers.
  repeat match goal with
  | |- context [if ?c then _ else _] => destruct c
  end; cbn; auto.
Qed.

Lemma GWP_Scheduler_KeepsBuffers h inp fuel b s n s' :
  Scheduler h inp fuel b s = Some (n, s') -> GWP_KeepsBuffers s s'.
Proof.
  unfold Scheduler, GWP_KeepsBuffers.
  destruct b; [intros [= _ <-]; auto|].
  destruct (_ && _); [|intros [= _ <-]; auto].
  destruct (SchedulerLoop _ _ _ _ _ _ _ _ _ _ _) as [[[S0 G] d]|]; [|discriminate].
  intros [= _ <-]. cbn. auto.
Qed.

Lemma GWP_KeepsBuffers_trans s1 s2 s3 :
  GWP_KeepsBuffers s1 s2 -> GWP_KeepsBuffers s2 s3 ->
  GWP_KeepsBuffers s1 s3.
Proof.
  unfold GWP_KeepsBuffers. intros (A1 & A2 & A3 & A4) (B1 & B2 & B3 & B4).
  repeat split; congruence.
Qed.

Lemma GWP_InitializeWaveData_KeepsBuffers h px s :
  GWP_KeepsBuffers s (snd (InitializeWaveData h px s)).
Proof.
  unfold InitializeWaveData, GWP_KeepsBuffers.
  destruct (Reader_Create h px (DefaultSettings h)) as [r|]; [|cbn; auto].
  destruct (_ || _); [cbn; auto|].
  destruct (negb _); cbn; auto.
Qed.

Lemma GWP_TryStartPlayback_KeepsBuffers h inp f s :
  GWP_KeepsBuffers s (snd (TryStartPlayback h inp f s)).
Proof.
  unfold TryStartPlayback.
  destruct (negb (IsSoundWaveValid inp));
    [destruct (bIsPlaying s); cbn; unfold GWP_KeepsBuffers; auto|].
  destruct (SoundWaveProxy inp) as [px|];
    [|destruct (bIsPlaying s); cbn; unfold GWP_KeepsBuffers; auto].
  pose proof (GWP_InitializeWaveData_KeepsBuffers h px (set_bIsPlaying false s))
    as P.
  destruct (InitializeWaveData h px (set_bIsPlaying false s)) as [ok s1].
  cbn [snd] in P. unfold GWP_KeepsBuffers in P |- *. cbn in P.
  destruct ok; cbn [negb]; [cbn; exact P|].
  destruct (bIsPlaying s); cbn; exact P.
Qed.

Lemma GWP_PlayLoop_KeepsBuffers h inp frames : forall b s,
  GWP_KeepsBuffers s (snd (PlayLoop h inp frames b s)).
Proof.
  induction frames as [|f frames IH]; intros b s; cbn [PlayLoop].
  - cbn. unfold GWP_KeepsBuffers. auto.
  - pose proof (GWP_TryStartPlayback_KeepsBuffers h inp f s) as P.
    destruct (TryStartPlayback h inp f s) as [ok s1]. cbn [snd] in P.
    destruct ok.
    + apply (GWP_KeepsBuffers_trans _ s1); [exact P|apply IH].
    + eapply GWP_KeepsBuffers_trans; [|apply IH].
      destruct (negb _); cbn; exact P.
Qed.

Lemma GWP_ProcessTriggers_KeepsBuffers h inp s :
  GWP_KeepsBuffers s (ProcessTriggers h inp s).
Proof.
  unfold ProcessTriggers.
  destruct (StopScan _ _) as [b0 f0].
  match goal with |- context [PlayLoop ?h ?i ?f ?b ?s0] =>
    pose proof (GWP_PlayLoop_KeepsBuffers h i f b s0) as P;
    destruct (PlayLoop h i f b s0) as [b1 s1] end.
  cbn [snd] in P. unfold GWP_KeepsBuffers in *. cbn in P.
  destruct (b1 && bIsPlaying s1); [cbn|]; exact P.
Qed.

End GWP_onto.
(** ** The wave player's scheduler loop, in the exact arithmetic of the
    model: it ends when the jitter is below the interval *)

Section GWP_scheduler_loop.
Import FGranularWavePlayerSmoothOperator.

Variable h : Host.
Variables Interval Jitter ElapsedSamples : Q.
Variable Desired : Z.
Variable TriggerProbability : Q.

Let Loop :=
  SchedulerLoop h Interval Jitter ElapsedSamples Desired TriggerProbability.

(** More fuel does not change a result. *)
Lemma GWP_SchedulerLoop_more_fuel fuel : forall Samples Grains Active d r k,
  Loop fuel Samples Grains Active d = Some r ->
  Loop (fuel + k) Samples Grains Active d = Some r.
Proof.
  unfold Loop.
  induction fuel as [|fuel IH]; intros Samples Grains Active d r k H.
  - cbn [SchedulerLoop] in H.
    destruct (Qleb Samples ElapsedSamples) eqn:E; [discriminate|].
    destruct k; cbn [Nat.add SchedulerLoop]; rewrite E; exact H.
  - cbn [Nat.add SchedulerLoop] in H |- *.
    destruct (Qleb Samples ElapsedSamples); [|exact H].
    destruct (Qltb 0 Jitter); destruct (Active <? Desired)%Z;
      apply IH; exact H.
Qed.

(** The least advance of the counter in one iteration. *)
Let Advance : Q := if Qltb 0 Jitter then Interval - Jitter else Interval.

Let Fuel (Samples : Q) : nat :=
  Z.to_nat (Qfloor ((ElapsedSamples - Samples) / Advance) + 1).

Hypothesis Draws : forall n, 0 <= FRand h n.
Hypothesis Advance_pos : 0 < Advance.

Lemma GWP_Fuel_step Samples Samples' :
  Samples <= ElapsedSamples -> Samples + Advance <= Samples' ->
  (S (Fuel Samples') <= Fuel Samples)%nat.
Proof.
  intros H HJ. unfold Fuel.
  assert (Hi : 0 < / Advance) by (apply Qinv_lt_0_compat; exact Advance_pos).
  assert (Hne : ~ Advance == 0) by (intro E; rewrite E in Advance_pos; qlra).
  assert (F0 : (0 <= Qfloor ((ElapsedSamples - Samples) / Advance))%Z).
  { change 0%Z with (Qfloor 0). apply Qfloor_resp_le.
    unfold Qdiv. apply Qmult_le_0_compat; qlra. }
  assert (F1 : (Qfloor ((ElapsedSamples - Samples') / Advance)
                <= Qfloor ((ElapsedSamples - Samples) / Advance) - 1)%Z).
  { rewrite <- Qfloor_minus_1. apply Qfloor_resp_le.
    setoid_replace ((ElapsedSamples - Samples) / Advance - 1)
      with ((ElapsedSamples - (Samples + Advance)) / Advance)
      by (field; exact Hne).
    unfold Qdiv. apply Qmult_le_compat_r; qlra. }
  lia.
Qed.

Lemma GWP_Fuel_zero Samples : Fuel Samples = 0%nat -> ElapsedSamples < Samples.
Proof.
  unfold Fuel. intro H. apply Qnot_le_lt. intro L.
  assert (Hi : 0 < / Advance) by (apply Qinv_lt_0_compat; exact Advance_pos).
  assert (F0 : (0 <= Qfloor ((ElapsedSamples - Samples) / Advance))%Z).
  { change 0%Z with (Qfloor 0). apply Qfloor_resp_le.
    unfold Qdiv. apply Qmult_le_0_compat; qlra. }
  lia.
Qed.

Lemma GWP_jitter_step Samples d :
  Samples + Advance
  <= fst (if Qltb 0 Jitter
          then (Samples + FMath.FRandRange (- Jitter) Jitter (FRand h d), S d)
          else (Samples, d)) + Interval.
Proof.
  unfold Advance. destruct (Qltb 0 Jitter) eqn:E; cbn [fst]; [|qlra].
  apply Qltb_spec in E. unfold FMath.FRandRange.
  assert (0 <= (Jitter - - Jitter) * FRand h d)
    by (apply Qmult_le_0_compat; [qlra|apply Draws]).
  qlra.
Qed.

(** With the jitter below the interval the loop ends, and it triggers no
    more grains than the density leaves room for. *)
Lemma GWP_SchedulerLoop_ends fuel : forall Samples Grains Active d,
  (Fuel Samples <= fuel)%nat ->
  exists Samples' Grains' d',
    Loop fuel Samples Grains Active d = Some (Samples', Grains', d')
    /\ ElapsedSamples < Samples'
    /\ (Grains <= Grains')%Z
    /\ (Grains' - Grains <= Z.max 0 (Desired - Active))%Z
    /\ (d <= d')%nat.
Proof.
  unfold Loop.
  induction fuel as [|fuel IH]; intros Samples Grains Active d Hf;
    cbn [SchedulerLoop].
  - assert (E : ElapsedSamples < Samples) by (apply GWP_Fuel_zero; lia).
    apply Qleb_false in E. rewrite E.
    exists Samples, Grains, d. apply Qleb_false in E.
    repeat split; try lia; auto.
  - destruct (Qleb Samples ElapsedSamples) eqn:E.
    + apply Qleb_spec in E.
      pose proof (GWP_jitter_step Samples d) as J.
      destruct (if Qltb 0 Jitter
                then (Samples + FMath.FRandRange (- Jitter) Jitter (FRand h d), S d)
                else (Samples, d)) as [S1 d1] eqn:Ej.
      assert (Hd : (d <= d1)%nat).
      { destruct (Qltb 0 Jitter); inversion Ej; lia. }
      cbn [fst] in J.
      pose proof (GWP_Fuel_step Samples (S1 + Interval) E J) as St.
      destruct (Active <? Desired)%Z eqn:Ea.
      * apply Z.ltb_lt in Ea.
        destruct (IH (S1 + Interval)
                    (if Qleb (FRand h d1) TriggerProbability
                     then Grains + 1 else Grains)%Z
                    (if Qleb (FRand h d1) TriggerProbability
                     then Active + 1 else Active)%Z (S d1) ltac:(lia))
          as (S' & G' & d' & R & X1 & X2 & X3 & X4).
        exists S', G', d'. split; [exact R|]. split; [exact X1|].
        destruct (Qleb (FRand h d1) TriggerProbability); repeat split; lia.
      * apply Z.ltb_ge in Ea.
        destruct (IH (S1 + Interval) Grains Active d1 ltac:(lia))
          as (S' & G' & d' & R & X1 & X2 & X3 & X4).
        exists S', G', d'. split; [exact R|]. split; [exact X1|].
        repeat split; lia.
    + exists Samples, Grains, d. apply Qleb_false in E.
      repeat split; try lia; auto.
Qed.

End GWP_scheduler_loop.

Section GWP_more_fuel.
Import FGranularWavePlayerSmoothOperator.

(** A block that returns within an iteration budget returns the same with a
    larger one. *)
Lemma GWP_Execute_more_fuel h inp fuel k s r :
  Execute h inp fuel s = Some r -> Execute h inp (fuel + k) s = Some r.
Proof.
  assert (Sch : forall ch s2 x,
            Scheduler h inp fuel ch s2 = Some x ->
            Scheduler h inp (fuel + k) ch s2 = Some x).
  { intros ch s2 x. unfold Scheduler.
    destruct ch; [auto|]. destruct (_ && _); [|auto].
    match goal with
    | |- context [SchedulerLoop ?a ?b ?c ?d ?e ?f fuel ?g ?i ?j ?l] =>
        destruct (SchedulerLoop a b c d e f fuel g i j l) as [[[S' G'] d']|]
          eqn:L; [|discriminate];
        rewrite (GWP_SchedulerLoop_more_fuel a b c d e f fuel _ _ _ _ _ k L)
    end.
    auto. }
  assert (Mix : forall b s2,
            SanityAndMix h inp fuel b s2 = Some r ->
            SanityAndMix h inp (fuel + k) b s2 = Some r).
  { intros b s2. unfold SanityAndMix.
    destruct (_ || _ || _); [auto|].
    unfold PositionSpawnRender.
    destruct (UpdatePosition inp s2) as [[ch pos] s3].
    destruct (Scheduler h inp fuel ch (ClearForMixing b s3)) as [x|] eqn:Es;
      [|discriminate].
    rewrite (Sch _ _ _ Es). auto. }
  unfold Execute.
  destruct (negb (bIsPlaying (ProcessTriggers h inp s))); [auto|].
  unfold ExecutePlaying.
  destruct (negb (isSome (CurrentWaveProxy (ProcessTriggers h inp s))));
    [auto|].
  destruct (SoundWaveProxy inp) as [px|]; [|auto].
  destruct (WaveChanged inp (ProcessTriggers h inp s)); [|apply Mix].
  destruct (InitializeWaveData h px (ProcessTriggers h inp s)) as [ok s2].
  destruct (negb ok); [auto|apply Mix].
Qed.

End GWP_more_fuel.

Section GWP_returns.
Import FGranularWavePlayerSmoothOperator.

Variable h : Host.
Hypothesis Draws : forall n, 0 <= FRand h n.

(** With the time jitter below the grain interval the scheduler returns, and
    returns the same from some iteration budget on. *)
Lemma GWP_Scheduler_returns inp changed s :
  TimeJitterSamples (SampleRate s) inp
  < SamplesPerGrainInterval (SampleRate s) inp ->
  exists fuel Grains s',
    (forall fuel', (fuel <= fuel')%nat ->
       Scheduler h inp fuel' changed s = Some (Grains, s'))
    /\ (changed = false ->
        0 < SamplesPerGrainInterval (SampleRate s) inp ->
        SamplesPerGrainInterval (SampleRate s) inp < FMath.FloatMax ->
        0 < SamplesUntilNextGrain s'
        /\ (0 <= Grains
            <= Z.max 0 (DesiredGrainDensity inp - CountActive (GrainVoices s)))%Z
        /\ GrainVoices s' = GrainVoices s
        /\ (FRandCalls s <= FRandCalls s')%nat).
Proof.
  intros Hj. unfold Scheduler.
  set (I := SamplesPerGrainInterval (SampleRate s) inp) in *.
  set (J := TimeJitterSamples (SampleRate s) inp) in *.
  set (E := inject_Z (BlockSize s)).
  set (P := FMath.Min 1
              (inject_Z (DesiredGrainDensity inp) / inject_Z MaxGrainVoices)).
  destruct changed.
  { exists 0%nat, (FMath.MaxZ 2 0), s. split; [reflexivity|discriminate]. }
  destruct (Qltb 0 I && Qltb I FMath.FloatMax) eqn:G.
  2:{ exists 0%nat, 0%Z, s. split; [reflexivity|].
      intros _ Hi Hm. exfalso.
      assert (X : Qltb 0 I && Qltb I FMath.FloatMax = true)
        by (apply andb_true_iff; split; apply Qltb_spec; assumption).
      congruence. }
  apply andb_true_iff in G. destruct G as [Hi Hm].
  apply Qltb_spec in Hi. apply Qltb_spec in Hm.
  assert (Adv : 0 < (if Qltb 0 J then I - J else I))
    by (destruct (Qltb 0 J); qlra).
  set (fuel := Z.to_nat
                 (Qfloor ((E - SamplesUntilNextGrain s)
                          / (if Qltb 0 J then I - J else I)) + 1)).
  destruct (GWP_SchedulerLoop_ends h I J E (DesiredGrainDensity inp) P Draws Adv
              fuel (SamplesUntilNextGrain s) 0%Z (CountActive (GrainVoices s))
              (FRandCalls s) (Nat.le_refl _))
    as (S' & G' & d' & R & X1 & X2 & X3 & X4).
  exists fuel, G',
    (set_FRandCalls d' (set_SamplesUntilNextGrain (S' - E) s)).
  split; [|intros _ _ _; cbn; repeat split; try lia; qlra].
  intros fuel' Hf.
  replace fuel' with (fuel + (fuel' - fuel))%nat by lia.
  rewrite (GWP_SchedulerLoop_more_fuel h I J E (DesiredGrainDensity inp) P
             fuel _ _ _ _ _ (fuel' - fuel)%nat R).
  reflexivity.
Qed.

(** So does the block. *)
Lemma GWP_Execute_returns inp s :
  TimeJitterSamples (SampleRate s) inp
  < SamplesPerGrainInterval (SampleRate s) inp ->
  exists fuel s',
    forall fuel', (fuel <= fuel')%nat -> Execute h inp fuel' s = Some s'.
Proof.
  intros Hj.
  assert (Mix : forall b s2,
            SampleRate s2 = SampleRate s ->
            exists fuel s',
              forall fuel', (fuel <= fuel')%nat ->
                SanityAndMix h inp fuel' b s2 = Some s').
  { intros b s2 R2. unfold SanityAndMix.
    destruct (_ || _ || _); [exists 0%nat; eexists; reflexivity|].
    unfold PositionSpawnRender.
    pose proof (GWP_UpdatePosition_KeepsBuffers inp s2) as (_ & _ & _ & R3).
    destruct (UpdatePosition inp s2) as [[ch pos] s3]. cbn [snd] in R3.
    assert (R4 : SampleRate (ClearForMixing b s3) = SampleRate s)
      by (unfold ClearForMixing; destruct (negb b); cbn; congruence).
    destruct (GWP_Scheduler_returns inp ch (ClearForMixing b s3))
      as (fuel & G & s4 & R & _); [rewrite R4; exact Hj|].
    exists fuel. eexists. intros fuel' Hf. rewrite (R fuel' Hf). reflexivity. }
  pose proof (GWP_ProcessTriggers_KeepsBuffers h inp s) as (_ & _ & _ & R1).
  unfold Execute.
  destruct (negb (bIsPlaying (ProcessTriggers h inp s)));
    [exists 0%nat; eexists; reflexivity|].
  unfold ExecutePlaying.
  destruct (negb (isSome (CurrentWaveProxy (ProcessTriggers h inp s))));
    [exists 0%nat; eexists; reflexivity|].
  destruct (SoundWaveProxy inp) as [px|];
    [|exists 0%nat; eexists; reflexivity].
  destruct (WaveChanged inp (ProcessTriggers h inp s)).
  - pose proof (GWP_InitializeWaveData_KeepsBuffers h px
                  (ProcessTriggers h inp s)) as (_ & _ & _ & R2).
    destruct (InitializeWaveData h px (ProcessTriggers h inp s)) as [ok s2].
    cbn [snd] in R2.
    destruct (negb ok); [exists 0%nat; eexists; reflexivity|].
    apply Mix. congruence.
  - apply Mix. exact R1.
Qed.

End GWP_returns.
(** ** Binary32 rounding against the integers *)

Section Binary32_lemmas.
Import Binary32.

Lemma NearestEven_ge_floor q : (Qfloor q <= NearestEven q)%Z.
Proof.
  unfold NearestEven.
  destruct (Qltb _ _); [lia|]. destruct (Qltb _ _); [lia|].
  destruct (Z.even _); lia.
Qed.

Lemma NearestEven_le_ceiling q : (NearestEven q <= Qceiling q)%Z.
Proof.
  assert (C0 : (Qfloor q <= Qceiling q)%Z).
  { rewrite Zle_Qle. eapply Qle_trans; [apply Qfloor_le|apply Qle_ceiling]. }
  assert (Up : inject_Z (Qfloor q) < q -> (Qfloor q + 1 <= Qceiling q)%Z).
  { intro H. pose proof (Qle_ceiling q) as C.
    assert (X : inject_Z (Qfloor q) < inject_Z (Qceiling q)) by qlra.
    rewrite <- Zlt_Qlt in X. lia. }
  unfold NearestEven.
  destruct (Qltb (q - inject_Z (Qfloor q)) (1 # 2)) eqn:A; [exact C0|].
  apply Qltb_false in A.
  assert (H : inject_Z (Qfloor q) < q) by qlra.
  destruct (Qltb _ _); [apply Up; exact H|].
  destruct (Z.even _); [exact C0|apply Up; exact H].
Qed.

Lemma NearestEven_ge_int m q : inject_Z m <= q -> (m <= NearestEven q)%Z.
Proof.
  intro H. pose proof (NearestEven_ge_floor q) as F.
  apply Qfloor_resp_le in H. rewrite Qfloor_Z in H. lia.
Qed.

Lemma NearestEven_le_int m q : q <= inject_Z m -> (NearestEven q <= m)%Z.
Proof.
  intro H. pose proof (NearestEven_le_ceiling q) as F.
  apply Qceiling_resp_le in H. rewrite Qceiling_Z in H. lia.
Qed.

Lemma Qleb_comp x y x' y' : x == x' -> y == y' -> Qleb x y = Qleb x' y'.
Proof.
  intros A B. destruct (Qleb x' y') eqn:E.
  - apply Qleb_spec in E. apply Qleb_spec. rewrite A, B. exact E.
  - apply Qleb_false in E. apply Qleb_false. rewrite A, B. exact E.
Qed.

Lemma Qltb_comp x y x' y' : x == x' -> y == y' -> Qltb x y = Qltb x' y'.
Proof.
  intros A B. unfold Qltb. f_equal. apply Qleb_comp; assumption.
Qed.

Lemma NearestEven_comp x y : x == y -> NearestEven x = NearestEven y.
Proof.
  intro H. unfold NearestEven.
  rewrite (Qfloor_comp _ _ H).
  rewrite (Qltb_comp (x - inject_Z (Qfloor y)) (1 # 2)
             (y - inject_Z (Qfloor y)) (1 # 2)) by (rewrite ?H; reflexivity).
  rewrite (Qltb_comp (1 # 2) (x - inject_Z (Qfloor y))
             (1 # 2) (y - inject_Z (Qfloor y))) by (rewrite ?H; reflexivity).
  reflexivity.
Qed.

Lemma Ilog2_comp x y : x == y -> Ilog2 x = Ilog2 y.
Proof.
  intro H. unfold Ilog2.
  rewrite (Qleb_comp 1 x 1 y) by (rewrite ?H; reflexivity).
  rewrite (Qfloor_comp _ _ H).
  rewrite (Qceiling_comp (/ x) (/ y)) by (rewrite ?H; reflexivity).
  reflexivity.
Qed.

Lemma Exponent_comp x y : x == y -> Exponent x = Exponent y.
Proof.
  intro H. unfold Exponent.
  rewrite (Ilog2_comp (Qabs x) (Qabs y)) by (rewrite ?H; reflexivity).
  reflexivity.
Qed.

(** Rounding depends on the value only, not on the fraction that denotes
    it. *)
Lemma Round_comp x y : x == y -> Round x = Round y.
Proof.
  intro H. unfold Round.
  assert (Z : Qeq_bool x 0 = Qeq_bool y 0).
  { destruct (Qeq_bool y 0) eqn:E.
    - apply Qeq_bool_iff in E. apply Qeq_bool_iff. rewrite H. exact E.
    - destruct (Qeq_bool x 0) eqn:E'; [|reflexivity].
      apply Qeq_bool_iff in E'. rewrite H in E'.
      apply Qeq_bool_iff in E'. congruence. }
  rewrite Z. destruct (Qeq_bool y 0); [reflexivity|].
  rewrite (Exponent_comp _ _ H).
  rewrite (NearestEven_comp (x / 2 ^ Exponent y) (y / 2 ^ Exponent y))
    by (rewrite ?H; reflexivity).
  reflexivity.
Qed.

End Binary32_lemmas.
Section Binary32_int.
Import Binary32.

Lemma Pow2_Z e : (0 <= e)%Z -> 2 ^ e == inject_Z (2 ^ e).
Proof. intro H. rewrite Zpower_Qpower by exact H. reflexivity. Qed.

Lemma Pow2_Z_neg e : (e <= 0)%Z -> 2 ^ e == / inject_Z (2 ^ (- e)).
Proof.
  intro H. replace e with (- (- e))%Z at 1 by lia.
  rewrite Qpower_opp, Pow2_Z by lia. reflexivity.
Qed.

Lemma Pow2_Z_pos k : (0 <= k)%Z -> 0 < inject_Z (2 ^ k).
Proof.
  intro H. change 0 with (inject_Z 0). rewrite <- Zlt_Qlt.
  apply Z.pow_pos_nonneg; lia.
Qed.

(** Where the last place is above the units the number is 2^24 or more in
    magnitude. *)
Lemma Exponent_pos x :
  (0 < Exponent x)%Z -> inject_Z (2 ^ (Exponent x + 23)) <= Qabs x.
Proof.
  unfold Exponent, Ilog2. intro H.
  destruct (Qleb 1 (Qabs x)) eqn:E.
  - apply Qleb_spec in E.
    assert (F : (1 <= Qfloor (Qabs x))%Z).
    { apply Qfloor_resp_le in E. exact E. }
    pose proof (Z.log2_spec (Qfloor (Qabs x)) ltac:(lia)) as [L _].
    replace (Z.max (Z.log2 (Qfloor (Qabs x)) - 23) (-149) + 23)%Z
      with (Z.log2 (Qfloor (Qabs x))) by lia.
    eapply Qle_trans; [|apply Qfloor_le]. rewrite <- Zle_Qle. exact L.
  - pose proof (Z.log2_up_nonneg (Qceiling (/ Qabs x))). lia.
Qed.

Lemma Round_ge_int z x :
  (- 2 ^ 24 < z <= 2 ^ 24)%Z -> inject_Z z <= x -> inject_Z z <= Round x.
Proof.
  intros Hz H. unfold Round.
  destruct (Qeq_bool x 0) eqn:E0.
  { apply Qeq_bool_iff in E0. rewrite E0 in H. exact H. }
  set (e := Exponent x).
  destruct (Z_le_gt_dec e 0) as [He|He].
  - pose proof (Pow2_Z_neg e He) as P. pose proof (Pow2_Z_pos (- e) ltac:(lia)) as Pp.
    set (p := inject_Z (2 ^ (- e))) in *.
    assert (Q1 : inject_Z (z * 2 ^ (- e)) <= x / 2 ^ e).
    { rewrite inject_Z_mult. fold p. unfold Qdiv. rewrite P, Qinv_involutive.
      apply Qmult_le_compat_r; [exact H|apply Qlt_le_weak; exact Pp]. }
    apply NearestEven_ge_int in Q1. rewrite Zle_Qle, inject_Z_mult in Q1.
    fold p in Q1. set (n := NearestEven (x / 2 ^ e)) in *. rewrite P.
    setoid_replace (inject_Z z) with (inject_Z z * p * / p)
      by (field; intro X; rewrite X in Pp; apply (Qlt_irrefl 0); exact Pp).
    apply Qmult_le_compat_r; [exact Q1|].
    apply Qlt_le_weak, Qinv_lt_0_compat. exact Pp.
  - pose proof (Exponent_pos x ltac:(fold e; lia)) as A. fold e in A.
    pose proof (Pow2_Z e ltac:(lia)) as P. pose proof (Pow2_Z_pos e ltac:(lia)) as Pp.
    assert (P2 : (2 <= 2 ^ e)%Z).
    { change 2%Z with (2 ^ 1)%Z at 1. apply Z.pow_le_mono_r; lia. }
    rewrite Z.pow_add_r in A by lia. rewrite inject_Z_mult in A.
    destruct (Qlt_le_dec x 0) as [Neg|Pos].
    + exfalso. rewrite Qabs_neg in A by (apply Qlt_le_weak; exact Neg).
      assert (B : inject_Z (2 ^ 23 * 2) <= inject_Z (2 ^ e) * inject_Z (2 ^ 23)).
      { rewrite <- inject_Z_mult, <- Zle_Qle. nia. }
      assert (C : inject_Z z <= inject_Z (- (2 ^ 23 * 2))).
      { rewrite inject_Z_opp. qlra. }
      rewrite <- Zle_Qle in C. lia.
    + rewrite Qabs_pos in A by exact Pos.
      assert (Q1 : inject_Z (2 ^ 23) <= x / 2 ^ e).
      { rewrite P. apply Qle_shift_div_l; [exact Pp|].
        rewrite Qmult_comm. exact A. }
      apply NearestEven_ge_int in Q1.
      set (n := NearestEven (x / 2 ^ e)) in *.
      rewrite P, <- inject_Z_mult, <- Zle_Qle.
      nia.
Qed.

Lemma Round_le_int z x :
  (- 2 ^ 24 <= z < 2 ^ 24)%Z -> x <= inject_Z z -> Round x <= inject_Z z.
Proof.
  intros Hz H. unfold Round.
  destruct (Qeq_bool x 0) eqn:E0.
  { apply Qeq_bool_iff in E0. rewrite E0 in H. exact H. }
  set (e := Exponent x).
  destruct (Z_le_gt_dec e 0) as [He|He].
  - pose proof (Pow2_Z_neg e He) as P. pose proof (Pow2_Z_pos (- e) ltac:(lia)) as Pp.
    set (p := inject_Z (2 ^ (- e))) in *.
    assert (Q1 : x / 2 ^ e <= inject_Z (z * 2 ^ (- e))).
    { rewrite inject_Z_mult. fold p. unfold Qdiv. rewrite P, Qinv_involutive.
      apply Qmult_le_compat_r; [exact H|apply Qlt_le_weak; exact Pp]. }
    apply NearestEven_le_int in Q1. rewrite Zle_Qle, inject_Z_mult in Q1.
    fold p in Q1. set (n := NearestEven (x / 2 ^ e)) in *. rewrite P.
    setoid_replace (inject_Z z) with (inject_Z z * p * / p)
      by (field; intro X; rewrite X in Pp; apply (Qlt_irrefl 0); exact Pp).
    apply Qmult_le_compat_r; [exact Q1|].
    apply Qlt_le_weak, Qinv_lt_0_compat. exact Pp.
  - pose proof (Exponent_pos x ltac:(fold e; lia)) as A. fold e in A.
    pose proof (Pow2_Z e ltac:(lia)) as P. pose proof (Pow2_Z_pos e ltac:(lia)) as Pp.
    assert (P2 : (2 <= 2 ^ e)%Z).
    { change 2%Z with (2 ^ 1)%Z at 1. apply Z.pow_le_mono_r; lia. }
    rewrite Z.pow_add_r in A by lia. rewrite inject_Z_mult in A.
    destruct (Qlt_le_dec x 0) as [Neg|Pos].
    + rewrite Qabs_neg in A by (apply Qlt_le_weak; exact Neg).
      assert (Q1 : x / 2 ^ e <= inject_Z (- 2 ^ 23)).
      { rewrite P. apply Qle_shift_div_r; [exact Pp|].
        rewrite inject_Z_opp. rewrite Qmult_comm in A. qlra. }
      apply NearestEven_le_int in Q1.
      set (n := NearestEven (x / 2 ^ e)) in *.
      rewrite P, <- inject_Z_mult, <- Zle_Qle.
      nia.
    + exfalso. rewrite Qabs_pos in A by exact Pos.
      assert (B : inject_Z (2 ^ 23 * 2) <= inject_Z (2 ^ e) * inject_Z (2 ^ 23)).
      { rewrite <- inject_Z_mult, <- Zle_Qle. nia. }
      assert (C : inject_Z (2 ^ 23 * 2) <= inject_Z z) by qlra.
      rewrite <- Zle_Qle in C. lia.
Qed.

(** The integers below 2^24 in magnitude are floats. *)
Lemma Round_int z :
  (- 2 ^ 24 < z < 2 ^ 24)%Z -> Round (inject_Z z) == inject_Z z.
Proof.
  intro H. apply Qle_antisym.
  - apply Round_le_int; [lia|apply Qle_refl].
  - apply Round_ge_int; [lia|apply Qle_refl].
Qed.

End Binary32_int.

(** * The claims *)

Section Claim_C1.
Import FGranularSynthOperator.

(** C1.  In every state the operator can be in, at most MaxGrainVoices (32)
    voices are active.  TriggerGrain scans the fixed array for the first
    inactive slot: a voice that is active before the call is the same voice
    after it (no preemption); a successful call activates exactly the first
    inactive slot and changes no other; and when every slot is active the call
    fails and leaves the state as it was, so the grain is dropped. *)
Theorem C1_active_voices_bounded (h : Host) :
  (forall s, Reachable h s ->
     length (GrainVoices s) = 32%nat /\ (ActiveVoiceCount s <= 32)%nat)
  /\ (forall proxy samples start ratio pan vol rev frames s,
        let r := TriggerGrain h proxy samples start ratio pan vol rev frames s in
        (forall j, bIsActive (VoiceAt s j) = true ->
                   VoiceAt (snd r) j = VoiceAt s j)
        /\ (fst r = true ->
            exists i,
              FindFreeVoice bIsActive (GrainVoices s) 0 = Some i
              /\ (forall j, (j < i)%nat -> bIsActive (VoiceAt s j) = true)
              /\ bIsActive (VoiceAt s i) = false
              /\ bIsActive (VoiceAt (snd r) i) = true
              /\ (forall j, j <> i -> VoiceAt (snd r) j = VoiceAt s j))
        /\ ((forall j, (j < length (GrainVoices s))%nat ->
                       bIsActive (VoiceAt s j) = true) ->
            r = (false, s))).
Proof.
  split.
  - intros s R. pose proof (Reachable_pool_size h s R) as L.
    change (Z.to_nat MaxGrainVoices) with 32%nat in L. split; [exact L|].
    unfold ActiveVoiceCount. rewrite <- L. apply filter_length_le.
  - intros proxy samples start ratio pan vol rev frames s r.
    destruct (TriggerGrain_shape h proxy samples start ratio pan vol rev frames s)
      as [E|(i & v & Ef & E & Ev)]; fold r in E; try fold r in Ev.
    + rewrite E. simpl. repeat split; auto. discriminate.
    + pose proof (FindFreeVoice_Some _ _ _ _ DefaultVoice Ef)
        as (_ & Hlt & Hin & Hbefore).
      rewrite Nat.sub_0_r in Hlt, Hin, Hbefore.
      assert (Hother : forall j, j <> i -> VoiceAt (snd r) j = VoiceAt s j).
      { intros j Hj. unfold VoiceAt. rewrite E. simpl.
        apply SetVoice_nth_other. congruence. }
      split; [|split].
      * intros j Hj. apply Hother. intro; subst j.
        unfold VoiceAt in Hj. congruence.
      * intro Hok. exists i. repeat split; auto.
        unfold VoiceAt. rewrite E. simpl.
        rewrite SetVoice_nth_same by exact Hlt. congruence.
      * intro Hall. exfalso. specialize (Hall i Hlt).
        unfold VoiceAt in Hall. congruence.
Qed.

End Claim_C1.

Lemma nth_map_seq {A} (f : nat -> A) (n i : nat) (d : A) :
  (i < n)%nat -> nth i (map f (seq 0 n)) d = f i.
Proof.
  intro H.
  rewrite (nth_indep _ d (f 0%nat)) by (rewrite length_map, length_seq; exact H).
  rewrite (map_nth f (seq 0 n) 0%nat i), seq_nth by exact H. reflexivity.
Qed.

Lemma GS_EnvelopedMono_nth h inp v r frames i :
  (i < frames)%nat -> (i < FramesResampled r)%nat ->
  nth i (GS.EnvelopedMono h inp v r frames) 0
  = (GS.MonoSample (GS.NumChannels v) r i * GS.VolumeScale v)
    * GS.EnvelopeGain h inp (GS.TotalGrainSamples v)
        (GS.SamplesPlayed v + Z.of_nat i).
Proof.
  intros Hi Hr. unfold GS.EnvelopedMono.
  rewrite nth_map_seq by exact Hi.
  apply Nat.ltb_lt in Hr. rewrite Hr. reflexivity.
Qed.

(** C2.  In each of the three operators the factor that multiplies a voice's
    mono sample is [Clamp(EnvelopeScale, 0, 1)]: it lies in [0,1] for every
    host (whatever Pow, Exp, Cos and Sin return), every setting of the input
    pins (window shape, crossfade curve, attack and decay percentages and
    curve factors, smoothing, overlap), every voice and every frame; and the
    sample stored in the enveloped buffer is the mono sample times that
    factor. *)
Theorem C2_envelope_gain_in_unit_interval (h : Host) :
  (forall inp total frame,
      0 <= GS.EnvelopeGain h inp total frame <= 1)
  /\ (forall inp v r frames i,
        (i < frames)%nat -> (i < FramesResampled r)%nat ->
        nth i (GS.EnvelopedMono h inp v r frames) 0
        = (GS.MonoSample (GS.NumChannels v) r i * GS.VolumeScale v)
          * GS.EnvelopeGain h inp (GS.TotalGrainSamples v)
              (GS.SamplesPlayed v + Z.of_nat i))
  /\ (forall inp total frame,
        0 <= Step8.EnvelopeGain h inp total frame <= 1)
  /\ (forall inp v r i,
        (i < FramesResampled r)%nat ->
        nth i (Step8.EnvelopedMono h inp v r) 0
        = Step8.MonoSample (Step8.NumChannels v) r i
          * Step8.EnvelopeGain h inp (Step8.TotalGrainSamples v)
              (Step8.SamplesPlayed v + Z.of_nat i))
  /\ (forall inp v frame,
        0 <= GWP.EnvelopeGain h inp v frame <= 1)
  /\ (forall inp v r i,
        (i < FramesResampled r)%nat ->
        nth i (GWP.EnvelopedMono h inp v r) 0
        = GWP.MonoSample (GWP.NumChannels v) r i
          * GWP.EnvelopeGain h inp v (GWP.SamplesPlayed v + Z.of_nat i)).
Proof.
  assert (U : 0 <= 1) by (unfold Qle; simpl; lia).
  repeat split.
  - apply Clamp_range, U.
  - apply Clamp_range, U.
  - intros inp v r frames i Hi Hr. apply GS_EnvelopedMono_nth; assumption.
  - apply Clamp_range, U.
  - apply Clamp_range, U.
  - intros inp v r i Hr. unfold Step8.EnvelopedMono.
    rewrite nth_map_seq by exact Hr. reflexivity.
  - apply Clamp_range, U.
  - apply Clamp_range, U.
  - intros inp v r i Hr. unfold GWP.EnvelopedMono.
    rewrite nth_map_seq by exact Hr. reflexivity.
Qed.

Lemma MaxZ_max a b : FMath.MaxZ a b = Z.max a b.
Proof. unfold FMath.MaxZ. destruct (Z.ltb_spec b a); lia. Qed.

Lemma MinZ_min a b : FMath.MinZ a b = Z.min a b.
Proof. unfold FMath.MinZ. destruct (Z.ltb_spec a b); lia. Qed.

Section Claim_C9.
Import FGranularSynthOperator.

(** C9.  TriggerGrain for a reversed grain.  It succeeds only if the up-front
    read delivered at least one whole frame.  Once the call has passed its
    checks, found the free slot [i] and created the reader: a read of one
    frame or more activates the voice with the reader released and with total
    and remaining samples min(requested, max(1, ceil(framesRead / ratio))),
    which is at most the requested count and at most what the segment read
    can produce; a read of no frame leaves the voice inactive with the reader
    released.  On a wave shorter than the grain the voice gets fewer samples
    (2400) than the duration requested and reported (0.1 s, 4800 samples). *)
Theorem C9_reversed_grain_realized_duration :
  (forall h proxy samples start ratio pan vol frames s,
     let settings := ReaderSettingsFor h start true in
     let FramesActuallyRead :=
       Z.quot (Reader_PopAudio h proxy settings (frames * CurrentNumChannels s))
              (CurrentNumChannels s) in
     let r := TriggerGrain h (Some proxy) samples start ratio pan vol true frames s in
     (fst r = true -> (0 < FramesActuallyRead)%Z)
     /\ (forall i info,
           (0 < CurrentNumChannels s)%Z ->
           MinGrainDurationSeconds <= CachedSoundWaveDuration s ->
           (0 < samples)%Z -> (0 < frames)%Z ->
           FindFreeVoice bIsActive (GrainVoices s) 0 = Some i ->
           Reader_Create h proxy settings = Some info ->
           let v := VoiceAt (snd r) i in
           let produced :=
             Z.max 1 (Qceiling (inject_Z FramesActuallyRead / ratio)) in
           Reader v = None
           /\ ((0 < FramesActuallyRead)%Z ->
               fst r = true /\ bIsActive v = true /\ bIsReversed v = true
               /\ TotalGrainSamples v = Z.min samples produced
               /\ SamplesRemaining v = Z.min samples produced
               /\ SamplesPlayed v = 0%Z
               /\ (TotalGrainSamples v <= samples)%Z
               /\ (TotalGrainSamples v <= produced)%Z)
           /\ ((FramesActuallyRead <= 0)%Z ->
               fst r = false /\ bIsActive v = false)))
  /\ (let s := Execute ShortWaveHost
                 (Demo.WithTriggers [0%Z] [] Demo.AllReversed) Demo.Fresh in
      OnGrainTriggered s = [0%Z]
      /\ OutputGrainIsReversedRef s = true
      /\ OutputGrainDurationSecRef s == 1 # 10
      /\ Qceiling (OutputGrainDurationSecRef s * SampleRate s) = 4800%Z
      /\ TotalGrainSamples (VoiceAt s 0) = 2400%Z).
Proof.
  split.
  - intros h proxy samples start ratio pan vol frames s settings F r.
    assert (Shape :
      (0 < CurrentNumChannels s)%Z ->
      MinGrainDurationSeconds <= CachedSoundWaveDuration s ->
      (0 < samples)%Z -> (0 < frames)%Z ->
      forall i info,
        FindFreeVoice bIsActive (GrainVoices s) 0 = Some i ->
        Reader_Create h proxy settings = Some info ->
        r = if (0 <? F)%Z
            then (true,
                  set_GrainVoices
                    (SetVoice (GrainVoices s) i
                       (ActivateVoice (ReversedOutputSamples samples F ratio) pan vol
                          (set_Reader None
                             (set_FullGrainSegmentBuffer F
                                (set_Resampler (Some ratio)
                                   (set_Reader (Some settings)
                                      (set_FullGrainSegmentBuffer 0%Z
                                         (set_bIsReversed true
                                            (set_NumChannels (CurrentNumChannels s)
                                               (nth i (GrainVoices s) DefaultVoice)))))))))) s)
            else (false,
                  set_GrainVoices
                    (SetVoice (GrainVoices s) i
                       (set_Reader None
                          (set_Resampler (Some ratio)
                             (set_Reader (Some settings)
                                (set_FullGrainSegmentBuffer 0%Z
                                   (set_bIsReversed true
                                      (set_NumChannels (CurrentNumChannels s)
                                         (nth i (GrainVoices s) DefaultVoice)))))))) s)).
    { intros Hc Hd Hs Hf i info Ei Er.
      unfold r, TriggerGrain.
      assert (E1 : (CurrentNumChannels s <=? 0)%Z = false) by (apply Z.leb_gt; lia).
      assert (E2 : Qltb (CachedSoundWaveDuration s) MinGrainDurationSeconds = false)
        by (apply Qltb_false; exact Hd).
      assert (E3 : (samples <=? 0)%Z = false) by (apply Z.leb_gt; lia).
      assert (E4 : (frames <=? 0)%Z = false) by (apply Z.leb_gt; lia).
      rewrite E1, E2, E3, E4. cbn [orb andb]. rewrite Ei.
      fold settings. rewrite Er. reflexivity. }
    split.
    + unfold r, TriggerGrain.
      destruct ((CurrentNumChannels s <=? 0)%Z || _); [discriminate|].
      destruct (samples <=? 0)%Z; [discriminate|].
      destruct (true && (frames <=? 0)%Z); [discriminate|].
      destruct (FindFreeVoice bIsActive (GrainVoices s) 0) as [i|]; [|discriminate].
      fold settings.
      destruct (Reader_Create h proxy settings); [|discriminate].
      cbn [NumChannels set_Resampler set_Reader set_FullGrainSegmentBuffer
           set_bIsReversed set_NumChannels]. fold F.
      destruct (Z.ltb_spec 0 F); [auto|discriminate].
    + intros i info Hc Hd Hs Hf Ei Er v produced.
      specialize (Shape Hc Hd Hs Hf i info Ei Er).
      apply (FindFreeVoice_Some _ _ _ _ DefaultVoice) in Ei.
      destruct Ei as (_ & Hlt & Hin & _).
      rewrite Nat.sub_0_r in Hlt, Hin.
      assert (Ev : forall w (b : bool),
                 VoiceAt (snd (b, set_GrainVoices (SetVoice (GrainVoices s) i w) s)) i = w).
      { intros w b. unfold VoiceAt. simpl. apply SetVoice_nth_same, Hlt. }
      unfold v. rewrite Shape.
      destruct (Z.ltb_spec 0 F) as [Hpos|Hneg]; rewrite Ev.
      * split; [reflexivity|]. split; [|lia]. intros _.
        cbn. unfold ReversedOutputSamples, FMath.CeilToInt.
        rewrite !MaxZ_max, MinZ_min. fold produced.
        repeat split; lia.
      * split; [reflexivity|]. split; [lia|]. intros _.
        split; [reflexivity|exact Hin].
  - vm_compute. repeat split; reflexivity.
Qed.

End Claim_C9.

(** ** Reader settings *)

Lemma QuantizeDecodeSize_spec size q :
  (0 < q)%Z -> (0 <= size)%Z -> (size + q < 2 ^ 32)%Z ->
  QuantizeDecodeSize size q = ((size + q - 1) / q * q)%Z
  /\ (size <= QuantizeDecodeSize size q < size + q)%Z
  /\ (QuantizeDecodeSize size q mod q = 0)%Z.
Proof.
  intros Hq Hs Hb.
  assert (Hdiv : (size + q - 1 - q < (size + q - 1) / q * q <= size + q - 1)%Z).
  { pose proof (Z.div_mod (size + q - 1) q ltac:(lia)) as D.
    pose proof (Z.mod_pos_bound (size + q - 1) q Hq) as M. nia. }
  assert (E : QuantizeDecodeSize size q = ((size + q - 1) / q * q)%Z).
  { unfold QuantizeDecodeSize, u32.
    rewrite (Z.mod_small (size + q)) by lia.
    rewrite (Z.mod_small (size + q - 1)) by lia.
    assert (0 <= (size + q - 1) / q)%Z by (apply Z.div_pos; lia).
    assert ((size + q - 1) / q <= size + q - 1)%Z by nia.
    rewrite (Z.mod_small ((size + q - 1) / q)) by lia.
    rewrite Z.mod_small by lia. reflexivity. }
  rewrite E. repeat split; try lia.
  apply Z.mod_mul. lia.
Qed.

(** The forward grain of the first demo block: its reader loops. *)
Lemma C7_forward_reader_is_looping :
  let v := nth 0 (GS.GrainVoices Demo.Playing) GS.DefaultVoice in
  GS.bIsActive v = true
  /\ GS.bIsReversed v = false
  /\ GS.Reader v = Some (mkSettings (0 # 48000000) true 256).
Proof. vm_compute. repeat split; reflexivity. Qed.

(** C7 (as amended).  The reader of a grain is created by TriggerGrain with
    these settings.  FGranularSynthOperator: [bIsLooping = !bInIsReversed],
    so the reader of a forward grain is LOOPING (that of a reversed grain is
    not), positioned at max(0, start), with the decode size
    max(256, host minimum) rounded up to the host's quantization.
    Step8 and the wave player: every reader is non-looping, positioned at the
    start time after clamping, with decode size max(2 * BlockSize, 128),
    respectively max(grain samples, 2 * BlockSize), rounded up to a multiple
    of 128.  The rounding yields a multiple of the quantization that is at
    least the size asked for and less than one quantum above it. *)
Theorem C7_reader_settings_of_a_grain (h : Host) :
  (forall proxy samples start ratio pan vol frames s i,
     let r := GS.TriggerGrain h proxy samples start ratio pan vol false frames s in
     fst r = true ->
     FindFreeVoice GS.bIsActive (GS.GrainVoices s) 0 = Some i ->
     GS.Reader (nth i (GS.GrainVoices (snd r)) GS.DefaultVoice)
     = Some (mkSettings (FMath.Max 0 start) true
               (QuantizeDecodeSize
                  (FMath.MaxZ 256 (DefaultMinDecodeSizeInFrames h))
                  (DecodeSizeQuantizationInFrames h))))
  /\ (forall start rev,
        bIsLooping (GS.ReaderSettingsFor h start rev) = negb rev)
  /\ (forall proxy samples start ratio pan s i,
        let r := Step8.TriggerGrain h proxy samples start ratio pan s in
        fst r = true ->
        FindFreeVoice Step8.bIsActive (Step8.GrainVoices s) 0 = Some i ->
        Step8.Reader (nth i (Step8.GrainVoices (snd r)) Step8.DefaultVoice)
        = Some (mkSettings (FMath.Max 0 start) false
                  (QuantizeDecodeSize
                     (FMath.MaxZ (u32 (Step8.BlockSize s * 2)) 128) 128)))
  /\ (forall proxy samples start ratio pan vol smoothing xfade s i,
        let r := GWP.TriggerGrain h proxy samples start ratio pan vol
                   smoothing xfade s in
        fst r = true ->
        FindFreeVoice GWP.bIsActive (GWP.GrainVoices s) 0 = Some i ->
        exists t,
          GWP.ClampStartTime (GWP.SampleRate s) (GWP.CachedSoundWaveDuration s)
            samples start = Some t
          /\ 0 <= t
          /\ GWP.Reader (nth i (GWP.GrainVoices (snd r)) GWP.DefaultVoice)
             = Some (mkSettings t false
                       (QuantizeDecodeSize
                          (u32 (FMath.MaxZ samples (GWP.BlockSize s * 2))) 128)))
  /\ (forall size q,
        (0 < q)%Z -> (0 <= size)%Z -> (size + q < 2 ^ 32)%Z ->
        (size <= QuantizeDecodeSize size q < size + q)%Z
        /\ (QuantizeDecodeSize size q mod q = 0)%Z).
Proof.
  split; [|split; [|split; [|split]]].
  - intros proxy samples start ratio pan vol frames s i r Hok Ei.
    pose proof (FindFreeVoice_Some _ _ _ _ GS.DefaultVoice Ei) as (_ & Hlt & _).
    rewrite Nat.sub_0_r in Hlt.
    revert Hok. unfold r, GS.TriggerGrain.
    destruct proxy as [px|]; [|discriminate].
    destruct (_ || _); [discriminate|].
    destruct (samples <=? 0)%Z; [discriminate|].
    cbn [andb]. rewrite Ei.
    destruct (Reader_Create h px _); [|discriminate].
    intros _. cbn [snd GS.GrainVoices GS.set_GrainVoices].
    rewrite SetVoice_nth_same by exact Hlt. reflexivity.
  - reflexivity.
  - intros proxy samples start ratio pan s i r Hok Ei.
    pose proof (FindFreeVoice_Some _ _ _ _ Step8.DefaultVoice Ei) as (_ & Hlt & _).
    rewrite Nat.sub_0_r in Hlt.
    revert Hok. unfold r, Step8.TriggerGrain.
    destruct proxy as [px|]; [|discriminate].
    destruct (_ || _); [discriminate|].
    rewrite Ei.
    destruct (Reader_Create h px _); [|discriminate].
    intros _. cbn [snd Step8.GrainVoices Step8.set_GrainVoices].
    rewrite SetVoice_nth_same by exact Hlt. reflexivity.
  - intros proxy samples start ratio pan vol smoothing xfade s i r Hok Ei.
    pose proof (FindFreeVoice_Some _ _ _ _ GWP.DefaultVoice Ei) as (_ & Hlt & _).
    rewrite Nat.sub_0_r in Hlt.
    revert Hok. unfold r, GWP.TriggerGrain.
    destruct proxy as [px|]; [|discriminate].
    destruct (_ || _); [discriminate|].
    rewrite Ei.
    destruct (GWP.ClampStartTime _ _ samples start) as [t|] eqn:Et; [|discriminate].
    destruct (Reader_Create h px _); [|discriminate].
    intros _. exists t. split; [reflexivity|]. split.
    + revert Et. unfold GWP.ClampStartTime.
      destruct (Qltb _ _).
      * destruct (_ || _); [discriminate|].
        intro Et; inversion Et; subst. apply Max_ge_l.
      * intro Et; inversion Et; subst. apply Max_ge_l.
    + destruct (Qltb 0 smoothing);
        cbn [snd GWP.GrainVoices GWP.set_GrainVoices GWP.set_FRandCalls];
        rewrite SetVoice_nth_same by exact Hlt; reflexivity.
  - intros size q Hq Hs Hb.
    destruct (QuantizeDecodeSize_spec size q Hq Hs Hb) as (_ & H1 & H2).
    split; assumption.
Qed.

(** ** The source region of a grain *)

Section Claim_C6.
Import FGranularSynthOperator.

Lemma ResolveSegment_forward sr cached conceptual dur ratio :
  MinGrainDurationSeconds <= cached ->
  let g := ResolveSegment sr cached false conceptual dur ratio in
  bIsValidSegment g = true
  /\ 0 <= FinalReaderStartTimeForSegment g
  /\ FinalReaderStartTimeForSegment g <= cached - MinGrainDurationSeconds.
Proof.
  intros H g. unfold g, ResolveSegment. cbn.
  split; [reflexivity|]. split; [apply Max_ge_l|].
  destruct (Max_cases 0 (FMath.Min (WrapIntoWave conceptual cached)
                                   (cached - MinGrainDurationSeconds)))
    as [[_ ->]|[_ ->]].
  - qlra.
  - apply Min_le_r.
Qed.

Lemma ReversedSegmentEnd_le cached conceptual needed :
  ReversedSegmentEnd cached conceptual needed <= cached.
Proof.
  unfold ReversedSegmentEnd.
  destruct (_ && _); apply Min_le_l.
Qed.

Lemma ResolveSegment_reversed sr cached conceptual dur ratio :
  let g := ResolveSegment sr cached true conceptual dur ratio in
  let segmentEnd := ReversedSegmentEnd cached conceptual (dur * ratio) in
  bIsValidSegment g = true ->
  0 <= FinalReaderStartTimeForSegment g
  /\ FinalReaderStartTimeForSegment g < segmentEnd
  /\ segmentEnd <= cached
  /\ NumSourceFramesToReadForSegment g
     = Qceiling ((segmentEnd - FinalReaderStartTimeForSegment g) * sr)
  /\ (0 < NumSourceFramesToReadForSegment g)%Z.
Proof.
  intros g e. unfold g, ResolveSegment. fold e.
  destruct (Qltb (dur * ratio) Epsilon); [discriminate|].
  destruct (Qleb (e - Epsilon) _) eqn:E; [discriminate|].
  cbn. intro Hv. apply negb_true_iff, Z.leb_gt in Hv.
  apply Qleb_false in E. unfold Epsilon in E.
  repeat split.
  - apply Max_ge_l.
  - qlra.
  - apply ReversedSegmentEnd_le.
  - exact Hv.
Qed.

Lemma TriggerGrain_ok_duration h proxy samples start ratio pan vol rev frames s :
  fst (TriggerGrain h proxy samples start ratio pan vol rev frames s) = true ->
  MinGrainDurationSeconds <= CachedSoundWaveDuration s.
Proof.
  unfold TriggerGrain.
  destruct proxy; [|discriminate].
  destruct (Qltb (CachedSoundWaveDuration s) MinGrainDurationSeconds) eqn:E.
  - rewrite orb_true_r. discriminate.
  - intros _. apply Qltb_false. exact E.
Qed.

Lemma TriggerGrain_frame h proxy samples start ratio pan vol rev frames s :
  let s' := snd (TriggerGrain h proxy samples start ratio pan vol rev frames s) in
  OnGrainTriggered s' = OnGrainTriggered s
  /\ CachedSoundWaveDuration s' = CachedSoundWaveDuration s
  /\ SampleRate s' = SampleRate s
  /\ AudioOutputLeft s' = AudioOutputLeft s
  /\ AudioOutputRight s' = AudioOutputRight s
  /\ bIsPlaying s' = bIsPlaying s
  /\ OnFinishedTrigger s' = OnFinishedTrigger s
  /\ BlockSize s' = BlockSize s.
Proof.
  destruct (TriggerGrain_shape h proxy samples start ratio pan vol rev frames s)
    as [E|(i & v & _ & E & _)]; cbn zeta in *; rewrite E; simpl; tauto.
Qed.

(** The grain committed in the first block of a session that starts 10 ms
    before the end of a one-second wave: forward, 100 ms long, read from
    0.99 s on, 90 ms past the end of the wave. *)
Lemma C6_forward_grain_runs_past_the_end :
  let s := Execute DemoHost
             (Demo.WithTriggers [0%Z] [] (Demo.WithStartPoint (99 # 100) Demo.Idle))
             Demo.Fresh in
  OnGrainTriggered s = [0%Z]
  /\ OutputGrainIsReversedRef s = false
  /\ CachedSoundWaveDuration s == 1
  /\ OutputGrainStartTimeRef s == 99 # 100
  /\ OutputGrainDurationSecRef s == 1 # 10
  /\ ~ (OutputGrainStartTimeRef s + OutputGrainDurationSecRef s
        <= CachedSoundWaveDuration s + Epsilon).
Proof.
  vm_compute. repeat split; try reflexivity.
  intro H. apply H. reflexivity.
Qed.

End Claim_C6.

(** C6 (as amended).  For every grain FGranularSynthOperator commits, the
    reported start time is at least 0; a forward grain starts no later than
    MinGrainDurationSeconds before the end of the wave, start <= cached -
    MinGrainDurationSeconds (its duration is not fitted to the wave: the
    looping reader wraps); a reversed grain reads the
    segment from its start time to [ReversedSegmentEnd], a non-empty segment
    inside [0, cachedDuration] computed from duration * frameRatio seconds of
    source, of ceil(length * SampleRate) frames.  In the wave player a grain
    accepted by TriggerGrain has start >= 0 and start + samples / SampleRate
    <= cachedDuration. *)
Theorem C6_source_region_of_committed_grains :
  (forall h inp frameOf s,
     let s' := GS.SpawnGrain h inp frameOf s in
     let g := GS.ResolveGrain h inp (GS.SampleRate s)
                (GS.CachedSoundWaveDuration s) (GS.FRandCalls s) in
     let cached := GS.CachedSoundWaveDuration s in
     GS.OnGrainTriggered s' <> GS.OnGrainTriggered s ->
     GS.OutputGrainStartTimeRef s'
       = GS.FinalReaderStartTimeForSegment (GS.Segment g)
     /\ GS.OutputGrainIsReversedRef s' = GS.bFinalPlayThisGrainReverse g
     /\ 0 <= GS.OutputGrainStartTimeRef s'
     /\ (GS.OutputGrainIsReversedRef s' = false ->
         GS.OutputGrainStartTimeRef s' <= cached - GS.MinGrainDurationSeconds)
     /\ (GS.OutputGrainIsReversedRef s' = true ->
         let segmentEnd :=
           GS.ReversedSegmentEnd cached (GS.ConceptualStartPointSecs g)
             (GS.FinalOutputGrainDurationSeconds g * GS.FrameRatio g) in
         GS.OutputGrainStartTimeRef s' < segmentEnd
         /\ segmentEnd <= cached
         /\ GS.NumSourceFramesToReadForSegment (GS.Segment g)
            = Qceiling ((segmentEnd - GS.OutputGrainStartTimeRef s')
                        * GS.SampleRate s)))
  /\ (forall rate cached samples start t,
        GWP.ClampStartTime rate cached samples start = Some t ->
        0 <= t /\ t + inject_Z samples / rate <= cached).
Proof.
  split.
  - intros h inp frameOf s s' g cached Hc.
    unfold s', GS.SpawnGrain in *. fold g in Hc |- *.
    destruct (GS.bIsValidSegment (GS.Segment g)) eqn:Ev; cbn [negb] in *;
      [|exfalso; apply Hc; reflexivity].
    match type of Hc with context [GS.TriggerGrain ?h ?p ?n ?t ?r ?a ?v ?b ?k ?s0] =>
      pose proof (TriggerGrain_frame h p n t r a v b k s0) as Fr;
      pose proof (TriggerGrain_ok_duration h p n t r a v b k s0) as Du;
      destruct (GS.TriggerGrain h p n t r a v b k s0) as [ok s1] end.
    cbn [fst snd] in *.
    destruct ok; [|exfalso; apply Hc; apply Fr].
    specialize (Du eq_refl). cbn in Du. fold cached in Du.
    cbn. split; [reflexivity|]. split; [reflexivity|].
    unfold g, GS.ResolveGrain in *. cbn in *.
    match goal with |- context [GS.ResolveSegment ?sr ?c ?b ?cc ?dd ?rr] =>
      set (rv := b) in *; set (conc := cc) in *; set (dur := dd) in *;
      set (rat := rr) in * end.
    destruct rv.
    + pose proof (ResolveSegment_reversed (GS.SampleRate s) cached conc dur rat Ev)
        as (H1 & H2 & H3 & H4 & _).
      split; [exact H1|]. split; [discriminate|].
      intros _. repeat split; assumption.
    + pose proof (ResolveSegment_forward (GS.SampleRate s) cached conc dur rat Du)
        as (_ & H1 & H2).
      split; [exact H1|]. split; [intros _; exact H2|discriminate].
  - intros rate cached samples start t. unfold GWP.ClampStartTime.
    destruct (Qltb cached _) eqn:E.
    + destruct (Qleb _ 0) eqn:E0; [discriminate|]. cbn [orb].
      destruct (Qltb _ GWP.MinGrainDurationSeconds); [discriminate|].
      intro H; inversion H; subst. apply Qleb_false in E0.
      destruct (Max_cases 0 (cached - inject_Z samples / rate))
        as [[Hm Em]|[Hm Em]]; rewrite Em in *; split; qlra.
    + intro H; inversion H; subst. apply Qltb_false in E.
      split; [apply Max_ge_l|exact E].
Qed.

Section Claim_C3.
Import FGranularSynthOperator.

Lemma Execute_stopped h inp s :
  (0 < BlockSize s)%Z ->
  let s1 := ProcessTriggers h inp s in
  bIsPlaying s1 = false ->
  GrainVoices s1 = map ResetVoice (GrainVoices s) ->
  OnPlayTrigger s1 = [] ->
  AudioOutputLeft s1 = AudioOutputLeft s ->
  AudioOutputRight s1 = AudioOutputRight s ->
  StoppedBlock s (Execute h inp s)
  /\ OnFinishedTrigger (Execute h inp s) = OnFinishedTrigger s1.
Proof.
  intros Hb s1 Hp Hv Ho Hl Hr. unfold Execute.
  assert (E : (BlockSize s <=? 0)%Z = false) by (apply Z.leb_gt; lia).
  rewrite E. fold s1. rewrite Hp. cbn [negb].
  unfold StoppedBlock, ActiveVoiceCount.
  destruct (_ || _ || _) eqn:St.
  - cbn. rewrite Hv, Hl, Hr, Ho, map_ResetVoice_idem, filter_active_reset.
    repeat split; try reflexivity; try assumption;
      try apply ZeroBuffer_Silent; apply length_map.
  - apply orb_false_iff in St. destruct St as [St _].
    apply orb_false_iff in St. destruct St as [St _]. cbn in St.
    cbn. rewrite Hp, Hv, Hl, Hr, Ho, filter_active_reset.
    destruct (CurrentWaveProxy s1); [discriminate|].
    repeat split; try reflexivity; try assumption;
      try apply ZeroBuffer_Silent; apply length_map.
Qed.

(** A playing operator with a grain in flight gets Stop at frame 5 and a
    Play at frame 6 whose wave asset is invalid: the block ends stopped and
    silent, and OnFinished fires at frame 6 only, not at the stop frame. *)
Lemma C3_finished_at_the_failed_play_frame :
  let inp := Demo.WithWave false None
               (Demo.WithTriggers [6%Z] [5%Z] Demo.Idle) in
  let s' := Execute DemoHost inp Demo.Playing in
  bIsPlaying Demo.Playing = true
  /\ ActiveVoiceCount Demo.Playing = 1%nat
  /\ StopTrigger inp = [5%Z]
  /\ OnPlayTrigger s' = []
  /\ bIsPlaying s' = false
  /\ OnFinishedTrigger s' = [6%Z]
  /\ ~ In 5%Z (OnFinishedTrigger s').
Proof.
  vm_compute. repeat split; try reflexivity.
  intros [H|[]]. discriminate H.
Qed.

(** C3 (as amended).  If a Stop trigger fires while playing and no Play
    trigger of the block can start playback, then after this block the
    operator is stopped, every voice slot has been reset without being
    rendered (no active voice), the wave binding is cleared, both output
    buffers are all zero, and OnFinished has fired: at the frame of the Stop
    trigger when the block has no Play trigger, and otherwise at the frame of
    each failed Play trigger instead. *)
Theorem C3_stop_discards_voices_and_silences (h : Host) (inp : Inputs)
  (s : Operator) (StopFrame : Z) (rest : list Z) :
  (0 < BlockSize s)%Z ->
  bIsPlaying s = true ->
  StopTrigger inp = StopFrame :: rest ->
  PlayTrigger inp = []
  \/ PlayCanStart h (IsSoundWaveValid inp) (SoundWaveProxy inp) = false ->
  let s' := Execute h inp s in
  StoppedBlock s s'
  /\ OnFinishedTrigger s'
     = match PlayTrigger inp with
       | [] => [StopFrame]
       | frames => frames
       end.
Proof.
  intros Hb Hp Hs Hplay s'.
  assert (Cases : PlayTrigger inp = []
                  \/ (PlayTrigger inp <> []
                      /\ PlayCanStart h (IsSoundWaveValid inp) (SoundWaveProxy inp) = false)).
  { destruct (PlayTrigger inp) eqn:E; [left; reflexivity|].
    right. split; [discriminate|]. destruct Hplay as [H|H]; [discriminate|exact H]. }
  clear Hplay.
  destruct Cases as [En|[Hne Hf]].
  - assert (E1 : ProcessTriggers h inp s
                 = Finish StopFrame
                     (ResetVoices
                        (set_bIsPlaying false
                           (set_OnGrainTriggered []
                              (set_OnFinishedTrigger []
                                 (set_OnPlayTrigger [] s)))))).
    { unfold ProcessTriggers. rewrite Hs, En. cbn. rewrite Hp. reflexivity. }
    destruct (Execute_stopped h inp s Hb) as [H1 H2];
      try (rewrite E1; reflexivity).
    split; [exact H1|]. unfold s'. rewrite H2, E1, En. reflexivity.
  - assert (E1 : ProcessTriggers h inp s
                 = FailedPlays (PlayTrigger inp)
                     (set_OnGrainTriggered []
                        (set_OnFinishedTrigger []
                           (set_OnPlayTrigger [] s)))).
    { unfold ProcessTriggers. rewrite Hs. cbn [AdvanceBlock].
      destruct (StopScan _ _) as [b0 f0].
      rewrite (PlayLoop_failed h inp _ b0 _ Hf).
      destruct (PlayTrigger inp); [congruence|]. reflexivity. }
    pose proof (FailedPlays_spec (PlayTrigger inp)
                  (set_OnGrainTriggered []
                     (set_OnFinishedTrigger [] (set_OnPlayTrigger [] s))) Hne)
      as (F1 & F2 & F3 & F4 & F5 & F6 & F7 & F8 & F9 & F10).
    rewrite <- E1 in *.
    destruct (Execute_stopped h inp s Hb) as [H1 H2]; try assumption.
    split; [exact H1|]. unfold s'. rewrite H2, F3. cbn.
    destruct (PlayTrigger inp); [congruence|reflexivity].
Qed.

(** The theorem applies to the playing demo operator stopped at frame 5. *)
Lemma C3_witness_stop_at_frame_5 :
  let inp := Demo.WithTriggers [] [5%Z] Demo.Idle in
  let s' := Execute DemoHost inp Demo.Playing in
  StoppedBlock Demo.Playing s' /\ OnFinishedTrigger s' = [5%Z].
Proof.
  apply (C3_stop_discards_voices_and_silences DemoHost
           (Demo.WithTriggers [] [5%Z] Demo.Idle) Demo.Playing 5%Z []).
  - reflexivity.
  - reflexivity.
  - reflexivity.
  - left. reflexivity.
Defined.

End Claim_C3.

(** A fresh operator, never played, gets a Play trigger at frame 3 while its
    wave asset is invalid: OnFinished fires at frame 3 although no session
    was active.  The same holds for Step8. *)
Lemma C4_finished_without_previous_session :
  GS.bIsPlaying Demo.Fresh = false
  /\ GS.CurrentWaveProxy Demo.Fresh = None
  /\ GS.OnFinishedTrigger
       (GS.Execute DemoHost
          (Demo.WithWave false None (Demo.WithTriggers [3%Z] [] Demo.Idle))
          Demo.Fresh) = [3%Z]
  /\ Step8.bIsPlaying Step8Demo.Fresh = false
  /\ Step8.OnFinishedTrigger
       (Step8.Execute DemoHost (Step8Demo.Pins [3%Z] [] false None)
          Step8Demo.Fresh) = [3%Z].
Proof. vm_compute. repeat split; reflexivity. Qed.

(** C4 (as amended).  Whenever a Play trigger fires in a block and the bound
    asset fails validation (the wave asset is invalid, yields no proxy, or its
    wave data cannot be initialized), the operator is stopped after the block,
    every voice slot is reset (none active), both output buffers are all
    zero, OnPlay has not fired, and OnFinished has fired in this block whether
    or not a session was active before: in FGranularSynthOperator at the frame
    of every Play trigger, in Step8 at the frame of the first. *)
Theorem C4_failed_play_stops_and_finishes (h : Host) :
  (forall inp s f rest,
     (0 < GS.BlockSize s)%Z ->
     GS.PlayTrigger inp = f :: rest ->
     PlayCanStart h (GS.IsSoundWaveValid inp) (GS.SoundWaveProxy inp) = false ->
     let s' := GS.Execute h inp s in
     StoppedBlock s s' /\ GS.OnFinishedTrigger s' = f :: rest)
  /\ (forall inp s f rest,
        Step8.PlayTrigger inp = f :: rest ->
        PlayCanStart h (Step8.IsSoundWaveValid inp) (Step8.SoundWaveProxy inp)
          = false ->
        let s' := Step8.Execute h inp s in
        Step8.bIsPlaying s' = false
        /\ Step8.GrainVoices s' = map Step8.ResetVoice (Step8.GrainVoices s)
        /\ filter Step8.bIsActive (Step8.GrainVoices s') = []
        /\ Silent (Step8.AudioOutputLeft s')
        /\ Silent (Step8.AudioOutputRight s')
        /\ Step8.OnPlayTrigger s' = []
        /\ Step8.OnFinishedTrigger s' = [f]).
Proof.
  split.
  - intros inp s f rest Hb Hplay Hf s'.
    set (s0 := GS.set_OnGrainTriggered []
                 (GS.set_OnFinishedTrigger [] (GS.set_OnPlayTrigger [] s))).
    assert (E1 : GS.ProcessTriggers h inp s = FailedPlays (GS.PlayTrigger inp) s0).
    { unfold GS.ProcessTriggers, AdvanceBlock. fold s0.
      destruct (GS.StopScan _ _) as [b0 f0].
      rewrite (PlayLoop_failed h inp _ b0 _ Hf). rewrite Hplay. reflexivity. }
    assert (Hne : GS.PlayTrigger inp <> []) by (rewrite Hplay; discriminate).
    pose proof (FailedPlays_spec (GS.PlayTrigger inp) s0 Hne)
      as (F1 & F2 & F3 & F4 & F5 & F6 & F7 & F8 & F9 & F10).
    rewrite <- E1 in *.
    destruct (Execute_stopped h inp s Hb) as [H1 H2]; try assumption.
    split; [exact H1|]. unfold s'. rewrite H2, F3. cbn. exact Hplay.
  - intros inp s f rest Hplay Hf s'.
    set (s0 := Step8.set_OnGrainTriggered []
                 (Step8.set_OnFinishedTrigger [] (Step8.set_OnPlayTrigger [] s))).
    unfold s', Step8.Execute, Step8.ProcessTriggers, AdvanceBlock. fold s0.
    destruct (Step8.StopScan _ _) as [b0 f0]. rewrite Hplay.
    pose proof (Step8_PlayLoop_failed h inp f rest b0 s0 Hf eq_refl) as P.
    cbn zeta in P.
    destruct (Step8.PlayLoop h inp (f :: rest) b0 s0) as [b1 s1].
    cbn [fst snd] in P. destruct P as (P1 & P2 & P3 & P4 & P5 & P6 & P7).
    rewrite P2, andb_false_r. rewrite P2. cbn [negb].
    destruct (_ || _ || _); cbn;
      rewrite ?P3, ?P4, ?P5, ?Step8_map_ResetVoice_idem, ?Step8_filter_active_reset;
      repeat split; try reflexivity; try assumption; apply ZeroBuffer_Silent.
Qed.

(** C5.  The scheduler of FGranularSynthOperator.  When the interval passes
    the guard, one block of the scheduler is the source's loop: with the
    counter above the elapsed samples no grain is counted and the elapsed
    samples are subtracted; with the counter at or below them one grain is
    counted, the next jittered interval is added to the counter and the test
    is made again (so several grains can fall in one block: four with a
    150-sample interval and 512 elapsed samples); the loop always ends, with
    the counter left positive; Execute stores that counter.  The interval is
    (grainDuration / activeVoices) * sampleRate, which for 100 ms, one voice
    and 48 kHz is 4800 samples; with no jitter and blocks of 512 frames, from
    any block in which a grain is due the next grain is due 9 or 10 blocks
    later, one grain per such block and none in between. *)
Theorem C5_scheduler_counts_grains_per_block (h : Host) :
  (forall B J E Samples d,
     Qltb 0 B && Qltb B FMath.FloatMax = true ->
     (E < Samples ->
      GS.Scheduler h B J E Samples d = (Samples - E, 0%Z, d))
     /\ (Samples <= E ->
         GS.Scheduler h B J E Samples d
         = let '(Samples', n, d') :=
             GS.Scheduler h B J E
               (Samples + GS.JitteredInterval B J (FRand h d)) (S d) in
           (Samples', (n + 1)%Z, d'))
     /\ 0 < fst (fst (GS.Scheduler h B J E Samples d)))
  /\ (forall inp s,
        GS.SamplesUntilNextGrain (GS.ScheduleSpawnRender h inp s)
        = fst (fst (GS.Scheduler h
                      (GS.BaseSamplesPerGrainInterval (GS.SampleRate s) inp)
                      (GS.TimeJitterPercent inp) (inject_Z (GS.BlockSize s))
                      (GS.SamplesUntilNextGrain s) (GS.FRandCalls s))))
  /\ (forall rate inp,
        0 < rate ->
        GS.BaseSamplesPerGrainInterval rate inp
        = (GS.BaseGrainDurationSeconds inp / GS.EffectiveActiveVoices inp) * rate)
  /\ snd (fst (GS.Scheduler DemoHost 150 0 512 0 0)) = 4%Z
  /\ GS.BaseSamplesPerGrainInterval 48000 ScenarioPins == 4800
  /\ GS.TimeJitterPercent ScenarioPins == 0
  /\ (forall Samples d,
        0 <= Samples -> Samples <= 512 ->
        exists gap Samples' d',
          (gap = 9 \/ gap = 10)%nat
          /\ RunScheduler h (GS.BaseSamplesPerGrainInterval 48000 ScenarioPins)
               (GS.TimeJitterPercent ScenarioPins) (inject_Z 512)
               gap Samples d
             = (1%Z :: repeat 0%Z (gap - 1), Samples', d')
          /\ 0 <= Samples' /\ Samples' <= 512).
Proof.
  split; [|split; [|split; [|split; [|split; [|split]]]]].
  - intros B J E Samples d G. split; [|split].
    + apply Scheduler_not_due, G.
    + apply Scheduler_due, G.
    + apply Scheduler_counter_positive, G.
  - apply ScheduleSpawnRender_counter.
  - intros rate inp Hr. unfold GS.BaseSamplesPerGrainInterval.
    assert (A : Qltb 0 (GS.EffectiveActiveVoices inp) = true).
    { apply Qltb_spec. unfold GS.EffectiveActiveVoices.
      pose proof (Max_ge_l GS.MinActiveVoicesParam (GS.ActiveVoicesInput inp)) as M.
      unfold GS.MinActiveVoicesParam in *. qlra. }
    assert (D : Qltb 0 (GS.BaseGrainDurationSeconds inp) = true).
    { apply Qltb_spec. unfold GS.BaseGrainDurationSeconds.
      pose proof (Max_ge_l GS.MinGrainDurationSeconds
                    (GS.GrainDurationMsInput inp / 1000)) as M.
      unfold GS.MinGrainDurationSeconds in *. qlra. }
    apply Qltb_spec in Hr. rewrite A, D, Hr. reflexivity.
  - vm_compute. reflexivity.
  - reflexivity.
  - reflexivity.
  - apply scenario_gap.
Qed.

(** C8.  The mixer.  Over the reals: the pan angle is
    (pan + 1)/2 * (PI/2); mixing a voice adds, frame by frame, the voice's
    mono sample times cos(angle) * volumeScale to the left buffer and times
    sin(angle) * volumeScale to the right buffer, on top of what the buffers
    hold, and leaves the frames beyond the voice's buffer as they were; the
    two gains have the power of the volume scale; at pan = 0 both gains are
    cos(PI/4) times the volume, and cos(PI/4) lies between 0.7071 and 0.7072.
    Over the floats of the model, for every host: the wave player mixes each
    rendered voice with exactly that code, and FGranularSynthOperator, which
    multiplies the volume scale into the mono sample and mixes with the gains
    cos(angle) and sin(angle), adds the same products. *)
Theorem C8_equal_power_panning_accumulates :
  (forall pan, PanAngle ScalarR pan = ((pan + 1) / 2 * (PI / 2))%R)
  /\ (forall mono pan vol outL outR i,
        (i < length mono)%nat -> (i < length outL)%nat ->
        (i < length outR)%nat ->
        let out := GWP.MixVoice ScalarR mono pan vol (outL, outR) in
        let angle := ((pan + 1) / 2 * (PI / 2))%R in
        nth i (fst out) 0%R
        = (nth i outL 0 + nth i mono 0 * (cos angle * vol))%R
        /\ nth i (snd out) 0%R
           = (nth i outR 0 + nth i mono 0 * (sin angle * vol))%R)
  /\ (forall mono pan vol outL outR i,
        (length mono <= i)%nat ->
        let out := GWP.MixVoice ScalarR mono pan vol (outL, outR) in
        nth i (fst out) 0%R = nth i outL 0%R
        /\ nth i (snd out) 0%R = nth i outR 0%R)
  /\ (forall pan vol,
        let angle := PanAngle ScalarR pan in
        ((cos angle * vol) * (cos angle * vol)
         + (sin angle * vol) * (sin angle * vol) = vol * vol)%R)
  /\ (cos (PanAngle ScalarR 0%R) = cos (PI / 4)
      /\ sin (PanAngle ScalarR 0%R) = cos (PI / 4)
      /\ (7071 / 10000 < cos (PI / 4) < 7072 / 10000)%R)
  /\ (forall h inp bs slot v outL outR,
        GWP.bIsActive v = true ->
        isSome (GWP.Reader v) = true -> isSome (GWP.Resampler v) = true ->
        (0 < FMath.MinZ bs (GWP.SamplesRemaining v))%Z ->
        let r := Resample h slot (GWP.SamplesPlayed v)
                   (FMath.MinZ bs (GWP.SamplesRemaining v)) in
        bThrew r = false -> (0 < FramesResampled r)%nat ->
        snd (GWP.RenderVoice h inp bs slot v (outL, outR))
        = GWP.MixVoice (ScalarQ h) (GWP.EnvelopedMono h inp v r)
            (GWP.PanPosition v) (GWP.VolumeScale v) (outL, outR))
  /\ (forall h inp bs slot v outL outR i,
        GS.bIsActive v = true ->
        let frames := FMath.MaxZ 0 (FMath.MinZ bs (GS.SamplesRemaining v)) in
        let r := Resample h slot (GS.SamplesPlayed v) frames in
        let angle := PanAngle (ScalarQ h) (GS.PanPosition v) in
        let out := snd (GS.RenderVoice h inp bs slot v (outL, outR)) in
        (GS.bIsReversed v || isSome (GS.Reader v)) && isSome (GS.Resampler v)
          && (0 <? GS.TotalGrainSamples v)%Z = true ->
        (i < Z.to_nat frames)%nat -> (i < FramesResampled r)%nat ->
        (i < length outL)%nat -> (i < length outR)%nat ->
        let sample :=
          GS.MonoSample (GS.NumChannels v) r i
          * GS.EnvelopeGain h inp (GS.TotalGrainSamples v)
              (GS.SamplesPlayed v + Z.of_nat i) in
        nth i (fst out) 0
        == nth i outL 0 + sample * (Cos h angle * GS.VolumeScale v)
        /\ nth i (snd out) 0
           == nth i outR 0 + sample * (Sin h angle * GS.VolumeScale v)).
Proof.
  split; [|split; [|split; [|split; [|split; [|split]]]]].
  - apply PanAngle_R.
  - intros mono pan vol outL outR i Hm HL HR out angle.
    unfold out, GWP.MixVoice. cbn [fst snd].
    rewrite !ArrayMixIn_nth by assumption.
    rewrite PanAngle_R. fold angle. split; reflexivity.
  - intros mono pan vol outL outR i Hm out.
    unfold out, GWP.MixVoice. cbn [fst snd].
    rewrite !ArrayMixIn_nth_beyond by assumption. split; reflexivity.
  - intros pan vol angle.
    pose proof (sin2_cos2 angle) as S. unfold Rsqr in S. nra.
  - assert (E : PanAngle ScalarR 0%R = (PI / 4)%R).
    { rewrite PanAngle_R. field. }
    rewrite E. split; [reflexivity|]. split; [apply sin_cos_PI4|].
    apply cos_PI4_bounds.
  - intros h inp bs slot v outL outR Ha Hr Hs Hf r Ht Hn.
    unfold GWP.RenderVoice. rewrite Ha, Hr, Hs. cbn [negb orb].
    assert (E : (FMath.MinZ bs (GWP.SamplesRemaining v) <=? 0)%Z = false)
      by (apply Z.leb_gt; exact Hf).
    rewrite E. fold r. rewrite Ht.
    assert (E2 : (0 <? Z.of_nat (FramesResampled r))%Z = true)
      by (apply Z.ltb_lt; lia).
    rewrite E2.
    destruct (_ <=? 0)%Z; reflexivity.
  - intros h inp bs slot v outL outR i Ha frames r angle out Hc Hi Hr HL HR sample.
    assert (Hpos : (0 < frames)%Z) by lia.
    assert (E : (frames <=? 0)%Z = false) by (apply Z.leb_gt; exact Hpos).
    assert (O : out
                = (ArrayMixIn (ScalarQ h) (GS.MonoBuffer h inp slot v frames) outL
                     (Cos h angle),
                   ArrayMixIn (ScalarQ h) (GS.MonoBuffer h inp slot v frames) outR
                     (Sin h angle))).
    { unfold out, GS.RenderVoice. rewrite Ha. fold frames. rewrite E.
      destruct (_ <=? 0)%Z; reflexivity. }
    assert (M : nth i (GS.MonoBuffer h inp slot v frames) 0
                = (GS.MonoSample (GS.NumChannels v) r i * GS.VolumeScale v)
                  * GS.EnvelopeGain h inp (GS.TotalGrainSamples v)
                      (GS.SamplesPlayed v + Z.of_nat i)).
    { unfold GS.MonoBuffer. rewrite Hc. fold r.
      apply GS_EnvelopedMono_nth; assumption. }
    assert (Lm : (i < length (GS.MonoBuffer h inp slot v frames))%nat).
    { unfold GS.MonoBuffer. rewrite Hc. unfold GS.EnvelopedMono.
      rewrite length_map, length_seq. exact Hi. }
    rewrite O. cbn [fst snd].
    rewrite !ArrayMixIn_nth by assumption. rewrite M.
    unfold sample. simpl. split; ring.
Qed.

(** A block of FGranularSynthOperator that is mixed. *)
Lemma GS_mixed_block h inp s :
  (0 < GS.BlockSize s)%Z ->
  GS.bIsPlaying (GS.Execute h inp s) = true ->
  let s1 := GS.ProcessTriggers h inp s in
  let n := Z.to_nat (GS.BlockSize s) in
  exists s2,
    GS.Execute h inp s = GS.ScheduleSpawnRender h inp s2
    /\ (if GS.WaveChanged inp s1
        then (exists px, GS.SoundWaveProxy inp = Some px
                         /\ WaveInitializes h px = true)
             /\ GS.AudioOutputLeft s2 = GS.AudioOutputLeft s
             /\ GS.AudioOutputRight s2 = GS.AudioOutputRight s
        else GS.AudioOutputLeft s2 = MemsetZero n (GS.AudioOutputLeft s)
             /\ GS.AudioOutputRight s2 = MemsetZero n (GS.AudioOutputRight s))
    /\ let mix := GS.ScheduleSpawnRender h inp (GS.ZeroOutputs s2) in
       MixedOnto (GS.AudioOutputLeft s2) (GS.AudioOutputLeft mix)
         (GS.AudioOutputLeft (GS.Execute h inp s))
       /\ MixedOnto (GS.AudioOutputRight s2) (GS.AudioOutputRight mix)
            (GS.AudioOutputRight (GS.Execute h inp s)).
Proof.
  intros Hb Hp s1 n.
  destruct (ProcessTriggers_KeepsBuffers h inp s) as (KL & KR & KB & KS).
  fold s1 in KL, KR, KB, KS.
  assert (Mix : forall b s2,
            GS.bIsPlaying (GS.SanityAndMix h inp b s2) = true ->
            GS.SanityAndMix h inp b s2
            = GS.ScheduleSpawnRender h inp (GS.ClearForMixing b s2)).
  { intros b s2. unfold GS.SanityAndMix.
    destruct (_ || _ || _); [cbn; discriminate|reflexivity]. }
  assert (Cleared : forall s2,
            s2 = GS.ClearForMixing false s1 ->
            GS.AudioOutputLeft s2 = MemsetZero n (GS.AudioOutputLeft s)
            /\ GS.AudioOutputRight s2 = MemsetZero n (GS.AudioOutputRight s)).
  { intros s2 ->. cbn. rewrite KB, KL, KR. split; reflexivity. }
  assert (Onto : forall s2 r,
            r = GS.ScheduleSpawnRender h inp s2 ->
            let mix := GS.ScheduleSpawnRender h inp (GS.ZeroOutputs s2) in
            MixedOnto (GS.AudioOutputLeft s2) (GS.AudioOutputLeft mix)
              (GS.AudioOutputLeft r)
            /\ MixedOnto (GS.AudioOutputRight s2) (GS.AudioOutputRight mix)
                 (GS.AudioOutputRight r)).
  { intros s2 r ->.
    destruct (ScheduleSpawnRender_MixedOnto h inp s2) as (M1 & M2 & _).
    split; assumption. }
  assert (E : (GS.BlockSize s <=? 0)%Z = false) by (apply Z.leb_gt; exact Hb).
  assert (X : GS.Execute h inp s
              = if negb (GS.bIsPlaying s1)
                then (let s := GS.ZeroOutputs s1 in
                      if isSome (GS.CurrentWaveProxy s)
                         || (0 <? GS.CurrentNumChannels s)%Z
                         || GS.ConvertDeinterleave s
                      then GS.ClearWaveData (GS.ResetVoices s) else s)
                else GS.ExecutePlaying h inp s1).
  { unfold GS.Execute. rewrite E. reflexivity. }
  destruct (GS.bIsPlaying s1) eqn:P1; cbn [negb] in X.
  2:{ exfalso. rewrite X in Hp. cbv zeta in Hp.
      destruct (_ || _ || _); cbn in Hp; congruence. }
  rewrite X in Hp |- *. clear X.
  unfold GS.ExecutePlaying in Hp |- *. unfold GS.WaveChanged in Hp |- *.
  destruct (GS.SoundWaveProxy inp) as [px|] eqn:Epx; cbn [isSome andb] in Hp |- *.
  - destruct (negb (ProxyEq (GS.CurrentWaveProxy s1) (Some px))).
    + pose proof (InitializeWaveData_ok h px s1) as Ok.
      pose proof (InitializeWaveData_KeepsBuffers h px s1) as K.
      destruct (GS.InitializeWaveData h px s1) as [ok s2].
      cbn [fst snd] in Ok, K. destruct K as (K1 & K2 & K3 & K4).
      destruct ok; cbn [negb] in Hp |- *; [|cbn in Hp; discriminate].
      rewrite (Mix true s2 Hp). exists s2.
      split; [reflexivity|]. split.
      * split; [exists px; split; [reflexivity|symmetry; exact Ok]|].
        split; congruence.
      * apply Onto. reflexivity.
    + rewrite (Mix false s1 Hp). exists (GS.ClearForMixing false s1).
      split; [reflexivity|]. split; [apply Cleared; reflexivity|].
      apply Onto. reflexivity.
  - destruct (isSome (GS.CurrentWaveProxy s1)); [cbn in Hp; discriminate|].
    rewrite (Mix false s1 Hp). exists (GS.ClearForMixing false s1).
    split; [reflexivity|]. split; [apply Cleared; reflexivity|].
    apply Onto. reflexivity.
Qed.

(** A block of FGranularSynthOperator_Step8 that is mixed. *)
Lemma Step8_mixed_block h inp s :
  Step8.bIsPlaying (Step8.Execute h inp s) = true ->
  let s1 := Step8.ProcessTriggers h inp s in
  let n := Z.to_nat (Step8.BlockSize s) in
  exists s2,
    Step8.Execute h inp s = Step8.ScheduleSpawnRender h inp s2
    /\ (if Step8.WaveChanged inp s1
        then (exists px, Step8.SoundWaveProxy inp = Some px
                         /\ WaveInitializes h px = true)
             /\ Step8.AudioOutputLeft s2 = Step8.AudioOutputLeft s
             /\ Step8.AudioOutputRight s2 = Step8.AudioOutputRight s
        else Step8.AudioOutputLeft s2 = MemsetZero n (Step8.AudioOutputLeft s)
             /\ Step8.AudioOutputRight s2
                = MemsetZero n (Step8.AudioOutputRight s))
    /\ let mix := Step8.ScheduleSpawnRender h inp (Step8.ZeroOutputs s2) in
       MixedOnto (Step8.AudioOutputLeft s2) (Step8.AudioOutputLeft mix)
         (Step8.AudioOutputLeft (Step8.Execute h inp s))
       /\ MixedOnto (Step8.AudioOutputRight s2) (Step8.AudioOutputRight mix)
            (Step8.AudioOutputRight (Step8.Execute h inp s)).
Proof.
  intros Hp s1 n.
  destruct (Step8_ProcessTriggers_KeepsBuffers h inp s) as (KL & KR & KB & KS).
  fold s1 in KL, KR, KB, KS.
  assert (Mix : forall b s2,
            Step8.bIsPlaying (Step8.SanityAndMix h inp b s2) = true ->
            Step8.SanityAndMix h inp b s2
            = Step8.ScheduleSpawnRender h inp (Step8.ClearForMixing b s2)).
  { intros b s2. unfold Step8.SanityAndMix.
    destruct (_ || _ || _); [cbn; discriminate|reflexivity]. }
  assert (Cleared : forall s2,
            s2 = Step8.ClearForMixing false s1 ->
            Step8.AudioOutputLeft s2 = MemsetZero n (Step8.AudioOutputLeft s)
            /\ Step8.AudioOutputRight s2
               = MemsetZero n (Step8.AudioOutputRight s)).
  { intros s2 ->. cbn. rewrite KB, KL, KR. split; reflexivity. }
  assert (Onto : forall s2 r,
            r = Step8.ScheduleSpawnRender h inp s2 ->
            let mix := Step8.ScheduleSpawnRender h inp (Step8.ZeroOutputs s2) in
            MixedOnto (Step8.AudioOutputLeft s2) (Step8.AudioOutputLeft mix)
              (Step8.AudioOutputLeft r)
            /\ MixedOnto (Step8.AudioOutputRight s2) (Step8.AudioOutputRight mix)
                 (Step8.AudioOutputRight r)).
  { intros s2 r ->.
    destruct (Step8_ScheduleSpawnRender_MixedOnto h inp s2) as (M1 & M2 & _).
    split; assumption. }
  assert (X : Step8.Execute h inp s
              = if negb (Step8.bIsPlaying s1)
                then (let s := Step8.ZeroOutputs s1 in
                      if isSome (Step8.CurrentWaveProxy s)
                         || (0 <? Step8.CurrentNumChannels s)%Z
                         || Step8.ConvertDeinterleave s
                      then Step8.ClearWaveData (Step8.ResetVoices s) else s)
                else Step8.ExecutePlaying h inp s1) by reflexivity.
  destruct (Step8.bIsPlaying s1) eqn:P1; cbn [negb] in X.
  2:{ exfalso. rewrite X in Hp. cbv zeta in Hp.
      destruct (_ || _ || _); cbn in Hp; congruence. }
  rewrite X in Hp |- *. clear X.
  unfold Step8.ExecutePlaying in Hp |- *. unfold Step8.WaveChanged in Hp |- *.
  destruct (negb (isSome (Step8.CurrentWaveProxy s1)));
    [cbn in Hp; discriminate|].
  destruct (Step8.SoundWaveProxy inp) as [px|] eqn:Epx;
    cbn [isSome andb] in Hp |- *; [|cbn in Hp; discriminate].
  destruct (negb (ProxyEq (Step8.CurrentWaveProxy s1) (Some px))).
  - pose proof (Step8_InitializeWaveData_ok h px s1) as Ok.
    pose proof (Step8_InitializeWaveData_KeepsBuffers h px s1) as K.
    destruct (Step8.InitializeWaveData h px s1) as [ok s2].
    cbn [fst snd] in Ok, K. destruct K as (K1 & K2 & K3 & K4).
    destruct ok; cbn [negb] in Hp |- *; [|cbn in Hp; discriminate].
    rewrite (Mix true s2 Hp). exists s2.
    split; [reflexivity|]. split.
    + split; [exists px; split; [reflexivity|symmetry; exact Ok]|].
      split; congruence.
    + apply Onto. reflexivity.
  - rewrite (Mix false s1 Hp). exists (Step8.ClearForMixing false s1).
    split; [reflexivity|]. split; [apply Cleared; reflexivity|].
    apply Onto. reflexivity.
Qed.

(** A block of FGranularWavePlayerSmoothOperator that is mixed. *)
Lemma GWP_mixed_block h inp fuel s s' :
  GWP.Execute h inp fuel s = Some s' ->
  GWP.bIsPlaying s' = true ->
  let s1 := GWP.ProcessTriggers h inp s in
  let n := Z.to_nat (GWP.BlockSize s) in
  exists s2,
    let rendered := GWP.RenderAndMix h inp s2 in
    let smoothed := GWP.FinalSmoothingPass inp rendered in
    s' = GWP.set_TimeOutput
           (GWP.CurrentPlaybackPositionSeconds smoothed) smoothed
    /\ (if GWP.WaveChanged inp s1
        then (exists px, GWP.SoundWaveProxy inp = Some px
                         /\ WaveInitializes h px = true)
             /\ GWP.AudioOutputLeft s2 = GWP.AudioOutputLeft s
             /\ GWP.AudioOutputRight s2 = GWP.AudioOutputRight s
        else GWP.AudioOutputLeft s2 = MemsetZero n (GWP.AudioOutputLeft s)
             /\ GWP.AudioOutputRight s2 = MemsetZero n (GWP.AudioOutputRight s))
    /\ let mix := GWP.RenderAndMix h inp (GWP.ZeroOutputs s2) in
       MixedOnto (GWP.AudioOutputLeft s2) (GWP.AudioOutputLeft mix)
         (GWP.AudioOutputLeft rendered)
       /\ MixedOnto (GWP.AudioOutputRight s2) (GWP.AudioOutputRight mix)
            (GWP.AudioOutputRight rendered).
Proof.
  intros Hx Hp s1 n.
  destruct (GWP_ProcessTriggers_KeepsBuffers h inp s) as (KL & KR & KB & KS).
  fold s1 in KL, KR, KB, KS.
  (* the mixing path, from the state [s2] it starts in *)
  assert (Mix : forall b s2,
            GWP.SanityAndMix h inp fuel b s2 = Some s' ->
            exists s3,
              s' = GWP.set_TimeOutput
                     (GWP.CurrentPlaybackPositionSeconds
                        (GWP.FinalSmoothingPass inp (GWP.RenderAndMix h inp s3)))
                     (GWP.FinalSmoothingPass inp (GWP.RenderAndMix h inp s3))
              /\ GWP_KeepsBuffers
                   (GWP.ClearForMixing b (snd (GWP.UpdatePosition inp s2))) s3).
  { intros b s2. unfold GWP.SanityAndMix.
    destruct (_ || _ || _).
    { intros [= <-]. cbn in Hp. discriminate. }
    unfold GWP.PositionSpawnRender.
    destruct (GWP.UpdatePosition inp s2) as [[ch pos] s3]. cbn [snd].
    destruct (GWP.Scheduler h inp fuel ch (GWP.ClearForMixing b s3))
      as [[g s4]|] eqn:Es; [|discriminate].
    intros [= <-].
    exists (GWP.SpawnLoop h inp pos (Z.to_nat g) s4).
    split; [reflexivity|].
    eapply GWP_KeepsBuffers_trans;
      [eapply GWP_Scheduler_KeepsBuffers; exact Es
      |apply GWP_SpawnLoop_KeepsBuffers]. }
  assert (Onto : forall s3,
            let mix := GWP.RenderAndMix h inp (GWP.ZeroOutputs s3) in
            MixedOnto (GWP.AudioOutputLeft s3) (GWP.AudioOutputLeft mix)
              (GWP.AudioOutputLeft (GWP.RenderAndMix h inp s3))
            /\ MixedOnto (GWP.AudioOutputRight s3) (GWP.AudioOutputRight mix)
                 (GWP.AudioOutputRight (GWP.RenderAndMix h inp s3))).
  { intros s3.
    destruct (GWP_RenderAndMix_MixedOnto h inp s3) as (M1 & M2 & _).
    split; assumption. }
  assert (X : GWP.Execute h inp fuel s
              = if negb (GWP.bIsPlaying s1)
                then (let s := GWP.set_TimeOutput 0 (GWP.ZeroOutputs s1) in
                      Some (if isSome (GWP.CurrentWaveProxy s)
                               || (0 <? GWP.CurrentNumChannels s)%Z
                               || GWP.ConvertDeinterleave s
                            then GWP.ClearWaveData (GWP.ResetVoices s) else s))
                else GWP.ExecutePlaying h inp fuel s1) by reflexivity.
  rewrite X in Hx. clear X.
  destruct (GWP.bIsPlaying s1) eqn:P1; cbn [negb] in Hx.
  2:{ exfalso. cbv zeta in Hx. injection Hx as <-.
      destruct (_ || _ || _); cbn in Hp; congruence. }
  unfold GWP.ExecutePlaying in Hx. unfold GWP.WaveChanged in Hx |- *.
  destruct (negb (isSome (GWP.CurrentWaveProxy s1)));
    [injection Hx as <-; cbn in Hp; discriminate|].
  destruct (GWP.SoundWaveProxy inp) as [px|] eqn:Epx;
    cbn [isSome andb] in Hx |- *;
    [|injection Hx as <-; cbn in Hp; discriminate].
  destruct (negb (ProxyEq (GWP.CurrentWaveProxy s1) (Some px))).
  - pose proof (GWP_InitializeWaveData_KeepsBuffers h px s1) as K.
    assert (Ok : fst (GWP.InitializeWaveData h px s1) = WaveInitializes h px).
    { unfold GWP.InitializeWaveData, WaveInitializes.
      destruct (Reader_Create h px (DefaultSettings h)) as [r|]; [|reflexivity].
      destruct (_ || _); [reflexivity|].
      destruct (Deinterleave_Create h (ReaderNumChannels r)); reflexivity. }
    destruct (GWP.InitializeWaveData h px s1) as [ok s2].
    cbn [fst snd] in Ok, K.
    destruct ok; cbn [negb] in Hx;
      [|injection Hx as <-; cbn in Hp; discriminate].
    destruct (Mix true s2 Hx) as (s3 & E3 & K3).
    pose proof (GWP_UpdatePosition_KeepsBuffers inp s2) as KU.
    cbn [GWP.ClearForMixing negb] in K3.
    pose proof (GWP_KeepsBuffers_trans _ _ _ K
                  (GWP_KeepsBuffers_trans _ _ _ KU K3)) as (T1 & T2 & _ & _).
    exists s3. cbv zeta. split; [exact E3|]. split.
    + split; [exists px; split; [reflexivity|symmetry; exact Ok]|].
      split; congruence.
    + apply Onto.
  - destruct (Mix false s1 Hx) as (s3 & E3 & K3).
    pose proof (GWP_UpdatePosition_KeepsBuffers inp s1) as (U1 & U2 & U3 & _).
    destruct K3 as (T1 & T2 & _ & _). cbn in T1, T2.
    exists s3. cbv zeta. split; [exact E3|]. split.
    + rewrite T1, T2, U1, U2, U3, KL, KR, KB. split; reflexivity.
    + apply Onto.
Qed.



(** * Further properties of the code *)

(** ** Sessions of FGranularSynthOperator *)

Section GS_session.
Import FGranularSynthOperator.

Lemma Forall_map_ResetVoice (P : FGrainVoice -> Prop) vs :
  P (ResetVoice DefaultVoice) -> Forall P (map ResetVoice vs).
Proof.
  intro H. induction vs as [|v vs IH]; simpl; constructor; auto.
Qed.

Lemma VoiceAfter_inactive blocks bs v : bIsActive v = false -> VoiceAfter blocks bs v.
Proof. unfold VoiceAfter. congruence. Qed.

Lemma VoiceAfter_weaken bs v : VoiceAfter 1 bs v -> VoiceAfter 0 bs v.
Proof.
  unfold VoiceAfter. intros H Ha. destruct (H Ha) as (A & B & (k & K1 & K2) & C).
  repeat split; auto. exists k. split; [lia|exact K2].
Qed.

Lemma Forall_SetVoice (P : FGrainVoice -> Prop) vs i v :
  Forall P vs -> P v -> Forall P (SetVoice vs i v).
Proof.
  intros H Hv. revert i. induction H as [|w ws Hw Hws IH]; intros [|i]; simpl;
    constructor; auto.
Qed.

(** The voice TriggerGrain stores is inactive or freshly started. *)
Lemma TriggerGrain_voices h proxy samples start ratio pan vol rev frames bs s :
  Forall (VoiceAfter 0 bs) (GrainVoices s) ->
  Forall (VoiceAfter 0 bs)
    (GrainVoices (snd (TriggerGrain h proxy samples start ratio pan vol rev frames s))).
Proof.
  intro H. unfold TriggerGrain.
  destruct proxy as [px|]; [|exact H].
  destruct (_ || _); [exact H|].
  destruct (samples <=? 0)%Z eqn:Es; [exact H|].
  apply Z.leb_gt in Es.
  destruct (rev && _); [exact H|].
  destruct (FindFreeVoice bIsActive (GrainVoices s) 0) as [i|] eqn:Ef; [|exact H].
  apply (FindFreeVoice_Some _ _ _ _ DefaultVoice) in Ef.
  destruct Ef as (_ & _ & Hin & _). rewrite Nat.sub_0_r in Hin.
  assert (Fresh : forall v,
            (0 < SamplesRemaining v)%Z ->
            SamplesPlayed v = 0%Z ->
            TotalGrainSamples v = SamplesRemaining v ->
            (bIsReversed v || isSome (Reader v)) && isSome (Resampler v) = true ->
            VoiceAfter 0 bs v).
  { intros v R P T C _. rewrite P, T. repeat split; auto.
    exists 0%Z. split; lia. }
  assert (Rev : (0 < ReversedOutputSamples samples
                      (Reader_PopAudio h px (ReaderSettingsFor h start true)
                         (frames * CurrentNumChannels s)
                       ÷ CurrentNumChannels s) ratio)%Z).
  { unfold ReversedOutputSamples. rewrite !MaxZ_max. lia. }
  destruct (Reader_Create h px _) as [info|];
    [destruct rev; [destruct (0 <? _)%Z|]|];
    cbn [snd GrainVoices set_GrainVoices];
    apply Forall_SetVoice; try exact H;
    first [ apply VoiceAfter_inactive; cbn; exact Hin
          | apply Fresh; try reflexivity; first [exact Rev | exact Es] ].
Qed.


Lemma SpawnGrain_voices h inp frameOf bs s :
  Forall (VoiceAfter 0 bs) (GrainVoices s) ->
  Forall (VoiceAfter 0 bs) (GrainVoices (SpawnGrain h inp frameOf s)).
Proof.
  intro H. unfold SpawnGrain.
  destruct (negb _); [exact H|].
  match goal with |- context [TriggerGrain ?h ?p ?n ?t ?r ?a ?v ?b ?k ?s0] =>
    pose proof (TriggerGrain_voices h p n t r a v b k bs s0 H) as T;
    destruct (TriggerGrain h p n t r a v b k s0) as [ok s1] end.
  cbn [snd] in T. destruct ok; exact T.
Qed.

Lemma SpawnLoop_voices h inp frameOf bs count : forall i s,
  Forall (VoiceAfter 0 bs) (GrainVoices s) ->
  Forall (VoiceAfter 0 bs) (GrainVoices (SpawnLoop h inp frameOf count i s)).
Proof.
  induction count as [|count IH]; intros i s H; cbn [SpawnLoop]; [exact H|].
  apply IH, SpawnGrain_voices, H.
Qed.

Lemma Forall_reset_VoiceAfter blocks bs vs :
  Forall (VoiceAfter blocks bs) (map ResetVoice vs).
Proof. apply Forall_map_ResetVoice, VoiceAfter_inactive. reflexivity. Qed.

Lemma NoActive_VoiceAfter blocks bs vs :
  filter bIsActive vs = [] -> Forall (VoiceAfter blocks bs) vs.
Proof.
  induction vs as [|v vs IH]; cbn [filter]; intro H; constructor.
  - destruct (bIsActive v) eqn:A; [discriminate|].
    apply VoiceAfter_inactive, A.
  - apply IH. destruct (bIsActive v); [discriminate|exact H].
Qed.

Lemma InitializeWaveData_playing h px s :
  bIsPlaying (snd (InitializeWaveData h px s)) = bIsPlaying s.
Proof.
  unfold InitializeWaveData.
  destruct (Reader_Create h px (DefaultSettings h)) as [r|]; [|reflexivity].
  destruct (_ || _); [reflexivity|].
  destruct (negb _); reflexivity.
Qed.

Lemma TryStartPlayback_sound h inp f s :
  VoicesSound 0 (snd (TryStartPlayback h inp f s))
  /\ bIsPlaying (snd (TryStartPlayback h inp f s))
     = fst (TryStartPlayback h inp f s).
Proof.
  assert (Reset : forall s0, bIsPlaying s0 = false ->
            VoicesSound 0 (ClearWaveData (ResetVoices s0))
            /\ bIsPlaying (ClearWaveData (ResetVoices s0)) = false).
  { intros s0 P. split; [|exact P]. split.
    - apply Forall_reset_VoiceAfter.
    - intros _. apply filter_active_reset. }
  unfold TryStartPlayback.
  destruct (negb (IsSoundWaveValid inp)); [apply Reset; reflexivity|].
  destruct (SoundWaveProxy inp) as [px|]; [|apply Reset; reflexivity].
  pose proof (InitializeWaveData_playing h px (set_bIsPlaying false s)) as P.
  pose proof (InitializeWaveData_KeepsBuffers h px (set_bIsPlaying false s))
    as (_ & _ & KB & _).
  destruct (InitializeWaveData h px (set_bIsPlaying false s)) as [ok s1].
  cbn [snd] in P, KB. cbn in P.
  destruct ok; cbn [negb]; [|apply Reset; exact P].
  match goal with |- context [if ?c then _ else _] => destruct c end.
  - cbn [fst snd]. split; [|].
    + split.
      * cbn [GrainVoices set_SamplesUntilNextGrain BlockSize].
        match goal with |- context [SpawnLoop ?h ?i ?f ?c ?k ?s0] =>
          pose proof (SpawnLoop_SpawnFrame h i f c k s0) as F;
          pose proof (SpawnLoop_voices h i f (BlockSize s0) c k s0) as V;
          set (s2 := SpawnLoop h i f c k s0) in * end.
        destruct F as (_ & F2 & _).
        change (BlockSize (set_SamplesUntilNextGrain _ s2)) with (BlockSize s2).
        rewrite F2. apply V. apply Forall_reset_VoiceAfter.
      * match goal with |- context [SpawnLoop ?h ?i ?f ?c ?k ?s0] =>
          pose proof (SpawnLoop_SpawnFrame h i f c k s0) as F;
          set (s2 := SpawnLoop h i f c k s0) in * end.
        destruct F as (_ & _ & F3 & _). cbn in F3 |- *. congruence.
    + match goal with |- context [SpawnLoop ?h ?i ?f ?c ?k ?s0] =>
        pose proof (SpawnLoop_SpawnFrame h i f c k s0) as F;
        set (s2 := SpawnLoop h i f c k s0) in * end.
      destruct F as (_ & _ & F3 & _). cbn in F3 |- *. exact F3.
  - cbn [fst snd]. split; [|reflexivity]. split.
    + apply Forall_reset_VoiceAfter.
    + cbn. discriminate.
Qed.

Lemma PlayLoop_sound h inp frames : forall b s,
  VoicesSound 0 s -> VoicesSound 0 (snd (PlayLoop h inp frames b s)).
Proof.
  induction frames as [|f frames IH]; intros b s H; cbn [PlayLoop]; [exact H|].
  pose proof (TryStartPlayback_sound h inp f s) as [V P].
  destruct (TryStartPlayback h inp f s) as [ok s1]. cbn [fst snd] in V, P.
  destruct ok; cbn [negb]; apply IH; [exact V|].
  destruct V as [V1 V2]. split; [exact V1|]. intros _. apply V2, P.
Qed.

Lemma ProcessTriggers_sound h inp s :
  VoicesSound 0 s -> VoicesSound 0 (ProcessTriggers h inp s).
Proof.
  intro H. unfold ProcessTriggers.
  destruct (StopScan _ _) as [b0 f0].
  match goal with |- context [PlayLoop ?h ?i ?f ?b ?s0] =>
    pose proof (PlayLoop_sound h i f b s0 H) as P;
    destruct (PlayLoop h i f b s0) as [b1 s1] end.
  cbn [snd] in P.
  destruct (b1 && bIsPlaying s1); [|exact P].
  split; [apply Forall_reset_VoiceAfter|]. intros _. apply filter_active_reset.
Qed.

(** Rendering one block: a voice that stays active has played one more
    whole block. *)
Lemma RenderVoice_voice h inp bs slot v out :
  (0 < bs)%Z -> VoiceAfter 0 bs v ->
  VoiceAfter 1 bs (fst (RenderVoice h inp bs slot v out)).
Proof.
  intros Hb H. unfold RenderVoice.
  destruct (bIsActive v) eqn:A; [|apply VoiceAfter_inactive, A].
  destruct (H A) as (R & T & (k & K1 & K2) & C).
  cbv zeta. rewrite !MaxZ_max, !MinZ_min.
  set (n := Z.max 0 (Z.min bs (SamplesRemaining v))).
  assert (N : (0 < n)%Z /\ (n = bs \/ n = SamplesRemaining v)) by (unfold n; lia).
  destruct N as [N0 N1].
  assert (E : (n <=? 0)%Z = false) by (apply Z.leb_gt; exact N0).
  rewrite E. cbn [fst].
  cbn [SamplesRemaining set_SamplesRemaining set_SamplesPlayed].
  destruct (SamplesRemaining v - n <=? 0)%Z eqn:E2;
    [apply VoiceAfter_inactive; reflexivity|].
  apply Z.leb_gt in E2. intros _.
  cbn. repeat split; try lia; [|exact C].
  exists (k + 1)%Z. split; [lia|]. destruct N1 as [N1|N1]; lia.
Qed.

Lemma RenderVoices_voices h inp bs vs : forall slot out,
  (0 < bs)%Z -> Forall (VoiceAfter 0 bs) vs ->
  Forall (VoiceAfter 1 bs) (fst (RenderVoices h inp bs slot vs out)).
Proof.
  induction vs as [|v vs IH]; intros slot out Hb H; cbn [RenderVoices].
  - constructor.
  - inversion H as [|v0 vs0 Hv Hvs]; subst.
    pose proof (RenderVoice_voice h inp bs slot v out Hb Hv) as P.
    destruct (RenderVoice h inp bs slot v out) as [v1 out1]. cbn [fst] in P.
    specialize (IH (S slot) out1 Hb Hvs).
    destruct (RenderVoices h inp bs (S slot) vs out1) as [vs1 out2].
    cbn [fst] in *. constructor; assumption.
Qed.

Lemma ScheduleSpawnRender_block h inp s :
  (0 < BlockSize s)%Z ->
  Forall (VoiceAfter 0 (BlockSize s)) (GrainVoices s) ->
  let s' := ScheduleSpawnRender h inp s in
  Forall (VoiceAfter 1 (BlockSize s)) (GrainVoices s')
  /\ bIsPlaying s' = bIsPlaying s
  /\ KeepsSettings s s'.
Proof.
  intros Hb H s'.
  pose proof (ScheduleSpawnRender_MixedOnto h inp s) as (_ & _ & LL & LR & _).
  pose proof (ScheduleSpawnRender_length h inp s) as LV.
  fold s' in LL, LR, LV.
  unfold s', ScheduleSpawnRender in *.
  destruct (Scheduler h _ _ _ _ _) as [[Samples Grains] d].
  match goal with |- context [SpawnLoop ?h ?i ?f ?c ?k ?s0] =>
    pose proof (SpawnLoop_SpawnFrame h i f c k s0) as F;
    pose proof (SpawnLoop_voices h i f (BlockSize s) c k s0 H) as V;
    set (s1 := SpawnLoop h i f c k s0) in * end.
  destruct F as (F1 & F2 & F3 & _). cbn in F1, F2, F3.
  pose proof (RenderVoices_voices h inp (BlockSize s1) (GrainVoices s1) 0%nat
                (AudioOutputLeft s1, AudioOutputRight s1)) as R.
  rewrite F2 in R. specialize (R Hb V). rewrite <- F2 in R.
  destruct (RenderVoices h inp (BlockSize s1) 0 (GrainVoices s1) _)
    as [voices [outL outR]].
  cbn [fst] in R. cbn. cbn in LL, LR, LV.
  rewrite F2 in R. unfold KeepsSettings. cbn.
  repeat split; assumption.
Qed.

Lemma StopNow_block s :
  let s' := StopNow s in
  VoicesSound 1 s' /\ bIsPlaying s' = false /\ KeepsSettings s s'.
Proof.
  cbv zeta. unfold StopNow, VoicesSound, KeepsSettings. cbn.
  rewrite !ZeroBuffer_length, length_map.
  repeat split; auto.
  - apply Forall_reset_VoiceAfter.
  - intros _. apply filter_active_reset.
Qed.

Lemma KeepsSettings_trans s1 s2 s3 :
  KeepsSettings s1 s2 -> KeepsSettings s2 s3 -> KeepsSettings s1 s3.
Proof.
  unfold KeepsSettings.
  intros (A1 & A2 & A3 & A4 & A5) (B1 & B2 & B3 & B4 & B5).
  repeat split; congruence.
Qed.

Lemma KeepsBuffers_KeepsSettings s s' :
  KeepsBuffers s s' -> length (GrainVoices s') = length (GrainVoices s) ->
  KeepsSettings s s'.
Proof.
  unfold KeepsBuffers, KeepsSettings. intros (A1 & A2 & A3 & A4) L.
  repeat split; congruence.
Qed.

Lemma SanityAndMix_block h inp b s :
  (0 < BlockSize s)%Z -> VoicesSound 0 s -> bIsPlaying s = true ->
  let s' := SanityAndMix h inp b s in
  VoicesSound 1 s' /\ KeepsSettings s s'.
Proof.
  intros Hb [V _] P s'. unfold s', SanityAndMix.
  destruct (_ || _ || _).
  - destruct (StopNow_block s) as (A & _ & C). split; assumption.
  - assert (C : KeepsSettings s (ClearForMixing b s)
                /\ GrainVoices (ClearForMixing b s) = GrainVoices s
                /\ bIsPlaying (ClearForMixing b s) = bIsPlaying s).
    { unfold ClearForMixing, KeepsSettings.
      destruct (negb b); cbn; rewrite ?MemsetZero_length; auto 10. }
    destruct C as (K & CV & CP). pose proof K as (KB & _).
    destruct (ScheduleSpawnRender_block h inp (ClearForMixing b s))
      as (R1 & R2 & R3).
    + rewrite KB. exact Hb.
    + rewrite KB, CV. exact V.
    + pose proof (KeepsSettings_trans _ _ _ K R3) as K2.
      split; [|exact K2]. destruct K2 as (K2B & _). split.
      * rewrite K2B, <- KB. exact R1.
      * rewrite R2, CP, P. discriminate.
Qed.

Lemma ExecutePlaying_block h inp s :
  (0 < BlockSize s)%Z -> VoicesSound 0 s -> bIsPlaying s = true ->
  let s' := ExecutePlaying h inp s in
  VoicesSound 1 s' /\ KeepsSettings s s'.
Proof.
  intros Hb V P s'. unfold s', ExecutePlaying.
  assert (Stop : VoicesSound 1 (StopNow s) /\ KeepsSettings s (StopNow s)).
  { destruct (StopNow_block s) as (A & _ & C). split; assumption. }
  destruct (SoundWaveProxy inp) as [px|].
  - destruct (WaveChanged inp s); [|apply SanityAndMix_block; assumption].
    pose proof (InitializeWaveData_voices h px s) as IV.
    pose proof (InitializeWaveData_playing h px s) as IP.
    pose proof (InitializeWaveData_KeepsBuffers h px s) as IK.
    destruct (InitializeWaveData h px s) as [ok s1]. cbn [snd] in IV, IP, IK.
    assert (K : KeepsSettings s s1)
      by (apply KeepsBuffers_KeepsSettings; [exact IK|congruence]).
    pose proof K as (KB & _).
    destruct ok; cbn [negb].
    + destruct (SanityAndMix_block h inp true s1) as [A B].
      * rewrite KB. exact Hb.
      * destruct V as [V1 V2]. split; [rewrite KB, IV; exact V1|].
        rewrite IP, IV. exact V2.
      * congruence.
      * split; [exact A|]. eapply KeepsSettings_trans; eassumption.
    + destruct (StopNow_block s1) as (A & _ & C). split; [exact A|].
      eapply KeepsSettings_trans; eassumption.
  - destruct (isSome (CurrentWaveProxy s));
      [exact Stop|apply SanityAndMix_block; assumption].
Qed.

(** One block of a sound operator with a positive block size. *)
Lemma Execute_block h inp s :
  (0 < BlockSize s)%Z -> VoicesSound 0 s ->
  VoicesSound 1 (Execute h inp s) /\ KeepsSettings s (Execute h inp s).
Proof.
  intros Hb V. unfold Execute.
  assert (E : (BlockSize s <=? 0)%Z = false) by (apply Z.leb_gt; exact Hb).
  rewrite E.
  pose proof (ProcessTriggers_sound h inp s V) as V1.
  pose proof (ProcessTriggers_KeepsBuffers h inp s) as K.
  pose proof (ProcessTriggers_length h inp s) as L.
  pose proof (KeepsBuffers_KeepsSettings _ _ K L) as K1.
  set (s1 := ProcessTriggers h inp s) in *.
  pose proof K1 as (KB & _).
  destruct (bIsPlaying s1) eqn:P; cbn [negb].
  - destruct (ExecutePlaying_block h inp s1) as [A B]; auto.
    + rewrite KB. exact Hb.
    + split; [exact A|]. eapply KeepsSettings_trans; eassumption.
  - destruct V1 as [_ V1]. specialize (V1 P).
    destruct (_ || _ || _).
    + split.
      * split; [apply Forall_reset_VoiceAfter|]. intros _.
        apply filter_active_reset.
      * eapply KeepsSettings_trans; [exact K1|].
        unfold KeepsSettings. cbn. rewrite !ZeroBuffer_length, length_map. auto.
    + split.
      * split; [apply NoActive_VoiceAfter; exact V1|]. intros _. exact V1.
      * eapply KeepsSettings_trans; [exact K1|].
        unfold KeepsSettings. cbn. rewrite !ZeroBuffer_length. auto.
Qed.

Lemma VoicesSound_weaken s : VoicesSound 1 s -> VoicesSound 0 s.
Proof.
  intros [A B]. split; [|exact B].
  eapply Forall_impl; [|exact A]. intros v. apply VoiceAfter_weaken.
Qed.

(** The invariant of a session. *)
Lemma Session_invariant h rate frames s :
  Session h rate frames s ->
  BlockSize s = (if (0 <? frames)%Z then frames else 256%Z)
  /\ SampleRate s = rate
  /\ length (AudioOutputLeft s) = Z.to_nat frames
  /\ length (AudioOutputRight s) = Z.to_nat frames
  /\ length (GrainVoices s) = 32%nat
  /\ VoicesSound 1 s.
Proof.
  induction 1 as [|inp s S IH|s S IH].
  - cbn. rewrite !repeat_length. repeat split; auto.
    + apply NoActive_VoiceAfter. reflexivity.
  - destruct IH as (B & R & LL & LR & LV & V).
    assert (Hb : (0 < BlockSize s)%Z).
    { rewrite B. destruct (0 <? frames)%Z eqn:E; [apply Z.ltb_lt, E|lia]. }
    destruct (Execute_block h inp s Hb (VoicesSound_weaken s V))
      as (V' & K1 & K2 & K3 & K4 & K5).
    repeat split; try congruence; apply V'.
  - destruct IH as (B & R & LL & LR & LV & V).
    cbn. rewrite !ZeroBuffer_length, length_map.
    repeat split; auto.
    + apply Forall_reset_VoiceAfter.
    + intros _. apply filter_active_reset.
Qed.

End GS_session.

(** ** Properties of whole sessions of FGranularSynthOperator *)

Section GS_session_properties.
Import FGranularSynthOperator.

(** Through a session (construction, then any blocks and resets) the block
    size is positive and is the one fixed by the constructor (the settings'
    block size, or 256 when that is not positive), the sample rate is the
    constructor's, the pool keeps its 32 slots and both output buffers keep
    the length they were built with.  So Execute never takes its
    invalid-block-size branch, and with a positive block size in the settings
    the buffers hold exactly BlockSize frames: the clearing of BlockSize
    frames and the mixing of at most BlockSize frames stay inside them. *)
Theorem Session_settings_are_fixed (h : Host) (rate : Q) (frames : Z)
  (s : Operator) :
  Session h rate frames s ->
  (0 < BlockSize s)%Z
  /\ BlockSize s = (if (0 <? frames)%Z then frames else 256%Z)
  /\ SampleRate s = rate
  /\ length (GrainVoices s) = 32%nat
  /\ length (AudioOutputLeft s) = Z.to_nat frames
  /\ length (AudioOutputRight s) = Z.to_nat frames
  /\ ((0 < frames)%Z ->
      Z.of_nat (length (AudioOutputLeft s)) = BlockSize s
      /\ Z.of_nat (length (AudioOutputRight s)) = BlockSize s)
  /\ (forall inp,
        Execute h inp s
        = let s1 := ProcessTriggers h inp s in
          if bIsPlaying s1 then ExecutePlaying h inp s1
          else let s2 := ZeroOutputs s1 in
               if isSome (CurrentWaveProxy s2)
                  || (0 <? CurrentNumChannels s2)%Z
                  || ConvertDeinterleave s2
               then ClearWaveData (ResetVoices s2) else s2).
Proof.
  intro S.
  destruct (Session_invariant h rate frames s S) as (B & R & LL & LR & LV & _).
  assert (Hb : (0 < BlockSize s)%Z).
  { rewrite B. destruct (0 <? frames)%Z eqn:E; [apply Z.ltb_lt, E|lia]. }
  repeat split; auto.
  - rewrite LL, B. apply Z.ltb_lt in H. rewrite H. lia.
  - rewrite LR, B. apply Z.ltb_lt in H. rewrite H. lia.
  - intro inp. unfold Execute.
    assert (E : (BlockSize s <=? 0)%Z = false) by (apply Z.leb_gt; exact Hb).
    rewrite E. cbv zeta.
    destruct (bIsPlaying (ProcessTriggers h inp s)); reflexivity.
Qed.

(** The demo operator after its first block is in a session. *)
Lemma Session_settings_are_fixed_witness :
  (0 < BlockSize Demo.Playing)%Z
  /\ BlockSize Demo.Playing = 8%Z
  /\ length (AudioOutputLeft Demo.Playing) = 8%nat.
Proof.
  destruct (Session_settings_are_fixed DemoHost 48000 8 Demo.Playing)
    as (A & B & _ & _ & C & _).
  - apply Session_Execute. apply Session_Construct.
  - split; [exact A|]. split; [exact B|exact C].
Defined.

(** At every block boundary of a session, each active voice has samples
    left to play, has played a positive whole number of blocks, what it has
    played and what is left add up to its total, and its pipeline is alive
    (a resampler, and a reader unless the grain is reversed); and a stopped
    operator has no active voice. *)
Theorem Session_voices_are_in_flight (h : Host) (rate : Q) (frames : Z)
  (s : Operator) :
  Session h rate frames s ->
  (forall i,
     bIsActive (VoiceAt s i) = true ->
     let v := VoiceAt s i in
     (0 < SamplesRemaining v)%Z
     /\ (SamplesPlayed v + SamplesRemaining v = TotalGrainSamples v)%Z
     /\ (exists k, (1 <= k)%Z /\ SamplesPlayed v = (k * BlockSize s)%Z)
     /\ isSome (Resampler v) = true
     /\ (bIsReversed v = false -> isSome (Reader v) = true))
  /\ (bIsPlaying s = false -> ActiveVoiceCount s = 0%nat).
Proof.
  intro S.
  destruct (Session_invariant h rate frames s S) as (_ & _ & _ & _ & _ & V & N).
  split.
  - intros i A v.
    assert (Hv : VoiceAfter 1 (BlockSize s) v).
    { unfold v, VoiceAt.
      destruct (Nat.lt_ge_cases i (length (GrainVoices s))) as [Hi|Hi].
      - rewrite Forall_forall in V. apply V, nth_In, Hi.
      - unfold VoiceAt in A. rewrite nth_overflow in A by exact Hi.
        discriminate. }
    destruct (Hv A) as (R & T & K & C).
    apply andb_true_iff in C. destruct C as [C1 C2].
    repeat split; auto.
    intro Rev. rewrite Rev in C1. exact C1.
  - intro P. unfold ActiveVoiceCount. rewrite (N P). reflexivity.
Qed.

Lemma Session_voices_are_in_flight_witness :
  let v := VoiceAt Demo.Playing 0 in
  bIsActive v = true
  /\ (0 < SamplesRemaining v)%Z
  /\ (exists k, (1 <= k)%Z /\ SamplesPlayed v = (k * BlockSize Demo.Playing)%Z).
Proof.
  intro v.
  assert (A : bIsActive (VoiceAt Demo.Playing 0) = true) by (vm_compute; reflexivity).
  destruct (Session_voices_are_in_flight DemoHost 48000 8 Demo.Playing)
    as [V _].
  - apply Session_Execute. apply Session_Construct.
  - destruct (V 0%nat A) as (R & _ & K & _).
    split; [exact A|]. split; [exact R|exact K].
Defined.

End GS_session_properties.

Section GS_voice_lifetime.
Import FGranularSynthOperator.

(** A freshly started voice of [total] samples rendered in blocks of
    [bs] frames: after [k] blocks it is still active exactly when
    [k * bs < total], and has then played [k * bs] samples; once
    [k * bs >= total] it is inactive with reader and resampler released,
    having played its total.  Its lifetime does not depend on what the reader
    and the resampler deliver. *)
Theorem Voice_lifetime_in_blocks (h : Host) (inp : Inputs) (bs : Z)
  (slot : nat) (outs : nat -> list Q * list Q) (v : FGrainVoice) (k : nat) :
  (0 < bs)%Z ->
  bIsActive v = true ->
  (0 < SamplesRemaining v)%Z ->
  SamplesPlayed v = 0%Z ->
  let total := SamplesRemaining v in
  let v' := RenderBlocks h inp bs slot outs k v in
  ((Z.of_nat k * bs < total)%Z ->
   bIsActive v' = true
   /\ SamplesPlayed v' = (Z.of_nat k * bs)%Z
   /\ SamplesRemaining v' = (total - Z.of_nat k * bs)%Z)
  /\ ((total <= Z.of_nat k * bs)%Z ->
      bIsActive v' = false
      /\ SamplesPlayed v' = total
      /\ SamplesRemaining v' = 0%Z
      /\ Reader v' = None /\ Resampler v' = None).
Proof.
  intros Hb A R P total v'. unfold v'. clear v'.
  induction k as [|k IH].
  - cbn [RenderBlocks]. split; intro H; [|unfold total in H; lia].
    rewrite P. repeat split; auto. unfold total. lia.
  - cbn [RenderBlocks].
    set (w := RenderBlocks h inp bs slot outs k v) in *.
    destruct IH as [IH1 IH2].
    destruct (Z.lt_ge_cases (Z.of_nat k * bs) total) as [Lt|Ge].
    + destruct (IH1 Lt) as (WA & WP & WR). clear IH1 IH2.
      unfold RenderVoice. rewrite WA. cbv zeta.
      rewrite !MaxZ_max, !MinZ_min, WR, WP.
      set (n := Z.max 0 (Z.min bs (total - Z.of_nat k * bs))).
      assert (E : (n <=? 0)%Z = false) by (apply Z.leb_gt; unfold n; lia).
      rewrite E. cbn [fst].
      cbn [SamplesRemaining set_SamplesRemaining set_SamplesPlayed].
      rewrite Nat2Z.inj_succ.
      destruct (total - Z.of_nat k * bs - n <=? 0)%Z eqn:E2.
      * apply Z.leb_le in E2. split; intro H; [unfold n in E2; lia|].
        cbn. repeat split; auto; unfold n; lia.
      * apply Z.leb_gt in E2. split; intro H; [|unfold n in E2; lia].
        cbn. unfold n. repeat split; auto; lia.
    + destruct (IH2 Ge) as (WA & WP & WR & WRd & WRs). clear IH1 IH2.
      unfold RenderVoice. rewrite WA. cbn [fst].
      rewrite Nat2Z.inj_succ.
      split; intro H; [nia|]. repeat split; assumption.
Qed.

(** The first voice of the demo operator, 4800 samples in blocks of 8 frames:
    active after 599 blocks, released by the 600th. *)
Lemma Voice_lifetime_in_blocks_witness :
  let v := GS.ActivateVoice 4800 0 1 GS.DefaultVoice in
  let outs := fun _ : nat => (@nil Q, @nil Q) in
  bIsActive (RenderBlocks DemoHost Demo.Idle 8 0 outs 599 v) = true
  /\ bIsActive (RenderBlocks DemoHost Demo.Idle 8 0 outs 600 v) = false.
Proof.
  intros v outs.
  assert (A : bIsActive v = true) by reflexivity.
  assert (R : (0 < SamplesRemaining v)%Z) by reflexivity.
  assert (P : SamplesPlayed v = 0%Z) by reflexivity.
  split.
  - apply (Voice_lifetime_in_blocks DemoHost Demo.Idle 8 0 outs v 599
             ltac:(lia) A R P).
    vm_compute. reflexivity.
  - apply (Voice_lifetime_in_blocks DemoHost Demo.Idle 8 0 outs v 600
             ltac:(lia) A R P).
    vm_compute. discriminate.
Defined.

End GS_voice_lifetime.

(** ** Stopped operators *)

Lemma ZeroBuffer_of_Silent b : Silent b -> ZeroBuffer b = b.
Proof.
  unfold Silent, ZeroBuffer. intro H. rewrite H at 2.
  clear H. induction b as [|x b IH]; simpl; congruence.
Qed.

Lemma Silent_repeat n : Silent (repeat 0 n).
Proof. unfold Silent. rewrite repeat_length. reflexivity. Qed.

Section GS_idle.
Import FGranularSynthOperator.

(** On a stopped operator a block without a Play trigger (Stop triggers or
    not) emits no trigger, leaves the operator stopped with silent outputs
    and no wave bound, and resets the voices only if something was still
    bound; a second such block changes nothing at all.  An operator just
    reset is such a fixed point.  A freshly built operator is left as it was
    built, except that CurrentNumChannels, which the constructor leaves
    uninitialised, is set to 0 when it held a positive value. *)
Theorem Stopped_operator_stays_idle (h : Host) :
  (forall inp s,
     PlayTrigger inp = [] -> bIsPlaying s = false -> (0 < BlockSize s)%Z ->
     let s' := Execute h inp s in
     bIsPlaying s' = false
     /\ OnPlayTrigger s' = [] /\ OnFinishedTrigger s' = []
     /\ OnGrainTriggered s' = []
     /\ Silent (AudioOutputLeft s') /\ Silent (AudioOutputRight s')
     /\ CurrentWaveProxy s' = None /\ ConvertDeinterleave s' = false
     /\ (CurrentNumChannels s' <= 0)%Z
     /\ (GrainVoices s' = GrainVoices s
         \/ GrainVoices s' = map ResetVoice (GrainVoices s))
     /\ forall inp', PlayTrigger inp' = [] -> Execute h inp' s' = s')
  /\ (forall inp s, PlayTrigger inp = [] -> Execute h inp (Reset s) = Reset s)
  /\ (forall inp rate frames indeterminate,
        PlayTrigger inp = [] ->
        Execute h inp (Construct rate frames indeterminate)
        = Construct rate frames
            (if (0 <? indeterminate)%Z then 0%Z else indeterminate)).
Proof.
  assert (Idle : forall inp s,
            PlayTrigger inp = [] -> bIsPlaying s = false ->
            OnPlayTrigger s = [] -> OnFinishedTrigger s = [] ->
            OnGrainTriggered s = [] ->
            Silent (AudioOutputLeft s) -> Silent (AudioOutputRight s) ->
            CurrentWaveProxy s = None -> ConvertDeinterleave s = false ->
            (CurrentNumChannels s <= 0)%Z ->
            Execute h inp s = s).
  { intros inp s Hp P T1 T2 T3 SL SR W D C.
    apply ZeroBuffer_of_Silent in SL, SR.
    assert (C' : (0 <? CurrentNumChannels s)%Z = false) by (apply Z.ltb_ge; exact C).
    assert (Z0 : ZeroOutputs s = s).
    { unfold ZeroOutputs. rewrite SL, SR. destruct s; reflexivity. }
    assert (PT : ProcessTriggers h inp s = s).
    { unfold ProcessTriggers, AdvanceBlock, StopScan. rewrite Hp.
      cbn [PlayLoop].
      change (bIsPlaying (set_OnGrainTriggered []
                (set_OnFinishedTrigger [] (set_OnPlayTrigger [] s))))
        with (bIsPlaying s).
      rewrite P.
      assert (X : set_OnGrainTriggered []
                    (set_OnFinishedTrigger [] (set_OnPlayTrigger [] s)) = s).
      { destruct s; cbn in *; subst; reflexivity. }
      destruct (StopTrigger inp); cbn [andb]; exact X. }
    unfold Execute. rewrite PT, Z0, P, W, D, C'. cbn.
    destruct (_ <=? 0)%Z; reflexivity. }
  split; [|split].
  - intros inp s Hp P Hb s'.
    assert (E : (BlockSize s <=? 0)%Z = false) by (apply Z.leb_gt; exact Hb).
    assert (X : s' = let s2 := ZeroOutputs
                                 (set_OnGrainTriggered []
                                    (set_OnFinishedTrigger []
                                       (set_OnPlayTrigger [] s))) in
                     if isSome (CurrentWaveProxy s2)
                        || (0 <? CurrentNumChannels s2)%Z
                        || ConvertDeinterleave s2
                     then ClearWaveData (ResetVoices s2) else s2).
    { unfold s', Execute, ProcessTriggers, StopScan, AdvanceBlock.
      rewrite E, Hp. cbn [PlayLoop].
      change (bIsPlaying (set_OnGrainTriggered []
                (set_OnFinishedTrigger [] (set_OnPlayTrigger [] s))))
        with (bIsPlaying s).
      rewrite P.
      destruct (StopTrigger inp); cbn [andb];
        change (bIsPlaying (set_OnGrainTriggered []
                  (set_OnFinishedTrigger [] (set_OnPlayTrigger [] s))))
          with (bIsPlaying s);
        rewrite ?P; reflexivity. }
    cbv zeta in X.
    assert (Facts : bIsPlaying s' = false
              /\ OnPlayTrigger s' = [] /\ OnFinishedTrigger s' = []
              /\ OnGrainTriggered s' = []
              /\ Silent (AudioOutputLeft s') /\ Silent (AudioOutputRight s')
              /\ CurrentWaveProxy s' = None /\ ConvertDeinterleave s' = false
              /\ (CurrentNumChannels s' <= 0)%Z
              /\ (GrainVoices s' = GrainVoices s
                  \/ GrainVoices s' = map ResetVoice (GrainVoices s))).
    { rewrite X. clear X.
      destruct (_ || _ || _) eqn:B.
      - cbn. repeat split; auto using ZeroBuffer_Silent. lia.
      - apply orb_false_iff in B. destruct B as [B B3].
        apply orb_false_iff in B. destruct B as [B1 B2].
        cbn in B1, B2, B3 |- *. apply Z.ltb_ge in B2.
        destruct (CurrentWaveProxy s); [discriminate|].
        repeat split; auto using ZeroBuffer_Silent. }
    destruct Facts as (F1 & F2 & F3 & F4 & F5 & F6 & F7 & F8 & F9 & F10).
    repeat split; auto.
  - intros inp s Hp. apply Idle; cbn; auto using ZeroBuffer_Silent. lia.
  - intros inp rate frames n Hp.
    destruct (0 <? n)%Z eqn:En.
    + assert (E : (BlockSize (Construct rate frames n) <=? 0)%Z = false).
      { cbn. destruct (0 <? frames)%Z eqn:F; apply Z.leb_gt;
          [apply Z.ltb_lt; exact F|reflexivity]. }
      unfold Execute, ProcessTriggers, StopScan, AdvanceBlock.
      rewrite E, Hp. cbn [PlayLoop].
      destruct (StopTrigger inp); cbn; rewrite En; cbn;
        unfold ClearWaveData, ResetVoices, ZeroOutputs, Construct, ZeroBuffer;
        cbn; rewrite !map_repeat; reflexivity.
    + apply Idle; cbn; auto using Silent_repeat. apply Z.ltb_ge. exact En.
Qed.

(** The theorem applies to the playing demo operator once it is stopped:
    the block after the stop changes nothing more than the triggers.  The
    first block of the fresh demo operator clears its uninitialised
    member. *)
Lemma Stopped_operator_stays_idle_witness :
  let stop := Demo.WithTriggers [] [5%Z] Demo.Idle in
  let s := Execute DemoHost stop Demo.Playing in
  bIsPlaying s = false
  /\ OnFinishedTrigger s = [5%Z]
  /\ OnFinishedTrigger (Execute DemoHost stop s) = []
  /\ Execute DemoHost stop (Execute DemoHost stop s) = Execute DemoHost stop s
  /\ CurrentNumChannels Demo.Fresh = Demo.Garbage
  /\ Execute DemoHost stop Demo.Fresh = Construct 48000 8 0.
Proof.
  intros stop s.
  assert (P : bIsPlaying s = false) by (vm_compute; reflexivity).
  assert (B : (0 < BlockSize s)%Z) by (vm_compute; reflexivity).
  destruct (proj1 (Stopped_operator_stays_idle DemoHost) stop s eq_refl P B)
    as (_ & _ & F & _ & _ & _ & _ & _ & _ & _ & Fix).
  split; [exact P|]. split; [vm_compute; reflexivity|].
  split; [exact F|]. split; [apply Fix; reflexivity|].
  split; [reflexivity|].
  exact (proj2 (proj2 (Stopped_operator_stays_idle DemoHost))
           stop 48000 8%Z Demo.Garbage eq_refl).
Defined.

End GS_idle.

(** ** Starting playback *)

Section GS_play.
Import FGranularSynthOperator.

Lemma InitializeWaveData_bound h px s :
  WaveInitializes h px = true ->
  let s' := snd (InitializeWaveData h px s) in
  CurrentWaveProxy s' = Some px
  /\ CachedSoundWaveDuration s' = WaveDuration h px
  /\ CurrentNumChannels s' = WaveChannels h px
  /\ (0 < WaveChannels h px)%Z
  /\ 0 < WaveDuration h px
  /\ ConvertDeinterleave s' = true
  /\ OnPlayTrigger s' = OnPlayTrigger s
  /\ OnFinishedTrigger s' = OnFinishedTrigger s
  /\ OnGrainTriggered s' = OnGrainTriggered s.
Proof.
  unfold WaveInitializes, InitializeWaveData, WaveDuration, WaveChannels.
  destruct (Reader_Create h px (DefaultSettings h)) as [r|]; [|discriminate].
  destruct ((ReaderNumChannels r <=? 0)%Z) eqn:C; [discriminate|].
  destruct (Qleb _ 0) eqn:D; [discriminate|]. cbn [orb negb andb].
  intros ->. cbn. apply Z.leb_gt in C. apply Qleb_false in D.
  repeat split; auto.
Qed.

(** A Play trigger that can start playback. *)
Lemma TryStartPlayback_started h inp f s px :
  IsSoundWaveValid inp = true -> SoundWaveProxy inp = Some px ->
  WaveInitializes h px = true ->
  let r := TryStartPlayback h inp f s in
  fst r = true
  /\ bIsPlaying (snd r) = true
  /\ OnPlayTrigger (snd r) = OnPlayTrigger s ++ [f]
  /\ OnFinishedTrigger (snd r) = OnFinishedTrigger s
  /\ CurrentWaveProxy (snd r) = Some px
  /\ CachedSoundWaveDuration (snd r) = WaveDuration h px
  /\ CurrentNumChannels (snd r) = WaveChannels h px
  /\ ConvertDeinterleave (snd r) = true.
Proof.
  intros V Px W. unfold TryStartPlayback. rewrite V, Px. cbn [negb].
  pose proof (InitializeWaveData_ok h px (set_bIsPlaying false s)) as Ok.
  pose proof (InitializeWaveData_bound h px (set_bIsPlaying false s) W) as B.
  cbv zeta in B.
  destruct (InitializeWaveData h px (set_bIsPlaying false s)) as [ok s1].
  cbn [fst snd] in Ok, B. rewrite W in Ok. subst ok. cbn [negb].
  destruct B as (B1 & B2 & B3 & _ & _ & B6 & B7 & B8 & _).
  cbn in B7, B8.
  match goal with |- context [if ?c then _ else _] => destruct c end.
  - match goal with |- context [SpawnLoop ?h ?i ?f ?c ?k ?s0] =>
      pose proof (SpawnLoop_SpawnFrame h i f c k s0) as F;
      set (s2 := SpawnLoop h i f c k s0) in * end.
    destruct F as (_ & _ & F3 & _ & F5 & F6 & F7 & F8 & F9 & F10 & _).
    cbn in F3, F5, F6, F7, F8, F9, F10. cbn.
    unfold TriggerFrame in F9.
    repeat split; congruence.
  - cbn. unfold TriggerFrame. repeat split; congruence.
Qed.

Lemma PlayLoop_started h inp px : forall frames b s,
  IsSoundWaveValid inp = true -> SoundWaveProxy inp = Some px ->
  WaveInitializes h px = true ->
  frames <> [] ->
  let r := PlayLoop h inp frames b s in
  fst r = false
  /\ bIsPlaying (snd r) = true
  /\ OnPlayTrigger (snd r) = OnPlayTrigger s ++ frames
  /\ OnFinishedTrigger (snd r) = OnFinishedTrigger s
  /\ CurrentWaveProxy (snd r) = Some px
  /\ CachedSoundWaveDuration (snd r) = WaveDuration h px
  /\ CurrentNumChannels (snd r) = WaveChannels h px
  /\ ConvertDeinterleave (snd r) = true.
Proof.
  induction frames as [|f frames IH]; intros b s V Px W Hne; [congruence|].
  cbn [PlayLoop].
  pose proof (TryStartPlayback_started h inp f s px V Px W) as T.
  cbv zeta in T.
  destruct (TryStartPlayback h inp f s) as [ok s1]. cbn [fst snd] in T.
  destruct T as (T1 & T2 & T3 & T4 & T5 & T6 & T7 & T8). subst ok.
  cbn [negb].
  destruct frames as [|g frames].
  - cbn. repeat split; assumption.
  - specialize (IH false s1 V Px W ltac:(discriminate)). cbv zeta in IH.
    destruct IH as (I1 & I2 & I3 & I4 & I5 & I6 & I7 & I8).
    rewrite I3, I4, T3, T4, <- app_assoc. repeat split; assumption.
Qed.

(** The scheduler, the spawn loop and the rendering leave the playing flag,
    the OnPlay and OnFinished triggers and the wave binding alone. *)
Lemma ScheduleSpawnRender_triggers h inp s :
  let s' := ScheduleSpawnRender h inp s in
  bIsPlaying s' = bIsPlaying s
  /\ OnPlayTrigger s' = OnPlayTrigger s
  /\ OnFinishedTrigger s' = OnFinishedTrigger s
  /\ CurrentWaveProxy s' = CurrentWaveProxy s.
Proof.
  cbv zeta. unfold ScheduleSpawnRender.
  destruct (Scheduler h _ _ _ _ _) as [[Sa G] d].
  match goal with |- context [SpawnLoop ?h ?i ?f ?c ?k ?s0] =>
    pose proof (SpawnLoop_SpawnFrame h i f c k s0) as F;
    set (s2 := SpawnLoop h i f c k s0) in * end.
  destruct (RenderVoices h inp (BlockSize s2) 0 (GrainVoices s2) _)
    as [vs [oL oR]].
  destruct F as (_ & _ & F3 & _ & F5 & _ & _ & _ & F9 & F10 & _).
  cbn in F3, F5, F9, F10 |- *. repeat split; assumption.
Qed.

(** With a wave asset that validates, the Play triggers of a block restart
    playback whatever the state before and whether or not a Stop trigger
    fired in the block: after the triggers the operator is playing, the wave
    is bound, OnPlay has fired at the frame of every Play trigger and
    OnFinished has not fired.  If the wave lasts at least 5 ms the block is
    mixed and ends playing; if it is shorter, the block ends stopped with
    silent outputs, no active voice and OnFinished fired at frame 0. *)
Theorem Play_restarts_playback (h : Host) (inp : Inputs) (s : Operator)
  (px : Proxy) :
  (0 < BlockSize s)%Z ->
  PlayTrigger inp <> [] ->
  IsSoundWaveValid inp = true -> SoundWaveProxy inp = Some px ->
  WaveInitializes h px = true ->
  let s1 := ProcessTriggers h inp s in
  let s' := Execute h inp s in
  (bIsPlaying s1 = true
   /\ OnPlayTrigger s1 = PlayTrigger inp
   /\ OnFinishedTrigger s1 = []
   /\ CurrentWaveProxy s1 = Some px
   /\ CachedSoundWaveDuration s1 = WaveDuration h px)
  /\ OnPlayTrigger s' = PlayTrigger inp
  /\ (MinGrainDurationSeconds <= WaveDuration h px ->
      bIsPlaying s' = true /\ OnFinishedTrigger s' = []
      /\ s' = ScheduleSpawnRender h inp (ClearForMixing false s1))
  /\ (WaveDuration h px < MinGrainDurationSeconds ->
      bIsPlaying s' = false /\ OnFinishedTrigger s' = [0%Z]
      /\ ActiveVoiceCount s' = 0%nat
      /\ Silent (AudioOutputLeft s') /\ Silent (AudioOutputRight s')).
Proof.
  intros Hb Hne V Px W s1 s'.
  assert (T : bIsPlaying s1 = true
              /\ OnPlayTrigger s1 = PlayTrigger inp
              /\ OnFinishedTrigger s1 = []
              /\ CurrentWaveProxy s1 = Some px
              /\ CachedSoundWaveDuration s1 = WaveDuration h px
              /\ CurrentNumChannels s1 = WaveChannels h px
              /\ ConvertDeinterleave s1 = true).
  { unfold s1, ProcessTriggers, AdvanceBlock.
    destruct (StopScan _ _) as [b0 f0].
    match goal with |- context [PlayLoop ?h ?i ?f ?b ?s0] =>
      pose proof (PlayLoop_started h i px f b s0 V Px W Hne) as P;
      destruct (PlayLoop h i f b s0) as [b1 s2] end.
    cbv zeta in P. cbn [fst snd] in P.
    destruct P as (P1 & P2 & P3 & P4 & P5 & P6 & P7 & P8).
    subst b1. cbn [andb]. cbn in P3, P4. repeat split; assumption. }
  destruct T as (T1 & T2 & T3 & T4 & T5 & T6 & T7).
  pose proof (InitializeWaveData_bound h px s W) as (_ & _ & _ & C & _).
  assert (E : (BlockSize s <=? 0)%Z = false) by (apply Z.leb_gt; exact Hb).
  assert (C1 : (CurrentNumChannels s1 <=? 0)%Z = false)
    by (apply Z.leb_gt; rewrite T6; exact C).
  assert (X : s' = if Qltb (WaveDuration h px) MinGrainDurationSeconds
                   then StopNow s1
                   else ScheduleSpawnRender h inp (ClearForMixing false s1)).
  { unfold s', Execute. rewrite E. fold s1. rewrite T1. cbn [negb].
    unfold ExecutePlaying, WaveChanged. rewrite Px, T4. cbn [isSome andb ProxyEq].
    rewrite Nat.eqb_refl. cbn [negb].
    unfold SanityAndMix. rewrite C1, T7, T5. reflexivity. }
  pose proof (ScheduleSpawnRender_triggers h inp (ClearForMixing false s1))
    as (R1 & R2 & R3 & _).
  change (bIsPlaying (ClearForMixing false s1)) with (bIsPlaying s1) in R1.
  change (OnPlayTrigger (ClearForMixing false s1)) with (OnPlayTrigger s1) in R2.
  change (OnFinishedTrigger (ClearForMixing false s1))
    with (OnFinishedTrigger s1) in R3.
  split; [repeat split; assumption|].
  split; [|split].
  - rewrite X. destruct (Qltb _ _); [cbn; exact T2|congruence].
  - intro Long.
    assert (Q0 : Qltb (WaveDuration h px) MinGrainDurationSeconds = false).
    { unfold Qltb. apply negb_false_iff. apply Qle_bool_iff. exact Long. }
    rewrite Q0 in X. rewrite X. repeat split; congruence.
  - intro Short.
    assert (Q0 : Qltb (WaveDuration h px) MinGrainDurationSeconds = true).
    { unfold Qltb. apply negb_true_iff. destruct (Qle_bool _ _) eqn:Q1; auto.
      apply Qle_bool_iff in Q1. exfalso. qlra. }
    rewrite Q0 in X. rewrite X. unfold ActiveVoiceCount. cbn.
    rewrite filter_active_reset, T3.
    repeat split; auto using ZeroBuffer_Silent.
Qed.

(** Play at frame 2 and Stop at frame 1 on the playing demo operator. *)
Lemma Play_restarts_playback_witness :
  let inp := Demo.WithTriggers [2%Z] [1%Z] Demo.Idle in
  let s' := Execute DemoHost inp Demo.Playing in
  bIsPlaying s' = true /\ OnPlayTrigger s' = [2%Z] /\ OnFinishedTrigger s' = [].
Proof.
  intros inp s'.
  destruct (Play_restarts_playback DemoHost inp Demo.Playing 7%nat)
    as (_ & P & L & _).
  - vm_compute. reflexivity.
  - discriminate.
  - reflexivity.
  - reflexivity.
  - vm_compute. reflexivity.
  - destruct L as (L1 & L2 & _).
    + vm_compute. discriminate.
    + split; [exact L1|]. split; [exact P|exact L2].
Defined.

End GS_play.

(** ** Warm start *)

Section GS_warm_start.
Import FGranularSynthOperator.

Lemma SetVoice_active_count (vs : list FGrainVoice) : forall i v,
  (i < length vs)%nat -> bIsActive (nth i vs DefaultVoice) = false ->
  length (filter bIsActive (SetVoice vs i v))
  = (length (filter bIsActive vs) + (if bIsActive v then 1 else 0))%nat.
Proof.
  induction vs as [|w vs IH]; intros i v Hi Hn; [simpl in Hi; lia|].
  destruct i as [|i]; cbn [SetVoice filter nth length] in *.
  - rewrite Hn. destruct (bIsActive v); cbn [length]; lia.
  - specialize (IH i v ltac:(lia) Hn).
    destruct (bIsActive w); cbn [length]; lia.
Qed.

(** One iteration of a spawn loop either commits a grain (one more active
    voice, one OnGrain trigger) or changes neither. *)
Lemma SpawnGrain_commit h inp frameOf s :
  let s' := SpawnGrain h inp frameOf s in
  exists ok : bool,
    ActiveVoiceCount s'
    = (ActiveVoiceCount s + (if ok then 1 else 0))%nat
    /\ OnGrainTriggered s'
       = OnGrainTriggered s
         ++ (if ok
             then [frameOf (OutputGrainDurationSamples
                              (ResolveGrain h inp (SampleRate s)
                                 (CachedSoundWaveDuration s) (FRandCalls s)))]
             else []).
Proof.
  cbv zeta. unfold SpawnGrain.
  destruct (negb _).
  { exists false. unfold ActiveVoiceCount. cbn. rewrite app_nil_r.
    split; [lia|reflexivity]. }
  match goal with |- context [TriggerGrain ?h ?p ?n ?t ?r ?a ?v ?b ?k ?s0] =>
    pose proof (TriggerGrain_shape h p n t r a v b k s0) as T;
    pose proof (TriggerGrain_frame h p n t r a v b k s0) as F;
    destruct (TriggerGrain h p n t r a v b k s0) as [ok s1] eqn:E end.
  cbv zeta in T, F. cbn [fst snd] in T, F.
  destruct F as (F1 & _). cbn in F1.
  destruct T as [T|(i & v & Ef & Es & Ev)].
  - injection T as -> ->. exists false. unfold ActiveVoiceCount. cbn.
    rewrite app_nil_r. split; [lia|reflexivity].
  - apply (FindFreeVoice_Some _ _ _ _ DefaultVoice) in Ef.
    destruct Ef as (_ & Hlt & Hin & _). rewrite Nat.sub_0_r in Hlt, Hin.
    cbn in Hlt, Hin.
    exists ok. split.
    + assert (C : ActiveVoiceCount s1
                  = (ActiveVoiceCount s + (if ok then 1 else 0))%nat).
      { unfold ActiveVoiceCount. rewrite Es. cbn.
        rewrite (SetVoice_active_count _ i v Hlt Hin), Ev. reflexivity. }
      destruct ok; cbn; exact C.
    + destruct ok; cbn; unfold TriggerFrame; rewrite ?app_nil_r; congruence.
Qed.

Lemma SpawnLoop_constant_frame h inp f count : forall i s,
  let s' := SpawnLoop h inp (fun _ _ => f) count i s in
  exists m,
    (m <= count)%nat
    /\ ActiveVoiceCount s' = (ActiveVoiceCount s + m)%nat
    /\ OnGrainTriggered s' = OnGrainTriggered s ++ repeat f m.
Proof.
  induction count as [|count IH]; intros i s; cbn [SpawnLoop].
  - exists 0%nat. cbn. rewrite app_nil_r. repeat split; lia.
  - destruct (SpawnGrain_commit h inp (fun _ => f) s) as (ok & A & G).
    destruct (IH (i + 1)%Z (SpawnGrain h inp (fun _ => f) s)) as (m & M & A' & G').
    cbv zeta in *.
    exists ((if ok then 1 else 0) + m)%nat. rewrite A', G', A, G.
    repeat split.
    + destruct ok; lia.
    + lia.
    + rewrite <- app_assoc. destruct ok; reflexivity.
Qed.

(** A Play trigger that starts playback resets the pool first.  With warm
    start (the pin set, a wave of 5 ms or more, a positive sample rate) it
    then commits at most
    [Clamp(floor(ActiveVoices), 0, 32)] grains (one when ActiveVoices is
    strictly between 0 and 1), each reported by an OnGrain trigger at the
    frame of the Play trigger, and sets the counter to the grain interval;
    without it no voice is active, no grain is reported and the counter is 0,
    so that the first grain falls in this block. *)
Theorem Warm_start_commits_at_most_the_active_voices (h : Host) (inp : Inputs)
  (f : Z) (s : Operator) (px : Proxy) :
  IsSoundWaveValid inp = true -> SoundWaveProxy inp = Some px ->
  WaveInitializes h px = true ->
  let s' := snd (TryStartPlayback h inp f s) in
  let warm := WarmStartInput inp
              && negb (Qltb (WaveDuration h px) MinGrainDurationSeconds)
              && Qltb 0 (SampleRate s) in
  (0 <= NumVoicesToWarmStart inp <= 32)%Z
  /\ (warm = true ->
      exists m,
        (Z.of_nat m <= NumVoicesToWarmStart inp)%Z
        /\ ActiveVoiceCount s' = m
        /\ OnGrainTriggered s' = OnGrainTriggered s ++ repeat f m
        /\ SamplesUntilNextGrain s'
           = FMath.Min (BaseSamplesPerGrainInterval (SampleRate s) inp)
               FMath.FloatMax)
  /\ (warm = false ->
      ActiveVoiceCount s' = 0%nat
      /\ OnGrainTriggered s' = OnGrainTriggered s
      /\ SamplesUntilNextGrain s' = 0).
Proof.
  intros V Px W s' warm.
  assert (N : (0 <= NumVoicesToWarmStart inp <= 32)%Z).
  { unfold NumVoicesToWarmStart, FMath.ClampZ, MaxGrainVoices.
    rewrite MaxZ_max, MinZ_min. lia. }
  split; [exact N|].
  unfold s', TryStartPlayback. rewrite V, Px. cbn [negb].
  pose proof (InitializeWaveData_ok h px (set_bIsPlaying false s)) as Ok.
  pose proof (InitializeWaveData_bound h px (set_bIsPlaying false s) W) as B.
  pose proof (InitializeWaveData_KeepsBuffers h px (set_bIsPlaying false s))
    as (_ & _ & _ & KS).
  cbv zeta in B.
  destruct (InitializeWaveData h px (set_bIsPlaying false s)) as [ok s1].
  cbn [fst snd] in Ok, B, KS. rewrite W in Ok. subst ok. cbn [negb].
  destruct B as (B1 & B2 & _ & _ & _ & _ & _ & _ & B9).
  cbn in B9, KS.
  match goal with |- context [if ?c then _ else _] =>
    assert (C : c = warm);
    [cbn; rewrite B1, B2, KS; unfold warm; cbn;
     destruct (WarmStartInput inp); reflexivity|rewrite C; clear C] end.
  destruct warm.
  - split; [|discriminate]. intros _.
    match goal with |- context [SpawnLoop ?h ?i ?f0 ?c ?k ?s0] =>
      pose proof (SpawnLoop_constant_frame h i f c k s0) as L;
      pose proof (SpawnLoop_SpawnFrame h i f0 c k s0) as F;
      set (s2 := SpawnLoop h i f0 c k s0) in * end.
    cbv zeta in L. destruct L as (m & M & A & G).
    destruct F as (F1 & _). cbn in F1.
    exists m. cbn [snd]. unfold ActiveVoiceCount in *. cbn in A, G |- *.
    rewrite filter_active_reset in A. cbn in A.
    repeat split.
    + lia.
    + exact A.
    + rewrite G, B9. reflexivity.
    + rewrite F1, KS. unfold FMath.Min. reflexivity.
  - split; [discriminate|]. intros _. cbn [snd].
    unfold ActiveVoiceCount. cbn. rewrite filter_active_reset.
    repeat split; auto.
Qed.

(** Warm start with four active voices on the demo host. *)
Lemma Warm_start_commits_at_most_the_active_voices_witness :
  let inp := mkInputs [0%Z] [] true (Some 7%nat)
               100 0 4 0 0 0 0 (1 # 10) (1 # 10) 1 1 0 0 0 0 0 true in
  let s' := snd (TryStartPlayback DemoHost inp 3 Demo.Fresh) in
  (ActiveVoiceCount s' <= 4)%nat
  /\ SamplesUntilNextGrain s' == 1200.
Proof.
  intros inp s'.
  destruct (Warm_start_commits_at_most_the_active_voices DemoHost inp 3
              Demo.Fresh 7%nat eq_refl eq_refl)
    as (_ & Wm & _).
  - vm_compute. reflexivity.
  - destruct Wm as (m & M & A & _ & S).
    + vm_compute. reflexivity.
    + split.
      * fold s' in A. rewrite A.
        assert (X : NumVoicesToWarmStart inp = 4%Z) by (vm_compute; reflexivity).
        rewrite X in M. lia.
      * fold s' in S. rewrite S. vm_compute. reflexivity.
Defined.

End GS_warm_start.

(** ** The parameters of a committed grain *)

(** A draw in [0,1] maps into the range asked for. *)
Lemma FRandRange_range lo hi u :
  lo <= hi -> 0 <= u <= 1 ->
  lo <= FMath.FRandRange lo hi u <= hi.
Proof.
  intros H [U0 U1]. unfold FMath.FRandRange.
  assert (A : 0 <= (hi - lo) * u).
  { apply Qmult_le_0_compat; [qlra|exact U0]. }
  assert (B : (hi - lo) * u <= (hi - lo) * 1).
  { rewrite !(Qmult_comm (hi - lo)). apply Qmult_le_compat_r; [exact U1|qlra]. }
  split; qlra.
Qed.

Section GS_grain_parameters.
Import FGranularSynthOperator.

(** Whenever an iteration of a spawn loop commits a grain (an OnGrain
    trigger is added), six random draws have been made and the values
    written to the grain outputs are in range: the pan in [-1, 1], the pitch
    in [-60, 60] semitones, the duration at least 5 ms; and, when the draws
    are in [0, 1] as FRand's are, the duration lies between the base duration
    and the base duration plus the duration randomization, and the volume
    between [1 - VolumeRand/100] and 1, hence in [0, 1]. *)
Theorem Committed_grain_outputs_are_in_range (h : Host) (inp : Inputs)
  (frameOf : Z -> Z) (s : Operator) :
  let s' := SpawnGrain h inp frameOf s in
  let d := FRandCalls s in
  OnGrainTriggered s' <> OnGrainTriggered s ->
  FRandCalls s' = (d + 6)%nat
  /\ -1 <= OutputGrainPanRef s' <= 1
  /\ -(60) <= OutputGrainPitchRef s' <= 60
  /\ 5 # 1000 <= OutputGrainDurationSecRef s'
  /\ (0 <= FRand h (d + 1) <= 1 ->
      BaseGrainDurationSeconds inp <= OutputGrainDurationSecRef s'
      <= BaseGrainDurationSeconds inp + MaxDurationRandSeconds inp)
  /\ (0 <= FRand h (d + 5) <= 1 ->
      0 <= 1 - VolumeRandPercent inp / 100 <= OutputGrainVolumeRef s'
      /\ OutputGrainVolumeRef s' <= 1).
Proof.
  intros s' d Hc.
  unfold s', SpawnGrain in *. fold d in Hc |- *.
  set (g := ResolveGrain h inp (SampleRate s) (CachedSoundWaveDuration s) d) in *.
  destruct (negb (bIsValidSegment (Segment g)));
    [exfalso; apply Hc; reflexivity|].
  match type of Hc with context [TriggerGrain ?h ?p ?n ?t ?r ?a ?v ?b ?k ?s0] =>
    pose proof (TriggerGrain_frame h p n t r a v b k s0) as Fr;
    pose proof (TriggerGrain_shape h p n t r a v b k s0) as Sh;
    destruct (TriggerGrain h p n t r a v b k s0) as [ok s1] end.
  cbv zeta in Fr, Sh. cbn [fst snd] in Fr, Sh.
  destruct ok; [|exfalso; apply Hc; apply Fr].
  assert (Calls : FRandCalls s1 = (d + 6)%nat).
  { destruct Sh as [Sh|(i & v & _ & Es & _)]; [discriminate|].
    rewrite Es. reflexivity. }
  cbn. split; [exact Calls|].
  unfold g, ResolveGrain. cbn.
  assert (U : 0 <= 1) by (unfold Qle; simpl; lia).
  assert (P : -1 <= 1) by (unfold Qle; simpl; lia).
  assert (S60 : - MaxAbsPitchShiftSemitones <= MaxAbsPitchShiftSemitones)
    by (unfold Qle; simpl; lia).
  split; [apply Clamp_range, P|].
  split; [apply (Clamp_range _ _ _ S60)|].
  split; [apply (Max_ge_l MinGrainDurationSeconds)|].
  split.
  - intro Ud.
    assert (Base : MinGrainDurationSeconds <= BaseGrainDurationSeconds inp)
      by apply Max_ge_l.
    assert (Rand : 0 <= MaxDurationRandSeconds inp) by apply Max_ge_l.
    pose proof (FRandRange_range 0 (MaxDurationRandSeconds inp)
                  (FRand h (d + 1)) Rand Ud) as [R0 R1].
    destruct (Max_cases MinGrainDurationSeconds
                (BaseGrainDurationSeconds inp
                 + FMath.FRandRange 0 (MaxDurationRandSeconds inp)
                     (FRand h (d + 1)))) as [[M1 ->]|[M1 ->]]; split; qlra.
  - intro Uv.
    assert (V : 0 <= VolumeRandPercent inp <= 100).
    { apply Clamp_range. unfold Qle; simpl; lia. }
    assert (M : 0 <= 1 - VolumeRandPercent inp / 100 <= 1).
    { unfold Qdiv. destruct V as [V0 V1].
      assert (A : 0 <= VolumeRandPercent inp * / 100)
        by (apply Qmult_le_0_compat; [exact V0|unfold Qle; simpl; lia]).
      assert (B : VolumeRandPercent inp * / 100 <= 100 * / 100)
        by (apply Qmult_le_compat_r; [exact V1|unfold Qle; simpl; lia]).
      assert (C : 100 * / 100 == 1) by reflexivity.
      split; qlra. }
    pose proof (FRandRange_range (1 - VolumeRandPercent inp / 100) 1
                  (FRand h (d + 5)) (proj2 M) Uv) as [R0 R1].
    repeat split; try qlra.
Qed.

(** The grain of the first demo block. *)
Lemma Committed_grain_outputs_are_in_range_witness :
  let s := Execute DemoHost (Demo.WithTriggers [0%Z] [] Demo.Idle) Demo.Fresh in
  OnGrainTriggered s = [0%Z]
  /\ exists s0 frameOf,
       let s' := SpawnGrain DemoHost Demo.Idle frameOf s0 in
       OnGrainTriggered s' <> OnGrainTriggered s0
       /\ -1 <= OutputGrainPanRef s' <= 1.
Proof.
  intro s. split; [vm_compute; reflexivity|].
  set (s0 := snd (TryStartPlayback DemoHost Demo.Idle 0 Demo.Fresh)).
  exists s0, (fun _ => 0%Z). cbv zeta.
  assert (C : OnGrainTriggered (SpawnGrain DemoHost Demo.Idle (fun _ => 0%Z) s0)
              <> OnGrainTriggered s0) by (vm_compute; discriminate).
  split; [exact C|].
  apply (Committed_grain_outputs_are_in_range DemoHost Demo.Idle
           (fun _ => 0%Z) s0 C).
Defined.

End GS_grain_parameters.

(** ** The frames of the output triggers *)

Section GS_trigger_frames.
Import FGranularSynthOperator.

Lemma SpawnLoop_frames h inp (A : Z -> Prop) frameOf count : forall i s,
  (forall j n, A (frameOf j n)) ->
  Forall A (OnGrainTriggered s) ->
  Forall A (OnGrainTriggered (SpawnLoop h inp frameOf count i s)).
Proof.
  induction count as [|count IH]; intros i s Hf H; cbn [SpawnLoop]; [exact H|].
  apply IH; [exact Hf|].
  destruct (SpawnGrain_commit h inp (frameOf i) s) as (ok & _ & G).
  cbv zeta in G. rewrite G. apply Forall_app. split; [exact H|].
  destruct ok; constructor; [apply Hf|constructor].
Qed.

(** What one Play trigger adds to the output triggers. *)
Lemma TryStartPlayback_triggers h inp f s :
  let r := TryStartPlayback h inp f s in
  OnFinishedTrigger (snd r) = OnFinishedTrigger s
  /\ OnPlayTrigger (snd r) = OnPlayTrigger s ++ (if fst r then [f] else [])
  /\ exists m, OnGrainTriggered (snd r) = OnGrainTriggered s ++ repeat f m.
Proof.
  cbv zeta.
  assert (Failed : forall s0,
            OnFinishedTrigger s0 = OnFinishedTrigger s ->
            OnPlayTrigger s0 = OnPlayTrigger s ->
            OnGrainTriggered s0 = OnGrainTriggered s ->
            let r := (false, ClearWaveData (ResetVoices s0)) in
            OnFinishedTrigger (snd r) = OnFinishedTrigger s
            /\ OnPlayTrigger (snd r) = OnPlayTrigger s ++ (if fst r then [f] else [])
            /\ exists m, OnGrainTriggered (snd r) = OnGrainTriggered s ++ repeat f m).
  { intros s0 A B C. cbn. rewrite app_nil_r. repeat split; auto.
    exists 0%nat. cbn. rewrite app_nil_r. exact C. }
  unfold TryStartPlayback.
  destruct (negb (IsSoundWaveValid inp)); [apply Failed; reflexivity|].
  destruct (SoundWaveProxy inp) as [px|]; [|apply Failed; reflexivity].
  assert (I : let s1 := snd (InitializeWaveData h px (set_bIsPlaying false s)) in
              OnFinishedTrigger s1 = OnFinishedTrigger s
              /\ OnPlayTrigger s1 = OnPlayTrigger s
              /\ OnGrainTriggered s1 = OnGrainTriggered s).
  { unfold InitializeWaveData.
    destruct (Reader_Create h px (DefaultSettings h)) as [r|]; [|cbn; auto].
    destruct (_ || _); [cbn; auto|].
    destruct (negb _); cbn; auto. }
  cbv zeta in I.
  destruct (InitializeWaveData h px (set_bIsPlaying false s)) as [ok s1].
  cbn [snd] in I. destruct I as (I1 & I2 & I3).
  destruct ok; cbn [negb]; [|apply Failed; assumption].
  match goal with |- context [if ?c then _ else _] => destruct c end.
  - match goal with |- context [SpawnLoop ?h ?i ?f0 ?c ?k ?s0] =>
      pose proof (SpawnLoop_constant_frame h i f c k s0) as L;
      pose proof (SpawnLoop_SpawnFrame h i f0 c k s0) as F;
      set (s2 := SpawnLoop h i f0 c k s0) in * end.
    cbv zeta in L. destruct L as (m & _ & _ & G).
    destruct F as (_ & _ & _ & _ & _ & _ & _ & _ & F9 & F10 & _).
    cbn in F9, F10, G |- *. unfold TriggerFrame in F9.
    repeat split; try congruence.
    exists m. congruence.
  - cbn. unfold TriggerFrame. repeat split; try congruence.
    exists 0%nat. cbn. rewrite app_nil_r. exact I3.
Qed.

Lemma Forall_repeat (A : Z -> Prop) f m : A f -> Forall A (repeat f m).
Proof. intro H. induction m; simpl; constructor; auto. Qed.

Lemma PlayLoop_triggers h inp (A : Z -> Prop) : forall frames b s,
  (forall f, In f frames -> A f) ->
  Forall A (OnPlayTrigger s) -> Forall A (OnFinishedTrigger s) ->
  Forall A (OnGrainTriggered s) ->
  let r := PlayLoop h inp frames b s in
  Forall A (OnPlayTrigger (snd r))
  /\ Forall A (OnFinishedTrigger (snd r))
  /\ Forall A (OnGrainTriggered (snd r))
  /\ (fst r = true -> b = true).
Proof.
  induction frames as [|f frames IH]; intros b s Hf P F G; cbn [PlayLoop].
  - cbn. auto.
  - assert (Af : A f) by (apply Hf; left; reflexivity).
    pose proof (TryStartPlayback_triggers h inp f s) as T. cbv zeta in T.
    destruct (TryStartPlayback h inp f s) as [ok s1]. cbn [fst snd] in T.
    destruct T as (T1 & T2 & (m & T3)).
    assert (P1 : Forall A (OnPlayTrigger s1)).
    { rewrite T2. apply Forall_app. split; [exact P|].
      destruct ok; constructor; auto. }
    assert (F1 : Forall A (OnFinishedTrigger s1)) by (rewrite T1; exact F).
    assert (G1 : Forall A (OnGrainTriggered s1)).
    { rewrite T3. apply Forall_app. split; [exact G|].
      apply Forall_repeat, Af. }
    assert (Hf' : forall g, In g frames -> A g)
      by (intros g Hg; apply Hf; right; exact Hg).
    destruct ok; cbn [negb].
    + destruct (IH false s1 Hf' P1 F1 G1) as (R1 & R2 & R3 & R4).
      repeat split; auto. intro X. specialize (R4 X). discriminate.
    + destruct (IH false (set_bIsPlaying false (Finish f s1)) Hf') as (R1 & R2 & R3 & R4).
      * exact P1.
      * cbn. unfold TriggerFrame. apply Forall_app. split; [exact F1|].
        constructor; [exact Af|constructor].
      * exact G1.
      * repeat split; auto. intro X. specialize (R4 X). discriminate.
Qed.

Lemma ClampZ_range x lo hi : (lo <= hi)%Z -> (lo <= FMath.ClampZ x lo hi <= hi)%Z.
Proof. intro H. unfold FMath.ClampZ. rewrite MaxZ_max, MinZ_min. lia. Qed.

(** Every frame at which a block fires an output trigger comes from the
    block: OnPlay fires only at frames of Play triggers; OnFinished only at
    frame 0, at the frame of the first Stop trigger or at the frame of a
    Play trigger; OnGrain only at a frame of the block, from 0 to
    BlockSize - 1, or (warm start) at the frame of a Play trigger. *)
Theorem Output_trigger_frames_come_from_the_block (h : Host) (inp : Inputs)
  (s : Operator) :
  (0 < BlockSize s)%Z ->
  let s' := Execute h inp s in
  Forall (fun f => In f (PlayTrigger inp)) (OnPlayTrigger s')
  /\ Forall (fun f => f = 0%Z \/ Some f = hd_error (StopTrigger inp)
                      \/ In f (PlayTrigger inp))
       (OnFinishedTrigger s')
  /\ Forall (fun f => (0 <= f < BlockSize s)%Z \/ In f (PlayTrigger inp))
       (OnGrainTriggered s').
Proof.
  intros Hb s'.
  set (A := fun f : Z => In f (PlayTrigger inp)).
  set (B := fun f : Z => f = 0%Z \/ Some f = hd_error (StopTrigger inp)
                         \/ In f (PlayTrigger inp)).
  set (C := fun f : Z => (0 <= f < BlockSize s)%Z \/ In f (PlayTrigger inp)).
  assert (AB : forall l, Forall A l -> Forall B l).
  { intros l. apply Forall_impl. intros f Hf. right. right. exact Hf. }
  assert (AC : forall l, Forall A l -> Forall C l).
  { intros l. apply Forall_impl. intros f Hf. right. exact Hf. }
  (* after the triggers *)
  set (s1 := ProcessTriggers h inp s).
  assert (T : Forall A (OnPlayTrigger s1) /\ Forall B (OnFinishedTrigger s1)
              /\ Forall A (OnGrainTriggered s1)).
  { unfold s1, ProcessTriggers, AdvanceBlock.
    destruct (StopScan (StopTrigger inp) _) as [b0 f0] eqn:Es.
    match goal with |- context [PlayLoop ?h ?i ?f ?b ?s0] =>
      pose proof (PlayLoop_triggers h i A f b s0 (fun g Hg => Hg)
                    (Forall_nil _) (Forall_nil _) (Forall_nil _)) as P;
      destruct (PlayLoop h i f b s0) as [b1 s2] end.
    cbv zeta in P. cbn [fst snd] in P. destruct P as (P1 & P2 & P3 & P4).
    destruct (b1 && bIsPlaying s2) eqn:Eb; [|auto].
    apply andb_true_iff in Eb. destruct Eb as [Eb _]. specialize (P4 Eb).
    subst b0. cbn. repeat split; auto.
    unfold TriggerFrame. apply Forall_app. split; [auto|].
    constructor; [|constructor]. right. left.
    unfold StopScan in Es. destruct (StopTrigger inp) as [|g rest];
      [discriminate|].
    destruct (bIsPlaying _); [|discriminate]. injection Es as <-. reflexivity. }
  destruct T as (T1 & T2 & T3).
  pose proof (ProcessTriggers_KeepsBuffers h inp s) as (_ & _ & KB & _).
  fold s1 in KB.
  assert (Stop : forall s2,
            OnPlayTrigger s2 = OnPlayTrigger s1 ->
            OnFinishedTrigger s2 = OnFinishedTrigger s1 ->
            OnGrainTriggered s2 = OnGrainTriggered s1 ->
            Forall A (OnPlayTrigger (StopNow s2))
            /\ Forall B (OnFinishedTrigger (StopNow s2))
            /\ Forall C (OnGrainTriggered (StopNow s2))).
  { intros s2 E1 E2 E3. cbn. rewrite E1, E2, E3. repeat split; auto.
    unfold TriggerFrame. apply Forall_app. split; [exact T2|].
    constructor; [left; reflexivity|constructor]. }
  assert (Mix : forall b s2,
            OnPlayTrigger s2 = OnPlayTrigger s1 ->
            OnFinishedTrigger s2 = OnFinishedTrigger s1 ->
            OnGrainTriggered s2 = OnGrainTriggered s1 ->
            BlockSize s2 = BlockSize s ->
            Forall A (OnPlayTrigger (SanityAndMix h inp b s2))
            /\ Forall B (OnFinishedTrigger (SanityAndMix h inp b s2))
            /\ Forall C (OnGrainTriggered (SanityAndMix h inp b s2))).
  { intros b s2 E1 E2 E3 E4. unfold SanityAndMix.
    destruct (_ || _ || _); [apply Stop; assumption|].
    pose proof (ScheduleSpawnRender_triggers h inp (ClearForMixing b s2))
      as (_ & R2 & R3 & _).
    assert (CF : OnPlayTrigger (ClearForMixing b s2) = OnPlayTrigger s2
                 /\ OnFinishedTrigger (ClearForMixing b s2) = OnFinishedTrigger s2
                 /\ OnGrainTriggered (ClearForMixing b s2) = OnGrainTriggered s2
                 /\ BlockSize (ClearForMixing b s2) = BlockSize s2).
    { unfold ClearForMixing. destruct (negb b); cbn; auto. }
    destruct CF as (C1 & C2 & C3 & C4).
    rewrite R2, R3, C1, C2, E1, E2.
    split; [exact T1|]. split; [exact T2|].
    unfold ScheduleSpawnRender.
    destruct (Scheduler h _ _ _ _ _) as [[Sa G] d].
    match goal with |- context [SpawnLoop ?h ?i ?f ?c ?k ?s0] =>
      pose proof (SpawnLoop_frames h i C f c k s0) as L;
      set (s3 := SpawnLoop h i f c k s0) in * end.
    destruct (RenderVoices h inp (BlockSize s3) 0 (GrainVoices s3) _)
      as [vs [oL oR]].
    cbn. apply L.
    - intros j n. left. unfold TriggerFrameInBlock.
      change (BlockSize (set_FRandCalls d
                (set_SamplesUntilNextGrain Sa (ClearForMixing b s2))))
        with (BlockSize (ClearForMixing b s2)).
      rewrite C4, E4.
      match goal with |- (0 <= FMath.ClampZ ?x 0 ?hi < _)%Z =>
        pose proof (ClampZ_range x 0 hi ltac:(lia)) end.
      lia.
    - cbn. rewrite C3, E3. apply AC, T3. }
  unfold s', Execute.
  assert (E : (BlockSize s <=? 0)%Z = false) by (apply Z.leb_gt; exact Hb).
  rewrite E. fold s1.
  destruct (bIsPlaying s1); cbn [negb].
  - unfold ExecutePlaying.
    destruct (SoundWaveProxy inp) as [px|].
    + destruct (WaveChanged inp s1); [|apply Mix; auto].
      pose proof (InitializeWaveData_KeepsBuffers h px s1) as (_ & _ & IB & _).
      assert (I : let s2 := snd (InitializeWaveData h px s1) in
                  OnFinishedTrigger s2 = OnFinishedTrigger s1
                  /\ OnPlayTrigger s2 = OnPlayTrigger s1
                  /\ OnGrainTriggered s2 = OnGrainTriggered s1).
      { unfold InitializeWaveData.
        destruct (Reader_Create h px (DefaultSettings h)) as [r|]; [|cbn; auto].
        destruct (_ || _); [cbn; auto|].
        destruct (negb _); cbn; auto. }
      cbv zeta in I.
      destruct (InitializeWaveData h px s1) as [ok s2]. cbn [snd] in I, IB.
      destruct I as (I1 & I2 & I3).
      destruct ok; cbn [negb]; [apply Mix|apply Stop]; congruence.
    + destruct (isSome (CurrentWaveProxy s1)); [apply Stop|apply Mix]; auto.
  - cbv zeta. destruct (_ || _ || _); cbn; repeat split; auto.
Qed.

End GS_trigger_frames.

(** Play at frame 2 and Stop at frame 1 on the playing demo operator. *)
Lemma Output_trigger_frames_come_from_the_block_witness :
  let inp := Demo.WithTriggers [2%Z] [1%Z] Demo.Idle in
  let s' := FGranularSynthOperator.Execute DemoHost inp Demo.Playing in
  Forall (fun f => In f [2%Z]) (FGranularSynthOperator.OnPlayTrigger s')
  /\ Forall (fun f => (0 <= f < 8)%Z \/ In f [2%Z])
       (FGranularSynthOperator.OnGrainTriggered s').
Proof.
  intros inp s'.
  destruct (Output_trigger_frames_come_from_the_block DemoHost inp Demo.Playing)
    as (P & _ & G).
  - vm_compute. reflexivity.
  - split; [exact P|exact G].
Defined.

(** ** Losing the wave asset while playing *)

Section GS_wave_lost.
Import FGranularSynthOperator.

Lemma StopNow_facts s :
  let s' := StopNow s in
  bIsPlaying s' = false
  /\ OnFinishedTrigger s' = OnFinishedTrigger s ++ [0%Z]
  /\ OnPlayTrigger s' = OnPlayTrigger s
  /\ OnGrainTriggered s' = OnGrainTriggered s
  /\ ActiveVoiceCount s' = 0%nat
  /\ Silent (AudioOutputLeft s') /\ Silent (AudioOutputRight s')
  /\ CurrentWaveProxy s' = CurrentWaveProxy s
  /\ FRandCalls s' = FRandCalls s.
Proof.
  cbv zeta. unfold StopNow, ActiveVoiceCount. cbn.
  rewrite filter_active_reset.
  repeat split; auto; apply ZeroBuffer_Silent.
Qed.

(** A block that is playing after its triggers stops at once when the wave
    asset input has become empty while a wave was bound, or has changed to a
    wave that cannot be initialized or that lasts less than 5 ms: OnFinished
    fires at frame 0, every voice is released, both buffers are silent, and
    no grain is scheduled (no random number is drawn).  When the input is
    empty the bound wave is still recorded at the end of the block. *)
Theorem Playback_stops_when_the_wave_is_lost (h : Host) (inp : Inputs)
  (s : Operator) :
  (0 < BlockSize s)%Z ->
  let s1 := ProcessTriggers h inp s in
  bIsPlaying s1 = true ->
  match SoundWaveProxy inp with
  | None => CurrentWaveProxy s1 <> None
  | Some px =>
      WaveChanged inp s1 = true
      /\ (WaveInitializes h px = false
          \/ Qltb (WaveDuration h px) MinGrainDurationSeconds = true)
  end ->
  let s' := Execute h inp s in
  bIsPlaying s' = false
  /\ OnFinishedTrigger s' = OnFinishedTrigger s1 ++ [0%Z]
  /\ OnPlayTrigger s' = OnPlayTrigger s1
  /\ OnGrainTriggered s' = OnGrainTriggered s1
  /\ ActiveVoiceCount s' = 0%nat
  /\ Silent (AudioOutputLeft s') /\ Silent (AudioOutputRight s')
  /\ FRandCalls s' = FRandCalls s1
  /\ (SoundWaveProxy inp = None -> CurrentWaveProxy s' = CurrentWaveProxy s1).
Proof.
  intros Hb s1 Hp Hw s'. unfold s', Execute.
  assert (E : (BlockSize s <=? 0)%Z = false) by (apply Z.leb_gt; exact Hb).
  rewrite E. fold s1. rewrite Hp. cbn [negb]. unfold ExecutePlaying.
  destruct (SoundWaveProxy inp) as [px|].
  - destruct Hw as (Hc & Hw). rewrite Hc.
    pose proof (InitializeWaveData_ok h px s1) as Ok.
    assert (I : let s2 := snd (InitializeWaveData h px s1) in
                OnFinishedTrigger s2 = OnFinishedTrigger s1
                /\ OnPlayTrigger s2 = OnPlayTrigger s1
                /\ OnGrainTriggered s2 = OnGrainTriggered s1
                /\ FRandCalls s2 = FRandCalls s1).
    { unfold InitializeWaveData.
      destruct (Reader_Create h px (DefaultSettings h)) as [r|]; [|cbn; auto].
      destruct (_ || _); [cbn; auto|].
      destruct (negb _); cbn; auto. }
    cbv zeta in I.
    destruct (WaveInitializes h px) eqn:W.
    + pose proof (InitializeWaveData_bound h px s1 W) as B. cbv zeta in B.
      destruct (InitializeWaveData h px s1) as [ok s2].
      cbn [fst snd] in Ok, I, B. subst ok. cbn [negb].
      destruct Hw as [Hw|Hw]; [discriminate|].
      destruct B as (_ & B2 & _).
      unfold SanityAndMix. rewrite B2, Hw, !orb_true_r.
      destruct (StopNow_facts s2) as (F1 & F2 & F3 & F4 & F5 & F6 & F7 & _ & F9).
      destruct I as (I1 & I2 & I3 & I4).
      repeat split; try congruence; try assumption.
    + destruct (InitializeWaveData h px s1) as [ok s2].
      cbn [fst snd] in Ok, I. subst ok. cbn [negb].
      destruct (StopNow_facts s2) as (F1 & F2 & F3 & F4 & F5 & F6 & F7 & _ & F9).
      destruct I as (I1 & I2 & I3 & I4).
      repeat split; try congruence; try assumption.
  - destruct (CurrentWaveProxy s1) eqn:C; [|congruence]. cbn [isSome].
    destruct (StopNow_facts s1) as (F1 & F2 & F3 & F4 & F5 & F6 & F7 & F8 & F9).
    repeat split; try congruence; assumption.
Qed.

(** The playing demo operator, whose wave input becomes empty. *)
Lemma Playback_stops_when_the_wave_is_lost_witness :
  let inp := Demo.WithWave true None Demo.Idle in
  let s' := Execute DemoHost inp Demo.Playing in
  bIsPlaying s' = false /\ OnFinishedTrigger s' = [0%Z]
  /\ CurrentWaveProxy s' = Some 7%nat.
Proof.
  intros inp s'.
  destruct (Playback_stops_when_the_wave_is_lost DemoHost inp Demo.Playing)
    as (P & F & _ & _ & _ & _ & _ & _ & W).
  - vm_compute. reflexivity.
  - vm_compute. reflexivity.
  - vm_compute. discriminate.
  - split; [exact P|]. split; [exact F|]. exact (W eq_refl).
Defined.

End GS_wave_lost.

(** ** The scheduler of FGranularSynthOperator_Step8 *)

Section Step8_scheduler.
Import FGranularSynthOperator_Step8.

Variables Interval ElapsedSamples : Q.
Hypothesis Interval_pos : 0 < Interval.

Lemma Step8_due_quotient Samples :
  (ElapsedSamples - (Samples + Interval)) / Interval
  == (ElapsedSamples - Samples) / Interval - 1.
Proof. field. intro H. rewrite H in Interval_pos. qlra. Qed.

Lemma Step8_quotient_sign Samples :
  (Samples <= ElapsedSamples -> 0 <= (ElapsedSamples - Samples) / Interval)
  /\ (ElapsedSamples < Samples -> (ElapsedSamples - Samples) / Interval < 0).
Proof.
  assert (P : 0 < / Interval) by (apply Qinv_lt_0_compat; exact Interval_pos).
  unfold Qdiv. split; intro H.
  - apply Qmult_le_0_compat; qlra.
  - setoid_replace ((ElapsedSamples - Samples) * / Interval)
      with (- ((Samples - ElapsedSamples) * / Interval)) by ring.
    assert (0 < (Samples - ElapsedSamples) * / Interval)
      by (apply Qmult_lt_0_compat; qlra).
    qlra.
Qed.

Lemma Step8_SchedulerLoop_spec fuel : forall Samples Grains,
  (SchedulerFuel Interval ElapsedSamples Samples <= fuel)%nat ->
  let k := Z.max 0 (Qfloor ((ElapsedSamples - Samples) / Interval) + 1) in
  let r := SchedulerLoop Interval ElapsedSamples fuel Samples Grains in
  snd r = (Grains + k)%Z
  /\ fst r == Samples + inject_Z k * Interval
  /\ ElapsedSamples < fst r.
Proof.
  induction fuel as [|fuel IH]; intros Samples Grains Hf; cbv zeta;
    unfold SchedulerFuel in Hf; cbn [SchedulerLoop].
  - assert (Hk : (Qfloor ((ElapsedSamples - Samples) / Interval) + 1 <= 0)%Z) by lia.
    rewrite Z.max_l by lia. cbn [fst snd].
    split; [lia|]. split; [change (inject_Z 0) with 0; ring|].
    apply Qnot_le_lt. intro H.
    apply (Step8_quotient_sign Samples) in H.
    apply Qfloor_resp_le in H. change (Qfloor 0) with 0%Z in H. lia.
  - destruct (Qleb Samples ElapsedSamples) eqn:E.
    + apply Qleb_spec in E.
      pose proof (proj1 (Step8_quotient_sign Samples) E) as Q0.
      apply Qfloor_resp_le in Q0. change (Qfloor 0) with 0%Z in Q0.
      assert (Fl : Qfloor ((ElapsedSamples - (Samples + Interval)) / Interval)
                   = (Qfloor ((ElapsedSamples - Samples) / Interval) - 1)%Z).
      { rewrite (Qfloor_comp _ _ (Step8_due_quotient Samples)).
        apply Qfloor_minus_1. }
      destruct (IH (Samples + Interval) (Grains + 1)%Z) as (A & B & C).
      { unfold SchedulerFuel. rewrite Fl. lia. }
      rewrite Fl in A, B.
      replace (Z.max 0 (Qfloor ((ElapsedSamples - Samples) / Interval) - 1 + 1))
        with (Qfloor ((ElapsedSamples - Samples) / Interval)) in A, B by lia.
      rewrite Z.max_r by lia.
      split; [rewrite A; lia|]. split; [|exact C].
      rewrite B, inject_Z_plus. change (inject_Z 1) with 1. ring.
    + apply Qleb_false in E.
      pose proof (proj2 (Step8_quotient_sign Samples) E) as Q0.
      assert (Fl : (Qfloor ((ElapsedSamples - Samples) / Interval) < 0)%Z).
      { pose proof (Qfloor_le ((ElapsedSamples - Samples) / Interval)) as L.
        assert (L' : inject_Z (Qfloor ((ElapsedSamples - Samples) / Interval))
                     < inject_Z 0) by (change (inject_Z 0) with 0; qlra).
        rewrite <- Zlt_Qlt in L'. exact L'. }
      rewrite Z.max_l by lia. cbn [fst snd].
      split; [lia|]. split; [change (inject_Z 0) with 0; ring|exact E].
Qed.

End Step8_scheduler.

Section Step8_scheduler_block.
Import FGranularSynthOperator_Step8.

(** The scheduler in exact arithmetic, for a positive finite interval: the
    number of grains due is floor ((Elapsed - Samples) / Interval) + 1, or
    none when the counter is above the elapsed samples, and the counter
    advances by one interval per grain and drops by the elapsed samples. *)
Lemma Step8_Scheduler_exact (Interval ElapsedSamples Samples : Q) :
  0 < Interval -> Interval < FMath.FloatMax ->
  let r := Scheduler Interval ElapsedSamples Samples in
  let k := Z.max 0 (Qfloor ((ElapsedSamples - Samples) / Interval) + 1) in
  snd r = k
  /\ fst r == Samples + inject_Z k * Interval - ElapsedSamples.
Proof.
  intros Hi Hm r k.
  assert (G : Qltb 0 Interval && Qltb Interval FMath.FloatMax = true).
  { apply andb_true_iff. split; apply Qltb_spec; assumption. }
  unfold r, Scheduler. rewrite G.
  destruct (Step8_SchedulerLoop_spec Interval ElapsedSamples Hi
              (SchedulerFuel Interval ElapsedSamples Samples) Samples 0%Z
              (Nat.le_refl _)) as (A & B & C).
  fold k in A, B.
  destruct (SchedulerLoop Interval ElapsedSamples _ Samples 0) as [S' G'].
  cbn [fst snd] in *.
  split; [lia|rewrite B; ring].
Qed.

Lemma Qfloor_div_Z x y :
  (0 < y)%Z -> Qfloor (inject_Z x / inject_Z y) = (x / y)%Z.
Proof.
  intro Hy.
  assert (Py : 0 < inject_Z y)
    by (change 0 with (inject_Z 0); rewrite <- Zlt_Qlt; exact Hy).
  pose proof (Z.mul_div_le x y Hy) as L.
  pose proof (Z.mul_succ_div_gt x y Hy) as U.
  apply Qfloor_unique.
  - apply Qle_shift_div_l; [exact Py|].
    rewrite <- inject_Z_mult, <- Zle_Qle. lia.
  - apply Qlt_shift_div_r; [exact Py|].
    rewrite <- inject_Z_mult, <- Zlt_Qlt. lia.
Qed.

Lemma inject_Z_sub x y : inject_Z (x - y) == inject_Z x - inject_Z y.
Proof.
  unfold Z.sub. rewrite inject_Z_plus, inject_Z_opp. reflexivity.
Qed.

Lemma Int_lt_FloatMax b : (b < 2 ^ 24)%Z -> inject_Z b < FMath.FloatMax.
Proof.
  intro H. apply Qlt_trans with (y := inject_Z (2 ^ 24)).
  - rewrite <- Zlt_Qlt. exact H.
  - reflexivity.
Qed.

(** Whole numbers of samples: every sum is a float, the loop is exact. *)
Lemma Step8_Loop32_whole b bs E :
  (0 < b)%Z -> E == inject_Z bs ->
  forall fuel a S G,
    S == inject_Z a -> (- 2 ^ 24 < a)%Z ->
    let n := Z.max 0 ((bs - a) / b + 1) in
    (a + n * b < 2 ^ 24)%Z -> (G + n <= Int32Max)%Z ->
    (Z.to_nat n <= fuel)%nat ->
    exists S',
      SchedulerLoop32 (inject_Z b) E fuel S G = Some (S', (G + n)%Z)
      /\ S' == inject_Z (a + n * b).
Proof.
  intros Hb HE.
  induction fuel as [|fuel IH]; intros a S G HS Ha n Hn HG Hf.
  - assert (N0 : n = 0%Z) by lia.
    assert (Gt : (bs < a)%Z).
    { destruct (Z_lt_le_dec bs a) as [L|L]; [exact L|exfalso].
      pose proof (Z.div_pos (bs - a) b ltac:(lia) Hb). lia. }
    assert (X : Qleb S E = false).
    { apply Qleb_false. rewrite HS, HE, <- Zlt_Qlt. exact Gt. }
    cbn [SchedulerLoop32]. rewrite X, N0.
    exists S. split; [do 2 f_equal; lia|].
    replace (a + 0 * b)%Z with a by lia. exact HS.
  - cbn [SchedulerLoop32].
    destruct (Qleb S E) eqn:X.
    + apply Qleb_spec in X. rewrite HS, HE, <- Zle_Qle in X.
      pose proof (Z.div_pos (bs - a) b ltac:(lia) Hb) as Dp.
      assert (N1 : n = ((bs - a) / b + 1)%Z) by lia.
      assert (D : ((bs - (a + b)) / b = (bs - a) / b - 1)%Z).
      { replace (bs - (a + b))%Z with ((bs - a) + (-1) * b)%Z by ring.
        rewrite Z.div_add by lia. lia. }
      assert (Ov : (G =? Int32Max)%Z = false) by (apply Z.eqb_neq; lia).
      rewrite Ov.
      assert (S1 : Binary32.Add S (inject_Z b) == inject_Z (a + b)).
      { unfold Binary32.Add.
        rewrite (Round_comp (S + inject_Z b) (inject_Z (a + b)))
          by (rewrite HS, inject_Z_plus; reflexivity).
        apply Round_int. nia. }
      destruct (IH (a + b)%Z (Binary32.Add S (inject_Z b)) (G + 1)%Z S1
                  ltac:(lia)) as (S' & R & V).
      * rewrite D. nia.
      * rewrite D. lia.
      * rewrite D. lia.
      * rewrite D in R, V.
        replace (Z.max 0 ((bs - a) / b - 1 + 1)) with ((bs - a) / b)%Z
          in R, V by lia.
        assert (Eq : (a + b + (bs - a) / b * b = a + n * b)%Z) by nia.
        exists S'. split.
        -- rewrite R. do 2 f_equal. lia.
        -- rewrite <- Eq. exact V.
    + apply Qleb_false in X. rewrite HS, HE, <- Zlt_Qlt in X.
      assert (N0 : n = 0%Z).
      { pose proof (Z.div_lt_upper_bound (bs - a) b 0 Hb ltac:(lia)). lia. }
      rewrite N0. exists S. split; [do 2 f_equal; lia|].
      replace (a + 0 * b)%Z with a by lia. exact HS.
Qed.

(** An interval of a sample or more moves the counter past the next whole
    number. *)
Lemma Step8_Loop32_progress I bs E :
  1 <= I -> E == inject_Z bs -> (bs < 2 ^ 24)%Z ->
  forall fuel S G,
    (- 2 ^ 24 < Qfloor S)%Z ->
    let m := Z.max 0 (bs - Qfloor S + 1) in
    (G + m <= Int32Max)%Z -> (Z.to_nat m <= fuel)%nat ->
    exists S' G',
      SchedulerLoop32 I E fuel S G = Some (S', G')
      /\ E < S' /\ (G <= G' <= G + m)%Z.
Proof.
  intros HI HE Hbs.
  assert (Due : forall S, S <= E -> (Qfloor S <= bs)%Z).
  { intros S H. apply Qfloor_resp_le in H.
    rewrite (Qfloor_comp _ _ HE), Qfloor_Z in H. exact H. }
  induction fuel as [|fuel IH]; intros S G HS m HG Hf; cbn [SchedulerLoop32].
  - destruct (Qleb S E) eqn:X.
    + apply Qleb_spec in X. apply Due in X. lia.
    + apply Qleb_false in X. exists S, G. split; [reflexivity|].
      split; [exact X|lia].
  - destruct (Qleb S E) eqn:X.
    + apply Qleb_spec in X. pose proof (Due S X) as D.
      assert (Ov : (G =? Int32Max)%Z = false) by (apply Z.eqb_neq; lia).
      rewrite Ov.
      assert (Up : inject_Z (Qfloor S + 1) <= Binary32.Add S I).
      { apply Round_ge_int; [lia|].
        rewrite inject_Z_plus. pose proof (Qfloor_le S).
        change (inject_Z 1) with 1. qlra. }
      apply Qfloor_resp_le in Up. rewrite Qfloor_Z in Up.
      destruct (IH (Binary32.Add S I) (G + 1)%Z ltac:(lia) ltac:(lia)
                  ltac:(lia)) as (S' & G' & R & A & B).
      exists S', G'. split; [exact R|]. split; [exact A|lia].
    + apply Qleb_false in X. exists S, G. split; [reflexivity|].
      split; [exact X|lia].
Qed.

(** A counter that absorbs the interval stays where it is. *)
Lemma Step8_Loop32_absorbed I E :
  forall fuel S G,
    S <= E -> Binary32.Add S I == S ->
    SchedulerLoop32 I E fuel S G = None.
Proof.
  induction fuel as [|fuel IH]; intros S G H A; cbn [SchedulerLoop32];
    pose proof H as H'; apply Qleb_spec in H'; rewrite H'; [reflexivity|].
  destruct (G =? Int32Max)%Z; [reflexivity|].
  apply IH.
  - rewrite A. exact H.
  - unfold Binary32.Add at 1.
    rewrite (Round_comp (Binary32.Add S I + I) (S + I))
      by (rewrite A; reflexivity).
    reflexivity.
Qed.

(** The scheduler loop as the code runs it, with the grain counter in
    binary32, for a block of [bs] frames.

    - When the counter [a], the interval [b] and the block are whole numbers
      of samples and every sum stays below 2^24, the arithmetic is exact:
      the loop ends after n = floor ((bs - a) / b) + 1 iterations (none when
      the counter is above the block), n grains are due and the counter is
      left at a + n b - bs.  The scheduler of the model, which keeps the
      counter in exact arithmetic, computes the same.
    - When the interval is a sample or more, the loop ends within
      bs - floor (counter) + 1 iterations, with a counter that is not
      negative.
    - When the counter absorbs the interval (counter + interval rounds to
      the counter) with a grain due, the loop never ends: no number of
      iterations is enough. *)
Theorem Step8_scheduler_in_binary32 :
  (forall a b bs fuel,
     (0 < b < 2 ^ 24)%Z -> (- 2 ^ 24 < a)%Z -> (0 <= bs < 2 ^ 24)%Z ->
     let n := Z.max 0 ((bs - a) / b + 1) in
     (a + n * b < 2 ^ 24)%Z -> (Z.to_nat n <= fuel)%nat ->
     exists S',
       Scheduler32 (inject_Z b) bs (inject_Z a) fuel = Some (S', n)
       /\ S' == inject_Z (a + n * b - bs)
       /\ snd (Scheduler (inject_Z b) (inject_Z bs) (inject_Z a)) = n
       /\ fst (Scheduler (inject_Z b) (inject_Z bs) (inject_Z a)) == S')
  /\ (forall I bs S fuel,
        1 <= I -> I < FMath.FloatMax ->
        (0 <= bs < 2 ^ 24)%Z -> (- 2 ^ 24 < Qfloor S)%Z ->
        (Z.to_nat (bs - Qfloor S + 1) <= fuel)%nat ->
        exists S' n,
          Scheduler32 I bs S fuel = Some (S', n)
          /\ 0 <= S' /\ (0 <= n <= Z.max 0 (bs - Qfloor S + 1))%Z)
  /\ (forall I bs S,
        0 < I -> I < FMath.FloatMax ->
        S <= Binary32.Round (inject_Z bs) ->
        Binary32.Add S I == S ->
        forall fuel, Scheduler32 I bs S fuel = None).
Proof.
  split; [|split].
  - intros a b bs fuel Hb Ha Hbs n Hn Hf.
    assert (HE : Binary32.Round (inject_Z bs) == inject_Z bs)
      by (apply Round_int; lia).
    assert (G : Qltb 0 (inject_Z b) && Qltb (inject_Z b) FMath.FloatMax = true).
    { apply andb_true_iff. split; apply Qltb_spec.
      - change 0 with (inject_Z 0). rewrite <- Zlt_Qlt. lia.
      - apply Int_lt_FloatMax. lia. }
    assert (Nb : (bs < a + n * b)%Z).
    { destruct (Z_lt_le_dec bs a) as [L|L].
      - assert (0 <= n)%Z by lia. nia.
      - pose proof (Z.div_pos (bs - a) b ltac:(lia) ltac:(lia)).
        pose proof (Z.mul_succ_div_gt (bs - a) b ltac:(lia)).
        assert (n = (bs - a) / b + 1)%Z by lia. nia. }
    unfold Scheduler32. rewrite G.
    destruct (Step8_Loop32_whole b bs (Binary32.Round (inject_Z bs))
                ltac:(lia) HE fuel a (inject_Z a) 0%Z (Qeq_refl _) Ha Hn)
      as (S' & R & V).
    { fold n. unfold Int32Max. nia. }
    { exact Hf. }
    fold n in R, V. rewrite R. cbn [Z.add].
    assert (Fin : Binary32.Sub S' (Binary32.Round (inject_Z bs))
                  == inject_Z (a + n * b - bs)).
    { unfold Binary32.Sub.
      rewrite (Round_comp _ (inject_Z (a + n * b - bs))).
      - apply Round_int. lia.
      - rewrite V, HE, inject_Z_sub. reflexivity. }
    eexists. split; [reflexivity|]. split; [exact Fin|].
    destruct (Step8_Scheduler_exact (inject_Z b) (inject_Z bs) (inject_Z a))
      as (A & B).
    { change 0 with (inject_Z 0). rewrite <- Zlt_Qlt. lia. }
    { apply Int_lt_FloatMax. lia. }
    assert (Fl : Qfloor ((inject_Z bs - inject_Z a) / inject_Z b)
                 = ((bs - a) / b)%Z).
    { rewrite <- (Qfloor_div_Z (bs - a) b) by lia.
      apply Qfloor_comp. rewrite inject_Z_sub. reflexivity. }
    rewrite Fl in A, B. fold n in A, B.
    split; [exact A|]. rewrite B, Fin.
    rewrite inject_Z_sub, inject_Z_plus, inject_Z_mult. ring.
  - intros I bs S fuel HI Hm Hbs HS Hf.
    assert (HE : Binary32.Round (inject_Z bs) == inject_Z bs)
      by (apply Round_int; lia).
    assert (G : Qltb 0 I && Qltb I FMath.FloatMax = true).
    { apply andb_true_iff. split; apply Qltb_spec; [qlra|exact Hm]. }
    unfold Scheduler32. rewrite G.
    destruct (Step8_Loop32_progress I bs (Binary32.Round (inject_Z bs))
                HI HE ltac:(lia) fuel S 0%Z HS) as (S' & G' & R & A & B).
    { unfold Int32Max. lia. }
    { lia. }
    rewrite R. eexists. exists G'. split; [reflexivity|].
    split; [|lia].
    unfold Binary32.Sub. change 0 with (inject_Z 0).
    apply Round_ge_int; [lia|]. change (inject_Z 0) with 0. qlra.
  - intros I bs S HI Hm HS A fuel.
    assert (G : Qltb 0 I && Qltb I FMath.FloatMax = true).
    { apply andb_true_iff. split; apply Qltb_spec; assumption. }
    unfold Scheduler32. rewrite G.
    rewrite (Step8_Loop32_absorbed I _ fuel S 0%Z HS A). reflexivity.
Qed.

(** 48 kHz and blocks of 512 frames.  At 240 grains per second the interval
    is 200 samples: from a counter of 100, three grains are due and the
    counter is left at 188.  At ten thousand million grains per second the
    interval is 4.8 millionths of a sample: a counter of 256 absorbs it and
    the loop does not end.  With an interval of a sample and a half the
    loop ends from a counter of 1/3. *)
Lemma Step8_scheduler_in_binary32_witness :
  (exists S', Scheduler32 200 512 100 3 = Some (S', 3%Z) /\ S' == 188)
  /\ (exists S' n, Scheduler32 (3 # 2) 512 (1 # 3) 513 = Some (S', n))
  /\ (forall fuel, Scheduler32 (48 # 10000000) 512 256 fuel = None).
Proof.
  split; [|split].
  - destruct (proj1 Step8_scheduler_in_binary32 100%Z 200%Z 512%Z 3%nat
                ltac:(lia) ltac:(lia) ltac:(lia)
                ltac:(vm_compute; reflexivity) ltac:(vm_compute; lia))
      as (S' & R & V & _).
    exists S'. split; [exact R|exact V].
  - destruct (proj1 (proj2 Step8_scheduler_in_binary32)
                (3 # 2) 512%Z (1 # 3) 513%nat)
      as (S' & n & R & _).
    + discriminate.
    + reflexivity.
    + lia.
    + vm_compute. reflexivity.
    + vm_compute. lia.
    + exists S', n. exact R.
  - apply (proj2 (proj2 Step8_scheduler_in_binary32)).
    + reflexivity.
    + reflexivity.
    + vm_compute. discriminate.
    + vm_compute. reflexivity.
Defined.

End Step8_scheduler_block.

(** ** The spawn loop of FGranularSynthOperator_Step8 *)

Lemma SetVoice_count {V} (active : V -> bool) (d : V) (vs : list V) :
  forall i v,
  (i < length vs)%nat -> active (nth i vs d) = false ->
  length (filter active (SetVoice vs i v))
  = (length (filter active vs) + (if active v then 1 else 0))%nat.
Proof.
  induction vs as [|w vs IH]; intros i v Hi Hn; [simpl in Hi; lia|].
  destruct i as [|i]; cbn [SetVoice filter nth length] in *.
  - rewrite Hn. destruct (active v); cbn [length]; lia.
  - specialize (IH i v ltac:(lia) Hn).
    destruct (active w); cbn [length]; lia.
Qed.

Section Step8_spawn.
Import FGranularSynthOperator_Step8.

Lemma Step8_TriggerGrain_commit h p n t r a s :
  let res := TriggerGrain h p n t r a s in
  length (filter bIsActive (GrainVoices (snd res)))
  = (length (filter bIsActive (GrainVoices s)) + (if fst res then 1 else 0))%nat
  /\ length (GrainVoices (snd res)) = length (GrainVoices s)
  /\ BlockSize (snd res) = BlockSize s
  /\ SamplesUntilNextGrain (snd res) = SamplesUntilNextGrain s
  /\ OnGrainTriggered (snd res) = OnGrainTriggered s
  /\ FRandCalls (snd res) = FRandCalls s.
Proof.
  cbv zeta. unfold TriggerGrain.
  destruct p as [px|]; [|cbn; repeat split; lia].
  destruct (_ || _); [cbn; repeat split; lia|].
  destruct (FindFreeVoice bIsActive (GrainVoices s) 0) as [i|] eqn:Ef;
    [|cbn; repeat split; lia].
  apply (FindFreeVoice_Some _ _ _ _ DefaultVoice) in Ef.
  destruct Ef as (_ & Hlt & Hin & _). rewrite Nat.sub_0_r in Hlt, Hin.
  destruct (Reader_Create h px _); cbn;
    rewrite (SetVoice_count bIsActive DefaultVoice _ i _ Hlt Hin),
      SetVoice_length; cbn; [|rewrite Hin]; repeat split; lia.
Qed.

Lemma Step8_SpawnGrain_commit h inp s :
  let s' := SpawnGrain h inp s in
  exists ok : bool,
    length (filter bIsActive (GrainVoices s'))
    = (length (filter bIsActive (GrainVoices s)) + (if ok then 1 else 0))%nat
    /\ OnGrainTriggered s'
       = OnGrainTriggered s
         ++ (if ok
             then [FMath.ClampZ (BlockSize s - Qtrunc (SamplesUntilNextGrain s))
                     0 (BlockSize s - 1)]
             else [])
    /\ length (GrainVoices s') = length (GrainVoices s)
    /\ BlockSize s' = BlockSize s
    /\ SamplesUntilNextGrain s' = SamplesUntilNextGrain s
    /\ FRandCalls s' = (FRandCalls s + 4)%nat.
Proof.
  cbv zeta. unfold SpawnGrain.
  match goal with |- context [TriggerGrain ?h ?p ?n ?t ?r ?a ?s0] =>
    pose proof (Step8_TriggerGrain_commit h p n t r a s0) as T;
    destruct (TriggerGrain h p n t r a s0) as [ok s1] end.
  cbv zeta in T. cbn [fst snd] in T.
  destruct T as (T1 & T2 & T3 & T4 & T5 & T6). cbn in T1, T2, T3, T4, T5, T6.
  exists ok. destruct ok; cbn; unfold TriggerFrame; rewrite ?app_nil_r;
    repeat split; congruence.
Qed.

(** The spawn loop of a block draws four random numbers per grain due,
    whether or not the grain is committed; each committed grain takes one
    free voice and fires OnGrain, and all the grains of a block fire it at
    the same frame, BlockSize minus the truncated grain counter, clamped to
    the block. *)
Theorem Step8_grains_of_a_block_share_a_frame (h : Host) (inp : Inputs)
  (count : nat) (s : Operator) :
  let s' := SpawnLoop h inp count s in
  let f := FMath.ClampZ (BlockSize s - Qtrunc (SamplesUntilNextGrain s))
             0 (BlockSize s - 1) in
  FRandCalls s' = (FRandCalls s + 4 * count)%nat
  /\ length (GrainVoices s') = length (GrainVoices s)
  /\ ((0 < BlockSize s)%Z -> (0 <= f < BlockSize s)%Z)
  /\ exists m,
       (m <= count)%nat
       /\ (m <= length (GrainVoices s)
                - length (filter bIsActive (GrainVoices s)))%nat
       /\ OnGrainTriggered s' = OnGrainTriggered s ++ repeat f m
       /\ length (filter bIsActive (GrainVoices s'))
          = (length (filter bIsActive (GrainVoices s)) + m)%nat.
Proof.
  cbv zeta.
  assert (L : forall count s,
            let s' := SpawnLoop h inp count s in
            FRandCalls s' = (FRandCalls s + 4 * count)%nat
            /\ length (GrainVoices s') = length (GrainVoices s)
            /\ exists m,
                 (m <= count)%nat
                 /\ OnGrainTriggered s'
                    = OnGrainTriggered s
                      ++ repeat (FMath.ClampZ
                                   (BlockSize s - Qtrunc (SamplesUntilNextGrain s))
                                   0 (BlockSize s - 1)) m
                 /\ length (filter bIsActive (GrainVoices s'))
                    = (length (filter bIsActive (GrainVoices s)) + m)%nat).
  { clear count s. induction count as [|count IH]; intros s; cbn [SpawnLoop].
    - cbv zeta. split; [lia|]. split; [reflexivity|].
      exists 0%nat. cbn. rewrite app_nil_r. repeat split; lia.
    - destruct (Step8_SpawnGrain_commit h inp s)
        as (ok & A1 & A2 & A3 & A4 & A5 & A6).
      destruct (IH (SpawnGrain h inp s)) as (B1 & B2 & m & B3 & B4 & B5).
      cbv zeta. split; [lia|]. split; [congruence|].
      exists ((if ok then 1 else 0) + m)%nat.
      split; [destruct ok; lia|]. split; [|lia].
      rewrite B4, A2, A4, A5, <- app_assoc. f_equal.
      destruct ok; reflexivity. }
  destruct (L count s) as (L1 & L2 & m & L3 & L4 & L5).
  split; [exact L1|]. split; [exact L2|]. split.
  - intro Hb.
    pose proof (ClampZ_range (BlockSize s - Qtrunc (SamplesUntilNextGrain s))
                  0 (BlockSize s - 1) ltac:(lia)). lia.
  - exists m. split; [exact L3|]. split; [|split; assumption].
    pose proof (filter_length_le bIsActive (GrainVoices (SpawnLoop h inp count s))).
    lia.
Qed.

End Step8_spawn.

(** ** Sessions of FGranularSynthOperator_Step8 *)

Lemma Forall_SetVoice_any {V} (P : V -> Prop) vs i v :
  Forall P vs -> P v -> Forall P (SetVoice vs i v).
Proof.
  intros H Hv. revert i. induction H as [|w ws Hw Hws IH]; intros [|i]; simpl;
    constructor; auto.
Qed.

Section Step8_session.
Import FGranularSynthOperator_Step8.

Lemma Step8_VoiceInFlight_inactive v :
  bIsActive v = false -> Step8_VoiceInFlight v.
Proof. unfold Step8_VoiceInFlight. congruence. Qed.

Lemma Step8_Forall_reset vs : Forall Step8_VoiceInFlight (map ResetVoice vs).
Proof.
  induction vs as [|v vs IH]; simpl; constructor; auto.
  apply Step8_VoiceInFlight_inactive. reflexivity.
Qed.

Lemma Step8_NoActive_InFlight vs :
  filter bIsActive vs = [] -> Forall Step8_VoiceInFlight vs.
Proof.
  induction vs as [|v vs IH]; cbn [filter]; intro H; constructor.
  - destruct (bIsActive v) eqn:A; [discriminate|].
    apply Step8_VoiceInFlight_inactive, A.
  - apply IH. destruct (bIsActive v); [discriminate|exact H].
Qed.

(** TriggerGrain touches the voices only; the voice it stores is inactive
    or freshly started. *)
Lemma Step8_TriggerGrain_voices h p n t r a s :
  let s' := snd (TriggerGrain h p n t r a s) in
  (Forall Step8_VoiceInFlight (GrainVoices s) ->
   Forall Step8_VoiceInFlight (GrainVoices s'))
  /\ bIsPlaying s' = bIsPlaying s
  /\ CurrentWaveProxy s' = CurrentWaveProxy s
  /\ CurrentNumChannels s' = CurrentNumChannels s
  /\ ConvertDeinterleave s' = ConvertDeinterleave s
  /\ CachedSoundWaveDuration s' = CachedSoundWaveDuration s.
Proof.
  cbv zeta. unfold TriggerGrain.
  destruct p as [px|]; [|cbn; tauto].
  destruct (n <=? 0)%Z eqn:En; [cbn; tauto|]. apply Z.leb_gt in En.
  destruct (CurrentNumChannels s <=? 0)%Z; [cbn; tauto|]. cbn [orb].
  destruct (FindFreeVoice bIsActive (GrainVoices s) 0) as [i|] eqn:Ef;
    [|cbn; tauto].
  apply (FindFreeVoice_Some _ _ _ _ DefaultVoice) in Ef.
  destruct Ef as (_ & _ & Hin & _). rewrite Nat.sub_0_r in Hin.
  destruct (Reader_Create h px _); cbn; (split; [|tauto]); intro H;
    apply Forall_SetVoice_any; try exact H.
  - intros _. cbn. repeat split; lia.
  - apply Step8_VoiceInFlight_inactive. cbn. exact Hin.
Qed.

Lemma Step8_SpawnGrain_voices h inp s :
  let s' := SpawnGrain h inp s in
  (Forall Step8_VoiceInFlight (GrainVoices s) ->
   Forall Step8_VoiceInFlight (GrainVoices s'))
  /\ bIsPlaying s' = bIsPlaying s
  /\ CurrentWaveProxy s' = CurrentWaveProxy s
  /\ CurrentNumChannels s' = CurrentNumChannels s
  /\ ConvertDeinterleave s' = ConvertDeinterleave s
  /\ CachedSoundWaveDuration s' = CachedSoundWaveDuration s.
Proof.
  cbv zeta. unfold SpawnGrain.
  match goal with |- context [TriggerGrain ?h ?p ?n ?t ?r ?a ?s0] =>
    pose proof (Step8_TriggerGrain_voices h p n t r a s0) as T;
    destruct (TriggerGrain h p n t r a s0) as [ok s1] end.
  cbv zeta in T. cbn [snd] in T. cbn in T.
  destruct ok; cbn; exact T.
Qed.

Lemma Step8_SpawnLoop_voices h inp count : forall s,
  let s' := SpawnLoop h inp count s in
  (Forall Step8_VoiceInFlight (GrainVoices s) ->
   Forall Step8_VoiceInFlight (GrainVoices s'))
  /\ bIsPlaying s' = bIsPlaying s
  /\ CurrentWaveProxy s' = CurrentWaveProxy s
  /\ CurrentNumChannels s' = CurrentNumChannels s
  /\ ConvertDeinterleave s' = ConvertDeinterleave s
  /\ CachedSoundWaveDuration s' = CachedSoundWaveDuration s.
Proof.
  induction count as [|count IH]; intros s; cbn [SpawnLoop]; [cbv zeta; tauto|].
  destruct (Step8_SpawnGrain_voices h inp s) as (A1 & A2 & A3 & A4 & A5 & A6).
  destruct (IH (SpawnGrain h inp s)) as (B1 & B2 & B3 & B4 & B5 & B6).
  cbv zeta. repeat split; try congruence. intro H. apply B1, A1, H.
Qed.

(** Rendering keeps the account of a voice whatever the pipeline delivers;
    a voice with nothing left is released. *)
Lemma Step8_RenderVoice_voice h inp bs slot v out :
  Step8_VoiceInFlight v ->
  Step8_VoiceInFlight (fst (RenderVoice h inp bs slot v out)).
Proof.
  intro H. unfold RenderVoice.
  destruct (bIsActive v) eqn:A; [|apply Step8_VoiceInFlight_inactive, A].
  destruct (H A) as (Rd & Rs & R & P & T).
  destruct (_ || _); [apply Step8_VoiceInFlight_inactive; reflexivity|].
  cbv zeta.
  destruct (_ <=? 0)%Z; [apply Step8_VoiceInFlight_inactive; reflexivity|].
  destruct (bReadFailedEmpty _);
    [apply Step8_VoiceInFlight_inactive; reflexivity|].
  match goal with |- context [Resample ?h ?a ?b ?c] =>
    set (r := Resample h a b c) end.
  destruct (0 <? Z.of_nat (FramesResampled r))%Z eqn:E.
  - cbn [fst SamplesRemaining set_SamplesRemaining set_SamplesPlayed].
    destruct (_ <=? 0)%Z eqn:E2;
      [apply Step8_VoiceInFlight_inactive; reflexivity|].
    apply Z.leb_gt in E2. intros _. cbn. repeat split; try assumption; lia.
  - cbn [fst]. apply Z.leb_gt in R. rewrite R. exact H.
Qed.

Lemma Step8_RenderVoices_voices h inp bs vs : forall slot out,
  Forall Step8_VoiceInFlight vs ->
  Forall Step8_VoiceInFlight (fst (RenderVoices h inp bs slot vs out)).
Proof.
  induction vs as [|v vs IH]; intros slot out H; cbn [RenderVoices].
  - constructor.
  - inversion H as [|v0 vs0 Hv Hvs]; subst.
    pose proof (Step8_RenderVoice_voice h inp bs slot v out Hv) as P.
    destruct (RenderVoice h inp bs slot v out) as [v1 out1]. cbn [fst] in P.
    specialize (IH (S slot) out1 Hvs).
    destruct (RenderVoices h inp bs (S slot) vs out1) as [vs1 out2].
    cbn [fst] in *. constructor; assumption.
Qed.

Lemma Step8_ScheduleSpawnRender_sound h inp s :
  bIsPlaying s = true -> Step8_Sound s ->
  Step8_Sound (ScheduleSpawnRender h inp s)
  /\ bIsPlaying (ScheduleSpawnRender h inp s) = true.
Proof.
  intros Hp (V & _ & W). specialize (W Hp). unfold ScheduleSpawnRender.
  destruct (Scheduler _ _ _) as [Sa G].
  match goal with |- context [SpawnLoop ?h ?i ?c ?s0] =>
    pose proof (Step8_SpawnLoop_voices h i c s0) as L;
    set (s1 := SpawnLoop h i c s0) in * end.
  cbv zeta in L. destruct L as (L1 & L2 & L3 & L4 & L5 & L6).
  cbn in L1, L2, L3, L4, L5, L6.
  pose proof (Step8_RenderVoices_voices h inp (BlockSize s1) (GrainVoices s1)
                0%nat (AudioOutputLeft s1, AudioOutputRight s1) (L1 V)) as R.
  destruct (RenderVoices h inp (BlockSize s1) 0 (GrainVoices s1) _)
    as [vs [oL oR]].
  cbn [fst] in R. unfold Step8_Sound, Step8_WaveReady in *. cbn.
  rewrite L2, L3, L4, L5, L6, Hp.
  repeat split; try tauto. discriminate.
Qed.

Lemma Step8_StopNow_sound s :
  Step8_Sound (StopNow s) /\ bIsPlaying (StopNow s) = false.
Proof.
  unfold StopNow, Step8_Sound. cbn.
  repeat split; try discriminate;
    [apply Step8_Forall_reset|intros _; apply Step8_filter_active_reset].
Qed.

Lemma Step8_InitializeWaveData_ready h px s :
  fst (InitializeWaveData h px s) = true ->
  Step8_WaveReady (snd (InitializeWaveData h px s)).
Proof.
  unfold InitializeWaveData, Step8_WaveReady.
  destruct (Reader_Create h px (DefaultSettings h)) as [r|]; [|discriminate].
  destruct (ReaderNumChannels r <=? 0)%Z eqn:C; [discriminate|].
  destruct (Qleb _ 0) eqn:D; [discriminate|]. cbn [orb].
  destruct (Deinterleave_Create h (ReaderNumChannels r)); [|discriminate].
  intros _. cbn. apply Z.leb_gt in C. apply Qleb_false in D. auto.
Qed.

Lemma Step8_TryStartPlayback_sound h inp f s :
  Step8_Sound (snd (TryStartPlayback h inp f s))
  /\ bIsPlaying (snd (TryStartPlayback h inp f s))
     = fst (TryStartPlayback h inp f s).
Proof.
  assert (Reset : forall s0, bIsPlaying s0 = false ->
            Step8_Sound (ResetVoices s0) /\ bIsPlaying (ResetVoices s0) = false).
  { intros s0 P. unfold Step8_Sound. cbn. rewrite P.
    repeat split; try discriminate;
      [apply Step8_Forall_reset|intros _; apply Step8_filter_active_reset]. }
  assert (Clear : forall s0, bIsPlaying s0 = false ->
            Step8_Sound (ClearWaveData (ResetVoices s0))
            /\ bIsPlaying (ClearWaveData (ResetVoices s0)) = false).
  { intros s0 P. unfold Step8_Sound. cbn. rewrite P.
    repeat split; try discriminate;
      [apply Step8_Forall_reset|intros _; apply Step8_filter_active_reset]. }
  unfold TryStartPlayback.
  destruct (negb (IsSoundWaveValid inp));
    [apply Clear; destruct (bIsPlaying s); reflexivity|].
  destruct (SoundWaveProxy inp) as [px|];
    [|apply Clear; destruct (bIsPlaying s); reflexivity].
  pose proof (Step8_InitializeWaveData_frame h px (set_bIsPlaying false s))
    as (_ & P & _).
  pose proof (Step8_InitializeWaveData_ready h px (set_bIsPlaying false s)) as W.
  destruct (InitializeWaveData h px (set_bIsPlaying false s)) as [ok s1].
  cbn [fst snd] in P, W. cbn in P.
  destruct ok; cbn [negb].
  - specialize (W eq_refl). cbn [fst snd]. split; [|reflexivity].
    unfold Step8_Sound. cbn. split; [apply Step8_Forall_reset|].
    split; [discriminate|]. intros _. exact W.
  - cbn [fst snd]. apply Reset. destruct (bIsPlaying s); cbn; exact P.
Qed.

Lemma Step8_PlayLoop_sound h inp frames : forall b s,
  Step8_Sound s -> Step8_Sound (snd (PlayLoop h inp frames b s)).
Proof.
  induction frames as [|f frames IH]; intros b s H; cbn [PlayLoop]; [exact H|].
  pose proof (Step8_TryStartPlayback_sound h inp f s) as [V P].
  destruct (TryStartPlayback h inp f s) as [ok s1]. cbn [fst snd] in V, P.
  destruct ok; apply IH; [exact V|].
  destruct V as (V1 & V2 & V3).
  destruct (negb _); unfold Step8_Sound; cbn;
    (split; [exact V1|]); (split; [intros _; apply V2, P|discriminate]).
Qed.

Lemma Step8_ProcessTriggers_sound h inp s :
  Step8_Sound s -> Step8_Sound (ProcessTriggers h inp s).
Proof.
  intro H. unfold ProcessTriggers.
  destruct (StopScan _ _) as [b0 f0].
  match goal with |- context [PlayLoop ?h ?i ?f ?b ?s0] =>
    pose proof (Step8_PlayLoop_sound h i f b s0 H) as P;
    destruct (PlayLoop h i f b s0) as [b1 s1] end.
  cbn [snd] in P.
  destruct (b1 && bIsPlaying s1); [|exact P].
  unfold Step8_Sound. cbn. repeat split; try discriminate;
    [apply Step8_Forall_reset|intros _; apply Step8_filter_active_reset].
Qed.

(** Once the block is playing after its triggers, the two defensive checks
    of Execute cannot fire. *)
Lemma Step8_ExecutePlaying_cases h inp s :
  bIsPlaying s = true -> Step8_Sound s ->
  ExecutePlaying h inp s
  = match SoundWaveProxy inp with
    | None => StopNow s
    | Some px =>
        if WaveChanged inp s then
          if WaveInitializes h px
          then ScheduleSpawnRender h inp (snd (InitializeWaveData h px s))
          else StopNow (snd (InitializeWaveData h px s))
        else ScheduleSpawnRender h inp (ClearForMixing false s)
    end.
Proof.
  intros Hp (V & _ & W). destruct (W Hp) as (W1 & W2 & W3 & W4).
  unfold ExecutePlaying. rewrite W1. cbn [negb].
  assert (Sane : forall b s0,
            (0 < CurrentNumChannels s0)%Z -> ConvertDeinterleave s0 = true ->
            0 < CachedSoundWaveDuration s0 ->
            SanityAndMix h inp b s0
            = ScheduleSpawnRender h inp (ClearForMixing b s0)).
  { intros b s0 A B C. unfold SanityAndMix.
    apply Z.leb_gt in A. apply Qleb_false in C. rewrite A, B, C. reflexivity. }
  destruct (SoundWaveProxy inp) as [px|]; [|reflexivity].
  destruct (WaveChanged inp s); [|apply Sane; assumption].
  pose proof (Step8_InitializeWaveData_ok h px s) as Ok.
  pose proof (Step8_InitializeWaveData_ready h px s) as Rd.
  destruct (InitializeWaveData h px s) as [ok s1]. cbn [fst snd] in *.
  rewrite <- Ok. destruct ok; cbn [negb]; [|reflexivity].
  destruct (Rd eq_refl) as (R1 & R2 & R3 & R4).
  apply (Sane true s1); assumption.
Qed.

Lemma Step8_ClearForMixing_sound b s :
  Step8_Sound s -> Step8_Sound (ClearForMixing b s).
Proof. unfold ClearForMixing. destruct (negb b); intro H; exact H. Qed.

Lemma Step8_Execute_sound h inp s :
  Step8_Sound s -> Step8_Sound (Execute h inp s).
Proof.
  intro H. apply (Step8_ProcessTriggers_sound h inp) in H.
  unfold Execute. set (s1 := ProcessTriggers h inp s) in *.
  destruct (bIsPlaying s1) eqn:Hp; cbn [negb].
  - rewrite (Step8_ExecutePlaying_cases h inp s1 Hp H).
    destruct (SoundWaveProxy inp) as [px|]; [|apply Step8_StopNow_sound].
    destruct (WaveChanged inp s1).
    + pose proof (Step8_InitializeWaveData_ok h px s1) as Ok.
      pose proof (Step8_InitializeWaveData_ready h px s1) as Rd.
      pose proof (Step8_InitializeWaveData_frame h px s1) as (F1 & F2 & _).
      destruct (WaveInitializes h px); [|apply Step8_StopNow_sound].
      apply Step8_ScheduleSpawnRender_sound; [congruence|].
      destruct H as (V & _ & _). unfold Step8_Sound.
      split; [rewrite F1; exact V|].
      split; [rewrite F2, Hp; discriminate|]. intros _. apply Rd, Ok.
    + apply Step8_ScheduleSpawnRender_sound;
        [destruct (negb false); exact Hp|apply Step8_ClearForMixing_sound, H].
  - cbv zeta. destruct H as (V & N & _). specialize (N Hp).
    destruct (_ || _ || _); unfold Step8_Sound; cbn; rewrite ?Hp;
      repeat split; try discriminate; auto.
    + apply Step8_Forall_reset.
    + intros _. apply Step8_filter_active_reset.
Qed.

Lemma Step8_RenderVoices_length h inp bs vs : forall slot out,
  length (fst (RenderVoices h inp bs slot vs out)) = length vs.
Proof.
  induction vs as [|v vs IH]; intros slot out; cbn [RenderVoices]; [reflexivity|].
  destruct (RenderVoice h inp bs slot v out) as [v1 out1].
  specialize (IH (S slot) out1).
  destruct (RenderVoices h inp bs (S slot) vs out1) as [vs1 out2].
  cbn [fst length] in *. congruence.
Qed.

Lemma Step8_SpawnLoop_length h inp count : forall s,
  length (GrainVoices (SpawnLoop h inp count s)) = length (GrainVoices s).
Proof.
  induction count as [|count IH]; intros s; cbn [SpawnLoop]; [reflexivity|].
  rewrite IH.
  destruct (Step8_SpawnGrain_commit h inp s) as (ok & _ & _ & L & _).
  exact L.
Qed.

Lemma Step8_TryStartPlayback_length h inp f s :
  length (GrainVoices (snd (TryStartPlayback h inp f s)))
  = length (GrainVoices s).
Proof.
  unfold TryStartPlayback.
  destruct (negb (IsSoundWaveValid inp));
    [destruct (bIsPlaying s); cbn; apply length_map|].
  destruct (SoundWaveProxy inp) as [px|];
    [|destruct (bIsPlaying s); cbn; apply length_map].
  pose proof (Step8_InitializeWaveData_frame h px (set_bIsPlaying false s))
    as (V & _).
  destruct (InitializeWaveData h px (set_bIsPlaying false s)) as [ok s1].
  cbn [snd] in V. cbn in V.
  destruct ok; cbn [negb]; [cbn; rewrite length_map; congruence|].
  destruct (bIsPlaying s); cbn; rewrite length_map; congruence.
Qed.

Lemma Step8_PlayLoop_length h inp frames : forall b s,
  length (GrainVoices (snd (PlayLoop h inp frames b s)))
  = length (GrainVoices s).
Proof.
  induction frames as [|f frames IH]; intros b s; cbn [PlayLoop]; [reflexivity|].
  pose proof (Step8_TryStartPlayback_length h inp f s) as L.
  destruct (TryStartPlayback h inp f s) as [ok s1]. cbn [snd] in L.
  destruct ok; rewrite IH; [exact L|].
  destruct (negb _); cbn; exact L.
Qed.

Lemma Step8_ProcessTriggers_length h inp s :
  length (GrainVoices (ProcessTriggers h inp s)) = length (GrainVoices s).
Proof.
  unfold ProcessTriggers.
  destruct (StopScan _ _) as [b0 f0].
  match goal with |- context [PlayLoop ?h ?i ?f ?b ?s0] =>
    pose proof (Step8_PlayLoop_length h i f b s0) as P;
    destruct (PlayLoop h i f b s0) as [b1 s1] end.
  cbn [snd] in P. cbn in P.
  destruct (b1 && bIsPlaying s1); [cbn; rewrite length_map|]; exact P.
Qed.

(** What a block keeps: the audio settings, the sizes of the buffers and of
    the voice pool. *)
Lemma Step8_Execute_settings h inp s :
  let s' := Execute h inp s in
  BlockSize s' = BlockSize s /\ SampleRate s' = SampleRate s
  /\ length (AudioOutputLeft s') = length (AudioOutputLeft s)
  /\ length (AudioOutputRight s') = length (AudioOutputRight s)
  /\ length (GrainVoices s') = length (GrainVoices s).
Proof.
  cbv zeta.
  pose proof (Step8_ProcessTriggers_KeepsBuffers h inp s) as (K1 & K2 & K3 & K4).
  pose proof (Step8_ProcessTriggers_length h inp s) as K5.
  unfold Execute. set (s1 := ProcessTriggers h inp s) in *.
  rewrite <- K1, <- K2, <- K3, <- K4, <- K5. clearbody s1. clear.
  assert (Stop : forall s0,
            BlockSize (StopNow s0) = BlockSize s0
            /\ SampleRate (StopNow s0) = SampleRate s0
            /\ length (AudioOutputLeft (StopNow s0)) = length (AudioOutputLeft s0)
            /\ length (AudioOutputRight (StopNow s0)) = length (AudioOutputRight s0)
            /\ length (GrainVoices (StopNow s0)) = length (GrainVoices s0)).
  { intro s0. unfold StopNow. cbn.
    rewrite !ZeroBuffer_length, length_map. auto. }
  assert (Run : forall s0,
            let s' := ScheduleSpawnRender h inp s0 in
            BlockSize s' = BlockSize s0
            /\ SampleRate s' = SampleRate s0
            /\ length (AudioOutputLeft s') = length (AudioOutputLeft s0)
            /\ length (AudioOutputRight s') = length (AudioOutputRight s0)
            /\ length (GrainVoices s') = length (GrainVoices s0)).
  { intro s0. cbv zeta.
    pose proof (Step8_ScheduleSpawnRender_MixedOnto h inp s0)
      as (_ & _ & LL & LR & _).
    split; [|split; [|split; [exact LL|split; [exact LR|]]]];
      unfold ScheduleSpawnRender;
      destruct (Scheduler _ _ _) as [Sa G];
      match goal with |- context [SpawnLoop ?h ?i ?c ?s2] =>
        pose proof (Step8_SpawnLoop_KeepsBuffers h i c s2) as (_ & _ & B1 & B2);
        pose proof (Step8_SpawnLoop_length h i c s2) as B3;
        set (s3 := SpawnLoop h i c s2) in * end;
      pose proof (Step8_RenderVoices_length h inp (BlockSize s3) (GrainVoices s3)
                    0%nat (AudioOutputLeft s3, AudioOutputRight s3)) as B4;
      destruct (RenderVoices h inp (BlockSize s3) 0 (GrainVoices s3) _)
        as [vs [oL oR]]; cbn [fst] in B4; cbn in B1, B2, B3 |- *; congruence. }
  assert (Mix : forall b s0,
            let s' := ScheduleSpawnRender h inp (ClearForMixing b s0) in
            BlockSize s' = BlockSize s0
            /\ SampleRate s' = SampleRate s0
            /\ length (AudioOutputLeft s') = length (AudioOutputLeft s0)
            /\ length (AudioOutputRight s') = length (AudioOutputRight s0)
            /\ length (GrainVoices s') = length (GrainVoices s0)).
  { intros b s0. cbv zeta.
    destruct (Run (ClearForMixing b s0)) as (R1 & R2 & R3 & R4 & R5).
    rewrite R1, R2, R3, R4, R5. unfold ClearForMixing.
    destruct (negb b); cbn; rewrite ?MemsetZero_length; auto. }
  destruct (bIsPlaying s1); cbn [negb].
  - unfold ExecutePlaying.
    destruct (negb _); [apply Stop|].
    destruct (SoundWaveProxy inp) as [px|]; [|apply Stop].
    assert (San : forall b s0,
              BlockSize (SanityAndMix h inp b s0) = BlockSize s0
              /\ SampleRate (SanityAndMix h inp b s0) = SampleRate s0
              /\ length (AudioOutputLeft (SanityAndMix h inp b s0))
                 = length (AudioOutputLeft s0)
              /\ length (AudioOutputRight (SanityAndMix h inp b s0))
                 = length (AudioOutputRight s0)
              /\ length (GrainVoices (SanityAndMix h inp b s0))
                 = length (GrainVoices s0)).
    { intros b s0. unfold SanityAndMix.
      destruct (_ || _ || _); [apply Stop|apply Mix]. }
    destruct (WaveChanged inp s1); [|apply San].
    pose proof (Step8_InitializeWaveData_KeepsBuffers h px s1)
      as (I1 & I2 & I3 & I4).
    pose proof (Step8_InitializeWaveData_frame h px s1) as (I5 & _).
    destruct (InitializeWaveData h px s1) as [ok s2]. cbn [snd] in *.
    rewrite <- I1, <- I2, <- I3, <- I4, <- I5.
    destruct ok; cbn [negb]; [apply San|apply Stop].
  - cbv zeta. destruct (_ || _ || _); cbn;
      rewrite ?ZeroBuffer_length, ?length_map; auto.
Qed.

(** At every block boundary of a session the settings are those the
    operator was built with, the pool has its 32 voices, every active voice
    holds its reader and its resampler, has samples left and a consistent
    account, no voice is active while the operator is stopped, and a
    playing operator has a wave bound with channels, a deinterleaver and a
    positive duration.  So in a session the checks of Execute for a missing
    wave and for invalid wave data never fire: a block that is playing after
    its triggers stops only if the wave input is empty or has changed to a
    wave that cannot be initialized. *)
Theorem Step8_session_invariant (h : Host) (rate : Q) (frames : Z)
  (s : Operator) :
  Step8_Session h rate frames s ->
  SampleRate s = rate /\ BlockSize s = frames
  /\ length (GrainVoices s) = 32%nat
  /\ length (AudioOutputLeft s) = Z.to_nat frames
  /\ length (AudioOutputRight s) = Z.to_nat frames
  /\ Step8_Sound s
  /\ forall inp,
       let s1 := ProcessTriggers h inp s in
       bIsPlaying s1 = true ->
       Step8_WaveReady s1
       /\ Execute h inp s
          = match SoundWaveProxy inp with
            | None => StopNow s1
            | Some px =>
                if WaveChanged inp s1 then
                  if WaveInitializes h px
                  then ScheduleSpawnRender h inp
                         (snd (InitializeWaveData h px s1))
                  else StopNow (snd (InitializeWaveData h px s1))
                else ScheduleSpawnRender h inp (ClearForMixing false s1)
            end.
Proof.
  intro R.
  assert (I : SampleRate s = rate /\ BlockSize s = frames
              /\ length (GrainVoices s) = 32%nat
              /\ length (AudioOutputLeft s) = Z.to_nat frames
              /\ length (AudioOutputRight s) = Z.to_nat frames
              /\ Step8_Sound s).
  { induction R as [|inp s R IH|s R IH].
    - cbn. rewrite !repeat_length.
      do 5 (split; [reflexivity|]).
      split; [apply Step8_NoActive_InFlight; reflexivity|].
      split; [reflexivity|discriminate].
    - destruct IH as (A1 & A2 & A3 & A4 & A5 & A6).
      destruct (Step8_Execute_settings h inp s) as (B1 & B2 & B3 & B4 & B5).
      do 5 (split; [congruence|]).
      apply Step8_Execute_sound, A6.
    - destruct IH as (A1 & A2 & A3 & A4 & A5 & A6).
      cbn. rewrite !ZeroBuffer_length, length_map.
      do 5 (split; [assumption|]).
      split; [apply Step8_Forall_reset|].
      split; [intros _; apply Step8_filter_active_reset|discriminate]. }
  destruct I as (I1 & I2 & I3 & I4 & I5 & I6).
  do 5 (split; [assumption|]). split; [exact I6|].
  intros inp s1 Hp.
  pose proof (Step8_ProcessTriggers_sound h inp s I6) as S1. fold s1 in S1.
  split; [apply S1, Hp|].
  unfold Execute. fold s1. rewrite Hp. cbn [negb].
  apply Step8_ExecutePlaying_cases; assumption.
Qed.

(** The playing demo operator: one block after Play at frame 0. *)
Lemma Step8_session_invariant_witness :
  length (GrainVoices Step8Demo.Playing) = 32%nat
  /\ Step8_Sound Step8Demo.Playing.
Proof.
  destruct (Step8_session_invariant DemoHost 48000 8 Step8Demo.Playing)
    as (_ & _ & L & _ & _ & S & _).
  - apply Step8_Session_Execute, Step8_Session_Construct.
  - split; [exact L|exact S].
Defined.

End Step8_session.

(** ** The playback position of FGranularWavePlayerSmoothOperator *)

Lemma Qtrunc_nonneg x : 0 <= x -> Qtrunc x = Qfloor x.
Proof.
  destruct x as [n d]. unfold Qle, Qtrunc, Qfloor. cbn. intro H.
  apply Z.quot_div_nonneg; lia.
Qed.

(** [fmodf] of a non-negative value by a positive one lies below the
    divisor. *)
Lemma Fmod_range x y : 0 <= x -> 0 < y -> 0 <= FMath.Fmod x y /\ FMath.Fmod x y < y.
Proof.
  intros Hx Hy. unfold FMath.Fmod.
  destruct (Qleb _ _); [split; qlra|].
  assert (Hi : 0 < / y) by (apply Qinv_lt_0_compat; exact Hy).
  assert (Hq : 0 <= x / y) by (unfold Qdiv; apply Qmult_le_0_compat; qlra).
  rewrite (Qtrunc_nonneg _ Hq).
  pose proof (Qfloor_le (x / y)) as Fl. pose proof (Qlt_floor (x / y)) as Fu.
  rewrite inject_Z_plus in Fu. change (inject_Z 1) with 1 in Fu.
  set (f := inject_Z (Qfloor (x / y))) in *.
  assert (Ex : x == (x / y) * y) by (field; intro E; rewrite E in Hy; qlra).
  assert (A : f * y <= (x / y) * y) by (apply Qmult_le_compat_r; qlra).
  assert (B : (x / y) * y < (f + 1) * y) by (apply Qmult_lt_compat_r; qlra).
  split; qlra.
Qed.

Section GWP_position.
Import FGranularWavePlayerSmoothOperator.

Lemma GWP_BaseGrainDuration_pos inp : 5 # 1000 <= BaseGrainDurationSeconds inp.
Proof. unfold BaseGrainDurationSeconds. apply Max_ge_l. Qed.

Lemma GWP_PlaybackSpeed_range inp : 0 <= PlaybackSpeed inp <= 8.
Proof.
  unfold PlaybackSpeed.
  pose proof (Clamp_range (PlaybackSpeedInput inp) 0 800 ltac:(qlra)) as [A B].
  set (c := FMath.Clamp _ _ _) in *.
  split.
  - apply Qle_shift_div_l; qlra.
  - apply Qle_shift_div_r; qlra.
Qed.

Lemma GWP_UpdatePosition_spec (inp : Inputs) (s : Operator) :
  0 < CachedSoundWaveDuration s ->
  0 <= CurrentPlaybackPositionSeconds s ->
  0 < SampleRate s -> (0 <= BlockSize s)%Z ->
  let r := UpdatePosition inp s in
  let changed := fst (fst r) in
  let pos := snd (fst r) in
  let s' := snd r in
  CurrentPlaybackPositionSeconds s' = pos /\ TimeOutput s' = pos
  /\ 0 <= pos /\ pos < CachedSoundWaveDuration s
  /\ CachedSoundWaveDuration s' = CachedSoundWaveDuration s
  /\ bPreviousFreezeState s' = bFreezed inp
  /\ changed = negb (Bool.eqb (bFreezed inp) (bPreviousFreezeState s))
  /\ (changed = true -> bIsPlaying s = true -> SamplesUntilNextGrain s' = 0)
  /\ (changed = true -> bFreezed inp = false ->
      CurrentPlaybackPositionSeconds s < CachedSoundWaveDuration s ->
      pos = CurrentPlaybackPositionSeconds s)
  /\ (bFreezed inp = true ->
      pos <= FMath.Max 0
               (CachedSoundWaveDuration s
                - (BaseGrainDurationSeconds inp + MaxDurationRandSeconds inp))
      /\ pos <= FMath.Clamp (PlayPositionInput inp) 0 100 / 100
                * CachedSoundWaveDuration s).
Proof.
  intros Hc Hp Hr Hb r changed pos s'.
  unfold changed, pos, s', r, UpdatePosition.
  set (chg := negb (Bool.eqb (bFreezed inp) (bPreviousFreezeState s))).
  set (s1 := set_bPreviousFreezeState (bFreezed inp) s).
  set (s2 := if chg && bIsPlaying s1 then set_SamplesUntilNextGrain 0 s1 else s1).
  assert (E2 : CachedSoundWaveDuration s2 = CachedSoundWaveDuration s
               /\ CurrentPlaybackPositionSeconds s2 = CurrentPlaybackPositionSeconds s
               /\ SampleRate s2 = SampleRate s /\ BlockSize s2 = BlockSize s
               /\ bPreviousFreezeState s2 = bFreezed inp
               /\ (chg = true -> bIsPlaying s = true ->
                   SamplesUntilNextGrain s2 = 0)).
  { unfold s2, s1. destruct chg; cbn [andb].
    - change (bIsPlaying (set_bPreviousFreezeState (bFreezed inp) s))
        with (bIsPlaying s).
      destruct (bIsPlaying s); cbn; repeat split; auto; discriminate.
    - cbn. repeat split; auto; discriminate. }
  destruct E2 as (C2 & P2 & R2 & B2 & F2 & S2).
  cbv zeta. rewrite C2, P2, R2, B2.
  set (cached := CachedSoundWaveDuration s) in *.
  destruct (bFreezed inp) eqn:Fz.
  - (* the Play Position pin sets the position *)
    pose proof (Clamp_range (PlayPositionInput inp) 0 100 ltac:(qlra)) as [A B].
    set (pp := FMath.Clamp (PlayPositionInput inp) 0 100) in *.
    pose proof (GWP_BaseGrainDuration_pos inp) as D.
    pose proof (Max_ge_l 0 (DurationRandMsInput inp / 1000)) as Dr.
    fold (MaxDurationRandSeconds inp) in Dr.
    set (room := cached - (BaseGrainDurationSeconds inp + MaxDurationRandSeconds inp)).
    assert (Hi : 0 < / cached) by (apply Qinv_lt_0_compat; exact Hc).
    assert (Hne : ~ cached == 0) by (intro E; rewrite E in Hc; qlra).
    assert (M0 : 0 <= FMath.Max 0 room) by apply Max_ge_l.
    assert (M1 : FMath.Max 0 room < cached).
    { destruct (Max_cases 0 room) as [[_ ->]|[_ ->]]; unfold room; qlra. }
    set (mv := FMath.Max 0 room) in *.
    assert (P0 : 0 <= pp / 100) by (apply Qle_shift_div_l; qlra).
    assert (Q0 : 0 <= mv / cached)
      by (unfold Qdiv; apply Qmult_le_0_compat; qlra).
    assert (Emv : mv / cached * cached == mv) by (field; exact Hne).
    set (safe := FMath.Min (pp / 100) (mv / cached)).
    assert (S0 : 0 <= safe /\ safe <= pp / 100 /\ safe <= mv / cached).
    { unfold safe.
      destruct (Min_cases (pp / 100) (mv / cached)) as [[L ->]|[L ->]];
        repeat split; qlra. }
    destruct S0 as (S0 & S1 & S3).
    assert (N0 : 0 <= safe * cached) by (apply Qmult_le_0_compat; qlra).
    assert (N1 : safe * cached <= mv / cached * cached)
      by (apply Qmult_le_compat_r; qlra).
    assert (N2 : safe * cached <= pp / 100 * cached)
      by (apply Qmult_le_compat_r; qlra).
    cbn [fst snd].
    split; [reflexivity|]. split; [reflexivity|].
    split; [exact N0|]. split; [qlra|].
    split; [destruct (Qltb _ _); cbn; exact C2|].
    split; [destruct (Qltb _ _); cbn; exact F2|].
    split; [reflexivity|].
    split; [intros Hch Hpl; destruct (Qltb _ _); cbn; auto|].
    split; [discriminate|].
    intros _. split; qlra.
  - (* the position advances with the speed *)
    pose proof (GWP_PlaybackSpeed_range inp) as [V0 _].
    assert (Hi : 0 < / SampleRate s) by (apply Qinv_lt_0_compat; exact Hr).
    assert (Bd : 0 <= inject_Z (BlockSize s) / SampleRate s).
    { unfold Qdiv. apply Qmult_le_0_compat; [|qlra].
      change 0 with (inject_Z 0). rewrite <- Zle_Qle. exact Hb. }
    assert (Ad : 0 <= inject_Z (BlockSize s) / SampleRate s * PlaybackSpeed inp)
      by (apply Qmult_le_0_compat; assumption).
    set (cur := CurrentPlaybackPositionSeconds s) in *.
    set (adv := inject_Z (BlockSize s) / SampleRate s * PlaybackSpeed inp) in *.
    set (p0 := if negb chg then cur + adv else cur).
    assert (P0 : 0 <= p0) by (unfold p0; destruct chg; cbn; qlra).
    assert (W : let p := if Qleb cached p0 && Qltb 0 cached
                         then FMath.Fmod p0 cached else p0 in
                0 <= p /\ p < cached
                /\ (p0 < cached -> p = p0)).
    { cbv zeta. destruct (Qleb cached p0) eqn:E; cbn [andb].
      - assert (Hq : Qltb 0 cached = true) by (apply Qltb_spec; exact Hc).
        rewrite Hq. destruct (Fmod_range p0 cached P0 Hc) as [F0 F1].
        apply Qleb_spec in E. repeat split; try assumption. intro X. qlra.
      - apply Qleb_false in E. repeat split; auto. }
    cbv zeta in W. destruct W as (W0 & W1 & W2).
    cbn [fst snd].
    split; [reflexivity|]. split; [reflexivity|].
    split; [exact W0|]. split; [exact W1|].
    split; [exact C2|]. split; [exact F2|].
    split; [reflexivity|].
    split; [intros Hch Hpl; apply S2; assumption|].
    split; [|discriminate].
    intros Hch _ Hlt.
    assert (Ep : p0 = cur) by (unfold p0; rewrite Hch; reflexivity).
    rewrite W2; [exact Ep|rewrite Ep; exact Hlt].
Qed.

(** The position a block plays from, and reports on the Time output, lies
    inside the wave: at or after 0 and before the end, both when the
    position advances with the speed (it wraps at the end of the wave) and
    when the speed is zero and the Play Position pin sets it (then it also
    leaves room for the longest grain, when the wave has that room).  The
    freeze state of the block is recorded, and a change of it on a playing
    operator resets the grain counter. *)
Theorem GWP_playback_position_stays_in_the_wave (inp : Inputs) (s : Operator) :
  0 < CachedSoundWaveDuration s ->
  0 <= CurrentPlaybackPositionSeconds s ->
  0 < SampleRate s -> (0 <= BlockSize s)%Z ->
  let r := UpdatePosition inp s in
  let changed := fst (fst r) in
  let pos := snd (fst r) in
  let s' := snd r in
  CurrentPlaybackPositionSeconds s' = pos /\ TimeOutput s' = pos
  /\ 0 <= pos /\ pos < CachedSoundWaveDuration s
  /\ CachedSoundWaveDuration s' = CachedSoundWaveDuration s
  /\ bPreviousFreezeState s' = bFreezed inp
  /\ changed = negb (Bool.eqb (bFreezed inp) (bPreviousFreezeState s))
  /\ (changed = true -> bIsPlaying s = true -> SamplesUntilNextGrain s' = 0)
  /\ (changed = true -> bFreezed inp = false ->
      CurrentPlaybackPositionSeconds s < CachedSoundWaveDuration s ->
      pos = CurrentPlaybackPositionSeconds s)
  /\ (bFreezed inp = true ->
      pos <= FMath.Max 0
               (CachedSoundWaveDuration s
                - (BaseGrainDurationSeconds inp + MaxDurationRandSeconds inp))
      /\ pos <= FMath.Clamp (PlayPositionInput inp) 0 100 / 100
                * CachedSoundWaveDuration s).
Proof. exact (GWP_UpdatePosition_spec inp s). Qed.


(** One block of 8 frames at 48 kHz and full speed on a wave of one second:
    the position advances by 1/6000 s. *)
Lemma GWP_playback_position_stays_in_the_wave_witness :
  let r := UpdatePosition (SmoothDemo.Pins [] [] true (Some 7%nat) 100 0)
             SmoothDemo.Bound in
  snd (fst r) == 1 # 6000 /\ 0 <= snd (fst r) /\ snd (fst r) < 1.
Proof.
  intro r.
  destruct (GWP_playback_position_stays_in_the_wave
              (SmoothDemo.Pins [] [] true (Some 7%nat) 100 0) SmoothDemo.Bound)
    as (_ & _ & A & B & _).
  - reflexivity.
  - discriminate.
  - reflexivity.
  - discriminate.
  - split; [vm_compute; reflexivity|]. split; [exact A|exact B].
Defined.

End GWP_position.

(** ** The scheduler of FGranularWavePlayerSmoothOperator *)

Section GWP_scheduler_hang.
Import FGranularWavePlayerSmoothOperator.

Variable h : Host.
Variables Interval Jitter ElapsedSamples : Q.
Variable Desired : Z.
Variable TriggerProbability : Q.

Hypothesis Jitter_pos : 0 < Jitter.
Hypothesis Draws : forall n, FRand h n * (2 * Jitter) <= Jitter - Interval.

(** With draws that low the counter never moves forward: no fuel is
    enough. *)
Lemma GWP_SchedulerLoop_hangs fuel : forall Samples Grains Active d,
  Samples <= ElapsedSamples ->
  SchedulerLoop h Interval Jitter ElapsedSamples Desired TriggerProbability
    fuel Samples Grains Active d = None.
Proof.
  induction fuel as [|fuel IH]; intros Samples Grains Active d H;
    cbn [SchedulerLoop]; pose proof H as H'; apply Qleb_spec in H';
    rewrite H'; [reflexivity|].
  assert (Ej : Qltb 0 Jitter = true) by (apply Qltb_spec; exact Jitter_pos).
  rewrite Ej.
  assert (Back : Samples + FMath.FRandRange (- Jitter) Jitter (FRand h d)
                 + Interval <= ElapsedSamples).
  { unfold FMath.FRandRange. pose proof (Draws d) as D.
    setoid_replace ((Jitter - - Jitter) * FRand h d)
      with (FRand h d * (2 * Jitter)) by ring.
    qlra. }
  destruct (Active <? Desired)%Z; apply IH; exact Back.
Qed.

End GWP_scheduler_hang.

Section GWP_scheduler_loop32.
Import FGranularWavePlayerSmoothOperator.

Variable h : Host.
Variables Interval Jitter ElapsedSamples : Q.
Variable Desired : Z.
Variable TriggerProbability : Q.

Let Loop32 :=
  SchedulerLoop32 h Interval Jitter ElapsedSamples Desired TriggerProbability.

(** More fuel does not change a result. *)
Lemma GWP_SchedulerLoop32_more_fuel fuel : forall Samples Grains Active d r k,
  Loop32 fuel Samples Grains Active d = Some r ->
  Loop32 (fuel + k) Samples Grains Active d = Some r.
Proof.
  unfold Loop32.
  induction fuel as [|fuel IH]; intros Samples Grains Active d r k H.
  - cbn [SchedulerLoop32] in H.
    destruct (Qleb Samples ElapsedSamples) eqn:E; [discriminate|].
    destruct k; cbn [Nat.add SchedulerLoop32]; rewrite E; exact H.
  - cbn [Nat.add SchedulerLoop32] in H |- *.
    destruct (Qleb Samples ElapsedSamples); [|exact H].
    destruct (Qltb 0 Jitter); destruct (Active <? Desired)%Z;
      apply IH; exact H.
Qed.

(** A counter that absorbs the interval stays where it is when there is no
    jitter. *)
Lemma GWP_SchedulerLoop32_absorbed fuel : forall Samples Grains Active d,
  Jitter <= 0 -> Samples <= ElapsedSamples ->
  Binary32.Add Samples Interval == Samples ->
  Loop32 fuel Samples Grains Active d = None.
Proof.
  unfold Loop32.
  induction fuel as [|fuel IH]; intros Samples Grains Active d HJ H A;
    cbn [SchedulerLoop32]; pose proof H as H'; apply Qleb_spec in H';
    rewrite H'; [reflexivity|].
  assert (Ej : Qltb 0 Jitter = false) by (apply Qltb_false; exact HJ).
  rewrite Ej.
  assert (A' : Binary32.Add (Binary32.Add Samples Interval) Interval
               == Binary32.Add Samples Interval).
  { unfold Binary32.Add at 1.
    rewrite (Round_comp (Binary32.Add Samples Interval + Interval)
               (Samples + Interval)) by (rewrite A; reflexivity).
    reflexivity. }
  destruct (Active <? Desired)%Z; apply IH;
    try exact HJ; try exact A'; rewrite A; exact H.
Qed.

Variable bs : Z.
Hypothesis Draws : forall n, 0 <= FRand h n.
Hypothesis Jitter_nonneg : 0 <= Jitter.
Hypothesis Advance : inject_Z (Qceiling Jitter) + 1 <= Interval.
Hypothesis Elapsed : ElapsedSamples == inject_Z bs.
Hypothesis Block : (bs < 2 ^ 24)%Z.
Hypothesis Jitter_small : (Qceiling Jitter < 2 ^ 24)%Z.

(** The jitter drawn is not below minus the jitter rounded up. *)
Lemma GWP_jitter32_ge u :
  0 <= u ->
  inject_Z (- Qceiling Jitter) <= Binary32.FRandRange (- Jitter) Jitter u.
Proof.
  intro Hu.
  assert (Cj : (0 <= Qceiling Jitter)%Z).
  { apply Qceiling_resp_le in Jitter_nonneg. exact Jitter_nonneg. }
  pose proof (Qle_ceiling Jitter) as Ce.
  unfold Binary32.FRandRange.
  assert (A : 0 <= Binary32.Sub Jitter (- Jitter)).
  { unfold Binary32.Sub. change 0 with (inject_Z 0).
    apply Round_ge_int; [lia|]. change (inject_Z 0) with 0. qlra. }
  assert (B : 0 <= Binary32.Mul (Binary32.Sub Jitter (- Jitter)) u).
  { unfold Binary32.Mul. change 0 with (inject_Z 0).
    apply Round_ge_int; [lia|]. change (inject_Z 0) with 0.
    apply Qmult_le_0_compat; assumption. }
  unfold Binary32.Add. apply Round_ge_int; [lia|].
  rewrite inject_Z_opp. qlra.
Qed.

(** With an interval that exceeds the jitter by a sample or more, an
    iteration moves the counter past the next whole number. *)
Lemma GWP_SchedulerLoop32_ends fuel : forall Samples Grains Active d,
  (- 2 ^ 24 < Qfloor Samples - Qceiling Jitter)%Z ->
  (Z.to_nat (bs - Qfloor Samples + 1) <= fuel)%nat ->
  exists Samples' Grains' d',
    Loop32 fuel Samples Grains Active d = Some (Samples', Grains', d')
    /\ ElapsedSamples < Samples'
    /\ (Grains <= Grains')%Z
    /\ (Grains' - Grains <= Z.max 0 (Desired - Active))%Z
    /\ (d <= d')%nat.
Proof.
  unfold Loop32.
  assert (Cj : (0 <= Qceiling Jitter)%Z).
  { apply Qceiling_resp_le in Jitter_nonneg. exact Jitter_nonneg. }
  assert (Due : forall S, S <= ElapsedSamples -> (Qfloor S <= bs)%Z).
  { intros S H. apply Qfloor_resp_le in H.
    rewrite (Qfloor_comp _ _ Elapsed), Qfloor_Z in H. exact H. }
  induction fuel as [|fuel IH]; intros Samples Grains Active d HS Hf;
    cbn [SchedulerLoop32].
  - destruct (Qleb Samples ElapsedSamples) eqn:E.
    + apply Qleb_spec in E. apply Due in E. lia.
    + apply Qleb_false in E. exists Samples, Grains, d.
      repeat split; try lia; auto.
  - destruct (Qleb Samples ElapsedSamples) eqn:E.
    + apply Qleb_spec in E. pose proof (Due Samples E) as D.
      pose proof (Qfloor_le Samples) as Fl.
      pose proof (Qle_ceiling Jitter) as Ce.
      destruct (if Qltb 0 Jitter
                then (Binary32.Add Samples
                        (Binary32.FRandRange (- Jitter) Jitter (FRand h d)),
                      S d)
                else (Samples, d)) as [S1 d1] eqn:Ej.
      assert (Hd : (d <= d1)%nat).
      { destruct (Qltb 0 Jitter); inversion Ej; lia. }
      assert (L1 : inject_Z (Qfloor Samples - Qceiling Jitter) <= S1).
      { destruct (Qltb 0 Jitter) eqn:Jp; inversion Ej; subst S1 d1.
        - apply Round_ge_int; [lia|].
          pose proof (GWP_jitter32_ge (FRand h d) (Draws d)) as Jg.
          rewrite inject_Z_opp in Jg. rewrite inject_Z_sub. qlra.
        - rewrite inject_Z_sub.
          assert (0 <= inject_Z (Qceiling Jitter))
            by (change 0 with (inject_Z 0); rewrite <- Zle_Qle; exact Cj).
          qlra. }
      assert (L2 : inject_Z (Qfloor Samples + 1) <= Binary32.Add S1 Interval).
      { apply Round_ge_int; [lia|].
        rewrite inject_Z_sub in L1. rewrite inject_Z_plus.
        change (inject_Z 1) with 1. qlra. }
      apply Qfloor_resp_le in L2. rewrite Qfloor_Z in L2.
      destruct (Active <? Desired)%Z eqn:Ea.
      * apply Z.ltb_lt in Ea.
        destruct (IH (Binary32.Add S1 Interval)
                    (if Qleb (FRand h d1) TriggerProbability
                     then Grains + 1 else Grains)%Z
                    (if Qleb (FRand h d1) TriggerProbability
                     then Active + 1 else Active)%Z (S d1)
                    ltac:(lia) ltac:(lia))
          as (S' & G' & d' & R & X1 & X2 & X3 & X4).
        exists S', G', d'. split; [exact R|]. split; [exact X1|].
        destruct (Qleb (FRand h d1) TriggerProbability); repeat split; lia.
      * apply Z.ltb_ge in Ea.
        destruct (IH (Binary32.Add S1 Interval) Grains Active d1
                    ltac:(lia) ltac:(lia))
          as (S' & G' & d' & R & X1 & X2 & X3 & X4).
        exists S', G', d'. split; [exact R|]. split; [exact X1|].
        repeat split; lia.
    + exists Samples, Grains, d. apply Qleb_false in E.
      repeat split; try lia; auto.
Qed.

End GWP_scheduler_loop32.

Section GWP_scheduler.
Import FGranularWavePlayerSmoothOperator.

(** The scheduler loop of a block whose freeze state did not change, as the
    code runs it, with the grain counter in binary32.

    - When the random draws are not negative and the grain interval exceeds
      the time jitter, rounded up to a whole sample, by a sample or more
      (with the block size, the jitter and the counter below 2^24), the
      loop ends: from some number of iterations on the scheduler
      returns the same result, the counter it leaves is not negative, the
      number of grains to trigger is at most what the Grain Density pin
      leaves above the active voices, and the voices are untouched.
    - When there is no time jitter and the counter absorbs the interval
      (counter + interval rounds to the counter) with a grain due, the loop
      never ends: no number of iterations is enough. *)
Theorem GWP_scheduler_in_binary32 (h : Host) (inp : Inputs) (s : Operator) :
  let I := SamplesPerGrainInterval (SampleRate s) inp in
  let J := TimeJitterSamples (SampleRate s) inp in
  ((forall n, 0 <= FRand h n) ->
   0 <= J -> inject_Z (Qceiling J) + 1 <= I -> I < FMath.FloatMax ->
   (0 <= BlockSize s < 2 ^ 24)%Z -> (Qceiling J < 2 ^ 24)%Z ->
   (- 2 ^ 24 < Qfloor (SamplesUntilNextGrain s) - Qceiling J)%Z ->
   exists fuel Grains s',
     (forall fuel', (fuel <= fuel')%nat ->
        Scheduler32 h inp fuel' false s = Some (Grains, s'))
     /\ 0 <= SamplesUntilNextGrain s'
     /\ (0 <= Grains
         <= Z.max 0 (DesiredGrainDensity inp - CountActive (GrainVoices s)))%Z
     /\ GrainVoices s' = GrainVoices s
     /\ (FRandCalls s <= FRandCalls s')%nat)
  /\ (0 < I -> I < FMath.FloatMax -> J <= 0 ->
      SamplesUntilNextGrain s <= Binary32.Round (inject_Z (BlockSize s)) ->
      Binary32.Add (SamplesUntilNextGrain s) I == SamplesUntilNextGrain s ->
      forall fuel, Scheduler32 h inp fuel false s = None).
Proof.
  intros I J. split.
  - intros Dr HJ Ha Hm Hb Hc HS.
    assert (Cj : (0 <= Qceiling J)%Z)
      by (apply Qceiling_resp_le in HJ; exact HJ).
    assert (Hi : 0 < I).
    { assert (0 <= inject_Z (Qceiling J))
        by (change 0 with (inject_Z 0); rewrite <- Zle_Qle; exact Cj).
      qlra. }
    assert (HE : Binary32.Round (inject_Z (BlockSize s))
                 == inject_Z (BlockSize s)) by (apply Round_int; lia).
    set (E := Binary32.Round (inject_Z (BlockSize s))) in *.
    set (P := FMath.Min 1
                (inject_Z (DesiredGrainDensity inp) / inject_Z MaxGrainVoices)).
    set (fuel := Z.to_nat (BlockSize s - Qfloor (SamplesUntilNextGrain s) + 1)).
    destruct (GWP_SchedulerLoop32_ends h I J E (DesiredGrainDensity inp) P
                (BlockSize s) Dr HJ Ha HE ltac:(lia) Hc
                fuel (SamplesUntilNextGrain s) 0%Z
                (CountActive (GrainVoices s)) (FRandCalls s) HS
                (Nat.le_refl _))
      as (S' & G' & d' & R & X1 & X2 & X3 & X4).
    exists fuel, G',
      (set_FRandCalls d'
         (set_SamplesUntilNextGrain (Binary32.Sub S' E) s)).
    split; [|split].
    + intros fuel' Hf. unfold Scheduler32. fold I J E P.
      assert (G : Qltb 0 I && Qltb I FMath.FloatMax = true).
      { apply andb_true_iff. split; apply Qltb_spec; assumption. }
      rewrite G.
      replace fuel' with (fuel + (fuel' - fuel))%nat by lia.
      rewrite (GWP_SchedulerLoop32_more_fuel h I J E (DesiredGrainDensity inp)
                 P fuel _ _ _ _ _ (fuel' - fuel)%nat R).
      reflexivity.
    + cbn. unfold Binary32.Sub. change 0 with (inject_Z 0).
      apply Round_ge_int; [lia|]. change (inject_Z 0) with 0. qlra.
    + cbn. repeat split; lia.
  - intros Hi Hm HJ HS A fuel. unfold Scheduler32. fold I J.
    assert (G : Qltb 0 I && Qltb I FMath.FloatMax = true).
    { apply andb_true_iff. split; apply Qltb_spec; assumption. }
    rewrite G.
    rewrite (GWP_SchedulerLoop32_absorbed h I J _ (DesiredGrainDensity inp) _
               fuel _ _ _ _ HJ HS A).
    reflexivity.
Qed.

(** 48 kHz and blocks of 8 frames, on the host whose draws are all 0.  At
    10 grains per second with 50 ms of jitter the interval is 4800 samples
    and the jitter 2400: the loop ends.  At 2^40 grains per second without
    jitter the interval is below a millionth of a sample: a counter of 4
    absorbs it and the loop does not end. *)
Lemma GWP_scheduler_in_binary32_witness :
  (exists fuel Grains s',
     forall fuel', (fuel <= fuel')%nat ->
       Scheduler32 DemoHost (SmoothDemo.Scheduling 10 50) fuel' false
         SmoothDemo.Bound = Some (Grains, s'))
  /\ (forall fuel,
        Scheduler32 DemoHost (SmoothDemo.Scheduling 1099511627776 0) fuel false
          (set_SamplesUntilNextGrain 4 SmoothDemo.Bound) = None).
Proof.
  split.
  - destruct (proj1 (GWP_scheduler_in_binary32 DemoHost
                       (SmoothDemo.Scheduling 10 50) SmoothDemo.Bound))
      as (fuel & G & s' & R & _).
    + intro n. discriminate.
    + discriminate.
    + discriminate.
    + reflexivity.
    + vm_compute. split; [discriminate|reflexivity].
    + vm_compute. reflexivity.
    + vm_compute. reflexivity.
    + exists fuel, G, s'. exact R.
  - apply (proj2 (GWP_scheduler_in_binary32 DemoHost
                    (SmoothDemo.Scheduling 1099511627776 0)
                    (set_SamplesUntilNextGrain 4 SmoothDemo.Bound))).
    + reflexivity.
    + reflexivity.
    + discriminate.
    + vm_compute. discriminate.
    + vm_compute. reflexivity.
Defined.

(** When the time jitter, in samples, is not below the grain interval the
    loop need not end: with a grain due and random draws low enough that
    no iteration moves the counter forward (draws of 0, for one), the
    scheduler does not return within any number of iterations. *)
Theorem GWP_scheduler_hangs_at_or_above_the_interval (h : Host) (inp : Inputs)
  (s : Operator) :
  let I := SamplesPerGrainInterval (SampleRate s) inp in
  let J := TimeJitterSamples (SampleRate s) inp in
  0 < I -> I < FMath.FloatMax -> I <= J ->
  (forall n, FRand h n * (2 * J) <= J - I) ->
  SamplesUntilNextGrain s <= inject_Z (BlockSize s) ->
  forall fuel, Scheduler h inp fuel false s = None.
Proof.
  intros I J Hi Hm Hj Dr Due fuel. unfold Scheduler. fold I J.
  assert (G : Qltb 0 I && Qltb I FMath.FloatMax = true).
  { apply andb_true_iff. split; apply Qltb_spec; assumption. }
  rewrite G.
  rewrite (GWP_SchedulerLoop_hangs h I J (inject_Z (BlockSize s))
             (DesiredGrainDensity inp) _ ltac:(qlra) Dr fuel _ _ _ _ Due).
  reflexivity.
Qed.

(** 48 kHz, 10 grains per second, 100 ms of jitter, on the host whose draws
    are all 0. *)
Lemma GWP_scheduler_hangs_at_or_above_the_interval_witness :
  Scheduler DemoHost (SmoothDemo.Pins [] [] true (Some 7%nat) 100 100)
    1000 false SmoothDemo.Bound = None.
Proof.
  apply (GWP_scheduler_hangs_at_or_above_the_interval DemoHost
           (SmoothDemo.Pins [] [] true (Some 7%nat) 100 100) SmoothDemo.Bound).
  - reflexivity.
  - reflexivity.
  - discriminate.
  - intro n. discriminate.
  - discriminate.
Defined.

End GWP_scheduler.

(** ** The final smoothing pass of FGranularWavePlayerSmoothOperator *)

Section GWP_smoothing.
Import FGranularWavePlayerSmoothOperator.

Lemma GWP_Smoothing_range inp : 0 <= Smoothing inp <= 1.
Proof.
  unfold Smoothing.
  pose proof (Clamp_range (SmoothingInput inp) 0 100 ltac:(qlra)) as [A B].
  set (c := FMath.Clamp _ _ _) in *.
  split; [apply Qle_shift_div_l|apply Qle_shift_div_r]; qlra.
Qed.

(** A convex combination of two values within a bound is within it. *)
Lemma Convex_bound x p c M :
  0 <= c <= 1 -> Qabs x <= M -> Qabs p <= M ->
  Qabs (x * c + p * (1 - c)) <= M.
Proof.
  intros [C0 C1] Hx Hp.
  apply Qabs_Qle_condition in Hx. apply Qabs_Qle_condition in Hp.
  apply Qabs_Qle_condition.
  destruct Hx as [X0 X1], Hp as [P0 P1].
  assert (A1 : x * c <= M * c) by (apply Qmult_le_compat_r; assumption).
  assert (A2 : - M * c <= x * c) by (apply Qmult_le_compat_r; assumption).
  assert (B1 : p * (1 - c) <= M * (1 - c)) by (apply Qmult_le_compat_r; qlra).
  assert (B2 : - M * (1 - c) <= p * (1 - c)) by (apply Qmult_le_compat_r; qlra).
  split; qlra.
Qed.

Lemma OnePole_bound c M : 0 <= c <= 1 -> forall count b prev,
  Qabs prev <= M -> Forall (fun x => Qabs x <= M) b ->
  Forall (fun x => Qabs x <= M) (fst (OnePole c count prev b))
  /\ Qabs (snd (OnePole c count prev b)) <= M.
Proof.
  intro Hc. induction count as [|count IH]; intros b prev Hp Hb.
  - destruct b; cbn; auto.
  - destruct b as [|x b]; [cbn; auto|].
    inversion Hb as [|x0 b0 Hx Hb']; subst.
    cbn [OnePole].
    pose proof (Convex_bound x prev c M Hc Hx Hp) as Hy.
    destruct (IH b (x * c + prev * (1 - c)) Hy Hb') as (A & B).
    destruct (OnePole c count (x * c + prev * (1 - c)) b) as [rest last].
    cbn [fst snd] in *. split; [constructor; assumption|exact B].
Qed.

(** The filter keeps the length of the buffer and the frames beyond the
    count. *)
Lemma OnePole_frame c : forall count b prev,
  length (fst (OnePole c count prev b)) = length b
  /\ forall i, (count <= i)%nat ->
       nth i (fst (OnePole c count prev b)) 0 = nth i b 0.
Proof.
  induction count as [|count IH]; intros b prev.
  - destruct b; cbn; auto.
  - destruct b as [|x b]; [cbn; auto|]. cbn [OnePole].
    destruct (IH b (x * c + prev * (1 - c))) as [A D].
    destruct (OnePole c count (x * c + prev * (1 - c)) b) as [rest last].
    cbn [fst length] in *. split; [congruence|].
    intros [|i] Hi; [lia|]. cbn [nth]. apply D. lia.
Qed.

(** What the filter computes. *)
Lemma OnePole_LowPassed c : forall count b prev,
  LowPassed c count prev b (fst (OnePole c count prev b))
    (snd (OnePole c count prev b)).
Proof.
  induction count as [|count IH]; intros b prev.
  - unfold LowPassed. cbn [OnePole fst snd Nat.min].
    split; [reflexivity|]. split; [intros i Hi; lia|].
    split; [reflexivity|]. destruct b; reflexivity.
  - destruct b as [|x b].
    + unfold LowPassed. cbn [OnePole fst snd length Nat.min].
      split; [reflexivity|]. split; [intros i _ Hi; lia|].
      split; reflexivity.
    + cbn [OnePole].
      destruct (IH b (x * c + prev * (1 - c))) as (L & Rec & Rest & Last).
      destruct (OnePole c count (x * c + prev * (1 - c)) b) as [rest last].
      cbn [fst snd] in *. unfold LowPassed. cbn [length Nat.min].
      split; [congruence|]. split; [|split].
      * intros [|i] Hi Hl; cbn [nth]; [reflexivity|].
        rewrite (Rec i ltac:(lia) ltac:(lia)).
        destruct i; reflexivity.
      * intros [|i] Hi; [lia|]. cbn [nth]. apply Rest. lia.
      * rewrite Last. destruct (Nat.min count (length b)); reflexivity.
Qed.

(** The final pass of a block leaves the operator as it is unless the
    Smoothing pin is above 50 %.  Above it, each channel goes through a
    one-pole low pass over the frames of the block: each frame written is
    c times the frame mixed plus (1 - c) times the frame written before it,
    the first one using the value carried over from the previous block, and
    the value carried on is the last frame written.  The coefficient c is
    1 - Smoothing / 2, in [1/2, 3/4): its floor of 1/10 is never reached.
    Of the state of the model (which leaves out the scratch buffers of the
    filter) the pass changes the two output buffers and the two carried
    values and nothing else, and it never leaves a bound that holds of the
    carried value and of the frames of the block. *)
Theorem GWP_final_smoothing_is_a_bounded_low_pass (inp : Inputs)
  (s : Operator) :
  let s' := FinalSmoothingPass inp s in
  let c := 1 - Smoothing inp * (1 # 2) in
  let n := Z.to_nat (BlockSize s) in
  (Smoothing inp <= 1 # 2 -> s' = s)
  /\ (1 # 2 < Smoothing inp ->
      1 # 2 <= c /\ c < 3 # 4
      /\ exists outL outR prev0 prev1,
           s' = set_PrevGrainValue1 prev1
                  (set_PrevGrainValue0 prev0
                     (set_AudioOutputRight outR (set_AudioOutputLeft outL s)))
           /\ LowPassed c n (PrevGrainValue0 s) (AudioOutputLeft s) outL prev0
           /\ LowPassed c n (PrevGrainValue1 s) (AudioOutputRight s) outR prev1
           /\ (forall M,
                 Qabs (PrevGrainValue0 s) <= M ->
                 Forall (fun x => Qabs x <= M) (AudioOutputLeft s) ->
                 Forall (fun x => Qabs x <= M) outL /\ Qabs prev0 <= M)
           /\ (forall M,
                 Qabs (PrevGrainValue1 s) <= M ->
                 Forall (fun x => Qabs x <= M) (AudioOutputRight s) ->
                 Forall (fun x => Qabs x <= M) outR /\ Qabs prev1 <= M)).
Proof.
  cbv zeta. pose proof (GWP_Smoothing_range inp) as [S0 S1].
  unfold FinalSmoothingPass.
  destruct (Qltb (1 # 2) (Smoothing inp)) eqn:E.
  - split; [intro H; apply Qltb_spec in E; exfalso; qlra|].
    intros H.
    assert (Fl : FMath.Max (1 # 10) (1 - Smoothing inp * (1 # 2))
                 = 1 - Smoothing inp * (1 # 2)).
    { unfold FMath.Max.
      assert (X : Qltb (1 - Smoothing inp * (1 # 2)) (1 # 10) = false)
        by (apply Qltb_false; qlra).
      rewrite X. reflexivity. }
    rewrite Fl.
    set (c := 1 - Smoothing inp * (1 # 2)).
    assert (C : 0 <= c <= 1) by (unfold c; split; qlra).
    split; [unfold c; qlra|]. split; [unfold c; qlra|].
    set (n := Z.to_nat (BlockSize s)).
    pose proof (OnePole_LowPassed c n (AudioOutputLeft s) (PrevGrainValue0 s))
      as PL.
    pose proof (OnePole_LowPassed c n (AudioOutputRight s) (PrevGrainValue1 s))
      as PR.
    pose proof (fun M => OnePole_bound c M C n
                           (AudioOutputLeft s) (PrevGrainValue0 s)) as BL.
    pose proof (fun M => OnePole_bound c M C n
                           (AudioOutputRight s) (PrevGrainValue1 s)) as BR.
    destruct (OnePole c n (PrevGrainValue0 s) (AudioOutputLeft s)) as [oL p0].
    destruct (OnePole c n (PrevGrainValue1 s) (AudioOutputRight s)) as [oR p1].
    cbn [fst snd] in *.
    exists oL, oR, p0, p1.
    split; [reflexivity|]. split; [exact PL|]. split; [exact PR|].
    split; [exact BL|exact BR].
  - split; [reflexivity|].
    intro H. exfalso.
    assert (X : Qltb (1 # 2) (Smoothing inp) = true)
      by (apply Qltb_spec; exact H).
    congruence.
Qed.

(** Smoothing at 80 %: the coefficient is 3/5.  A block mixed to the
    constant 1 from a carried value of 0 comes out as 3/5, 21/25, ... *)
Lemma GWP_final_smoothing_is_a_bounded_low_pass_witness :
  let inp := SmoothDemo.Smoothed 80 in
  let s := set_AudioOutputLeft (repeat 1 8) SmoothDemo.Bound in
  let s' := FinalSmoothingPass inp s in
  nth 0 (AudioOutputLeft s') 0 == 3 # 5
  /\ nth 1 (AudioOutputLeft s') 0 == 21 # 25
  /\ PrevGrainValue0 s' = nth 7 (AudioOutputLeft s') 0.
Proof.
  intros inp s s'.
  destruct (proj2 (GWP_final_smoothing_is_a_bounded_low_pass inp s))
    as (_ & _ & outL & outR & p0 & p1 & E & (_ & Rec & _ & Last) & _).
  - reflexivity.
  - fold s' in E.
    assert (EL : AudioOutputLeft s' = outL) by (rewrite E; reflexivity).
    assert (EP : PrevGrainValue0 s' = p0) by (rewrite E; reflexivity).
    rewrite EL, EP.
    pose proof (Rec 0%nat ltac:(vm_compute; lia) ltac:(vm_compute; lia)) as R0.
    pose proof (Rec 1%nat ltac:(vm_compute; lia) ltac:(vm_compute; lia)) as R1.
    cbn [nth] in R0, R1.
    split; [|split].
    + rewrite R0. vm_compute. reflexivity.
    + rewrite R1, R0. vm_compute. reflexivity.
    + rewrite Last. reflexivity.
Defined.

End GWP_smoothing.

(** ** Sessions of FGranularWavePlayerSmoothOperator *)

Section GWP_session.
Import FGranularWavePlayerSmoothOperator.

Lemma GWP_filter_active_reset vs : filter bIsActive (map ResetVoice vs) = [].
Proof. induction vs as [|v vs IH]; simpl; auto. Qed.

Lemma GWP_VoiceInFlight_inactive v :
  bIsActive v = false -> GWP_VoiceInFlight v.
Proof. unfold GWP_VoiceInFlight. congruence. Qed.

Lemma GWP_Forall_reset vs : Forall GWP_VoiceInFlight (map ResetVoice vs).
Proof.
  induction vs as [|v vs IH]; simpl; constructor; auto.
  apply GWP_VoiceInFlight_inactive. reflexivity.
Qed.

Lemma GWP_NoActive_InFlight vs :
  filter bIsActive vs = [] -> Forall GWP_VoiceInFlight vs.
Proof.
  induction vs as [|v vs IH]; cbn [filter]; intro H; constructor.
  - destruct (bIsActive v) eqn:A; [discriminate|].
    apply GWP_VoiceInFlight_inactive, A.
  - apply IH. destruct (bIsActive v); [discriminate|exact H].
Qed.

Lemma GWP_KeepsWave_refl s : GWP_KeepsWave s s.
Proof. unfold GWP_KeepsWave. tauto. Qed.

Lemma GWP_KeepsWave_trans s1 s2 s3 :
  GWP_KeepsWave s1 s2 -> GWP_KeepsWave s2 s3 -> GWP_KeepsWave s1 s3.
Proof.
  unfold GWP_KeepsWave.
  intros (A1 & A2 & A3 & A4 & A5 & A6 & A7) (B1 & B2 & B3 & B4 & B5 & B6 & B7).
  repeat split; congruence.
Qed.

(** TriggerGrain touches the voices and the draw count only; the voice it
    stores is inactive or freshly started. *)
Lemma GWP_TriggerGrain_voices h p n t r a v m x s :
  let s' := snd (TriggerGrain h p n t r a v m x s) in
  (Forall GWP_VoiceInFlight (GrainVoices s) ->
   Forall GWP_VoiceInFlight (GrainVoices s'))
  /\ length (GrainVoices s') = length (GrainVoices s)
  /\ GWP_KeepsWave s s'.
Proof.
  cbv zeta. unfold TriggerGrain.
  destruct p as [px|]; [|cbn; auto using GWP_KeepsWave_refl].
  destruct (n <=? 0)%Z eqn:En; [cbn; auto using GWP_KeepsWave_refl|].
  apply Z.leb_gt in En.
  destruct (CurrentNumChannels s <=? 0)%Z; [cbn; auto using GWP_KeepsWave_refl|].
  cbn [orb].
  destruct (FindFreeVoice bIsActive (GrainVoices s) 0) as [i|] eqn:Ef;
    [|cbn; auto using GWP_KeepsWave_refl].
  apply (FindFreeVoice_Some _ _ _ _ DefaultVoice) in Ef.
  destruct Ef as (_ & _ & Hin & _). rewrite Nat.sub_0_r in Hin.
  destruct (ClampStartTime _ _ _ _) as [t'|];
    [|cbn; auto using GWP_KeepsWave_refl].
  destruct (Reader_Create h px _).
  - destruct (Qltb 0 m); cbn; rewrite SetVoice_length;
      (split; [|split; [reflexivity|unfold GWP_KeepsWave; cbn; tauto]]);
      intro H; apply Forall_SetVoice_any; try exact H;
      intros _; cbn; repeat split; lia.
  - cbn. rewrite SetVoice_length.
    split; [|split; [reflexivity|unfold GWP_KeepsWave; cbn; tauto]].
    intro H. apply Forall_SetVoice_any; [exact H|].
    apply GWP_VoiceInFlight_inactive. cbn. exact Hin.
Qed.

Lemma GWP_SpawnGrain_voices h inp pos s :
  let s' := SpawnGrain h inp pos s in
  (Forall GWP_VoiceInFlight (GrainVoices s) ->
   Forall GWP_VoiceInFlight (GrainVoices s'))
  /\ length (GrainVoices s') = length (GrainVoices s)
  /\ GWP_KeepsWave s s'.
Proof.
  cbv zeta. unfold SpawnGrain.
  destruct (Qltb 0 (VolumeRandPercent inp));
    match goal with |- context [TriggerGrain ?h ?p ?n ?t ?r ?a ?v ?m ?x ?s0] =>
      pose proof (GWP_TriggerGrain_voices h p n t r a v m x s0) as T;
      destruct (TriggerGrain h p n t r a v m x s0) as [ok s1] end;
    cbv zeta in T; cbn [snd] in T; unfold GWP_KeepsWave in *; cbn in T;
    destruct ok; cbn; exact T.
Qed.

Lemma GWP_SpawnLoop_voices h inp pos count : forall s,
  let s' := SpawnLoop h inp pos count s in
  (Forall GWP_VoiceInFlight (GrainVoices s) ->
   Forall GWP_VoiceInFlight (GrainVoices s'))
  /\ length (GrainVoices s') = length (GrainVoices s)
  /\ GWP_KeepsWave s s'.
Proof.
  induction count as [|count IH]; intros s; cbn [SpawnLoop].
  - cbv zeta. auto using GWP_KeepsWave_refl.
  - destruct (GWP_SpawnGrain_voices h inp pos s) as (A1 & A2 & A3).
    destruct (IH (SpawnGrain h inp pos s)) as (B1 & B2 & B3).
    cbv zeta. split; [intro H; apply B1, A1, H|].
    split; [congruence|]. eapply GWP_KeepsWave_trans; eassumption.
Qed.

(** Rendering keeps the account of a voice whatever the pipeline delivers;
    a voice with nothing left is released. *)
Lemma GWP_RenderVoice_voice h inp bs slot v out :
  GWP_VoiceInFlight v ->
  GWP_VoiceInFlight (fst (RenderVoice h inp bs slot v out)).
Proof.
  intro H. unfold RenderVoice.
  destruct (bIsActive v) eqn:A; [|apply GWP_VoiceInFlight_inactive, A].
  destruct (H A) as (Rd & Rs & R & P & T).
  destruct (_ || _); [apply GWP_VoiceInFlight_inactive; reflexivity|].
  cbv zeta.
  destruct (_ <=? 0)%Z; [apply GWP_VoiceInFlight_inactive; reflexivity|].
  match goal with |- context [Resample ?h ?a ?b ?c] =>
    set (r := Resample h a b c) end.
  destruct (bThrew r).
  - cbn [fst SamplesRemaining set_bIsActive].
    destruct (_ <=? 0)%Z; apply GWP_VoiceInFlight_inactive; reflexivity.
  - destruct (0 <? Z.of_nat (FramesResampled r))%Z eqn:E.
    + cbn [fst SamplesRemaining set_SamplesRemaining set_SamplesPlayed].
      destruct (_ <=? 0)%Z eqn:E2;
        [apply GWP_VoiceInFlight_inactive; reflexivity|].
      apply Z.leb_gt in E2. intros _. cbn. repeat split; try assumption; lia.
    + cbn [fst]. apply Z.leb_gt in R. rewrite R. exact H.
Qed.

Lemma GWP_RenderVoices_voices h inp bs vs : forall slot out,
  (Forall GWP_VoiceInFlight vs ->
   Forall GWP_VoiceInFlight (fst (RenderVoices h inp bs slot vs out)))
  /\ length (fst (RenderVoices h inp bs slot vs out)) = length vs.
Proof.
  induction vs as [|v vs IH]; intros slot out; cbn [RenderVoices].
  - cbn. auto.
  - pose proof (GWP_RenderVoice_voice h inp bs slot v out) as P.
    destruct (RenderVoice h inp bs slot v out) as [v1 out1]. cbn [fst] in P.
    destruct (IH (S slot) out1) as [I1 I2].
    destruct (RenderVoices h inp bs (S slot) vs out1) as [vs1 out2].
    cbn [fst length] in *. split; [|congruence].
    intro H. inversion H; subst. constructor; auto.
Qed.

Lemma GWP_RenderAndMix_voices h inp s :
  let s' := RenderAndMix h inp s in
  (Forall GWP_VoiceInFlight (GrainVoices s) ->
   Forall GWP_VoiceInFlight (GrainVoices s'))
  /\ length (GrainVoices s') = length (GrainVoices s)
  /\ GWP_KeepsWave s s'
  /\ BlockSize s' = BlockSize s /\ SampleRate s' = SampleRate s.
Proof.
  cbv zeta. unfold RenderAndMix.
  destruct (GWP_RenderVoices_voices h inp (BlockSize s) (GrainVoices s) 0%nat
              (AudioOutputLeft s, AudioOutputRight s)) as [R1 R2].
  destruct (RenderVoices h inp (BlockSize s) 0 (GrainVoices s) _)
    as [vs [oL oR]].
  cbn [fst] in R1, R2. unfold GWP_KeepsWave. cbn. tauto.
Qed.

Lemma GWP_FinalSmoothingPass_frame inp s :
  let s' := FinalSmoothingPass inp s in
  GrainVoices s' = GrainVoices s /\ GWP_KeepsWave s s'
  /\ BlockSize s' = BlockSize s /\ SampleRate s' = SampleRate s
  /\ length (AudioOutputLeft s') = length (AudioOutputLeft s)
  /\ length (AudioOutputRight s') = length (AudioOutputRight s).
Proof.
  cbv zeta. unfold FinalSmoothingPass.
  destruct (Qltb _ _); [|auto 10 using GWP_KeepsWave_refl].
  match goal with |- context [OnePole ?c ?n (PrevGrainValue0 s) ?b] =>
    pose proof (OnePole_frame c n b (PrevGrainValue0 s)) as [L _];
    destruct (OnePole c n (PrevGrainValue0 s) b) as [oL p0] end.
  match goal with |- context [OnePole ?c ?n (PrevGrainValue1 s) ?b] =>
    pose proof (OnePole_frame c n b (PrevGrainValue1 s)) as [R _];
    destruct (OnePole c n (PrevGrainValue1 s) b) as [oR p1] end.
  cbn [fst] in L, R. unfold GWP_KeepsWave. cbn. tauto.
Qed.

Lemma GWP_Scheduler_frame h inp fuel b s n s' :
  Scheduler h inp fuel b s = Some (n, s') ->
  GrainVoices s' = GrainVoices s /\ GWP_KeepsWave s s'.
Proof.
  unfold Scheduler, GWP_KeepsWave.
  destruct b; [intros [= _ <-]; tauto|].
  destruct (_ && _); [|intros [= _ <-]; tauto].
  destruct (SchedulerLoop _ _ _ _ _ _ _ _ _ _ _) as [[[S0 G] d]|]; [|discriminate].
  intros [= _ <-]. cbn. tauto.
Qed.

Lemma GWP_InitializeWaveData_facts h px s :
  let r := InitializeWaveData h px s in
  fst r = WaveInitializes h px
  /\ (fst r = true -> GWP_WaveReady (snd r))
  /\ GrainVoices (snd r) = GrainVoices s
  /\ bIsPlaying (snd r) = bIsPlaying s
  /\ CurrentPlaybackPositionSeconds (snd r) = CurrentPlaybackPositionSeconds s
  /\ TimeOutput (snd r) = TimeOutput s.
Proof.
  cbv zeta. unfold InitializeWaveData, WaveInitializes, GWP_WaveReady.
  destruct (Reader_Create h px (DefaultSettings h)) as [r|];
    [|cbn; repeat split; auto; discriminate].
  destruct (ReaderNumChannels r <=? 0)%Z eqn:C;
    [cbn; repeat split; auto; discriminate|].
  destruct (Qleb _ 0) eqn:D; [cbn; repeat split; auto; discriminate|].
  cbn [orb negb andb].
  destruct (Deinterleave_Create h (ReaderNumChannels r));
    [|cbn; repeat split; auto; discriminate].
  cbn. apply Z.leb_gt in C. apply Qleb_false in D. repeat split; auto.
Qed.

Lemma GWP_StopNow_sound s :
  0 <= CurrentPlaybackPositionSeconds s -> 0 <= TimeOutput s ->
  GWP_Sound (StopNow s) /\ bIsPlaying (StopNow s) = false.
Proof.
  intros P T. unfold StopNow, GWP_Sound, GWP_Ready. cbn.
  split; [|reflexivity]. split; [|discriminate].
  split; [apply GWP_Forall_reset|].
  split; [intros _; apply GWP_filter_active_reset|].
  split; [discriminate|]. split; assumption.
Qed.

Lemma GWP_TryStartPlayback_ready h inp f s :
  0 <= CurrentPlaybackPositionSeconds s -> 0 <= TimeOutput s ->
  GWP_Ready (snd (TryStartPlayback h inp f s))
  /\ bIsPlaying (snd (TryStartPlayback h inp f s))
     = fst (TryStartPlayback h inp f s).
Proof.
  intros Hp Ht.
  assert (Reset : forall s0, bIsPlaying s0 = false ->
            CurrentPlaybackPositionSeconds s0 = CurrentPlaybackPositionSeconds s ->
            TimeOutput s0 = TimeOutput s ->
            GWP_Ready (ResetVoices s0) /\ bIsPlaying (ResetVoices s0) = false).
  { intros s0 P E1 E2. unfold GWP_Ready. cbn. rewrite P, E1, E2.
    split; [|reflexivity].
    split; [apply GWP_Forall_reset|].
    split; [intros _; apply GWP_filter_active_reset|].
    split; [discriminate|]. split; assumption. }
  assert (Clear : forall s0, bIsPlaying s0 = false ->
            CurrentPlaybackPositionSeconds s0 = CurrentPlaybackPositionSeconds s ->
            TimeOutput s0 = TimeOutput s ->
            GWP_Ready (ClearWaveData (ResetVoices s0))
            /\ bIsPlaying (ClearWaveData (ResetVoices s0)) = false).
  { intros s0 P E1 E2. unfold GWP_Ready. cbn. rewrite P, E1, E2.
    split; [|reflexivity].
    split; [apply GWP_Forall_reset|].
    split; [intros _; apply GWP_filter_active_reset|].
    split; [discriminate|]. split; assumption. }
  unfold TryStartPlayback.
  destruct (negb (IsSoundWaveValid inp));
    [apply Clear; destruct (bIsPlaying s); reflexivity|].
  destruct (SoundWaveProxy inp) as [px|];
    [|apply Clear; destruct (bIsPlaying s); reflexivity].
  pose proof (GWP_InitializeWaveData_facts h px (set_bIsPlaying false s))
    as (_ & W & _ & P & E1 & E2).
  destruct (InitializeWaveData h px (set_bIsPlaying false s)) as [ok s1].
  cbn [fst snd] in *. cbn in P, E1, E2.
  destruct ok; cbn [negb].
  - specialize (W eq_refl). cbn [fst snd]. split; [|reflexivity].
    unfold GWP_Ready. cbn. rewrite E1, E2.
    split; [apply GWP_Forall_reset|].
    split; [discriminate|]. split; [intros _; exact W|]. split; assumption.
  - cbn [fst snd]. apply Reset; destruct (bIsPlaying s); cbn; assumption.
Qed.

Lemma GWP_PlayLoop_ready h inp frames : forall b s,
  GWP_Ready s -> GWP_Ready (snd (PlayLoop h inp frames b s)).
Proof.
  induction frames as [|f frames IH]; intros b s H; cbn [PlayLoop]; [exact H|].
  destruct H as (_ & _ & _ & Hp & Ht).
  pose proof (GWP_TryStartPlayback_ready h inp f s Hp Ht) as [V P].
  destruct (TryStartPlayback h inp f s) as [ok s1]. cbn [fst snd] in V, P.
  destruct ok; apply IH; [exact V|].
  destruct V as (V1 & V2 & V3 & V4 & V5).
  destruct (negb _); unfold GWP_Ready; cbn;
    (split; [exact V1|]); (split; [intros _; apply V2, P|]);
    (split; [discriminate|]); split; assumption.
Qed.

Lemma GWP_ProcessTriggers_ready h inp s :
  GWP_Ready s -> GWP_Ready (ProcessTriggers h inp s).
Proof.
  intro H. unfold ProcessTriggers.
  destruct (StopScan _ _) as [b0 f0].
  match goal with |- context [PlayLoop ?h ?i ?f ?b ?s0] =>
    pose proof (GWP_PlayLoop_ready h i f b s0 H) as P;
    destruct (PlayLoop h i f b s0) as [b1 s1] end.
  cbn [snd] in P.
  destruct (b1 && bIsPlaying s1); [|exact P].
  destruct P as (_ & _ & _ & P4 & P5).
  unfold GWP_Ready. cbn.
  split; [apply GWP_Forall_reset|].
  split; [intros _; apply GWP_filter_active_reset|].
  split; [discriminate|]. split; assumption.
Qed.

Lemma GWP_UpdatePosition_frame inp s :
  let s' := snd (UpdatePosition inp s) in
  GrainVoices s' = GrainVoices s /\ bIsPlaying s' = bIsPlaying s
  /\ CurrentWaveProxy s' = CurrentWaveProxy s
  /\ CurrentNumChannels s' = CurrentNumChannels s
  /\ ConvertDeinterleave s' = ConvertDeinterleave s.
Proof.
  cbv zeta. unfold UpdatePosition.
  repeat match goal with
  | |- context [if ?c then _ else _] => destruct c
  end; cbn; auto.
Qed.

(** A playing block that reaches the mixing ends playing, with the Time
    output at the position of the block. *)
Lemma GWP_PositionSpawnRender_sound h inp fuel b s s' :
  GWP_Ready s -> bIsPlaying s = true ->
  0 < SampleRate s -> (0 <= BlockSize s)%Z ->
  PositionSpawnRender h inp fuel b s = Some s' ->
  GWP_Sound s' /\ bIsPlaying s' = true.
Proof.
  intros (V & _ & W & Hp & _) Pl Hr Hb. destruct (W Pl) as (W1 & W2 & W3 & W4).
  unfold PositionSpawnRender.
  pose proof (GWP_UpdatePosition_spec inp s W4 Hp Hr Hb)
    as (U1 & U2 & U3 & U4 & U5 & _).
  pose proof (GWP_UpdatePosition_frame inp s) as (F1 & F2 & F3 & F4 & F5).
  destruct (UpdatePosition inp s) as [[chg pos] s1].
  cbn [fst snd] in U1, U2, U3, U4, U5, F1, F2, F3, F4, F5.
  set (s2 := ClearForMixing b s1).
  assert (C : GrainVoices s2 = GrainVoices s1 /\ GWP_KeepsWave s1 s2).
  { unfold s2, ClearForMixing, GWP_KeepsWave. destruct (negb b); cbn; tauto. }
  destruct C as [C1 C2].
  destruct (Scheduler h inp fuel chg s2) as [[G s3]|] eqn:Es; [|discriminate].
  destruct (GWP_Scheduler_frame h inp fuel chg s2 G s3 Es) as [S1 S2].
  destruct (GWP_SpawnLoop_voices h inp pos (Z.to_nat G) s3) as (L1 & _ & L3).
  set (s4 := SpawnLoop h inp pos (Z.to_nat G) s3) in *.
  destruct (GWP_RenderAndMix_voices h inp s4) as (R1 & _ & R3 & _).
  set (s5 := RenderAndMix h inp s4) in *.
  destruct (GWP_FinalSmoothingPass_frame inp s5) as (M1 & M2 & _).
  set (s6 := FinalSmoothingPass inp s5) in *.
  intros [= <-].
  pose proof (GWP_KeepsWave_trans _ _ _ C2
                (GWP_KeepsWave_trans _ _ _ S2
                   (GWP_KeepsWave_trans _ _ _ L3
                      (GWP_KeepsWave_trans _ _ _ R3 M2)))) as K.
  destruct K as (K1 & K2 & K3 & K4 & K5 & K6 & K7).
  assert (V6 : Forall GWP_VoiceInFlight (GrainVoices s6)).
  { rewrite M1. apply R1, L1. rewrite S1, C1, F1. exact V. }
  unfold GWP_Sound, GWP_Ready, GWP_WaveReady. cbn.
  rewrite K1, K2, K3, K4, K5, K6, F2, F3, F4, F5, U1, U5, Pl.
  split; [|reflexivity].
  split; [|intros _; split; [reflexivity|exact U4]].
  split; [exact V6|]. split; [discriminate|].
  split; [intros _; auto|]. split; assumption.
Qed.

(** Once the block is playing after its triggers, the two defensive checks
    of Execute cannot fire. *)
Lemma GWP_ExecutePlaying_cases h inp fuel s :
  bIsPlaying s = true -> GWP_Ready s ->
  ExecutePlaying h inp fuel s
  = match SoundWaveProxy inp with
    | None => Some (StopNow s)
    | Some px =>
        if WaveChanged inp s then
          if WaveInitializes h px
          then PositionSpawnRender h inp fuel true
                 (snd (InitializeWaveData h px s))
          else Some (StopNow (snd (InitializeWaveData h px s)))
        else PositionSpawnRender h inp fuel false s
    end.
Proof.
  intros Hp (V & _ & W & _). destruct (W Hp) as (W1 & W2 & W3 & W4).
  unfold ExecutePlaying. rewrite W1. cbn [negb].
  assert (Sane : forall b s0,
            (0 < CurrentNumChannels s0)%Z -> ConvertDeinterleave s0 = true ->
            0 < CachedSoundWaveDuration s0 ->
            SanityAndMix h inp fuel b s0 = PositionSpawnRender h inp fuel b s0).
  { intros b s0 A B C. unfold SanityAndMix.
    apply Z.leb_gt in A. apply Qleb_false in C. rewrite A, B, C. reflexivity. }
  destruct (SoundWaveProxy inp) as [px|]; [|reflexivity].
  destruct (WaveChanged inp s); [|apply Sane; assumption].
  pose proof (GWP_InitializeWaveData_facts h px s) as (Ok & Rd & _).
  destruct (InitializeWaveData h px s) as [ok s1]. cbn [fst snd] in *.
  rewrite <- Ok. destruct ok; cbn [negb]; [|reflexivity].
  destruct (Rd eq_refl) as (R1 & R2 & R3 & R4).
  apply (Sane true s1); assumption.
Qed.

Lemma GWP_Execute_sound h inp fuel s s' :
  GWP_Ready s -> 0 < SampleRate s -> (0 <= BlockSize s)%Z ->
  Execute h inp fuel s = Some s' -> GWP_Sound s'.
Proof.
  intros H Hr Hb.
  pose proof (GWP_ProcessTriggers_KeepsBuffers h inp s) as (_ & _ & K3 & K4).
  apply (GWP_ProcessTriggers_ready h inp) in H.
  unfold Execute. set (s1 := ProcessTriggers h inp s) in *.
  rewrite <- K3 in Hb. rewrite <- K4 in Hr.
  destruct (bIsPlaying s1) eqn:Hp; cbn [negb].
  - rewrite (GWP_ExecutePlaying_cases h inp fuel s1 Hp H).
    pose proof H as (V & _ & _ & P & T).
    destruct (SoundWaveProxy inp) as [px|];
      [|intros [= <-]; apply GWP_StopNow_sound; assumption].
    destruct (WaveChanged inp s1).
    + pose proof (GWP_InitializeWaveData_facts h px s1)
        as (Ok & Rd & F1 & F2 & F3 & F4).
      pose proof (GWP_InitializeWaveData_KeepsBuffers h px s1)
        as (_ & _ & I3 & I4).
      destruct (WaveInitializes h px).
      * intro E. eapply GWP_PositionSpawnRender_sound; [| | | |exact E];
          try congruence.
        unfold GWP_Ready. rewrite F1, F2, F3, F4, Hp.
        split; [exact V|]. split; [discriminate|].
        split; [intros _; apply Rd, Ok|]. split; assumption.
      * intros [= <-]. apply GWP_StopNow_sound; congruence.
    + intro E. eapply GWP_PositionSpawnRender_sound; [| | | |exact E];
        assumption.
  - cbv zeta. destruct H as (V & N & _ & P & _). specialize (N Hp).
    intros [= <-].
    destruct (_ || _ || _); unfold GWP_Sound, GWP_Ready; cbn; rewrite ?Hp.
    + split; [|discriminate].
      split; [apply GWP_Forall_reset|].
      split; [intros _; apply GWP_filter_active_reset|].
      split; [discriminate|]. split; [exact P|discriminate].
    + split; [|discriminate].
      split; [exact V|]. split; [intros _; exact N|].
      split; [discriminate|]. split; [exact P|discriminate].
Qed.

Lemma GWP_TryStartPlayback_length h inp f s :
  length (GrainVoices (snd (TryStartPlayback h inp f s)))
  = length (GrainVoices s).
Proof.
  unfold TryStartPlayback.
  destruct (negb (IsSoundWaveValid inp));
    [destruct (bIsPlaying s); cbn; apply length_map|].
  destruct (SoundWaveProxy inp) as [px|];
    [|destruct (bIsPlaying s); cbn; apply length_map].
  pose proof (GWP_InitializeWaveData_facts h px (set_bIsPlaying false s))
    as (_ & _ & V & _).
  destruct (InitializeWaveData h px (set_bIsPlaying false s)) as [ok s1].
  cbn [snd] in V. cbn in V.
  destruct ok; cbn [negb]; [cbn; rewrite length_map; congruence|].
  destruct (bIsPlaying s); cbn; rewrite length_map; congruence.
Qed.

Lemma GWP_PlayLoop_length h inp frames : forall b s,
  length (GrainVoices (snd (PlayLoop h inp frames b s)))
  = length (GrainVoices s).
Proof.
  induction frames as [|f frames IH]; intros b s; cbn [PlayLoop]; [reflexivity|].
  pose proof (GWP_TryStartPlayback_length h inp f s) as L.
  destruct (TryStartPlayback h inp f s) as [ok s1]. cbn [snd] in L.
  destruct ok; rewrite IH; [exact L|].
  destruct (negb _); cbn; exact L.
Qed.

Lemma GWP_ProcessTriggers_length h inp s :
  length (GrainVoices (ProcessTriggers h inp s)) = length (GrainVoices s).
Proof.
  unfold ProcessTriggers.
  destruct (StopScan _ _) as [b0 f0].
  match goal with |- context [PlayLoop ?h ?i ?f ?b ?s0] =>
    pose proof (GWP_PlayLoop_length h i f b s0) as P;
    destruct (PlayLoop h i f b s0) as [b1 s1] end.
  cbn [snd] in P. cbn in P.
  destruct (b1 && bIsPlaying s1); [cbn; rewrite length_map|]; exact P.
Qed.

Lemma GWP_PositionSpawnRender_settings h inp fuel b s s' :
  PositionSpawnRender h inp fuel b s = Some s' ->
  BlockSize s' = BlockSize s /\ SampleRate s' = SampleRate s
  /\ length (AudioOutputLeft s') = length (AudioOutputLeft s)
  /\ length (AudioOutputRight s') = length (AudioOutputRight s)
  /\ length (GrainVoices s') = length (GrainVoices s).
Proof.
  unfold PositionSpawnRender.
  pose proof (GWP_UpdatePosition_KeepsBuffers inp s) as (U1 & U2 & U3 & U4).
  pose proof (GWP_UpdatePosition_frame inp s) as (F1 & _).
  destruct (UpdatePosition inp s) as [[chg pos] s1].
  cbn [fst snd] in U1, U2, U3, U4, F1.
  set (s2 := ClearForMixing b s1).
  assert (C : BlockSize s2 = BlockSize s1 /\ SampleRate s2 = SampleRate s1
              /\ length (AudioOutputLeft s2) = length (AudioOutputLeft s1)
              /\ length (AudioOutputRight s2) = length (AudioOutputRight s1)
              /\ GrainVoices s2 = GrainVoices s1).
  { unfold s2, ClearForMixing. destruct (negb b); cbn;
      rewrite ?MemsetZero_length; auto. }
  destruct C as (C1 & C2 & C3 & C4 & C5).
  destruct (Scheduler h inp fuel chg s2) as [[G s3]|] eqn:Es; [|discriminate].
  destruct (GWP_Scheduler_frame h inp fuel chg s2 G s3 Es) as [S1 _].
  destruct (GWP_Scheduler_KeepsBuffers h inp fuel chg s2 G s3 Es)
    as (S2 & S3 & S4 & S5).
  destruct (GWP_SpawnLoop_voices h inp pos (Z.to_nat G) s3) as (_ & L2 & _).
  destruct (GWP_SpawnLoop_KeepsBuffers h inp pos (Z.to_nat G) s3)
    as (L3 & L4 & L5 & L6).
  set (s4 := SpawnLoop h inp pos (Z.to_nat G) s3) in *.
  destruct (GWP_RenderAndMix_voices h inp s4) as (_ & R2 & _ & R4 & R5).
  destruct (GWP_RenderAndMix_MixedOnto h inp s4) as (_ & _ & R6 & R7 & _).
  set (s5 := RenderAndMix h inp s4) in *.
  destruct (GWP_FinalSmoothingPass_frame inp s5)
    as (M1 & _ & M3 & M4 & M5 & M6).
  set (s6 := FinalSmoothingPass inp s5) in *.
  intros [= <-]. cbn.
  repeat split; congruence.
Qed.

Lemma GWP_Execute_settings h inp fuel s s' :
  Execute h inp fuel s = Some s' ->
  BlockSize s' = BlockSize s /\ SampleRate s' = SampleRate s
  /\ length (AudioOutputLeft s') = length (AudioOutputLeft s)
  /\ length (AudioOutputRight s') = length (AudioOutputRight s)
  /\ length (GrainVoices s') = length (GrainVoices s).
Proof.
  pose proof (GWP_ProcessTriggers_KeepsBuffers h inp s) as (K1 & K2 & K3 & K4).
  pose proof (GWP_ProcessTriggers_length h inp s) as K5.
  unfold Execute. set (s1 := ProcessTriggers h inp s) in *.
  rewrite <- K1, <- K2, <- K3, <- K4, <- K5. clearbody s1. clear.
  assert (Stop : forall s0,
            BlockSize (StopNow s0) = BlockSize s0
            /\ SampleRate (StopNow s0) = SampleRate s0
            /\ length (AudioOutputLeft (StopNow s0)) = length (AudioOutputLeft s0)
            /\ length (AudioOutputRight (StopNow s0)) = length (AudioOutputRight s0)
            /\ length (GrainVoices (StopNow s0)) = length (GrainVoices s0)).
  { intro s0. unfold StopNow. cbn.
    rewrite !ZeroBuffer_length, length_map. auto. }
  destruct (bIsPlaying s1); cbn [negb].
  - unfold ExecutePlaying.
    destruct (negb _); [intros [= <-]; apply Stop|].
    destruct (SoundWaveProxy inp) as [px|]; [|intros [= <-]; apply Stop].
    assert (San : forall b s0,
              SanityAndMix h inp fuel b s0 = Some s' ->
              BlockSize s' = BlockSize s0 /\ SampleRate s' = SampleRate s0
              /\ length (AudioOutputLeft s') = length (AudioOutputLeft s0)
              /\ length (AudioOutputRight s') = length (AudioOutputRight s0)
              /\ length (GrainVoices s') = length (GrainVoices s0)).
    { intros b s0. unfold SanityAndMix.
      destruct (_ || _ || _);
        [intros [= <-]; apply Stop|apply GWP_PositionSpawnRender_settings]. }
    destruct (WaveChanged inp s1); [|apply San].
    pose proof (GWP_InitializeWaveData_KeepsBuffers h px s1)
      as (I1 & I2 & I3 & I4).
    pose proof (GWP_InitializeWaveData_facts h px s1) as (_ & _ & I5 & _).
    destruct (InitializeWaveData h px s1) as [ok s2]. cbn [snd] in *.
    rewrite <- I1, <- I2, <- I3, <- I4, <- I5.
    destruct ok; cbn [negb]; [apply San|intros [= <-]; apply Stop].
  - cbv zeta. intros [= <-]. destruct (_ || _ || _); cbn;
      rewrite ?ZeroBuffer_length, ?length_map; auto.
Qed.

(** At every block boundary of a session built at a positive sample rate
    the settings are those the operator was built with, the pool has its
    32 voices, every active voice holds its reader and its resampler, has
    samples left and a consistent account, no voice is active while the
    operator is stopped, the playback position and the Time output are
    never negative, and a playing operator has a wave bound with channels,
    a deinterleaver and a positive duration, its position is before the end
    of the wave and the Time output reports it.  So in a session the checks
    of Execute for a missing wave and for invalid wave data never fire. *)
Theorem GWP_session_invariant (h : Host) (rate : Q) (frames : Z)
  (s : Operator) :
  0 < rate -> (0 <= frames)%Z ->
  GWP_Session h rate frames s ->
  SampleRate s = rate /\ BlockSize s = frames
  /\ length (GrainVoices s) = 32%nat
  /\ length (AudioOutputLeft s) = Z.to_nat frames
  /\ length (AudioOutputRight s) = Z.to_nat frames
  /\ GWP_Sound s
  /\ forall inp fuel,
       let s1 := ProcessTriggers h inp s in
       bIsPlaying s1 = true ->
       GWP_WaveReady s1
       /\ Execute h inp fuel s
          = match SoundWaveProxy inp with
            | None => Some (StopNow s1)
            | Some px =>
                if WaveChanged inp s1 then
                  if WaveInitializes h px
                  then PositionSpawnRender h inp fuel true
                         (snd (InitializeWaveData h px s1))
                  else Some (StopNow (snd (InitializeWaveData h px s1)))
                else PositionSpawnRender h inp fuel false s1
            end.
Proof.
  intros Hr Hf R.
  assert (I : SampleRate s = rate /\ BlockSize s = frames
              /\ length (GrainVoices s) = 32%nat
              /\ length (AudioOutputLeft s) = Z.to_nat frames
              /\ length (AudioOutputRight s) = Z.to_nat frames
              /\ GWP_Sound s).
  { induction R as [|inp fuel s s' R IH E|s R IH].
    - cbn. rewrite !repeat_length.
      do 5 (split; [reflexivity|]).
      split; [|discriminate].
      split; [apply GWP_NoActive_InFlight; reflexivity|].
      split; [reflexivity|]. split; [discriminate|].
      split; discriminate.
    - destruct IH as (A1 & A2 & A3 & A4 & A5 & A6 & _).
      destruct (GWP_Execute_settings h inp fuel s s' E) as (B1 & B2 & B3 & B4 & B5).
      do 5 (split; [congruence|]).
      apply (GWP_Execute_sound h inp fuel s s'); congruence.
    - destruct IH as (A1 & A2 & A3 & A4 & A5 & (_ & _ & _ & _ & T) & _).
      cbn. rewrite !ZeroBuffer_length, length_map.
      do 5 (split; [assumption|]).
      split; [|discriminate].
      split; [apply GWP_Forall_reset|].
      split; [intros _; apply GWP_filter_active_reset|].
      split; [discriminate|]. split; [discriminate|exact T]. }
  destruct I as (I1 & I2 & I3 & I4 & I5 & I6).
  do 5 (split; [assumption|]). split; [exact I6|].
  intros inp fuel s1 Hp.
  pose proof (GWP_ProcessTriggers_ready h inp s (proj1 I6)) as S1. fold s1 in S1.
  split; [apply S1, Hp|].
  unfold Execute. fold s1. rewrite Hp. cbn [negb].
  apply GWP_ExecutePlaying_cases; assumption.
Qed.

(** The wave player one block after Play at frame 0, on the demo host. *)
Lemma GWP_session_invariant_witness :
  exists s, Execute DemoHost
              (SmoothDemo.Pins [0%Z] [] true (Some 7%nat) 100 0) 10
              SmoothDemo.Fresh = Some s
            /\ length (GrainVoices s) = 32%nat /\ GWP_Sound s.
Proof.
  destruct (Execute DemoHost
              (SmoothDemo.Pins [0%Z] [] true (Some 7%nat) 100 0) 10
              SmoothDemo.Fresh) as [s|] eqn:E; [|vm_compute in E; discriminate].
  exists s. split; [reflexivity|].
  destruct (GWP_session_invariant DemoHost 48000 8 s)
    as (_ & _ & L & _ & _ & S & _).
  - reflexivity.
  - discriminate.
  - exact (GWP_Session_Execute DemoHost 48000 8 _ _ _ _
             (GWP_Session_Construct DemoHost 48000 8 1515870810) E).
  - split; [exact L|exact S].
Defined.

End GWP_session.

(** ** The level of the mix *)

Lemma Qabs_mult_le a b A B :
  Qabs a <= A -> Qabs b <= B -> Qabs (a * b) <= A * B.
Proof.
  intros Ha Hb. rewrite Qabs_Qmult.
  pose proof (Qabs_nonneg a) as Na. pose proof (Qabs_nonneg b) as Nb.
  apply Qle_trans with (A * Qabs b).
  - apply Qmult_le_compat_r; assumption.
  - rewrite (Qmult_comm A (Qabs b)), (Qmult_comm A B).
    apply Qmult_le_compat_r; [assumption|qlra].
Qed.

Lemma ArrayMixIn_bound h src dst g M :
  0 <= M -> Qabs g <= 1 -> (forall i, Qabs (nth i src 0) <= M) ->
  forall i,
    Qabs (nth i (ArrayMixIn (ScalarQ h) src dst g) 0)
    <= Qabs (nth i dst 0) + M.
Proof.
  intros HM Hg Hs i.
  destruct (Nat.lt_ge_cases i (length src)) as [Ls|Ls].
  - destruct (Nat.lt_ge_cases i (length dst)) as [Ld|Ld].
    + rewrite ArrayMixIn_nth by assumption. cbn [sadd smul ScalarQ].
      eapply Qle_trans; [apply Qabs_triangle|].
      pose proof (Qabs_mult_le _ _ _ _ (Hs i) Hg) as P.
      setoid_replace (M * 1) with M in P by ring. qlra.
    + rewrite (nth_overflow (ArrayMixIn _ _ _ _))
        by (rewrite ArrayMixIn_length; exact Ld).
      rewrite (nth_overflow dst) by exact Ld. cbn. qlra.
  - rewrite ArrayMixIn_nth_beyond by exact Ls. qlra.
Qed.

Section GS_level.
Import FGranularSynthOperator.

Variable h : Host.
Variable M : Q.
Hypothesis M_nonneg : 0 <= M.
Hypothesis Cos_bound : forall x, Qabs (Cos h x) <= 1.
Hypothesis Sin_bound : forall x, Qabs (Sin h x) <= 1.
Hypothesis Samples_bound : forall slot played frames i,
  Qabs (Channel0 (Resample h slot played frames) i) <= M
  /\ Qabs (Channel1 (Resample h slot played frames) i) <= M.

Lemma MonoSample_bound channels slot played frames i :
  Qabs (MonoSample channels (Resample h slot played frames) i) <= M.
Proof.
  destruct (Samples_bound slot played frames i) as [A B].
  unfold MonoSample.
  destruct (channels =? 1)%Z; [exact A|].
  destruct (2 <=? channels)%Z; [|cbn; exact M_nonneg].
  apply Qabs_Qle_condition in A. apply Qabs_Qle_condition in B.
  apply Qabs_Qle_condition. split; qlra.
Qed.

Lemma MonoBuffer_bound inp slot v frames :
  Qabs (VolumeScale v) <= 1 ->
  forall i, Qabs (nth i (MonoBuffer h inp slot v frames) 0) <= M.
Proof.
  intros Hv i. unfold MonoBuffer.
  destruct (_ && _ && _).
  - unfold EnvelopedMono.
    destruct (Nat.lt_ge_cases i (Z.to_nat frames)) as [L|L].
    + rewrite nth_map_seq by exact L.
      destruct (i <? _)%nat; [|cbn; exact M_nonneg].
      pose proof (MonoSample_bound (NumChannels v) slot (SamplesPlayed v)
                    frames i) as A.
      pose proof (Clamp_range
                    (EnvelopeScale h inp (TotalGrainSamples v)
                       (SamplesPlayed v + Z.of_nat i)) 0 1 ltac:(qlra)) as [E0 E1].
      fold (EnvelopeGain h inp (TotalGrainSamples v)
              (SamplesPlayed v + Z.of_nat i)) in E0, E1.
      assert (E : Qabs (EnvelopeGain h inp (TotalGrainSamples v)
                          (SamplesPlayed v + Z.of_nat i)) <= 1)
        by (apply Qabs_Qle_condition; split; qlra).
      pose proof (Qabs_mult_le _ _ _ _ (Qabs_mult_le _ _ _ _ A Hv) E) as P.
      setoid_replace (M * 1 * 1) with M in P by ring. exact P.
    + rewrite nth_overflow by (rewrite length_map, length_seq; exact L).
      cbn. exact M_nonneg.
  - destruct (Nat.lt_ge_cases i (Z.to_nat frames)) as [L|L].
    + rewrite nth_repeat_lt by exact L. cbn. exact M_nonneg.
    + rewrite nth_overflow by (rewrite repeat_length; exact L).
      cbn. exact M_nonneg.
Qed.

Lemma RenderVoice_bound inp bs slot v L R :
  Qabs (VolumeScale v) <= 1 ->
  let r := RenderVoice h inp bs slot v (L, R) in
  let a := if bIsActive v then M else 0 in
  forall i,
    Qabs (nth i (fst (snd r)) 0) <= Qabs (nth i L 0) + a
    /\ Qabs (nth i (snd (snd r)) 0) <= Qabs (nth i R 0) + a.
Proof.
  intros Hv r a i. unfold r, a, RenderVoice.
  destruct (bIsActive v); [|cbn [fst snd]; split; qlra].
  destruct (_ <=? 0)%Z; [cbn [fst snd]; split; qlra|].
  cbn [fst snd].
  split; apply ArrayMixIn_bound; try exact M_nonneg;
    try (apply MonoBuffer_bound; exact Hv).
  - apply Cos_bound.
  - apply Sin_bound.
Qed.

Lemma RenderVoices_bound inp bs vs : forall slot L R,
  Forall (fun v => Qabs (VolumeScale v) <= 1) vs ->
  let r := RenderVoices h inp bs slot vs (L, R) in
  forall i,
    Qabs (nth i (fst (snd r)) 0)
    <= Qabs (nth i L 0)
       + inject_Z (Z.of_nat (length (filter bIsActive vs))) * M
    /\ Qabs (nth i (snd (snd r)) 0)
       <= Qabs (nth i R 0)
          + inject_Z (Z.of_nat (length (filter bIsActive vs))) * M.
Proof.
  induction vs as [|v vs IH]; intros slot L R Hv; cbn [RenderVoices].
  - cbn [fst snd filter length]. intro i. change (inject_Z (Z.of_nat 0)) with 0.
    split; qlra.
  - inversion Hv as [|v0 vs0 Hv1 Hv2]; subst.
    pose proof (RenderVoice_bound inp bs slot v L R Hv1) as P. cbv zeta in P.
    destruct (RenderVoice h inp bs slot v (L, R)) as [v1 [L1 R1]].
    specialize (IH (S slot) L1 R1 Hv2). cbv zeta in IH.
    destruct (RenderVoices h inp bs (S slot) vs (L1, R1)) as [vs1 [L2 R2]].
    cbn [fst snd] in *. intro i.
    destruct (P i) as [P1 P2]. destruct (IH i) as [I1 I2].
    cbn [filter]. destruct (bIsActive v); cbn [length].
    + rewrite Nat2Z.inj_succ. unfold Z.succ. rewrite inject_Z_plus.
      change (inject_Z 1) with 1. split; qlra.
    + split; qlra.
Qed.

End GS_level.

Section GS_level_theorem.
Import FGranularSynthOperator.

(** When the host's cosine and sine stay within [-1, 1], the samples the
    resampler delivers within [-M, M] and the volume scales of the voices
    within [-1, 1], rendering raises the magnitude of a frame of either
    output by at most M for each active voice, and the active voices are
    at most the slots of the pool. *)
Theorem Mix_level_is_bounded_by_the_active_voices (h : Host) (inp : Inputs)
  (M : Q) (bs : Z) (slot : nat) (vs : list FGrainVoice) (L R : list Q) :
  0 <= M ->
  (forall x, Qabs (Cos h x) <= 1) -> (forall x, Qabs (Sin h x) <= 1) ->
  (forall slot played frames i,
     Qabs (Channel0 (Resample h slot played frames) i) <= M
     /\ Qabs (Channel1 (Resample h slot played frames) i) <= M) ->
  Forall (fun v => Qabs (VolumeScale v) <= 1) vs ->
  let r := RenderVoices h inp bs slot vs (L, R) in
  let active := length (filter bIsActive vs) in
  (active <= length vs)%nat
  /\ forall i,
       Qabs (nth i (fst (snd r)) 0)
       <= Qabs (nth i L 0) + inject_Z (Z.of_nat active) * M
       /\ Qabs (nth i (snd (snd r)) 0)
          <= Qabs (nth i R 0) + inject_Z (Z.of_nat active) * M.
Proof.
  intros HM HC HS HR HV r active.
  split; [apply filter_length_le|].
  apply (RenderVoices_bound h M HM HC HS HR inp bs vs slot L R HV).
Qed.

(** The voices of the playing demo operator, on silent buffers of 8
    frames. *)
Lemma Mix_level_is_bounded_by_the_active_voices_witness :
  let r := RenderVoices DemoHost Demo.Idle 8 0
             [VoiceAt Demo.Playing 0] (repeat 0 8, repeat 0 8) in
  Qabs (nth 0 (fst (snd r)) 0) <= 1.
Proof.
  intro r.
  destruct (Mix_level_is_bounded_by_the_active_voices DemoHost Demo.Idle 1 8
              0%nat [VoiceAt Demo.Playing 0] (repeat 0 8) (repeat 0 8))
    as (_ & B).
  - discriminate.
  - intro x. discriminate.
  - intro x. discriminate.
  - intros. split; discriminate.
  - constructor; [vm_compute; discriminate|constructor].
  - destruct (B 0%nat) as [B1 _].
    eapply Qle_trans; [exact B1|]. vm_compute. discriminate.
Defined.

End GS_level_theorem.

(** ** The lifetime of a voice of FGranularSynthOperator_Step8 *)

Section Step8_lifetime.
Import FGranularSynthOperator_Step8.

Variable h : Host.
Variable inp : Inputs.
Variable bs : Z.
Variable slot : nat.
Variable outs : nat -> list Q * list Q.
Hypothesis bs_pos : (0 < bs)%Z.

Let Blocks := Step8_RenderBlocks h inp bs slot outs.

Lemma Step8_RenderVoice_inactive v out :
  bIsActive v = false -> RenderVoice h inp bs slot v out = (v, out).
Proof. intro H. unfold RenderVoice. rewrite H. reflexivity. Qed.

Lemma Step8_RenderBlocks_inactive k v :
  bIsActive v = false -> Blocks k v = v.
Proof.
  intro H. unfold Blocks. induction k as [|k IH]; [reflexivity|].
  cbn [Step8_RenderBlocks]. rewrite IH, Step8_RenderVoice_inactive by exact H.
  reflexivity.
Qed.

(** The voice after [p] samples of a grain of [total]. *)
Let Advanced (total p : Z) (v : FGrainVoice) : FGrainVoice :=
  set_SamplesRemaining (total - p) (set_SamplesPlayed p v).

(** A pipeline that delivers what it is asked for. *)
Lemma Step8_RenderBlocks_exact v :
  (forall played n, (0 < n)%Z ->
     FramesResampled (Resample h slot played n) = Z.to_nat n
     /\ bReadFailedEmpty (Resample h slot played n) = false) ->
  bIsActive v = true ->
  isSome (Reader v) = true -> isSome (Resampler v) = true ->
  (0 < SamplesRemaining v)%Z -> SamplesPlayed v = 0%Z ->
  forall k,
    Blocks k v
    = if (Z.of_nat k * bs <? SamplesRemaining v)%Z
      then Advanced (SamplesRemaining v) (Z.of_nat k * bs) v
      else ReleaseVoice (Advanced (SamplesRemaining v) (SamplesRemaining v) v).
Proof.
  intros Hd Ha Hr Hs Hrem Hp. unfold Blocks.
  set (total := SamplesRemaining v) in *.
  induction k as [|k IH].
  - cbn [Step8_RenderBlocks]. change (Z.of_nat 0 * bs)%Z with 0%Z.
    assert (E : (0 <? total)%Z = true) by (apply Z.ltb_lt; exact Hrem).
    rewrite E. unfold Advanced, total. destruct v. cbn in *. subst.
    rewrite Z.sub_0_r. reflexivity.
  - cbn [Step8_RenderBlocks]. rewrite IH. clear IH.
    replace (Z.of_nat (S k)) with (Z.of_nat k + 1)%Z by lia.
    set (z := Z.of_nat k). assert (Hz : (0 <= z)%Z) by (unfold z; lia).
    clearbody z.
    destruct (z * bs <? total)%Z eqn:Ek.
    + apply Z.ltb_lt in Ek.
      unfold RenderVoice, Advanced.
      cbn [bIsActive Reader Resampler SamplesRemaining SamplesPlayed
           set_SamplesRemaining set_SamplesPlayed].
      rewrite Ha, Hr, Hs. cbn [negb orb]. cbv zeta.
      rewrite MinZ_min.
      set (n := Z.min bs (total - z * bs)).
      assert (N : (0 < n)%Z) by (unfold n; lia).
      assert (E : (n <=? 0)%Z = false) by (apply Z.leb_gt; exact N).
      rewrite E. destruct (Hd (z * bs)%Z n N) as [Hf Hn].
      rewrite Hn, Hf, Z2Nat.id by lia.
      assert (E1 : (0 <? n)%Z = true) by (apply Z.ltb_lt; exact N).
      rewrite E1.
      cbn [fst SamplesRemaining set_SamplesRemaining set_SamplesPlayed].
      destruct ((z + 1) * bs <? total)%Z eqn:Ek1.
      * apply Z.ltb_lt in Ek1.
        assert (En : n = bs) by (unfold n; lia).
        assert (E2 : (total - z * bs - n <=? 0)%Z = false)
          by (apply Z.leb_gt; lia).
        rewrite E2, En. unfold set_SamplesRemaining, set_SamplesPlayed. cbn.
        f_equal; lia.
      * apply Z.ltb_ge in Ek1.
        assert (En : n = (total - z * bs)%Z) by (unfold n; lia).
        assert (E2 : (total - z * bs - n <=? 0)%Z = true)
          by (apply Z.leb_le; lia).
        rewrite E2, En.
        unfold ReleaseVoice, set_Resampler, set_Reader, set_bIsActive,
          set_SamplesRemaining, set_SamplesPlayed. cbn.
        f_equal; lia.
    + apply Z.ltb_ge in Ek.
      assert (E : ((z + 1) * bs <? total)%Z = false)
        by (apply Z.ltb_ge; lia).
      rewrite E, Step8_RenderVoice_inactive by reflexivity. reflexivity.
Qed.

(** A pipeline that delivers at least one frame a block, or fails. *)
Lemma Step8_RenderBlocks_progress v :
  (forall played n, (0 < n)%Z ->
     bReadFailedEmpty (Resample h slot played n) = true
     \/ (1 <= FramesResampled (Resample h slot played n))%nat) ->
  forall k,
    bIsActive (Blocks k v) = true ->
    (SamplesRemaining (Blocks k v) <= SamplesRemaining v - Z.of_nat k)%Z.
Proof.
  intros Hd. unfold Blocks. induction k as [|k IH]; cbn [Step8_RenderBlocks].
  - intros _. lia.
  - set (w := Step8_RenderBlocks h inp bs slot outs k v) in *.
    unfold RenderVoice.
    destruct (bIsActive w) eqn:A; [|cbn; congruence].
    specialize (IH eq_refl).
    destruct (_ || _); [cbn; discriminate|]. cbv zeta.
    destruct (_ <=? 0)%Z eqn:E; [cbn; discriminate|].
    apply Z.leb_gt in E.
    match goal with |- context [Resample ?h ?a ?b ?c] =>
      destruct (Hd b c E) as [F|F]; set (r := Resample h a b c) in * end.
    + rewrite F. cbn. discriminate.
    + destruct (bReadFailedEmpty r); [cbn; discriminate|].
      assert (E1 : (0 <? Z.of_nat (FramesResampled r))%Z = true)
        by (apply Z.ltb_lt; lia).
      rewrite E1.
      cbn [fst SamplesRemaining set_SamplesRemaining set_SamplesPlayed].
      destruct (_ <=? 0)%Z; [cbn; discriminate|].
      intros _. cbn. lia.
Qed.

(** An active voice has samples left. *)
Lemma Step8_RenderBlocks_left v :
  (0 < SamplesRemaining v)%Z ->
  forall k, bIsActive (Blocks k v) = true ->
            (0 < SamplesRemaining (Blocks k v))%Z.
Proof.
  intro Hrem. unfold Blocks.
  induction k as [|k IH]; cbn [Step8_RenderBlocks]; [intros _; exact Hrem|].
  set (w := Step8_RenderBlocks h inp bs slot outs k v) in *.
  unfold RenderVoice.
  destruct (bIsActive w) eqn:A; [|cbn; congruence].
  specialize (IH eq_refl).
  destruct (_ || _); [cbn; discriminate|]. cbv zeta.
  destruct (_ <=? 0)%Z; [cbn; discriminate|].
  destruct (bReadFailedEmpty _); [cbn; discriminate|].
  destruct (0 <? _)%Z.
  - cbn [fst SamplesRemaining set_SamplesRemaining set_SamplesPlayed].
    destruct (_ <=? 0)%Z eqn:E; [cbn; discriminate|].
    apply Z.leb_gt in E. intros _. cbn. exact E.
  - cbn [fst]. destruct (_ <=? 0)%Z; [cbn; discriminate|].
    intros _. exact IH.
Qed.

(** A pipeline that delivers nothing and does not fail. *)
Lemma Step8_RenderBlocks_starved v :
  (forall played n,
     FramesResampled (Resample h slot played n) = 0%nat
     /\ bReadFailedEmpty (Resample h slot played n) = false) ->
  bIsActive v = true ->
  isSome (Reader v) = true -> isSome (Resampler v) = true ->
  (0 < SamplesRemaining v)%Z ->
  forall k, Blocks k v = v.
Proof.
  intros Hd Ha Hr Hs Hrem. unfold Blocks.
  induction k as [|k IH]; cbn [Step8_RenderBlocks]; [reflexivity|].
  rewrite IH. unfold RenderVoice. rewrite Ha, Hr, Hs. cbn [negb orb]. cbv zeta.
  rewrite MinZ_min.
  assert (E : (Z.min bs (SamplesRemaining v) <=? 0)%Z = false)
    by (apply Z.leb_gt; lia).
  rewrite E.
  destruct (Hd (SamplesPlayed v) (Z.min bs (SamplesRemaining v))) as [F0 F1].
  rewrite F1, F0. cbn [Z.of_nat Z.ltb Z.compare fst].
  assert (E2 : (SamplesRemaining v <=? 0)%Z = false) by (apply Z.leb_gt; lia).
  rewrite E2. reflexivity.
Qed.

End Step8_lifetime.

Section Step8_lifetime_theorem.
Import FGranularSynthOperator_Step8.

(** The lifetime of a freshly started voice of [total] samples, rendered
    in blocks of [bs] frames, follows what its pipeline delivers.  When the
    pipeline delivers the frames asked for, the voice is active after [k]
    blocks exactly when [k * bs < total], having played [k * bs] samples,
    and is released with its total played once [k * bs >= total].  When
    each block delivers at least one frame or fails, the voice is released
    after [total] blocks at the latest.  When the pipeline delivers nothing
    and does not fail, the voice stays as it is, active, for ever. *)
Theorem Step8_voice_lifetime_follows_the_pipeline (h : Host) (inp : Inputs)
  (bs : Z) (slot : nat) (outs : nat -> list Q * list Q) (v : FGrainVoice) :
  (0 < bs)%Z ->
  bIsActive v = true ->
  isSome (Reader v) = true -> isSome (Resampler v) = true ->
  (0 < SamplesRemaining v)%Z -> SamplesPlayed v = 0%Z ->
  let total := SamplesRemaining v in
  let after k := Step8_RenderBlocks h inp bs slot outs k v in
  ((forall played n, (0 < n)%Z ->
      FramesResampled (Resample h slot played n) = Z.to_nat n
      /\ bReadFailedEmpty (Resample h slot played n) = false) ->
   forall k,
     ((Z.of_nat k * bs < total)%Z ->
      bIsActive (after k) = true
      /\ SamplesPlayed (after k) = (Z.of_nat k * bs)%Z
      /\ SamplesRemaining (after k) = (total - Z.of_nat k * bs)%Z)
     /\ ((total <= Z.of_nat k * bs)%Z ->
         bIsActive (after k) = false
         /\ SamplesPlayed (after k) = total
         /\ SamplesRemaining (after k) = 0%Z
         /\ Reader (after k) = None /\ Resampler (after k) = None))
  /\ ((forall played n, (0 < n)%Z ->
         bReadFailedEmpty (Resample h slot played n) = true
         \/ (1 <= FramesResampled (Resample h slot played n))%nat) ->
      forall k, (total <= Z.of_nat k)%Z -> bIsActive (after k) = false)
  /\ ((forall played n,
         FramesResampled (Resample h slot played n) = 0%nat
         /\ bReadFailedEmpty (Resample h slot played n) = false) ->
      forall k, after k = v).
Proof.
  intros Hb Ha Hr Hs Hrem Hp total after. split; [|split].
  - intros Hd k. unfold after.
    rewrite (Step8_RenderBlocks_exact h inp bs slot outs Hb v Hd Ha Hr Hs Hrem Hp k).
    fold total. split; intro Hk.
    + apply Z.ltb_lt in Hk. rewrite Hk. cbn. auto.
    + apply Z.ltb_ge in Hk. rewrite Hk. cbn.
      repeat split; try reflexivity; lia.
  - intros Hd k Hk. unfold after.
    destruct (bIsActive (Step8_RenderBlocks h inp bs slot outs k v)) eqn:A;
      [|reflexivity].
    pose proof (Step8_RenderBlocks_progress h inp bs slot outs v Hd k A) as P.
    exfalso.
    pose proof (Step8_RenderBlocks_left h inp bs slot outs v Hrem k A) as Q.
    fold total in P. lia.
  - intros Hd k. unfold after.
    apply (Step8_RenderBlocks_starved h inp bs slot outs Hb v Hd Ha Hr Hs Hrem).
Qed.

(** The voice of the playing demo operator: 4800 samples in blocks of 8
    frames, after 599 and after 600 blocks. *)
Lemma Step8_voice_lifetime_follows_the_pipeline_witness :
  let v := set_SamplesPlayed 0
             (set_SamplesRemaining 4800
                (nth 0 (GrainVoices Step8Demo.Playing) DefaultVoice)) in
  bIsActive (Step8_RenderBlocks DemoHost
               (Step8Demo.Pins [] [] true (Some 7%nat)) 8 0
               (fun _ => ([], [])) 599 v) = true
  /\ bIsActive (Step8_RenderBlocks DemoHost
                  (Step8Demo.Pins [] [] true (Some 7%nat)) 8 0
                  (fun _ => ([], [])) 600 v) = false.
Proof.
  intro v.
  destruct (Step8_voice_lifetime_follows_the_pipeline DemoHost
              (Step8Demo.Pins [] [] true (Some 7%nat)) 8 0%nat
              (fun _ => ([], [])) v) as (E & _).
  - reflexivity.
  - vm_compute. reflexivity.
  - vm_compute. reflexivity.
  - vm_compute. reflexivity.
  - vm_compute. reflexivity.
  - reflexivity.
  - assert (D : forall played n, (0 < n)%Z ->
              FramesResampled (Resample DemoHost 0 played n) = Z.to_nat n
              /\ bReadFailedEmpty (Resample DemoHost 0 played n) = false)
      by (intros; split; reflexivity).
    split.
    + apply (proj1 (E D 599%nat)). vm_compute. reflexivity.
    + apply (proj2 (E D 600%nat)). vm_compute. discriminate.
Defined.

End Step8_lifetime_theorem.

(** ** The grains FGranularSynthOperator_Step8 commits *)

Section Step8_grain.
Import FGranularSynthOperator_Step8.

Lemma Step8_EffectiveEnd_le inp cached :
  EffectiveEndPointSeconds inp cached <= cached.
Proof.
  unfold EffectiveEndPointSeconds.
  destruct (Qleb (BaseEndPointSeconds inp) 0); cbn [orb]; [qlra|].
  destruct (Qltb cached (BaseEndPointSeconds inp)) eqn:E; [qlra|].
  apply Qltb_false in E. exact E.
Qed.

(** The range the start time is drawn from is not empty and ends inside
    the valid region. *)
Lemma Step8_start_range inp cached :
  ClampedBaseStartPointSeconds inp cached <= ClampedMaxStartTime inp cached
  /\ ClampedMaxStartTime inp cached
     <= FMath.Max 0
          (EffectiveEndPointSeconds inp cached - MinGrainDurationSeconds).
Proof.
  unfold ClampedMaxStartTime. cbv zeta.
  set (base := ClampedBaseStartPointSeconds inp cached).
  set (region := FMath.Max 0 (EffectiveEndPointSeconds inp cached
                              - MinGrainDurationSeconds)).
  assert (B : base <= region).
  { unfold base, ClampedBaseStartPointSeconds, region.
    pose proof (Min_le_r (BaseStartPointSeconds inp)
                  (EffectiveEndPointSeconds inp cached - MinGrainDurationSeconds)).
    pose proof (Max_ge_r 0 (EffectiveEndPointSeconds inp cached
                            - MinGrainDurationSeconds)).
    qlra. }
  pose proof (Clamp_range (base + MaxStartPointRandSeconds inp) base region B)
    as [C0 C1].
  destruct (Qltb _ base) eqn:E; split; qlra.
Qed.

(** The voice a committed grain starts.  Its reader is not looping and is
    positioned inside the wave, between 0 and 5 ms before the end point in
    force (the End Point pin when it lies inside the wave, the end of the
    wave otherwise), whatever the Start Point pins ask for; the voice has
    the channels of the wave, nothing played, a positive number of samples
    left, a pan in [-1, 1] and a resampling ratio of 2 to the power
    pitch / 12 with the pitch in [-60, 60]. *)
Theorem Step8_committed_grain_starts_inside_the_wave (h : Host)
  (inp : Inputs) (s : Operator) :
  let s' := SpawnGrain h inp s in
  let d := FRandCalls s in
  let cached := CachedSoundWaveDuration s in
  OnGrainTriggered s' <> OnGrainTriggered s ->
  exists i st ratio,
    FindFreeVoice bIsActive (GrainVoices s) 0 = Some i
    /\ let v := nth i (GrainVoices s') DefaultVoice in
       bIsActive v = true /\ Reader v = Some st /\ Resampler v = Some ratio
       /\ NumChannels v = CurrentNumChannels s
       /\ SamplesPlayed v = 0%Z /\ (0 < SamplesRemaining v)%Z
       /\ TotalGrainSamples v = SamplesRemaining v
       /\ -1 <= PanPosition v <= 1
       /\ bIsLooping st = false
       /\ 0 <= StartTimeInSeconds st
       /\ (0 <= FRand h d <= 1 ->
           StartTimeInSeconds st
           <= FMath.Max 0 (EffectiveEndPointSeconds inp cached
                           - MinGrainDurationSeconds))
       /\ EffectiveEndPointSeconds inp cached <= cached
       /\ exists pitch,
            - (60) <= pitch /\ pitch <= 60 /\ ratio = Pow h 2 (pitch / 12).
Proof.
  cbv zeta. unfold SpawnGrain.
  set (d := FRandCalls s). set (cached := CachedSoundWaveDuration s).
  set (start := FMath.FRandRange (ClampedBaseStartPointSeconds inp cached)
                  (ClampedMaxStartTime inp cached) (FRand h d)).
  set (off := FMath.FRandRange 0 (MaxDurationRandSeconds inp) (FRand h (d + 1))).
  set (dur := FMath.Max MinGrainDurationSeconds
                (BaseGrainDurationSeconds inp + off)).
  set (pitch := FMath.Clamp
                  (BasePitchShiftSemitones inp
                   + FMath.FRandRange (- PitchRandSemitones inp)
                       (PitchRandSemitones inp) (FRand h (d + 2)))
                  (- MaxAbsPitchShiftSemitones) MaxAbsPitchShiftSemitones).
  set (pan := FMath.Clamp
                (BasePan inp
                 + FMath.FRandRange (- PanRandAmount inp) (PanRandAmount inp)
                     (FRand h (d + 3))) (-1) 1).
  unfold TriggerGrain.
  change (CurrentWaveProxy (set_FRandCalls (d + 4) s)) with (CurrentWaveProxy s).
  change (CurrentNumChannels (set_FRandCalls (d + 4) s))
    with (CurrentNumChannels s).
  change (GrainVoices (set_FRandCalls (d + 4) s)) with (GrainVoices s).
  change (BlockSize (set_FRandCalls (d + 4) s)) with (BlockSize s).
  change (SampleRate s) with (SampleRate s).
  destruct (CurrentWaveProxy s) as [px|]; [|intro H; exfalso; apply H; reflexivity].
  destruct (FMath.CeilToInt (dur * SampleRate s) <=? 0)%Z eqn:En;
    [intro H; exfalso; apply H; reflexivity|].
  apply Z.leb_gt in En.
  destruct (CurrentNumChannels s <=? 0)%Z;
    [intro H; exfalso; apply H; reflexivity|]. cbn [orb].
  destruct (FindFreeVoice bIsActive (GrainVoices s) 0) as [i|] eqn:Ef;
    [|intro H; exfalso; apply H; reflexivity].
  pose proof (FindFreeVoice_Some _ _ _ _ DefaultVoice Ef) as (_ & Hlt & _).
  rewrite Nat.sub_0_r in Hlt.
  destruct (Reader_Create h px _);
    [|intro H; exfalso; apply H; reflexivity].
  intros _.
  exists i, (ReaderSettingsFor (BlockSize s) (FMath.Max 0 start)),
    (Pow h 2 (pitch / 12)).
  split; [reflexivity|].
  cbn [GrainVoices set_GrainVoices set_OnGrainTriggered set_FRandCalls].
  rewrite SetVoice_nth_same by exact Hlt. cbn.
  pose proof (Clamp_range
                (BasePan inp
                 + FMath.FRandRange (- PanRandAmount inp) (PanRandAmount inp)
                     (FRand h (d + 3))) (-1) 1 ltac:(qlra)) as [P0 P1].
  pose proof (Clamp_range
                (BasePitchShiftSemitones inp
                 + FMath.FRandRange (- PitchRandSemitones inp)
                     (PitchRandSemitones inp) (FRand h (d + 2)))
                (- MaxAbsPitchShiftSemitones) MaxAbsPitchShiftSemitones
                ltac:(unfold MaxAbsPitchShiftSemitones; qlra)) as [T0 T1].
  fold pan in P0, P1. fold pitch in T0, T1.
  do 4 (split; [reflexivity|]). split; [reflexivity|].
  split; [exact En|]. split; [reflexivity|].
  split; [split; assumption|]. split; [reflexivity|].
  split; [apply Max_ge_l|].
  split.
  { intro U. destruct (Step8_start_range inp cached) as [R0 R1].
    pose proof (FRandRange_range _ _ _ R0 U) as [S0 S1]. fold start in S0, S1.
    pose proof (Max_ge_l 0 (EffectiveEndPointSeconds inp cached
                            - MinGrainDurationSeconds)) as V0.
    destruct (Max_cases 0 start) as [[_ ->]|[_ ->]]; qlra. }
  split; [apply Step8_EffectiveEnd_le|].
  exists pitch. unfold MaxAbsPitchShiftSemitones in T0, T1.
  repeat split; assumption.
Qed.

(** A second grain on the playing demo operator. *)
Lemma Step8_committed_grain_starts_inside_the_wave_witness :
  let inp := Step8Demo.Pins [] [] true (Some 7%nat) in
  let s' := SpawnGrain DemoHost inp Step8Demo.Playing in
  exists i st,
    FindFreeVoice bIsActive (GrainVoices Step8Demo.Playing) 0 = Some i
    /\ Reader (nth i (GrainVoices s') DefaultVoice) = Some st
    /\ bIsLooping st = false /\ 0 <= StartTimeInSeconds st.
Proof.
  intros inp s'.
  destruct (Step8_committed_grain_starts_inside_the_wave DemoHost inp
              Step8Demo.Playing)
    as (i & st & ratio & F & _ & R & _ & _ & _ & _ & _ & _ & L & S0 & _).
  - intro H. vm_compute in H. discriminate.
  - exists i, st. repeat split; assumption.
Defined.

End Step8_grain.

(** ** Stopped operators *)

Section Step8_idle.
Import FGranularSynthOperator_Step8.

(** On a stopped FGranularSynthOperator_Step8 a block without a Play
    trigger (Stop triggers or not) emits no trigger, leaves the operator
    stopped with silent outputs and no wave bound, and resets the voices
    only if something was still bound; a second such block changes nothing
    at all.  A freshly built operator and an operator just reset are such
    fixed points. *)
Theorem Step8_stopped_operator_stays_idle (h : Host) :
  (forall inp s,
     PlayTrigger inp = [] -> bIsPlaying s = false ->
     let s' := Execute h inp s in
     bIsPlaying s' = false
     /\ OnPlayTrigger s' = [] /\ OnFinishedTrigger s' = []
     /\ OnGrainTriggered s' = []
     /\ Silent (AudioOutputLeft s') /\ Silent (AudioOutputRight s')
     /\ CurrentWaveProxy s' = None /\ ConvertDeinterleave s' = false
     /\ (CurrentNumChannels s' <= 0)%Z
     /\ (GrainVoices s' = GrainVoices s
         \/ GrainVoices s' = map ResetVoice (GrainVoices s))
     /\ forall inp', PlayTrigger inp' = [] -> Execute h inp' s' = s')
  /\ (forall inp s, PlayTrigger inp = [] -> Execute h inp (Reset s) = Reset s)
  /\ (forall inp rate frames,
        PlayTrigger inp = [] ->
        Execute h inp (Construct rate frames) = Construct rate frames).
Proof.
  assert (Idle : forall inp s,
            PlayTrigger inp = [] -> bIsPlaying s = false ->
            OnPlayTrigger s = [] -> OnFinishedTrigger s = [] ->
            OnGrainTriggered s = [] ->
            Silent (AudioOutputLeft s) -> Silent (AudioOutputRight s) ->
            CurrentWaveProxy s = None -> ConvertDeinterleave s = false ->
            (CurrentNumChannels s <= 0)%Z ->
            Execute h inp s = s).
  { intros inp s Hp P T1 T2 T3 SL SR W D C.
    apply ZeroBuffer_of_Silent in SL, SR.
    assert (C' : (0 <? CurrentNumChannels s)%Z = false) by (apply Z.ltb_ge; exact C).
    assert (Z0 : ZeroOutputs s = s).
    { unfold ZeroOutputs. rewrite SL, SR. destruct s; reflexivity. }
    assert (PT : ProcessTriggers h inp s = s).
    { unfold ProcessTriggers, AdvanceBlock, StopScan. rewrite Hp.
      cbn [PlayLoop].
      change (bIsPlaying (set_OnGrainTriggered []
                (set_OnFinishedTrigger [] (set_OnPlayTrigger [] s))))
        with (bIsPlaying s).
      rewrite P.
      assert (X : set_OnGrainTriggered []
                    (set_OnFinishedTrigger [] (set_OnPlayTrigger [] s)) = s).
      { destruct s; cbn in *; subst; reflexivity. }
      destruct (StopTrigger inp); cbn [andb]; exact X. }
    unfold Execute. rewrite PT, P. cbn [negb]. cbv zeta.
    rewrite Z0, W, D, C'. reflexivity. }
  split; [|split].
  - intros inp s Hp P s'.
    assert (X : s' = let s2 := ZeroOutputs
                                 (set_OnGrainTriggered []
                                    (set_OnFinishedTrigger []
                                       (set_OnPlayTrigger [] s))) in
                     if isSome (CurrentWaveProxy s2)
                        || (0 <? CurrentNumChannels s2)%Z
                        || ConvertDeinterleave s2
                     then ClearWaveData (ResetVoices s2) else s2).
    { unfold s', Execute, ProcessTriggers, StopScan, AdvanceBlock.
      rewrite Hp. cbn [PlayLoop].
      change (bIsPlaying (set_OnGrainTriggered []
                (set_OnFinishedTrigger [] (set_OnPlayTrigger [] s))))
        with (bIsPlaying s).
      rewrite P.
      destruct (StopTrigger inp); cbn [andb];
        change (bIsPlaying (set_OnGrainTriggered []
                  (set_OnFinishedTrigger [] (set_OnPlayTrigger [] s))))
          with (bIsPlaying s);
        rewrite ?P; reflexivity. }
    cbv zeta in X.
    assert (Facts : bIsPlaying s' = false
              /\ OnPlayTrigger s' = [] /\ OnFinishedTrigger s' = []
              /\ OnGrainTriggered s' = []
              /\ Silent (AudioOutputLeft s') /\ Silent (AudioOutputRight s')
              /\ CurrentWaveProxy s' = None /\ ConvertDeinterleave s' = false
              /\ (CurrentNumChannels s' <= 0)%Z
              /\ (GrainVoices s' = GrainVoices s
                  \/ GrainVoices s' = map ResetVoice (GrainVoices s))).
    { rewrite X. clear X.
      destruct (_ || _ || _) eqn:B.
      - cbn. repeat split; auto using ZeroBuffer_Silent. lia.
      - apply orb_false_iff in B. destruct B as [B B3].
        apply orb_false_iff in B. destruct B as [B1 B2].
        cbn in B1, B2, B3 |- *. apply Z.ltb_ge in B2.
        destruct (CurrentWaveProxy s); [discriminate|].
        repeat split; auto using ZeroBuffer_Silent. }
    destruct Facts as (F1 & F2 & F3 & F4 & F5 & F6 & F7 & F8 & F9 & F10).
    repeat split; auto.
  - intros inp s Hp. apply Idle; cbn; auto using ZeroBuffer_Silent. lia.
  - intros inp rate frames Hp. apply Idle; cbn; auto using Silent_repeat. lia.
Qed.

(** The playing demo operator once it is stopped. *)
Lemma Step8_stopped_operator_stays_idle_witness :
  let stop := Step8Demo.Pins [] [5%Z] true (Some 7%nat) in
  let s := Execute DemoHost stop Step8Demo.Playing in
  bIsPlaying s = false
  /\ OnFinishedTrigger s = [5%Z]
  /\ OnFinishedTrigger (Execute DemoHost stop s) = []
  /\ Execute DemoHost stop (Execute DemoHost stop s) = Execute DemoHost stop s.
Proof.
  intros stop s.
  assert (P : bIsPlaying s = false) by (vm_compute; reflexivity).
  destruct (proj1 (Step8_stopped_operator_stays_idle DemoHost) stop s eq_refl P)
    as (_ & _ & F & _ & _ & _ & _ & _ & _ & _ & Fix).
  split; [exact P|]. split; [vm_compute; reflexivity|].
  split; [exact F|]. apply Fix. reflexivity.
Defined.

End Step8_idle.

Section GWP_idle.
Import FGranularWavePlayerSmoothOperator.

(** On a stopped wave player a block without a Play trigger returns
    whatever the iteration budget of the scheduler (the scheduler is not
    reached), emits no trigger, leaves the operator stopped with silent
    outputs, no wave bound, the Time output at 0 and the playback position
    where it was; a second such block changes nothing at all.  An operator
    just reset is such a fixed point once its Time output is 0, which Reset
    itself does not set.  A freshly built operator is left as it was built,
    except that CurrentNumChannels, which the constructor leaves
    uninitialised, is set to 0 when it held a positive value. *)
Theorem GWP_stopped_operator_stays_idle (h : Host) :
  (forall inp fuel s,
     PlayTrigger inp = [] -> bIsPlaying s = false ->
     exists s',
       Execute h inp fuel s = Some s'
       /\ bIsPlaying s' = false
       /\ OnPlayTrigger s' = [] /\ OnFinishedTrigger s' = []
       /\ OnGrainTriggered s' = []
       /\ Silent (AudioOutputLeft s') /\ Silent (AudioOutputRight s')
       /\ CurrentWaveProxy s' = None /\ ConvertDeinterleave s' = false
       /\ (CurrentNumChannels s' <= 0)%Z
       /\ TimeOutput s' = 0
       /\ CurrentPlaybackPositionSeconds s' = CurrentPlaybackPositionSeconds s
       /\ (GrainVoices s' = GrainVoices s
           \/ GrainVoices s' = map ResetVoice (GrainVoices s))
       /\ forall inp' fuel',
            PlayTrigger inp' = [] -> Execute h inp' fuel' s' = Some s')
  /\ (forall inp fuel s,
        PlayTrigger inp = [] ->
        Execute h inp fuel (Reset s) = Some (set_TimeOutput 0 (Reset s))
        /\ CurrentPlaybackPositionSeconds (Reset s) = 0
        /\ TimeOutput (Reset s) = TimeOutput s)
  /\ (forall inp fuel rate frames indeterminate,
        PlayTrigger inp = [] ->
        Execute h inp fuel (Construct rate frames indeterminate)
        = Some (Construct rate frames
                  (if (0 <? indeterminate)%Z then 0%Z else indeterminate))).
Proof.
  assert (Block : forall inp fuel s,
            PlayTrigger inp = [] -> bIsPlaying s = false ->
            Execute h inp fuel s
            = Some (let s2 := set_TimeOutput 0
                                (ZeroOutputs
                                   (set_OnGrainTriggered []
                                      (set_OnFinishedTrigger []
                                         (set_OnPlayTrigger [] s)))) in
                    if isSome (CurrentWaveProxy s2)
                       || (0 <? CurrentNumChannels s2)%Z
                       || ConvertDeinterleave s2
                    then ClearWaveData (ResetVoices s2) else s2)).
  { intros inp fuel s Hp P.
    unfold Execute, ProcessTriggers, StopScan, AdvanceBlock.
    rewrite Hp. cbn [PlayLoop].
    change (bIsPlaying (set_OnGrainTriggered []
              (set_OnFinishedTrigger [] (set_OnPlayTrigger [] s))))
      with (bIsPlaying s).
    rewrite P.
    destruct (StopTrigger inp); cbn [andb];
      change (bIsPlaying (set_OnGrainTriggered []
                (set_OnFinishedTrigger [] (set_OnPlayTrigger [] s))))
        with (bIsPlaying s);
      rewrite ?P; reflexivity. }
  assert (Idle : forall inp fuel s,
            PlayTrigger inp = [] -> bIsPlaying s = false ->
            OnPlayTrigger s = [] -> OnFinishedTrigger s = [] ->
            OnGrainTriggered s = [] ->
            Silent (AudioOutputLeft s) -> Silent (AudioOutputRight s) ->
            CurrentWaveProxy s = None -> ConvertDeinterleave s = false ->
            (CurrentNumChannels s <= 0)%Z -> TimeOutput s = 0 ->
            Execute h inp fuel s = Some s).
  { intros inp fuel s Hp P T1 T2 T3 SL SR W D C T.
    rewrite (Block inp fuel s Hp P). cbv zeta.
    apply ZeroBuffer_of_Silent in SL, SR.
    assert (C' : (0 <? CurrentNumChannels s)%Z = false) by (apply Z.ltb_ge; exact C).
    assert (X : set_TimeOutput 0
                  (ZeroOutputs
                     (set_OnGrainTriggered []
                        (set_OnFinishedTrigger [] (set_OnPlayTrigger [] s))))
                = s).
    { unfold ZeroOutputs. destruct s; cbn in *; subst.
      rewrite SL, SR. reflexivity. }
    rewrite X, W, D, C'. reflexivity. }
  split; [|split].
  - intros inp fuel s Hp P. rewrite (Block inp fuel s Hp P). cbv zeta.
    eexists. split; [reflexivity|].
    match goal with |- context [if ?c then _ else _] => destruct c eqn:B end.
    + cbn. repeat split; auto using ZeroBuffer_Silent; try lia.
      intros inp' fuel' Hp'.
      apply Idle; cbn; auto using ZeroBuffer_Silent; try lia.
    + apply orb_false_iff in B. destruct B as [B B3].
      apply orb_false_iff in B. destruct B as [B1 B2].
      cbn in B1, B2, B3 |- *. apply Z.ltb_ge in B2.
      destruct (CurrentWaveProxy s) eqn:W; [discriminate|].
      repeat split; auto using ZeroBuffer_Silent.
      intros inp' fuel' Hp'.
      apply Idle; cbn; auto using ZeroBuffer_Silent.
  - intros inp fuel s Hp. split; [|split; reflexivity].
    rewrite (Block inp fuel (Reset s) Hp eq_refl). cbv zeta.
    assert (X : set_TimeOutput 0
                  (ZeroOutputs
                     (set_OnGrainTriggered []
                        (set_OnFinishedTrigger []
                           (set_OnPlayTrigger [] (Reset s)))))
                = set_TimeOutput 0 (Reset s)).
    { destruct s. unfold ZeroOutputs, Reset. cbn.
      unfold ZeroBuffer. rewrite !map_map. reflexivity. }
    rewrite X.
    change (isSome (CurrentWaveProxy (set_TimeOutput 0 (Reset s)))) with false.
    change (ConvertDeinterleave (set_TimeOutput 0 (Reset s))) with false.
    change (CurrentNumChannels (set_TimeOutput 0 (Reset s))) with 0%Z.
    reflexivity.
  - intros inp fuel rate frames n Hp.
    destruct (0 <? n)%Z eqn:En.
    + rewrite (Block inp fuel (Construct rate frames n) Hp eq_refl).
      cbv zeta. cbn. rewrite En. cbn.
      unfold ClearWaveData, ResetVoices, ZeroOutputs, Construct, ZeroBuffer.
      cbn. rewrite !map_repeat. reflexivity.
    + apply Idle; cbn; auto using Silent_repeat. apply Z.ltb_ge. exact En.
Qed.

(** The bound demo operator, stopped, with no fuel at all; the first block
    of the fresh demo operator clears its uninitialised member. *)
Lemma GWP_stopped_operator_stays_idle_witness :
  exists s',
    Execute DemoHost (SmoothDemo.Pins [] [3%Z] true (Some 7%nat) 100 0) 0
      SmoothDemo.Bound = Some s'
    /\ CurrentWaveProxy s' = None /\ TimeOutput s' = 0
    /\ Execute DemoHost (SmoothDemo.Pins [] [3%Z] true (Some 7%nat) 100 0) 0
         SmoothDemo.Fresh = Some (Construct 48000 8 0).
Proof.
  destruct (proj1 (GWP_stopped_operator_stays_idle DemoHost)
              (SmoothDemo.Pins [] [3%Z] true (Some 7%nat) 100 0) 0%nat
              SmoothDemo.Bound eq_refl eq_refl)
    as (s' & E & _ & _ & _ & _ & _ & _ & W & _ & _ & T & _).
  exists s'. split; [exact E|]. split; [exact W|]. split; [exact T|].
  exact (proj2 (proj2 (GWP_stopped_operator_stays_idle DemoHost))
           (SmoothDemo.Pins [] [3%Z] true (Some 7%nat) 100 0) 0%nat
           48000 8%Z 1515870810%Z eq_refl).
Defined.

End GWP_idle.

(** ** The grains FGranularWavePlayerSmoothOperator commits *)

Section GWP_grain.
Import FGranularWavePlayerSmoothOperator.

(** The start time TriggerGrain accepts leaves room for the grain. *)
Lemma GWP_ClampStartTime_fits rate cached samples start t :
  ClampStartTime rate cached samples start = Some t ->
  0 <= t /\ t + inject_Z samples / rate <= cached.
Proof.
  unfold ClampStartTime.
  destruct (Qltb cached _) eqn:E.
  - destruct (Qleb _ 0) eqn:E0; [discriminate|]. cbn [orb].
    destruct (Qltb _ MinGrainDurationSeconds); [discriminate|].
    intro H; inversion H; subst. apply Qleb_false in E0.
    destruct (Max_cases 0 (cached - inject_Z samples / rate))
      as [[Hm Em]|[Hm Em]]; rewrite Em in *; split; qlra.
  - intro H; inversion H; subst. apply Qltb_false in E.
    split; [apply Max_ge_l|exact E].
Qed.

(** The voice a committed grain starts and what the commit costs.  The
    iteration draws four random numbers, one more when Volume Rand is
    positive and two more when Smoothing is positive, and fires OnGrain at
    BlockSize minus the truncated grain counter, clamped to the block.  The
    reader of the voice is not looping and is positioned so that the whole
    grain fits in the wave, whether or not Smoothing is positive.  The
    voice has the channels of the wave, nothing played, a
    positive number of samples left, a pan in [-1, 1], a resampling ratio
    that is not negative, the smoothing of the pin and an envelope curve in
    [7/10, 1]; its volume scale is 1 without Volume Rand and otherwise,
    for a draw in [0, 1], between 1 - VolumeRand / 100 and 1. *)
Theorem GWP_committed_grain_fits_the_wave (h : Host) (inp : Inputs)
  (pos : Q) (s : Operator) :
  let s' := SpawnGrain h inp pos s in
  let d := FRandCalls s in
  OnGrainTriggered s' <> OnGrainTriggered s ->
  FRandCalls s'
  = (d + 4 + (if Qltb 0 (VolumeRandPercent inp) then 1 else 0)
     + (if Qltb 0 (Smoothing inp) then 2 else 0))%nat
  /\ OnGrainTriggered s'
     = OnGrainTriggered s
       ++ [FMath.ClampZ (BlockSize s - Qtrunc (SamplesUntilNextGrain s))
             0 (BlockSize s - 1)]
  /\ exists i st ratio,
       FindFreeVoice bIsActive (GrainVoices s) 0 = Some i
       /\ let v := nth i (GrainVoices s') DefaultVoice in
          bIsActive v = true /\ Reader v = Some st /\ Resampler v = Some ratio
          /\ 0 <= ratio
          /\ NumChannels v = CurrentNumChannels s
          /\ SamplesPlayed v = 0%Z /\ (0 < SamplesRemaining v)%Z
          /\ TotalGrainSamples v = SamplesRemaining v
          /\ -1 <= PanPosition v <= 1
          /\ SmoothingAmount v = Smoothing inp
          /\ 7 # 10 <= EnvelopeCurve v <= 1
          /\ bIsLooping st = false
          /\ 0 <= StartTimeInSeconds st
          /\ StartTimeInSeconds st
             + inject_Z (TotalGrainSamples v) / SampleRate s
             <= CachedSoundWaveDuration s
          /\ (Qltb 0 (VolumeRandPercent inp) = false -> VolumeScale v = 1)
          /\ (0 <= FRand h (d + 3) <= 1 ->
              0 <= 1 - VolumeRandPercent inp / 100
              /\ 1 - VolumeRandPercent inp / 100 <= VolumeScale v
              /\ VolumeScale v <= 1).
Proof.
  cbv zeta. unfold SpawnGrain.
  set (d := FRandCalls s). set (cached := CachedSoundWaveDuration s).
  match goal with |- context [TriggerGrain h _ ?n ?t _ _ _ _ _ _] =>
    set (samples := n); set (start := t) end.
  set (pitch := FMath.Clamp _ (- MaxAbsPitchShiftSemitones)
                  MaxAbsPitchShiftSemitones).
  pose proof (Clamp_range (VolumeRandInput inp) 0 100 ltac:(qlra)) as [V0 V1].
  fold (VolumeRandPercent inp) in V0, V1.
  pose proof (GWP_Smoothing_range inp) as [S0 S1].
  set (sm := Smoothing inp) in *. set (vr := VolumeRandPercent inp) in *.
  clearbody sm vr.
  assert (Vr : 0 <= vr / 100 <= 1).
  { split; [apply Qle_shift_div_l|apply Qle_shift_div_r]; qlra. }
  assert (Vol : forall u, 0 <= u <= 1 ->
            1 - vr / 100
            <= 1 - u * (vr / 100)
            /\ 1 - u * (vr / 100) <= 1).
  { intros u [U0 U1].
    assert (0 <= u * (vr / 100))
      by (apply Qmult_le_0_compat; qlra).
    assert (u * (vr / 100)
            <= 1 * (vr / 100))
      by (apply Qmult_le_compat_r; qlra).
    split; qlra. }
  destruct (Qltb 0 (vr)) eqn:Ev;
    match goal with |- context [TriggerGrain ?h ?p ?n ?t ?r ?a ?v ?m ?x ?s0] =>
      set (pan := a); set (s1 := s0);
      set (ratio := r)
    end;
    (assert (Pan : -1 <= pan <= 1) by (apply Clamp_range; qlra));
    (assert (Rat : 0 <= ratio) by apply Qabs_nonneg);
    unfold TriggerGrain;
    change (CurrentWaveProxy s1) with (CurrentWaveProxy s);
    change (CurrentNumChannels s1) with (CurrentNumChannels s);
    change (GrainVoices s1) with (GrainVoices s);
    change (BlockSize s1) with (BlockSize s);
    change (SampleRate s1) with (SampleRate s);
    change (CachedSoundWaveDuration s1) with cached;
    (destruct (CurrentWaveProxy s) as [px|];
       [|intro H; exfalso; apply H; reflexivity]);
    (destruct (samples <=? 0)%Z eqn:En;
       [intro H; exfalso; apply H; reflexivity|]);
    apply Z.leb_gt in En;
    (destruct (CurrentNumChannels s <=? 0)%Z;
       [intro H; exfalso; apply H; reflexivity|]); cbn [orb];
    (destruct (FindFreeVoice bIsActive (GrainVoices s) 0) as [i|] eqn:Ef;
       [|intro H; exfalso; apply H; reflexivity]);
    pose proof (FindFreeVoice_Some _ _ _ _ DefaultVoice Ef) as (_ & Hlt & _);
    rewrite Nat.sub_0_r in Hlt;
    (destruct (ClampStartTime (SampleRate s) cached samples start) as [t|] eqn:Ec;
       [|intro H; exfalso; apply H; reflexivity]);
    pose proof (GWP_ClampStartTime_fits _ _ _ _ _ Ec) as [T0 T1];
    (destruct (Reader_Create h px _);
       [|intro H; exfalso; apply H; reflexivity]);
    intros _;
    (destruct (Qltb 0 (sm)) eqn:Es);
    (split; [cbn; lia|]); (split; [reflexivity|]);
    exists i, (ReaderSettingsFor (BlockSize s) samples t), (Qabs ratio);
    (split; [reflexivity|]);
    cbn [GrainVoices set_GrainVoices set_OnGrainTriggered set_FRandCalls];
    rewrite SetVoice_nth_same by exact Hlt; cbn;
    (split; [reflexivity|]); (split; [reflexivity|]); (split; [reflexivity|]);
    (split; [apply Qabs_nonneg|]);
    (split; [reflexivity|]); (split; [reflexivity|]); (split; [exact En|]);
    (split; [reflexivity|]); (split; [exact Pan|]); (split; [reflexivity|]);
    (split; [split; qlra|]); (split; [reflexivity|]);
    (split; [exact T0|]); (split; [exact T1|]).
  - split; [discriminate|]. intro U. destruct (Vol _ U) as [A B].
    repeat split; qlra.
  - split; [discriminate|]. intro U. destruct (Vol _ U) as [A B].
    repeat split; qlra.
  - split; [reflexivity|]. intros _. repeat split; qlra.
  - split; [reflexivity|]. intros _. repeat split; qlra.
Qed.

(** A grain on the bound demo operator, at position 0. *)
Lemma GWP_committed_grain_fits_the_wave_witness :
  let inp := SmoothDemo.Pins [] [] true (Some 7%nat) 100 0 in
  let s' := SpawnGrain DemoHost inp 0 SmoothDemo.Bound in
  FRandCalls s' = 6%nat /\ OnGrainTriggered s' = [7%Z].
Proof.
  intros inp s'.
  destruct (GWP_committed_grain_fits_the_wave DemoHost inp 0 SmoothDemo.Bound)
    as (D & G & _).
  - intro H. vm_compute in H. discriminate.
  - split; [exact D|exact G].
Defined.

End GWP_grain.
